(* ===== verification/_CoqProject ===== *)
-Q . S2P
Prelude.v
Strings.v
Hardforks.v
GoRng.v
Types.v
Snapshot.v
Liveness.v
HeaderExtra.v
Errors.v
Timing.v
VotePool.v
Attestation.v
Provider.v
Precompiles.v
Validation.v
Mining.v
VoteJournal.v
ForkChoice.v
SystemContracts.v
Evm.v
Handler.v
HertzPatch.v
Execution.v
ExecutionSpec.v
Building.v
Payload.v
NodeBuilder.v
BidSimulator.v
MevApi.v
Shared.v
BscProtocol.v
BlockImport.v
Miner.v
MinerConfig.v
ChainSpec.v
ParliaRpc.v
BlobRpc.v
BlsSigner.v
VoteProducer.v
Simulation.v
