(* ===== verification/Prelude.v ===== *)
(** * A verification library for reth-bsc, a BNB Smart Chain node

    reth-bsc is an execution client for BNB Smart Chain on top of reth.  What
    is its own is the Parlia consensus (proof of staked authority with fast
    finality), the execution of blocks with their system transactions, the
    production of blocks, with bids of builders, and the [bsc] network protocol.
    This library is a shallow embedding of these parts in Rocq: Rust functions
    are Rocq functions, structs are records, enums are inductive types, and
    tasks that run for ever are functions from a state and an event to a state.
    Names are those of the source.

    ** How the parts interact

    A block of another node arrives over the network ([BscProtocol]) at the
    import service ([BlockImport]), which hands it to reth's engine.  Its header
    is validated ([Validation]); the executor ([Execution]) reads the
    [Snapshot] of the parent from the [Provider], checks difficulty, time, seal
    and vote attestation ([Timing], [HeaderExtra], [Attestation]), runs the
    transactions ([Handler], [Precompiles], [HertzPatch]) and recomputes the
    system transactions ([SystemContracts]) the block must end with.  The
    header goes to the fork choice ([ForkChoice]), whose head makes the vote
    producer ([VoteProducer]) sign a vote with the key of [BlsSigner], if the
    journal allows it ([VoteJournal]), for the pool of votes ([VotePool]) and the
    network, and the miner work ([Miner]): it prepares a header ([Mining]),
    builds payloads from the pool ([Payload]) or from bids ([MevApi],
    [BidSimulator]), seals one of them ([Building]) and submits it, again to
    [BlockImport].  The forks that all of them ask for are those of the chain
    specification ([ChainSpec]).  Clients see the state through JSON-RPC
    ([ParliaRpc], [BlobRpc], [MevApi]), and run transactions on it
    ([Simulation]).

    ** Files

    The files, in the order in which they depend on each other; paths are under
    [src/src/].

    - [Prelude]: outcomes of Rust code ([comp]: a value, [Err], a panic, or out
      of fuel), machine integers, lists of bytes, ordered maps, tactics and
      hints.
    - [Strings]: what the code uses of the standard library for strings and
      numerals, with the classes of the codecs for hexadecimal strings and JSON.
    - [Hardforks] ([hardforks/], [chainspec/mod.rs], [node/evm/config.rs]):
      activation tables and predicates of the forks; the class [BscHardforks].
    - [GoRng] ([consensus/parlia/go_rng.rs]): the generator of Go, seed by seed
      and draw by draw, and its shuffle.
    - [Types] ([consensus/parlia/vote.rs]): headers, votes, attestations.
    - [Snapshot] ([consensus/parlia/snapshot.rs]): the record [Snapshot],
      [new], [apply] and its queries; [Liveness] states what follows for runs
      of [apply].
    - [HeaderExtra] ([consensus/parlia/consensus.rs], [constants.rs],
      [util.rs], [node/miner/signer.rs]): layout of [extra_data], sealing and
      recovery of the proposer.
    - [Errors] ([node/evm/error.rs]).
    - [Timing] ([consensus/parlia/consensus.rs], [util.rs],
      [ramanujan_fork.rs]): times of blocks and back-off.
    - [VotePool] ([consensus/parlia/vote_pool.rs], [node/network/votes.rs]):
      the pool as a record of received hashes, groups and queue.
    - [Attestation] ([consensus/parlia/consensus.rs],
      [node/evm/pre_execution.rs], [node/evm/util.rs]).
    - [Provider] ([consensus/parlia/provider.rs]): database and cache of
      snapshots, the walk back and the rebuild.
    - [Precompiles] ([evm/precompiles/]): the contracts at 100 to 105.
    - [Validation] ([consensus/parlia/validation.rs], [node/consensus.rs],
      [consensus/eip4844/]).
    - [Mining] ([node/miner/util.rs]): preparing and sealing headers.
    - [VoteJournal] ([node/vote_journal.rs], and the end of
      [node/vote_producer.rs]).
    - [ForkChoice] ([consensus/parlia/forkchoice_rule.rs],
      [node/consensus.rs]).
    - [SystemContracts] ([system_contracts/mod.rs], [feynman_fork.rs]).
    - [Evm] ([evm/transaction.rs]): accounts, transactions and the class of virtual machines, with the
      laws that theorems use and a small machine that satisfies them.
    - [Handler] ([evm/handler.rs], [evm/blacklist.rs], [node/evm/mod.rs],
      [node/pool/mod.rs]): the steps of revm's handler that BSC replaces.
    - [HertzPatch] ([node/evm/patch/mod.rs]).
    - [Execution] ([node/evm/executor.rs], [pre_execution.rs],
      [post_execution.rs]): the executor as a record threaded through the
      phases of a block; [ExecutionSpec] states what executed blocks satisfy.
    - [Building] ([node/evm/config.rs], [assembler.rs], [builder.rs]).
    - [Payload] ([node/miner/payload.rs]): the builder of payloads, against the
      class [BlockBuilder], and the payload job as a state machine;
      [NodeBuilder] shows that the executor implements the class.
    - [BidSimulator] ([node/miner/bid_simulator.rs], [bsc_miner.rs]) and
      [MevApi] ([rpc/mev.rs]): bids of builders.
    - [Shared] ([shared.rs]): the cache of blocks, the fork choice behind its
      trait, and the class of ordered LRU caches.
    - [BscProtocol] ([node/network/bsc_protocol/], [blocks_by_range.rs],
      [votes.rs], [evn.rs], [evn_peers.rs]): packets, connections, registry.
    - [BlockImport] ([node/network/block_import/service.rs]).
    - [Miner] ([node/miner/bsc_miner.rs]): the workers and their channels as
      one state machine over the events they wait for.
    - [MinerConfig] ([node/miner/config.rs], [main.rs], [node/engine.rs]).
    - [ChainSpec] ([chainspec/]): genesis files, known chains, overrides.
    - [ParliaRpc] ([rpc/parlia.rs]) and [BlobRpc] ([rpc/blob.rs]).
    - [BlsSigner] ([consensus/parlia/bls_signer.rs], [main.rs]): key stores and
      the global signer.
    - [VoteProducer] ([node/vote_producer.rs]): the producer of votes with all
      its globals as a state machine over the heads.
    - [Simulation] ([rpc/simulate_transaction_at.rs], [keepers.rs],
      [tx_input.rs], [flashsimv2.rs]): running transactions on the state of a
      block with the executor of [Execution].

    ** What the theorems show

    - _Consensus._  Every snapshot reached by [apply] is well formed; [apply]
      accepts a block exactly when it continues the chain and its proposer may
      propose; from Bohr on nobody exceeds the turn length in the window, and
      some validator may always go on; blocks that are voted for are
      finalized, and before Fermi finality never moves back.  The provider
      returns what applying all headers since genesis gives, with whatever
      coherent contents of its stores.  The fork choice does not depend on the order of arrival
      when no coin is needed, and never lowers the justified block from Plato on.
    - _Headers._  What the miner writes into [extra_data] is what the verifier
      reads; the seal is recovered to the signer; an attestation assembled from
      genuine votes holds a quorum and verifies, one unchecked vote spoils it;
      the journal never lets two slashable votes out; the pool is consistent.
      The vote producer as a whole never gets stuck, what it sends is genuine,
      and not slashable while its disk works; key stores as EIP-2335 describes
      them give back their secret.
    - _Execution._  What the miner adds for the system is accepted by
      verifiers, whose environment has another randomness and difficulty, as
      long as the contracts that the node calls do not look at these; an
      accepted block holds no other system transaction; fees are
      paid out exactly; weights of finality; the election takes the candidates
      with the most power; authorization lists and double-sign evidence.
    - _Production._  A payload stays within its limits and its construction
      ends; a job submits at most once; a built block passes the node's own
      checks; simulated bids keep their word, their price included; the
      best bid only improves; a header of the miner is accepted by [apply], is not sent early and is not
      signed twice; the miner starts exactly with a key, and seals as the
      address it was configured with.
    - _Network._  Every import is accounted for, and none is repeated while
      its hash is in the cache; answers to range requests are chains and reach
      their waiter; the JSON-RPC of bids queues exactly the transactions it was
      given, and that of the snapshots reports each of their parts.  A bundle
      that is simulated gets one result for each of its transactions.
    - _Configuration._  A genesis file is parsed into a chain whose forks are
      active exactly from where the file says.
    - Theorems outside the list of properties cover single operations: the
      behaviour of [apply] before Bohr, the shuffle as a permutation, errors of
      [take_system_tx], the installation of contract codes, intrinsic gas, the
      blob fee, the end of the handshake, and more.

    Some theorems record behaviour that a reader would not expect: a payload
    build panics with blobs at Osaka, the environments of verifier and builder
    differ in their randomness, difficulty and blob parameters, the provider switches validators by the
    snapshot of a side fork, silent peers are kept, a failed bid blocks others
    of its parent, a miner without a key is started with the development keys,
    a head without a vote is never tried again, [finalized] means the latest
    block to the queries, a genesis without a config never reaches Bohr.

    ** Conventions, bounds and fuel

    - Integers are [Z] with the wrap-around, saturation or panic of the source
      written out where it can happen; fixed-size byte strings are their
      big-endian numbers, [Vec<u8>] is a list of bytes.
    - Code outside the repository (reth, revm, alloy, k256, blst, [lru],
      databases, serialization) is an argument or a class; its laws are
      documented behaviour (a decoder inverts its encoder, recovery returns the
      signer, a cache keeps the latest entries) and every class with laws has
      an instance, with which the witnesses compute.
    - The clock, randomness, environment variables and the answers of other
      tasks are arguments of the step that reads them.
    - Fuel appears where the source has loops without an evident bound: the
      rejection loops of [GoRng] take the number of draws they may make, the
      walk back of [Provider] takes the number of the block as its bound, and
      the selection loop of [Payload] the number of offers of the pool until it
      is cancelled.  The theorems say that this much is enough
      ([walk_back_complete], [payload_build_ends]) or what more fuel changes:
      nothing ([first_accepted_more]).
    - Each step of a state machine is atomic where the source holds the lock or
      runs on one task; between the steps of different tasks every order of
      events is allowed.

    ** Not modelled

    - [system_contracts/abi.rs], the generated JSON of the contracts, and
      [embedded_contracts.rs], their codes: data, parameters of the model.
    - [metrics.rs] and logging: no effect on the state.
    - [node/network/mod.rs], [upgrade_status.rs], [bootnodes.rs],
      [node/mod.rs], [node/engine_api/], [node/storage.rs], [evm/api/],
      [node/evm/factory.rs]: wiring of the node's types into the traits of reth
      and revm, and the I/O of the handshake.
    - [main.rs] (apart from the configuration of the miner and the signer),
      [bin/], [examples/], [build.rs]: the command line and benchmarks. *)

From Stdlib Require Export ZArith Lia.
From stdpp Require Export base gmap list strings sorting numbers.

#[global] Open Scope Z_scope.

(** ** Outcomes of Rust code

    A Rust function returns a value, returns [Err(e)], panics (index out of
    range, failed assertion, division by zero, [unwrap] on [None]) or, for the
    loops whose length the source does not bound, is still running when the
    fuel of the model is used up.  Functions that cannot return [Err] are
    polymorphic in [E], so that they compose with any caller. *)
Inductive comp (E A : Type) : Type :=
| Ret (a : A)
| Err (e : E)
| Panic
| OutOfFuel.
Arguments Ret {E A} a.
Arguments Err {E A} e.
Arguments Panic {E A}.
Arguments OutOfFuel {E A}.

#[export] Instance comp_ret {E} : MRet (comp E) := fun A a => Ret a.
#[export] Instance comp_bind {E} : MBind (comp E) := fun A B f m =>
  match m with
  | Ret a => f a
  | Err e => Err e
  | Panic => Panic
  | OutOfFuel => OutOfFuel
  end.

(** Rust's [opt.ok_or(e)?]. *)
Definition ok_or {E A} (o : option A) (e : E) : comp E A :=
  match o with Some a => Ret a | None => Err e end.

(** Rust's [opt.unwrap()]. *)
Definition unwrap {E A} (o : option A) : comp E A :=
  match o with Some a => Ret a | None => Panic end.

(** Rust's [assert!(b)]. *)
Definition assert_that {E} (b : bool) : comp E unit :=
  if b then Ret tt else Panic.

(** Rust's [res.map_err(f)]. *)
Definition map_err {E E' A} (f : E → E') (c : comp E A) : comp E' A :=
  match c with
  | Ret a => Ret a
  | Err e => Err (f e)
  | Panic => Panic
  | OutOfFuel => OutOfFuel
  end.

(** Rust's [res.ok()?] and [res.ok()]: an error becomes [None]. *)
Definition ok {E E' A} (c : comp E A) : comp E' (option A) :=
  match c with
  | Ret a => Ret (Some a)
  | Err _ => Ret None
  | Panic => Panic
  | OutOfFuel => OutOfFuel
  end.

(** The computation ends with a value or an error, without a panic. *)
Definition completes {E A} (c : comp E A) : Prop :=
  match c with Ret _ | Err _ => True | Panic | OutOfFuel => False end.

(** ** Machine integers

    [u64], [usize], [i64] and the narrower types are [Z] with the wrap-around
    of the release profile written out ([Cargo.toml] does not set
    [overflow-checks], and [usize] has 64 bits on the supported targets). *)
Definition wrapu (w z : Z) : Z := z mod 2 ^ w.
Definition wraps (w z : Z) : Z := (z + 2 ^ (w - 1)) mod 2 ^ w - 2 ^ (w - 1).

Definition U64_MAX : Z := 2 ^ 64 - 1.
Definition is_u (w z : Z) : Prop := 0 <= z < 2 ^ w.
Definition is_s (w z : Z) : Prop := - 2 ^ (w - 1) <= z < 2 ^ (w - 1).

Definition add64 (a b : Z) : Z := wrapu 64 (a + b).
Definition sub64 (a b : Z) : Z := wrapu 64 (a - b).
Definition mul64 (a b : Z) : Z := wrapu 64 (a * b).
Definition saturating_sub (a b : Z) : Z := Z.max 0 (a - b).

(** [a / b] and [a % b] on unsigned integers panic when [b = 0]. *)
Definition div_u {E} (a b : Z) : comp E Z := if b =? 0 then Panic else Ret (a / b).
Definition rem_u {E} (a b : Z) : comp E Z := if b =? 0 then Panic else Ret (a mod b).

(** [u64::is_multiple_of] (total: only 0 is a multiple of 0). *)
Definition is_multiple_of (a b : Z) : bool :=
  if b =? 0 then a =? 0 else a mod b =? 0.

(** [u64::div_ceil] for a non-zero divisor. *)
Definition div_ceil (a b : Z) : Z := if a mod b =? 0 then a / b else a / b + 1.

(** ** Byte strings

    A byte is an 8-bit [Z]; slices and indexing panic out of range. *)
Definition zlen {A} (l : list A) : Z := Z.of_nat (length l).

Definition index {E A} (l : list A) (i : Z) : comp E A :=
  if i <? 0 then Panic else unwrap (l !! Z.to_nat i).

Definition slice {E A} (l : list A) (a b : Z) : comp E (list A) :=
  if (0 <=? a) && (a <=? b) && (b <=? zlen l)
  then Ret (take (Z.to_nat (b - a)) (drop (Z.to_nat a) l))
  else Panic.

Definition slice_from {E A} (l : list A) (a : Z) : comp E (list A) :=
  slice l a (zlen l).

Definition bytes_ok (l : list Z) : Prop := Forall (is_u 8) l.

(** Big-endian value of a byte string and its [n]-byte big-endian encoding
    ([to_be_bytes], [from_be_bytes]; also the numeric view of the fixed-size
    byte arrays [Address], [B256], ..., whose derived order, lexicographic on
    bytes, is the order of these numbers). *)
Definition be_decode (l : list Z) : Z := fold_left (λ acc b, acc * 256 + b) l 0.

Fixpoint be_encode (n : nat) (z : Z) : list Z :=
  match n with
  | O => []
  | S n => be_encode n (z / 256) ++ [z mod 256]
  end.

(** The list with every element replaced by a fixed number of bytes:
    [extend_from_slice] in a loop. *)
Definition concat_map {A B} (f : A → list B) (l : list A) : list B := mjoin (f <$> l).

(** [iter().enumerate()], counting from [i]. *)
Fixpoint enumerate {A} (i : Z) (l : list A) : list (Z * A) :=
  match l with
  | [] => []
  | x :: l => (i, x) :: enumerate (i + 1) l
  end.

(** [(a..b)] as a list. *)
Definition zrange (a : Z) (n : nat) : list Z := (λ i, a + Z.of_nat i) <$> seq 0 n.

(** [Vec::sort] on numbers: a stable merge sort. *)
Definition sort (l : list Z) : list Z := merge_sort Z.le l.

(** * Shared lemmas *)

Create HintDb bsc.
Create Rewrite HintDb bsc.

Section comp_lemmas.
Context {E A B : Type}.
Implicit Types (m : comp E A) (f : A → comp E B).

Lemma bind_Ret_inv f m b : (m ≫= f) = Ret b → ∃ a, m = Ret a ∧ f a = Ret b.
Proof. destruct m; simpl; naive_solver. Qed.

Lemma bind_Err_inv f m e :
  (m ≫= f) = Err e → m = Err e ∨ ∃ a, m = Ret a ∧ f a = Err e.
Proof. destruct m; simpl; naive_solver. Qed.

Lemma bind_not_panic f m :
  m ≠ Panic → (∀ a, m = Ret a → f a ≠ Panic) → (m ≫= f) ≠ Panic.
Proof. destruct m; simpl; naive_solver. Qed.

Lemma completes_bind f m :
  completes m → (∀ a, m = Ret a → completes (f a)) → completes (m ≫= f).
Proof. destruct m; simpl; naive_solver. Qed.

Lemma completes_ok_or (o : option A) (e : E) : completes (ok_or o e).
Proof. by destruct o. Qed.

Lemma unwrap_Ret (o : option A) a : unwrap (E:=E) o = Ret a ↔ o = Some a.
Proof. destruct o; simpl; naive_solver. Qed.

Lemma ok_or_Ret (o : option A) (e : E) a : ok_or o e = Ret a ↔ o = Some a.
Proof. destruct o; simpl; naive_solver. Qed.
End comp_lemmas.

(** Inverts every equation [(x ← m; k) = Ret v] of the context. *)
Ltac inv_bind :=
  repeat match goal with
  | H : (_ ≫= _) = Ret _ |- _ => apply bind_Ret_inv in H as (?&?&?)
  | H : Ret _ = Ret _ |- _ => injection H as H; subst
  | H : mret _ = Ret _ |- _ => injection H as H; subst
  | H : unwrap _ = Ret _ |- _ => apply unwrap_Ret in H
  | H : ok_or _ _ = Ret _ |- _ => apply ok_or_Ret in H
  | H : Err _ = Ret _ |- _ => discriminate H
  | H : Panic = Ret _ |- _ => discriminate H
  | H : OutOfFuel = Ret _ |- _ => discriminate H
  end.

(** Boolean comparisons of the context and of the goal become propositions. *)
Ltac reflect_bools :=
  repeat match goal with
  | H : andb _ _ = true |- _ => apply andb_true_iff in H as [? ?]
  | H : orb _ _ = false |- _ => apply orb_false_iff in H as [? ?]
  | H : negb _ = true |- _ => apply negb_true_iff in H
  | H : negb _ = false |- _ => apply negb_false_iff in H
  | H : (_ <=? _) = true |- _ => apply Z.leb_le in H
  | H : (_ <=? _) = false |- _ => apply Z.leb_gt in H
  | H : (_ <? _) = true |- _ => apply Z.ltb_lt in H
  | H : (_ <? _) = false |- _ => apply Z.ltb_ge in H
  | H : (_ =? _) = true |- _ => apply Z.eqb_eq in H
  | H : (_ =? _) = false |- _ => apply Z.eqb_neq in H
  end.

(** ** Machine integers *)

Lemma wrapu_small w z : is_u w z → wrapu w z = z.
Proof. unfold is_u, wrapu. intros. by rewrite Z.mod_small. Qed.

Lemma wrapu_is_u w z : 0 <= w → is_u w (wrapu w z).
Proof. unfold is_u, wrapu. intros. apply Z.mod_pos_bound. lia. Qed.

Lemma wraps_small w z : 0 < w → is_s w z → wraps w z = z.
Proof.
  unfold is_s, wraps. intros Hw Hz.
  assert (2 ^ w = 2 * 2 ^ (w - 1)) by (rewrite <- Z.pow_succ_r by lia; f_equal; lia).
  rewrite Z.mod_small; lia.
Qed.

Lemma wraps_is_s w z : 0 < w → is_s w (wraps w z).
Proof.
  unfold is_s, wraps. intros Hw.
  assert (2 ^ w = 2 * 2 ^ (w - 1)) by (rewrite <- Z.pow_succ_r by lia; f_equal; lia).
  pose proof (Z.mod_pos_bound (z + 2 ^ (w - 1)) (2 ^ w)). lia.
Qed.

Lemma add64_small a b : is_u 64 (a + b) → add64 a b = a + b.
Proof. apply wrapu_small. Qed.
Lemma sub64_small a b : is_u 64 (a - b) → sub64 a b = a - b.
Proof. apply wrapu_small. Qed.
Lemma mul64_small a b : is_u 64 (a * b) → mul64 a b = a * b.
Proof. apply wrapu_small. Qed.

Lemma add64_is_u a b : is_u 64 (add64 a b).
Proof. by apply wrapu_is_u. Qed.
Lemma sub64_is_u a b : is_u 64 (sub64 a b).
Proof. by apply wrapu_is_u. Qed.
Lemma mul64_is_u a b : is_u 64 (mul64 a b).
Proof. by apply wrapu_is_u. Qed.

#[export] Hint Resolve add64_is_u sub64_is_u mul64_is_u : bsc.

(** Removes the wrap-around of operations whose operands are small. *)
Ltac nowrap :=
  repeat first
    [ rewrite add64_small by (unfold is_u in *; lia)
    | rewrite sub64_small by (unfold is_u in *; lia)
    | rewrite mul64_small by (unfold is_u in *; lia)
    | rewrite wrapu_small by (unfold is_u in *; lia) ].

Lemma is_multiple_of_mod a b : 0 < b → is_multiple_of a b = (a mod b =? 0).
Proof. intros. unfold is_multiple_of. destruct (Z.eqb_spec b 0); [lia|done]. Qed.

Lemma div_ceil_bounds a b : 0 < b → a <= div_ceil a b * b < a + b.
Proof.
  intros Hb. unfold div_ceil.
  pose proof (Z.div_mod a b). pose proof (Z.mod_pos_bound a b).
  destruct (Z.eqb_spec (a mod b) 0); nia.
Qed.

(** ** Slices *)

Lemma zlen_nonneg {A} (l : list A) : 0 <= zlen l.
Proof. unfold zlen. lia. Qed.
Lemma zlen_app {A} (l k : list A) : zlen (l ++ k) = zlen l + zlen k.
Proof. unfold zlen. rewrite length_app. lia. Qed.
Lemma zlen_cons {A} (x : A) l : zlen (x :: l) = 1 + zlen l.
Proof. unfold zlen. simpl length. lia. Qed.
Lemma zlen_nil {A} : zlen (@nil A) = 0.
Proof. done. Qed.
Lemma zlen_snoc {A} (x : A) l : zlen (l ++ [x]) = zlen l + 1.
Proof. unfold zlen. rewrite length_app. simpl length. lia. Qed.
#[export] Hint Rewrite @zlen_app @zlen_cons @zlen_nil : bsc.
#[export] Hint Resolve zlen_nonneg : bsc.

Lemma slice_Ret {E A} (l : list A) a b :
  0 <= a → a <= b → b <= zlen l →
  slice (E:=E) l a b = Ret (take (Z.to_nat (b - a)) (drop (Z.to_nat a) l)).
Proof.
  intros. unfold slice.
  rewrite (proj2 (Z.leb_le 0 a)), (proj2 (Z.leb_le a b)), (proj2 (Z.leb_le b _)); done.
Qed.

Lemma slice_inv {E A} (l : list A) a b k :
  slice (E:=E) l a b = Ret k →
  0 <= a ∧ a <= b ∧ b <= zlen l ∧ k = take (Z.to_nat (b - a)) (drop (Z.to_nat a) l)
  ∧ zlen k = b - a.
Proof.
  unfold slice. destruct (_ && _) eqn:Hb; [|done].
  intros [= <-]. reflect_bools. repeat split; try done.
  unfold zlen in *. rewrite length_take, length_drop. lia.
Qed.

(** The middle of a concatenation. *)
Lemma slice_app {E A} (p m s : list A) a b :
  a = zlen p → b = zlen p + zlen m → slice (E:=E) (p ++ m ++ s) a b = Ret m.
Proof.
  intros -> ->. pose proof (zlen_nonneg p). pose proof (zlen_nonneg m).
  pose proof (zlen_nonneg s).
  rewrite slice_Ret; [|lia|lia|autorewrite with bsc; lia].
  unfold zlen. rewrite Nat2Z.id, drop_app_length.
  replace (Z.to_nat _) with (length m) by lia. by rewrite take_app_length.
Qed.

Lemma index_Ret {E A} (l : list A) i :
  0 <= i < zlen l → ∃ x, index (E:=E) l i = Ret x ∧ l !! Z.to_nat i = Some x.
Proof.
  intros Hi. unfold index, zlen in *. destruct (Z.ltb_spec i 0); [lia|].
  destruct (lookup_lt_is_Some_2 l (Z.to_nat i)) as [x Hx]; [lia|].
  exists x. by rewrite Hx.
Qed.

Lemma index_inv {E A} (l : list A) i x :
  index (E:=E) l i = Ret x → 0 <= i < zlen l ∧ l !! Z.to_nat i = Some x.
Proof.
  unfold index, zlen. destruct (Z.ltb_spec i 0); [done|].
  intros Hx%unwrap_Ret. split; [|done]. apply lookup_lt_Some in Hx. lia.
Qed.

Lemma index_app_middle {E A} (p s : list A) x i :
  i = zlen p → index (E:=E) (p ++ x :: s) i = Ret x.
Proof.
  intros ->. unfold index, zlen. destruct (Z.ltb_spec (Z.of_nat (length p)) 0); [lia|].
  by rewrite Nat2Z.id, list_lookup_middle.
Qed.

(** ** Big-endian bytes *)

Lemma length_be_encode n z : length (be_encode n z) = n.
Proof.
  revert z. induction n as [|n IH]; intros z; [done|].
  simpl. rewrite length_app, IH. simpl. lia.
Qed.

Lemma zlen_be_encode n z : zlen (be_encode n z) = Z.of_nat n.
Proof. unfold zlen. by rewrite length_be_encode. Qed.
#[export] Hint Rewrite zlen_be_encode length_be_encode : bsc.

Lemma be_encode_bytes_ok n z : bytes_ok (be_encode n z).
Proof.
  revert z. induction n as [|n IH]; intros z; [constructor|].
  simpl. apply Forall_app. split; [apply IH|].
  constructor; [|constructor]. unfold is_u. apply Z.mod_pos_bound. lia.
Qed.
#[export] Hint Resolve be_encode_bytes_ok : bsc.

Lemma be_decode_app l k : be_decode (l ++ k) = be_decode l * 256 ^ zlen k + be_decode k.
Proof.
  assert (Hacc : ∀ k acc,
    fold_left (λ acc b, acc * 256 + b) k acc = acc * 256 ^ zlen k + be_decode k).
  { clear. induction k as [|b k IH]; intros acc.
    - unfold be_decode. simpl. rewrite zlen_nil. lia.
    - unfold be_decode. simpl. rewrite (IH (0 * 256 + b)), IH, zlen_cons.
      rewrite Z.pow_add_r, Z.pow_1_r by (pose proof (zlen_nonneg k); lia). lia. }
  unfold be_decode at 1. rewrite fold_left_app. apply Hacc.
Qed.

Lemma be_decode_snoc l b : be_decode (l ++ [b]) = be_decode l * 256 + b.
Proof. unfold be_decode. by rewrite fold_left_app. Qed.

Lemma be_decode_encode n z : be_decode (be_encode n z) = z mod 256 ^ Z.of_nat n.
Proof.
  revert z. induction n as [|n IH]; intros z.
  - change (256 ^ Z.of_nat 0) with 1. by rewrite Z.mod_1_r.
  - simpl be_encode. rewrite be_decode_snoc, IH.
    rewrite Nat2Z.inj_succ, Z.pow_succ_r by lia.
    rewrite (Z.rem_mul_r z 256) by lia. lia.
Qed.

Lemma be_decode_bound l : bytes_ok l → 0 <= be_decode l < 256 ^ zlen l.
Proof.
  induction l as [|b l IH] using rev_ind; intros Hl.
  - done.
  - apply Forall_app in Hl as [Hl Hb]. rewrite Forall_singleton in Hb. unfold is_u in Hb.
    rewrite be_decode_snoc, zlen_snoc.
    rewrite Z.pow_add_r by (pose proof (zlen_nonneg l); lia).
    specialize (IH Hl). change (256 ^ 1) with 256. change (2 ^ 8) with 256 in Hb. lia.
Qed.

Lemma be_encode_decode l : bytes_ok l → be_encode (length l) (be_decode l) = l.
Proof.
  induction l as [|b l IH] using rev_ind; intros Hl; [done|].
  apply Forall_app in Hl as [Hl Hb]. rewrite Forall_singleton in Hb.
  unfold is_u in Hb. change (2 ^ 8) with 256 in Hb.
  rewrite length_app, Nat.add_comm. simpl be_encode. rewrite be_decode_snoc.
  rewrite Z.div_add_l, (Z.div_small b), Z.add_0_r by lia.
  rewrite IH by done. do 2 f_equal.
  rewrite Z.add_comm, Z.mod_add, Z.mod_small; lia.
Qed.

(** ** Lists *)

Lemma enumerate_length {A} i (l : list A) : length (enumerate i l) = length l.
Proof. revert i. induction l; intros; simpl; congruence. Qed.

Lemma enumerate_lookup {A} i (l : list A) k :
  enumerate i l !! k = (λ x, (i + Z.of_nat k, x)) <$> l !! k.
Proof.
  revert i k. induction l as [|x l IH]; intros i [|k]; simpl; [done|done| |].
  - by rewrite Z.add_0_r.
  - rewrite IH. destruct (l !! k); simpl; [|done]. do 2 f_equal. lia.
Qed.

Lemma enumerate_snd {A} i (l : list A) : (enumerate i l).*2 = l.
Proof. revert i. induction l; intros; simpl; f_equal; auto. Qed.

Lemma enumerate_elem {A} i (l : list A) j x :
  (j, x) ∈ enumerate i l ↔ ∃ k : nat, j = i + Z.of_nat k ∧ l !! k = Some x.
Proof.
  rewrite list_elem_of_lookup. setoid_rewrite enumerate_lookup. split.
  - intros (k & Hk). destruct (l !! k) eqn:Hl; simplify_eq/=. eauto.
  - intros (k & -> & Hl). exists k. by rewrite Hl.
Qed.

Lemma concat_map_cons {A B} (f : A → list B) x l :
  concat_map f (x :: l) = f x ++ concat_map f l.
Proof. done. Qed.

Lemma length_concat_map_const {A B} (f : A → list B) n (l : list A) :
  (∀ x, x ∈ l → length (f x) = n) → length (concat_map f l) = (length l * n)%nat.
Proof.
  induction l as [|x l IH]; intros Hf; [done|].
  rewrite concat_map_cons, length_app, Hf, IH by set_solver. simpl. lia.
Qed.

Lemma sort_perm l : sort l ≡ₚ l.
Proof. apply merge_sort_Permutation. Qed.
Lemma sort_sorted l : Sorted Z.le (sort l).
Proof. apply Sorted_merge_sort. intros x y. lia. Qed.
Lemma length_sort l : length (sort l) = length l.
Proof. apply Permutation_length, sort_perm. Qed.
Lemma elem_of_sort x l : x ∈ sort l ↔ x ∈ l.
Proof. by rewrite sort_perm. Qed.
Lemma NoDup_sort l : NoDup (sort l) ↔ NoDup l.
Proof. by rewrite sort_perm. Qed.
Lemma sort_unique l k : Sorted Z.le k → k ≡ₚ l → sort l = k.
Proof.
  intros Hk Hp. apply (Sorted_unique Z.le); [apply sort_sorted|done|].
  by rewrite sort_perm.
Qed.
Lemma sort_sorted_id l : Sorted Z.le l → sort l = l.
Proof. intros. by apply sort_unique. Qed.

Lemma StronglySorted_lookup_lt {A} (R : relation A) l i j x y :
  StronglySorted R l → (i < j)%nat → l !! i = Some x → l !! j = Some y → R x y.
Proof.
  intros Hs. revert i j. induction Hs as [|z l Hs IH Hz]; intros i j Hij Hi Hj; [done|].
  destruct j as [|j]; [lia|]. destruct i as [|i]; simpl in *; simplify_eq.
  - by apply (Forall_lookup_1 _ _ _ _ Hz Hj).
  - apply (IH i j); [lia|done|done].
Qed.

(** A list without repetitions included in another is no longer. *)
Lemma NoDup_incl_zlen {A} (l k : list A) : NoDup l → (∀ x, x ∈ l → x ∈ k) → zlen l <= zlen k.
Proof. intros Hl Hi. unfold zlen. apply inj_le, submseteq_length, NoDup_submseteq; done. Qed.

Lemma zlen_omap_le {A B} (f : A → option B) (l : list A) : zlen (omap f l) <= zlen l.
Proof.
  induction l as [|x l IH]; [done|]. rewrite zlen_cons. cbn. destruct (f x); [rewrite zlen_cons|]; cbn in IH; lia.
Qed.

Lemma NoDup_fst_filter {A B} (P : A * B → Prop) `{!∀ x, Decision (P x)} (l : list (A * B)) :
  NoDup l.*1 → NoDup (filter P l).*1.
Proof.
  induction l as [|x l IH]; intros Hnd; [constructor|].
  apply list.NoDup_cons in Hnd as [Hx Hnd]. rewrite filter_cons.
  destruct (decide _); [|by apply IH]. rewrite fmap_cons. apply list.NoDup_cons.
  split; [|by apply IH]. intros (y & Hy & Hin)%list_elem_of_fmap.
  apply list_elem_of_filter in Hin as [_ Hin]. apply Hx. rewrite Hy.
  by apply list_elem_of_fmap_2.
Qed.

(** ** Loops over an index range *)

Lemma zlen_zrange a n : zlen (zrange a n) = Z.of_nat n.
Proof. unfold zlen, zrange. by rewrite length_fmap, length_seq. Qed.

Lemma zrange_lookup a n i : (i < n)%nat → zrange a n !! i = Some (a + Z.of_nat i).
Proof. intros Hi. unfold zrange. rewrite list_lookup_fmap, lookup_seq_lt by done. done. Qed.

(** A loop that collects one result per index. *)
Lemma mapM_Ret {E A B} (f : A → comp E B) l k :
  Forall2 (λ x y, f x = Ret y) l k → mapM f l = Ret k.
Proof.
  induction 1 as [|x y l k Hxy Hlk IH]; [done|]. simpl. rewrite Hxy.
  cbn [mbind comp_bind]. by rewrite IH.
Qed.

Lemma mapM_zrange {E B} (f : Z → comp E B) n k :
  length k = n → (∀ i x, k !! i = Some x → f (Z.of_nat i) = Ret x) →
  mapM f (zrange 0 n) = Ret k.
Proof.
  intros Hn Hf. apply mapM_Ret, Forall2_same_length_lookup. split.
  - unfold zrange. by rewrite length_fmap, length_seq.
  - intros i a x Ha Hx. pose proof (lookup_lt_Some _ _ _ Hx).
    rewrite zrange_lookup in Ha by lia. injection Ha as <-. by apply Hf.
Qed.

Lemma concat_map_app {A B} (f : A → list B) l k :
  concat_map f (l ++ k) = concat_map f l ++ concat_map f k.
Proof.
  induction l as [|x l IH]; [done|].
  rewrite <- app_comm_cons, !concat_map_cons, IH. by rewrite app_assoc.
Qed.

(** The [i]-th record of a sequence of records of the same size. *)
Lemma concat_map_split {A B} (f : A → list B) n l i x :
  (∀ y, length (f y) = n) → l !! i = Some x →
  ∃ p s, concat_map f l = p ++ f x ++ s ∧ zlen p = Z.of_nat i * Z.of_nat n.
Proof.
  intros Hn Hi. exists (concat_map f (take i l)), (concat_map f (drop (S i) l)).
  rewrite <- (take_drop_middle l i x Hi) at 1. rewrite concat_map_app, concat_map_cons.
  split; [done|]. unfold zlen. rewrite (length_concat_map_const f n) by auto.
  rewrite length_take. apply lookup_lt_Some in Hi. lia.
Qed.

(** The low bytes of an encoding. *)
Lemma be_encode_split n k z :
  be_encode (n + k) z = be_encode n (z / 256 ^ Z.of_nat k) ++ be_encode k z.
Proof.
  revert z. induction k as [|k IH]; intros z.
  - change (256 ^ Z.of_nat 0) with 1. by rewrite Nat.add_0_r, Z.div_1_r, app_nil_r.
  - rewrite Nat.add_succ_r. cbn [be_encode]. rewrite IH, app_assoc.
    rewrite Z.div_div, <- Z.pow_succ_r, <- Nat2Z.inj_succ by lia. done.
Qed.

Lemma be_encode_drop n k z : drop n (be_encode (n + k) z) = be_encode k z.
Proof. rewrite be_encode_split. by rewrite drop_app_length' by (by rewrite length_be_encode). Qed.

(** Shifting in a byte, as [(x << 8) | b] does. *)
Lemma lor_shift_byte x b : 0 <= b < 256 → Z.lor (Z.shiftl x 8) b = x * 256 + b.
Proof.
  intros Hb. rewrite Z.shiftl_mul_pow2 by lia. change (2 ^ 8) with 256.
  enough (Hl : Z.land (x * 256) b = 0) by (pose proof (Z.add_lor_land (x * 256) b); lia).
  change 256 with (2 ^ 8). rewrite <- Z.shiftl_mul_pow2 by lia.
  apply Z.bits_inj'. intros n Hn. rewrite Z.land_spec, Z.bits_0.
  destruct (Z.lt_ge_cases n 8) as [Hlt|Hge].
  - by rewrite Z.shiftl_spec_low.
  - assert (Z.testbit b n = false) as ->; [|by rewrite andb_false_r].
    rewrite <- (Z.mod_small b (2 ^ 8)) by (change (2 ^ 8) with 256; lia). by rewrite Z.mod_pow2_bits_high by lia.
Qed.
