(* ===== verification/Strings.v ===== *)
(** * Strings and numerals of the Rust standard library

    What the configuration and the RPC methods use of [str], of the formatting
    of integers and of their parsing; strings are those of ASCII.  The crates
    for hexadecimal strings and JSON are classes. *)

From Stdlib Require Import Ascii String.
From S2P Require Import Prelude.
#[local] Open Scope string_scope.
#[local] Open Scope Z_scope.

(** ** [str] *)

Definition comma : ascii := ",".
(** [split(',')]: there is one more piece than commas. *)
Fixpoint split_comma (s : string) : list string :=
  match s with
  | EmptyString => [EmptyString]
  | String c s =>
      if ascii_dec c comma then EmptyString :: split_comma s
      else match split_comma s with
           | piece :: pieces => String c piece :: pieces
           | [] => [String c EmptyString]
           end
  end.

Definition is_whitespace (c : ascii) : bool :=
  let n := nat_of_ascii c in bool_decide (n = 32%nat) || (bool_decide (9 <= n)%nat && bool_decide (n <= 13)%nat).
Fixpoint trim_start (s : string) : string :=
  match s with
  | String c s' => if is_whitespace c then trim_start s' else s
  | EmptyString => EmptyString
  end.
Fixpoint trim_end (s : string) : string :=
  match s with
  | String c s' =>
      match trim_end s' with
      | EmptyString => if is_whitespace c then EmptyString else String c EmptyString
      | s' => String c s'
      end
  | EmptyString => EmptyString
  end.
Definition trim (s : string) : string := trim_end (trim_start s).

Definition lower (c : ascii) : ascii :=
  let n := nat_of_ascii c in if bool_decide (65 <= n)%nat && bool_decide (n <= 90)%nat then ascii_of_nat (n + 32) else c.
Fixpoint to_lowercase (s : string) : string :=
  match s with String c s => String (lower c) (to_lowercase s) | EmptyString => EmptyString end.

Definition strip_0x (s : string) : string :=
  match s with String "0" (String "x" s) => s | _ => s end.
Definition has_0x (s : string) : bool :=
  match s with String "0" (String "x" _) => true | _ => false end.

(** ** Parsing of unsigned integers ([from_str_radix], [parse]) *)

(** [char::to_digit]: digits, then letters of either case. *)
Definition to_digit (radix : Z) (c : ascii) : option Z :=
  let n := Z.of_nat (nat_of_ascii c) in
  let d := if (48 <=? n) && (n <=? 57) then n - 48
           else if (97 <=? n) && (n <=? 122) then n - 87
           else if (65 <=? n) && (n <=? 90) then n - 55
           else radix in
  if d <? radix then Some d else None.
(** An overflow of [w] bits is an error. *)
Fixpoint parse_digits (radix w acc : Z) (s : string) : option Z :=
  match s with
  | EmptyString => Some acc
  | String c s =>
      d ← to_digit radix c;
      let acc := acc * radix + d in
      if acc <? 2 ^ w then parse_digits radix w acc s else None
  end.
(** At least one digit, after a plus sign or not. *)
Definition from_str_radix (radix w : Z) (s : string) : option Z :=
  match s with
  | EmptyString => None
  | String "+" EmptyString => None
  | String "+" s => parse_digits radix w 0 s
  | s => parse_digits radix w 0 s
  end.
Definition parse_uint (w : Z) (s : string) : option Z := from_str_radix 10 w s.

(** ** Formatting of unsigned integers *)

Definition from_digit (d : Z) : ascii := ascii_of_nat (Z.to_nat (if d <? 10 then d + 48 else d + 87)).
(** [w] digits, the last ones of the number: [{:0w$x}] of a number with at most
    [w] digits, and of byte strings of [w / 2] bytes. *)
Fixpoint fixed_digits (radix : Z) (w : nat) (z : Z) (acc : string) : string :=
  match w with
  | O => acc
  | S w => fixed_digits radix w (z / radix) (String (from_digit (z mod radix)) acc)
  end.
(** As many digits as needed: [{}] and [{:x}]. *)
Fixpoint count_digits (radix : Z) (fuel : nat) (z : Z) : nat :=
  match fuel with
  | O => 1
  | S fuel => if z <? radix then 1 else S (count_digits radix fuel (z / radix))
  end.
Definition format_radix (radix z : Z) : string :=
  fixed_digits radix (count_digits radix (Z.to_nat (Z.log2 z)) z) z "".
Definition to_string (z : Z) : string := format_radix 10 z.
Definition format_0x (z : Z) : string := "0x" +:+ format_radix 16 z.
Definition format_0x_fixed (w : nat) (z : Z) : string := "0x" +:+ fixed_digits 16 w z "".

Example format_examples :
  to_string 0 = "0" ∧ to_string 1990 = "1990" ∧ format_0x 0 = "0x0" ∧ format_0x 0x1f40a = "0x1f40a"
  ∧ format_0x_fixed 8 0xbeef = "0x0000beef" ∧ from_str_radix 16 64 "+1F40a" = Some 0x1f40a
  ∧ parse_uint 64 "18446744073709551615" = Some (2 ^ 64 - 1) ∧ parse_uint 64 "18446744073709551616" = None
  ∧ parse_uint 64 "0x1" = None ∧ from_str_radix 16 64 "+" = None.
Proof. by vm_compute. Qed.

(** ** Formatting and parsing are inverse *)

Lemma digits_checked :
  forallb (λ d, bool_decide (from_digit d ≠ "+"%char)
                && forallb (λ radix, negb (d <? radix) || bool_decide (to_digit radix (from_digit d) = Some d))
                     (zrange 2 15)) (zrange 0 16) = true.
Proof. by vm_compute. Qed.

Lemma digit_checked radix d :
  2 <= radix <= 16 → 0 <= d < radix → from_digit d ≠ "+"%char ∧ to_digit radix (from_digit d) = Some d.
Proof.
  intros Hr Hd. pose proof digits_checked as H. rewrite forallb_forall in H.
  assert (Hin : ∀ a n x, a <= x < a + Z.of_nat n → In x (zrange a n)).
  { intros a n x Hx. apply list_elem_of_In, list_elem_of_fmap. exists (Z.to_nat (x - a)). split; [lia|].
    apply elem_of_seq. lia. }
  specialize (H d (Hin 0 16%nat d ltac:(lia))). apply andb_prop in H as [H1 H2].
  split; [by apply bool_decide_eq_true in H1|].
  rewrite forallb_forall in H2. specialize (H2 radix (Hin 2 15%nat radix ltac:(lia))).
  apply orb_prop in H2 as [H2|H2]; [|by apply bool_decide_eq_true in H2].
  apply negb_true_iff, Z.ltb_ge in H2. lia.
Qed.

Section Radix.
Variable radix : Z.
Hypothesis Hradix : 2 <= radix <= 16.

Lemma parse_fixed_digits w k z acc rest :
  0 <= acc → acc * radix ^ Z.of_nat k + z mod radix ^ Z.of_nat k < 2 ^ w →
  parse_digits radix w acc (fixed_digits radix k z rest)
  = parse_digits radix w (acc * radix ^ Z.of_nat k + z mod radix ^ Z.of_nat k) rest.
Proof.
  revert z rest. induction k as [|k IH]; intros z rest Hacc Hw; cbn [fixed_digits].
  - rewrite Z.pow_0_r, Z.mod_1_r, Z.mul_1_r, Z.add_0_r. done.
  - rewrite Nat2Z.inj_succ, Z.pow_succ_r in * by lia.
    assert (Hp : 0 < radix ^ Z.of_nat k) by (apply Z.pow_pos_nonneg; lia).
    rewrite Z.rem_mul_r in * by lia.
    pose proof (Z.mod_pos_bound z radix). pose proof (Z.mod_pos_bound (z / radix) (radix ^ Z.of_nat k)).
    rewrite IH by nia. cbn [parse_digits].
    rewrite (proj2 (digit_checked radix (z mod radix) Hradix ltac:(lia))). cbn.
    replace ((acc * radix ^ Z.of_nat k + (z / radix) mod radix ^ Z.of_nat k) * radix + z mod radix)
      with (acc * (radix * radix ^ Z.of_nat k) + (z mod radix + radix * ((z / radix) mod radix ^ Z.of_nat k))) by lia.
    by rewrite (proj2 (Z.ltb_lt _ _) Hw).
Qed.

Lemma parse_fixed_overflow w k z acc rest :
  0 <= acc < 2 ^ w → 2 ^ w <= acc * radix ^ Z.of_nat k + z mod radix ^ Z.of_nat k →
  parse_digits radix w acc (fixed_digits radix k z rest) = None.
Proof.
  revert z rest. induction k as [|k IH]; intros z rest Hacc Hw; cbn [fixed_digits].
  - rewrite Z.pow_0_r, Z.mod_1_r in Hw. lia.
  - rewrite Nat2Z.inj_succ, Z.pow_succ_r in Hw by lia.
    assert (Hp : 0 < radix ^ Z.of_nat k) by (apply Z.pow_pos_nonneg; lia).
    rewrite Z.rem_mul_r in Hw by lia.
    destruct (Z.lt_ge_cases (acc * radix ^ Z.of_nat k + (z / radix) mod radix ^ Z.of_nat k) (2 ^ w)) as [Hlt|Hge];
      [|by apply IH].
    pose proof (Z.mod_pos_bound z radix). rewrite parse_fixed_digits by lia. cbn [parse_digits].
    rewrite (proj2 (digit_checked radix (z mod radix) Hradix ltac:(lia))). cbn.
    rewrite (proj2 (Z.ltb_ge _ _)); [done|lia].
Qed.

Lemma length_fixed_digits k z rest : String.length (fixed_digits radix k z rest) = (k + String.length rest)%nat.
Proof. revert z rest. induction k as [|k IH]; intros z rest; cbn; [done|]. rewrite IH. cbn. lia. Qed.

Lemma fixed_digits_head k z rest :
  ∃ d s, 0 <= d < radix ∧ fixed_digits radix (S k) z rest = String (from_digit d) s.
Proof.
  revert z rest. induction k as [|k IH]; intros z rest.
  - exists (z mod radix), rest. split; [apply Z.mod_pos_bound; lia|done].
  - apply IH.
Qed.

Lemma from_str_radix_digit w c s :
  c ≠ "+"%char → from_str_radix radix w (String c s) = parse_digits radix w 0 (String c s).
Proof. intros Hc. destruct c as [[] [] [] [] [] [] [] []]; try reflexivity. by destruct Hc. Qed.

Lemma parse_fixed w k z :
  0 <= z < radix ^ Z.of_nat (S k) → z < 2 ^ w →
  from_str_radix radix w (fixed_digits radix (S k) z "") = Some z.
Proof.
  intros Hz Hw. pose proof (parse_fixed_digits w (S k) z 0 "" ltac:(lia)) as Hp.
  rewrite Z.mod_small, Z.mul_0_l, Z.add_0_l in Hp by done. specialize (Hp Hw).
  destruct (fixed_digits_head k z "") as (d & s & Hd & Heq). rewrite Heq in *.
  rewrite from_str_radix_digit; [done|]. by apply (digit_checked radix).
Qed.

Lemma fixed_digits_inj k z z' :
  0 <= z < radix ^ Z.of_nat (S k) → 0 <= z' < radix ^ Z.of_nat (S k) →
  fixed_digits radix (S k) z "" = fixed_digits radix (S k) z' "" → z = z'.
Proof.
  intros Hz Hz' Heq. set (w := Z.log2 (Z.max z z') + 1).
  assert (Hw : Z.max z z' < 2 ^ w).
  { destruct (decide (Z.max z z' = 0)) as [->|]; [subst w; apply Z.pow_pos_nonneg; [lia|]; pose proof (Z.log2_nonneg (Z.max z z')); lia|].
    apply Z.log2_spec. lia. }
  pose proof (parse_fixed w k z Hz ltac:(lia)) as H1. rewrite Heq in H1.
  rewrite (parse_fixed w k z') in H1 by lia. congruence.
Qed.

Lemma count_digits_enough fuel z :
  0 <= z < radix ^ Z.of_nat (S fuel) →
  ∃ k, count_digits radix fuel z = S k ∧ z < radix ^ Z.of_nat (S k).
Proof.
  revert z. induction fuel as [|fuel IH]; intros z Hz; cbn [count_digits].
  - exists O. split; [done|lia].
  - destruct (Z.ltb_spec z radix) as [Hlt|Hge]; [exists O; split; [done|]; rewrite Z.pow_1_r; lia|].
    destruct (IH (z / radix)) as (k & -> & Hk).
    + rewrite (Nat2Z.inj_succ (S fuel)), Z.pow_succ_r in Hz by lia.
      split; [apply Z.div_pos; lia|]. apply Z.div_lt_upper_bound; lia.
    + exists (S k). split; [done|]. rewrite (Nat2Z.inj_succ (S k)), Z.pow_succ_r by lia.
      pose proof (Z.div_mod z radix). pose proof (Z.mod_pos_bound z radix). nia.
Qed.

Lemma format_radix_digits z :
  0 <= z → ∃ k, format_radix radix z = fixed_digits radix (S k) z "" ∧ z < radix ^ Z.of_nat (S k).
Proof.
  intros Hz. unfold format_radix.
  destruct (count_digits_enough (Z.to_nat (Z.log2 z)) z) as (k & -> & Hk); [|by exists k].
  split; [done|]. pose proof (Z.log2_nonneg z). rewrite Nat2Z.inj_succ, Z2Nat.id by lia.
  destruct (decide (z = 0)) as [->|]; [apply Z.pow_pos_nonneg; lia|].
  apply Z.lt_le_trans with (2 ^ Z.succ (Z.log2 z)); [apply Z.log2_spec; lia|]. apply Z.pow_le_mono_l. lia.
Qed.

Lemma format_radix_roundtrip w z : 0 <= z < 2 ^ w → from_str_radix radix w (format_radix radix z) = Some z.
Proof.
  intros Hz. destruct (format_radix_digits z) as (k & -> & Hk); [lia|]. apply parse_fixed; lia.
Qed.

Lemma format_radix_inj w z z' :
  0 <= z < 2 ^ w → 0 <= z' < 2 ^ w → format_radix radix z = format_radix radix z' → z = z'.
Proof.
  intros Hz Hz' Heq. pose proof (format_radix_roundtrip w z Hz) as H1.
  rewrite Heq, format_radix_roundtrip in H1 by done. congruence.
Qed.

End Radix.

Lemma parse_to_string w z : 0 <= z < 2 ^ w → parse_uint w (to_string z) = Some z.
Proof. apply format_radix_roundtrip. lia. Qed.
Lemma to_string_inj w z z' : 0 <= z < 2 ^ w → 0 <= z' < 2 ^ w → to_string z = to_string z' → z = z'.
Proof. apply format_radix_inj. lia. Qed.
Lemma format_0x_fixed_inj k z z' :
  0 <= z < 16 ^ Z.of_nat (S k) → 0 <= z' < 16 ^ Z.of_nat (S k) →
  format_0x_fixed (S k) z = format_0x_fixed (S k) z' → z = z'.
Proof. intros ?? Heq. apply (fixed_digits_inj 16 ltac:(lia) k); [done..|]. by injection Heq. Qed.
Lemma format_0x_cons z : format_0x z = String "0" (String "x" (format_radix 16 z)).
Proof. done. Qed.
Lemma format_0x_fixed_cons k z : format_0x_fixed k z = String "0" (String "x" (fixed_digits 16 k z "")).
Proof. done. Qed.
Lemma has_0x_inv s : has_0x s = true → s = String "0" (String "x" (strip_0x s)).
Proof.
  destruct s as [|c s]; [done|]. destruct (ascii_dec c "0") as [->|Hc].
  - destruct s as [|d s]; [done|]. destruct (ascii_dec d "x") as [->|Hd]; [done|].
    intros H. exfalso. revert H. destruct d as [[] [] [] [] [] [] [] []]; try discriminate. by destruct Hd.
  - intros H. exfalso. revert H. destruct c as [[] [] [] [] [] [] [] []]; try discriminate. by destruct Hc.
Qed.
Lemma strip_0x_not s : has_0x s = false → strip_0x s = s.
Proof.
  destruct s as [|c s]; [done|]. destruct (ascii_dec c "0") as [->|Hc].
  - destruct s as [|d s]; [done|]. destruct (ascii_dec d "x") as [->|Hd]; [discriminate|].
    intros _. destruct d as [[] [] [] [] [] [] [] []]; try reflexivity. by destruct Hd.
  - intros _. destruct c as [[] [] [] [] [] [] [] []]; try reflexivity. by destruct Hc.
Qed.

(** ** Codecs of the libraries *)

(** The [hex] and [const_hex] crates, and [B256::from_str]. *)
Class HexApi := {
  hex_decode : string → option (list Z);
  const_hex_decode : string → option (list Z);
  hex_encode : list Z → string;
  b256_from_str : string → option Z;
}.
(** Lower-case digits are read back. *)
Class HexLaws `(HexApi) : Prop := {
  hex_decode_digits k z : hex_decode (fixed_digits 16 (2 * k) z "") = Some (be_encode k z);
  const_hex_decode_encode l : bytes_ok l → const_hex_decode (hex_encode l) = Some l;
  hex_encode_not_0x l : bytes_ok l → has_0x (hex_encode l) = false;
  hex_encode_lower l : to_lowercase (hex_encode l) = hex_encode l;
  b256_from_str_digits h : 0 <= h < 2 ^ 256 → b256_from_str (format_0x_fixed 64 h) = Some h;
}.

(** [serde_json::Value]. *)
Class JsonApi := {
  Value : Type;
  json_from_str : string → option Value;
  json_get : Value → string → option Value;
  json_as_u64 : Value → option Z;
}.

(** A concrete hexadecimal codec. *)

Module RefHex.

Fixpoint decode_pairs (s : string) : option (list Z) :=
  match s with
  | EmptyString => Some []
  | String a (String b s) =>
      x ← to_digit 16 a; y ← to_digit 16 b; l ← decode_pairs s; Some (x * 16 + y :: l)
  | _ => None
  end.
Fixpoint encode_bytes (l : list Z) : string :=
  match l with [] => "" | b :: l => fixed_digits 16 2 b (encode_bytes l) end.

#[export] Instance hex_api : HexApi := {|
  hex_decode := decode_pairs;
  const_hex_decode s := decode_pairs (strip_0x s);
  hex_encode := encode_bytes;
  b256_from_str s := l ← decode_pairs (strip_0x s); if zlen l =? 32 then Some (be_decode l) else None;
|}.

Lemma decode_fixed k z rest :
  decode_pairs (fixed_digits 16 (2 * k) z rest) = (λ l, be_encode k z ++ l)%list <$> decode_pairs rest.
Proof.
  revert z rest. induction k as [|k IH]; intros z rest.
  { change (fixed_digits 16 (2 * 0) z rest) with rest. by destruct (decode_pairs rest). }
  replace (2 * S k)%nat with (S (S (2 * k))) by lia. cbn [fixed_digits]. rewrite IH. cbn [decode_pairs be_encode].
  rewrite (proj2 (digit_checked 16 ((z / 16) mod 16) ltac:(lia) ltac:(apply Z.mod_pos_bound; lia))),
    (proj2 (digit_checked 16 (z mod 16) ltac:(lia) ltac:(apply Z.mod_pos_bound; lia))). cbn.
  replace ((z / 16) mod 16 * 16 + z mod 16) with (z mod 256) by (change 256 with (16 * 16); rewrite Z.rem_mul_r by lia; lia).
  rewrite Z.div_div by lia. destruct (decode_pairs rest) as [l|]; cbn; [|done]. by rewrite <- app_assoc.
Qed.

Lemma decode_encode l : bytes_ok l → decode_pairs (encode_bytes l) = Some l.
Proof.
  intros Hl. induction Hl as [|b l Hb _ IH]; [done|]. cbn [encode_bytes].
  change 2%nat with (2 * 1)%nat. rewrite decode_fixed, IH. cbn. unfold is_u in Hb. by rewrite Z.mod_small by lia.
Qed.

Lemma encode_not_0x l : bytes_ok l → has_0x (encode_bytes l) = false.
Proof.
  intros Hl. destruct (has_0x (encode_bytes l)) eqn:H0; [|done]. apply has_0x_inv in H0.
  pose proof (decode_encode l Hl) as Hd. by rewrite H0 in Hd.
Qed.

Lemma digits_lower :
  forallb (λ z, bool_decide (lower (from_digit (z mod 16)) = from_digit (z mod 16))) (zrange 0 16) = true.
Proof. by vm_compute. Qed.

Lemma encode_lower l : to_lowercase (encode_bytes l) = encode_bytes l.
Proof.
  assert (Hd : ∀ z, lower (from_digit (z mod 16)) = from_digit (z mod 16)).
  { intros z. pose proof digits_lower as H. rewrite forallb_forall in H.
    specialize (H (z mod 16)). rewrite Z.mod_mod in H by lia. apply bool_decide_eq_true in H; [done|].
    pose proof (Z.mod_pos_bound z 16 ltac:(lia)). apply list_elem_of_In, list_elem_of_fmap.
    exists (Z.to_nat (z mod 16)). split; [lia|]. apply elem_of_seq. lia. }
  induction l as [|b l IH]; [done|]. cbn. by rewrite !Hd, IH.
Qed.

#[export] Instance hex_laws : HexLaws hex_api.
Proof.
  split.
  - intros k z. cbn -[fixed_digits Nat.mul]. rewrite decode_fixed. cbn. by rewrite app_nil_r.
  - intros l Hl. cbn. rewrite strip_0x_not by (by apply encode_not_0x). by apply decode_encode.
  - exact encode_not_0x.
  - exact encode_lower.
  - intros h Hh. unfold b256_from_str, hex_api. change (strip_0x (format_0x_fixed 64 h)) with (fixed_digits 16 (2 * 32) h "").
    rewrite decode_fixed. cbn [decode_pairs fmap option_fmap option_map mbind option_bind]. rewrite app_nil_r, zlen_be_encode, be_decode_encode.
    cbn. by rewrite Z.mod_small by lia.
Qed.

End RefHex.

(** Concrete JSON values, with any reader. *)
Module RefJson.

Inductive json := JNumber (n : Z) | JString (s : string) | JObject (fields : list (string * json)).
Fixpoint field (fields : list (string * json)) (key : string) : option json :=
  match fields with [] => None | (k, v) :: fields => if String.eqb k key then Some v else field fields key end.

Definition ref_json (read : string → option json) : JsonApi := {|
  Value := json;
  json_from_str := read;
  json_get v key := match v with JObject fields => field fields key | _ => None end;
  json_as_u64 v := match v with JNumber n => if (0 <=? n) && (n <? 2 ^ 64) then Some n else None | _ => None end;
|}.
Definition ref_json_str (v : json) : option string := match v with JString s => Some s | _ => None end.

End RefJson.
