(* ===== verification/Hardforks.v ===== *)
(** * Hard forks ([src/hardforks/bsc.rs], [src/hardforks/mod.rs])

    The BSC hard forks, the activation tables of the four chains, the methods
    of the trait [BscHardforks], the table of EVM specifications and the choice
    of the active fork ([src/node/evm/config.rs]).

    [ForkCondition], [ChainHardforks] and [EthereumHardforks] are types of the
    reth crates: they are the classes [ForkConditionApi], [HardforksApi] and
    [BscHardforks] below, with their documented behaviour as laws. *)

From S2P Require Import Prelude.

(** ** Fork names *)

Inductive BscHardfork :=
| Frontier | Ramanujan | Niels | MirrorSync | Bruno | Euler | Nano | Moran | Gibbs
| Planck | Luban | Plato | Hertz | HertzFix | Kepler | Feynman | FeynmanFix | Cancun
| Haber | HaberFix | Bohr | Tycho | Pascal | Lorentz | Maxwell | Fermi.

(** The Ethereum forks the tables name (an enumeration of the reth crates). *)
Inductive EthereumHardfork :=
| EthFrontier | EthHomestead | EthTangerine | EthSpuriousDragon | EthByzantium
| EthConstantinople | EthPetersburg | EthIstanbul | EthMuirGlacier | EthBerlin
| EthLondon | EthShanghai | EthCancun | EthPrague.

(** [Box<dyn Hardfork>] holding one of the two enumerations. *)
Inductive AnyHardfork :=
| Eth (f : EthereumHardfork)
| Bsc (f : BscHardfork).

#[export] Instance BscHardfork_eq_dec : EqDecision BscHardfork.
Proof. solve_decision. Defined.
#[export] Instance EthereumHardfork_eq_dec : EqDecision EthereumHardfork.
Proof. solve_decision. Defined.
#[export] Instance AnyHardfork_eq_dec : EqDecision AnyHardfork.
Proof. solve_decision. Defined.

(** [Hardfork::name], by which the reth crates know a fork: the two enumerations
    share the names of Frontier and Cancun, and no other.  A name is that of the
    first fork with it. *)
Definition fork_name (f : AnyHardfork) : AnyHardfork :=
  match f with Bsc Frontier => Eth EthFrontier | Bsc Cancun => Eth EthCancun | f => f end.

(** The derived order of the enumeration: the position of the constructor. *)
Definition hf_index (f : BscHardfork) : Z :=
  match f with
  | Frontier => 0 | Ramanujan => 1 | Niels => 2 | MirrorSync => 3 | Bruno => 4
  | Euler => 5 | Nano => 6 | Moran => 7 | Gibbs => 8 | Planck => 9 | Luban => 10
  | Plato => 11 | Hertz => 12 | HertzFix => 13 | Kepler => 14 | Feynman => 15
  | FeynmanFix => 16 | Cancun => 17 | Haber => 18 | HaberFix => 19 | Bohr => 20
  | Tycho => 21 | Pascal => 22 | Lorentz => 23 | Maxwell => 24 | Fermi => 25
  end.

(** ** The reth interfaces *)

(** [reth_chainspec::ForkCondition]: the two constructors the tables use, the
    default [Never], the queries, and the block number that the pattern
    [ForkCondition::Block(b)] extracts. *)
Class ForkConditionApi := {
  ForkCondition : Type;
  FC_Block : Z → ForkCondition;
  FC_Timestamp : Z → ForkCondition;
  FC_Never : ForkCondition;
  as_Block : ForkCondition → option Z;
  active_at_block : ForkCondition → Z → bool;
  transitions_at_block : ForkCondition → Z → bool;
  active_at_timestamp : ForkCondition → Z → bool;
}.

(** A block condition is active from its block on and never by timestamp; a
    timestamp condition the other way round; [Never] is never active. *)
Class ForkConditionLaws `(ForkConditionApi) : Prop := {
  as_Block_Block b : as_Block (FC_Block b) = Some b;
  as_Block_Timestamp t : as_Block (FC_Timestamp t) = None;
  as_Block_Never : as_Block FC_Never = None;
  active_at_block_Block b n : active_at_block (FC_Block b) n = (b <=? n);
  active_at_block_Timestamp t n : active_at_block (FC_Timestamp t) n = false;
  active_at_block_Never n : active_at_block FC_Never n = false;
  active_at_timestamp_Block b t : active_at_timestamp (FC_Block b) t = false;
  active_at_timestamp_Timestamp s t : active_at_timestamp (FC_Timestamp s) t = (s <=? t);
  active_at_timestamp_Never t : active_at_timestamp FC_Never t = false;
  transitions_at_block_Block b n : transitions_at_block (FC_Block b) n = (b =? n);
  active_at_block_mono c n m :
    n <= m → active_at_block c n = true → active_at_block c m = true;
  active_at_timestamp_mono c t u :
    t <= u → active_at_timestamp c t = true → active_at_timestamp c u = true;
}.

(** [ChainHardforks::new] and [ChainHardforks::fork]. *)
Class HardforksApi `{ForkConditionApi} := {
  ChainHardforks : Type;
  ChainHardforks_new : list (AnyHardfork * ForkCondition) → ChainHardforks;
  fork : ChainHardforks → AnyHardfork → ForkCondition;
}.

(** The list is collected into a map by the names: the last entry with the name
    of a fork gives its condition, and a fork that is not named is [Never]. *)
Class HardforksLaws `(HardforksApi) : Prop := {
  fork_nil f : fork (ChainHardforks_new []) f = FC_Never;
  fork_snoc l g c f :
    fork (ChainHardforks_new (l ++ [(g, c)])) f
    = if decide (fork_name g = fork_name f) then c else fork (ChainHardforks_new l) f;
}.

(** The required method of the trait [BscHardforks] and the methods of its
    supertrait [EthereumHardforks] that the source calls. *)
Class BscHardforks (CS : Type) `{ForkConditionApi} := {
  bsc_fork_activation : CS → BscHardfork → ForkCondition;
  ethereum_fork_activation : CS → EthereumHardfork → ForkCondition;
  is_london_active_at_block : CS → Z → bool;
  is_prague_active_at_timestamp : CS → Z → bool;
}.

(** The supertrait's default methods query the activation of their fork. *)
Class EthereumHardforksLaws (CS : Type) `{BscHardforks CS} : Prop := {
  is_london_active_at_block_def (s : CS) n :
    is_london_active_at_block s n = active_at_block (ethereum_fork_activation s EthLondon) n;
  is_prague_active_at_timestamp_def (s : CS) t :
    is_prague_active_at_timestamp s t = active_at_timestamp (ethereum_fork_activation s EthPrague) t;
}.

(** ** The methods of the trait [BscHardforks] *)

Section BscHardforks.
Context `{FCA : ForkConditionApi} {CS : Type} `{!BscHardforks CS}.
Variable self : CS.

Definition is_ramanujan_active_at_block (block_number : Z) : bool :=
  active_at_block (bsc_fork_activation self Ramanujan) block_number.

Definition is_niels_active_at_block (block_number : Z) : bool :=
  active_at_block (bsc_fork_activation self Niels) block_number.

Definition is_mirror_sync_active_at_block (block_number : Z) : bool :=
  active_at_block (bsc_fork_activation self MirrorSync) block_number.

Definition is_bruno_active_at_block (block_number : Z) : bool :=
  active_at_block (bsc_fork_activation self Bruno) block_number.

Definition is_euler_active_at_block (block_number : Z) : bool :=
  active_at_block (bsc_fork_activation self Euler) block_number.

Definition is_nano_active_at_block (block_number : Z) : bool :=
  active_at_block (bsc_fork_activation self Nano) block_number.

Definition is_moran_active_at_block (block_number : Z) : bool :=
  active_at_block (bsc_fork_activation self Moran) block_number.

Definition is_gibbs_active_at_block (block_number : Z) : bool :=
  active_at_block (bsc_fork_activation self Gibbs) block_number.

Definition is_planck_active_at_block (block_number : Z) : bool :=
  active_at_block (bsc_fork_activation self Planck) block_number.

Definition is_luban_active_at_block (block_number : Z) : bool :=
  active_at_block (bsc_fork_activation self Luban) block_number.

Definition is_plato_active_at_block (block_number : Z) : bool :=
  active_at_block (bsc_fork_activation self Plato) block_number.

Definition is_hertz_active_at_block (block_number : Z) : bool :=
  active_at_block (bsc_fork_activation self Hertz) block_number.

Definition is_hertz_fix_active_at_block (block_number : Z) : bool :=
  active_at_block (bsc_fork_activation self HertzFix) block_number.

Definition is_kepler_active_at_timestamp (block_number timestamp : Z) : bool :=
  is_london_active_at_block self block_number
  && active_at_timestamp (bsc_fork_activation self Kepler) timestamp.

Definition is_feynman_active_at_timestamp (block_number timestamp : Z) : bool :=
  is_london_active_at_block self block_number
  && active_at_timestamp (bsc_fork_activation self Feynman) timestamp.

Definition is_feynman_fix_active_at_timestamp (block_number timestamp : Z) : bool :=
  is_london_active_at_block self block_number
  && active_at_timestamp (bsc_fork_activation self FeynmanFix) timestamp.

Definition is_haber_active_at_timestamp (block_number timestamp : Z) : bool :=
  is_london_active_at_block self block_number
  && active_at_timestamp (bsc_fork_activation self Haber) timestamp.

Definition is_tycho_active_at_timestamp (block_number timestamp : Z) : bool :=
  is_london_active_at_block self block_number
  && active_at_timestamp (bsc_fork_activation self Tycho) timestamp.

Definition is_haber_fix_active_at_timestamp (block_number timestamp : Z) : bool :=
  is_london_active_at_block self block_number
  && active_at_timestamp (bsc_fork_activation self HaberFix) timestamp.

Definition is_cancun_active_at_timestamp (block_number timestamp : Z) : bool :=
  is_london_active_at_block self block_number
  && active_at_timestamp (bsc_fork_activation self Cancun) timestamp.

Definition is_bohr_active_at_timestamp (block_number timestamp : Z) : bool :=
  is_london_active_at_block self block_number
  && active_at_timestamp (bsc_fork_activation self Bohr) timestamp.

Definition is_prague_active_at_block_and_timestamp (block_number timestamp : Z) : bool :=
  is_london_active_at_block self block_number
  && is_prague_active_at_timestamp self timestamp.

Definition is_pascal_active_at_timestamp (block_number timestamp : Z) : bool :=
  is_london_active_at_block self block_number
  && active_at_timestamp (bsc_fork_activation self Pascal) timestamp.

Definition is_lorentz_active_at_timestamp (block_number timestamp : Z) : bool :=
  is_london_active_at_block self block_number
  && active_at_timestamp (bsc_fork_activation self Lorentz) timestamp.

Definition is_maxwell_active_at_timestamp (block_number timestamp : Z) : bool :=
  is_london_active_at_block self block_number
  && active_at_timestamp (bsc_fork_activation self Maxwell) timestamp.

Definition is_fermi_active_at_timestamp (block_number timestamp : Z) : bool :=
  is_london_active_at_block self block_number
  && active_at_timestamp (bsc_fork_activation self Fermi) timestamp.

Definition is_ramanujan_transition_at_block (block_number : Z) : bool :=
  transitions_at_block (bsc_fork_activation self Ramanujan) block_number.

Definition is_niels_transition_at_block (block_number : Z) : bool :=
  transitions_at_block (bsc_fork_activation self Niels) block_number.

Definition is_mirror_sync_transition_at_block (block_number : Z) : bool :=
  transitions_at_block (bsc_fork_activation self MirrorSync) block_number.

Definition is_bruno_transition_at_block (block_number : Z) : bool :=
  transitions_at_block (bsc_fork_activation self Bruno) block_number.

Definition is_euler_transition_at_block (block_number : Z) : bool :=
  transitions_at_block (bsc_fork_activation self Euler) block_number.

Definition is_nano_transition_at_block (block_number : Z) : bool :=
  transitions_at_block (bsc_fork_activation self Nano) block_number.

Definition is_moran_transition_at_block (block_number : Z) : bool :=
  transitions_at_block (bsc_fork_activation self Moran) block_number.

Definition is_gibbs_transition_at_block (block_number : Z) : bool :=
  transitions_at_block (bsc_fork_activation self Gibbs) block_number.

Definition is_planck_transition_at_block (block_number : Z) : bool :=
  transitions_at_block (bsc_fork_activation self Planck) block_number.

Definition is_luban_transition_at_block (block_number : Z) : bool :=
  transitions_at_block (bsc_fork_activation self Luban) block_number.

Definition is_plato_transition_at_block (block_number : Z) : bool :=
  transitions_at_block (bsc_fork_activation self Plato) block_number.

Definition is_kepler_transition_at_timestamp (block_number timestamp parent_timestamp : Z) : bool :=
  let parent_number := saturating_sub block_number 1 in
  negb (is_kepler_active_at_timestamp parent_number parent_timestamp)
  && is_kepler_active_at_timestamp block_number timestamp.

Definition is_feynman_transition_at_timestamp (block_number timestamp parent_timestamp : Z) : bool :=
  let parent_number := saturating_sub block_number 1 in
  negb (is_feynman_active_at_timestamp parent_number parent_timestamp)
  && is_feynman_active_at_timestamp block_number timestamp.

Definition is_feynman_fix_transition_at_timestamp (block_number timestamp parent_timestamp : Z) : bool :=
  let parent_number := saturating_sub block_number 1 in
  negb (is_feynman_fix_active_at_timestamp parent_number parent_timestamp)
  && is_feynman_fix_active_at_timestamp block_number timestamp.

Definition is_haber_transition_at_timestamp (block_number timestamp parent_timestamp : Z) : bool :=
  let parent_number := saturating_sub block_number 1 in
  negb (is_haber_active_at_timestamp parent_number parent_timestamp)
  && is_haber_active_at_timestamp block_number timestamp.

Definition is_tycho_transition_at_timestamp (block_number timestamp parent_timestamp : Z) : bool :=
  let parent_number := saturating_sub block_number 1 in
  negb (is_tycho_active_at_timestamp parent_number parent_timestamp)
  && is_tycho_active_at_timestamp block_number timestamp.

Definition is_haber_fix_transition_at_timestamp (block_number timestamp parent_timestamp : Z) : bool :=
  let parent_number := saturating_sub block_number 1 in
  negb (is_haber_fix_active_at_timestamp parent_number parent_timestamp)
  && is_haber_fix_active_at_timestamp block_number timestamp.

Definition is_cancun_transition_at_timestamp (block_number timestamp parent_timestamp : Z) : bool :=
  let parent_number := saturating_sub block_number 1 in
  negb (is_cancun_active_at_timestamp parent_number parent_timestamp)
  && is_cancun_active_at_timestamp block_number timestamp.

Definition is_bohr_transition_at_timestamp (block_number timestamp parent_timestamp : Z) : bool :=
  let parent_number := saturating_sub block_number 1 in
  negb (is_bohr_active_at_timestamp parent_number parent_timestamp)
  && is_bohr_active_at_timestamp block_number timestamp.

Definition is_prague_transition_at_block_and_timestamp (block_number timestamp parent_timestamp : Z) : bool :=
  let parent_number := saturating_sub block_number 1 in
  is_prague_active_at_block_and_timestamp block_number timestamp
  && negb (is_prague_active_at_block_and_timestamp parent_number parent_timestamp).

Definition is_pascal_transition_at_timestamp (block_number timestamp parent_timestamp : Z) : bool :=
  let parent_number := saturating_sub block_number 1 in
  negb (is_pascal_active_at_timestamp parent_number parent_timestamp)
  && is_pascal_active_at_timestamp block_number timestamp.

Definition is_lorentz_transition_at_timestamp (block_number timestamp parent_timestamp : Z) : bool :=
  let parent_number := saturating_sub block_number 1 in
  negb (is_lorentz_active_at_timestamp parent_number parent_timestamp)
  && is_lorentz_active_at_timestamp block_number timestamp.

Definition is_maxwell_transition_at_timestamp (block_number timestamp parent_timestamp : Z) : bool :=
  let parent_number := saturating_sub block_number 1 in
  negb (is_maxwell_active_at_timestamp parent_number parent_timestamp)
  && is_maxwell_active_at_timestamp block_number timestamp.

Definition is_fermi_transition_at_timestamp (block_number timestamp parent_timestamp : Z) : bool :=
  let parent_number := saturating_sub block_number 1 in
  negb (is_fermi_active_at_timestamp parent_number parent_timestamp)
  && is_fermi_active_at_timestamp block_number timestamp.

(** The active fork of a block ([src/node/evm/config.rs]).  Below [Planck] the
    order of Gibbs, Moran and Nano is that of their activation blocks; an
    activation that is not a block number is the least ([Option]'s order). *)
Definition get_activation_block (fc : ForkCondition) : option Z := as_Block fc.

(** [b.0.cmp(&a.0)] is not [Greater]: the order of the stable descending sort. *)
Definition activation_ge (a b : option Z * BscHardfork) : Prop :=
  match a.1, b.1 with
  | _, None => True
  | None, Some _ => False
  | Some x, Some y => y <= x
  end.

#[export] Instance activation_ge_dec a b : Decision (activation_ge a b).
Proof. destruct a as [[x|] ?], b as [[y|] ?]; unfold activation_ge; simpl; apply _. Defined.

Definition revm_spec_by_timestamp_and_block_number (timestamp block_number : Z) : BscHardfork :=
  if is_fermi_active_at_timestamp block_number timestamp then Fermi
  else if is_maxwell_active_at_timestamp block_number timestamp then Maxwell
  else if is_lorentz_active_at_timestamp block_number timestamp then Lorentz
  else if is_pascal_active_at_timestamp block_number timestamp then Pascal
  else if is_bohr_active_at_timestamp block_number timestamp then Bohr
  else if is_haber_fix_active_at_timestamp block_number timestamp then HaberFix
  else if is_haber_active_at_timestamp block_number timestamp then Haber
  else if is_cancun_active_at_timestamp block_number timestamp then Cancun
  else if is_feynman_fix_active_at_timestamp block_number timestamp then FeynmanFix
  else if is_feynman_active_at_timestamp block_number timestamp then Feynman
  else if is_kepler_active_at_timestamp block_number timestamp then Kepler
  else if is_hertz_fix_active_at_block block_number then HertzFix
  else if is_hertz_active_at_block block_number then Hertz
  else if is_plato_active_at_block block_number then Plato
  else if is_luban_active_at_block block_number then Luban
  else if is_planck_active_at_block block_number then Planck
  else
    let gibbs_block := get_activation_block (bsc_fork_activation self Gibbs) in
    let moran_block := get_activation_block (bsc_fork_activation self Moran) in
    let nano_block := get_activation_block (bsc_fork_activation self Nano) in
    let forks := merge_sort activation_ge
      [(gibbs_block, Gibbs); (moran_block, Moran); (nano_block, Nano)] in
    match list_find (λ '(_, f), active_at_block (bsc_fork_activation self f) block_number) forks with
    | Some (_, (_, f)) => f
    | None =>
        if is_euler_active_at_block block_number then Euler
        else if is_bruno_active_at_block block_number then Bruno
        else if is_mirror_sync_active_at_block block_number then MirrorSync
        else if is_niels_active_at_block block_number then Niels
        else if is_ramanujan_active_at_block block_number then Ramanujan
        else Frontier
    end.

End BscHardforks.

(** ** EVM specifications *)

(** The revm specifications BSC uses, in revm's order. *)
Inductive SpecId := MUIR_GLACIER | LONDON | SHANGHAI | CANCUN | PRAGUE.

Definition spec_index (s : SpecId) : Z :=
  match s with MUIR_GLACIER => 0 | LONDON => 1 | SHANGHAI => 2 | CANCUN => 3 | PRAGUE => 4 end.

(** [impl From<BscHardfork> for SpecId]. *)
Definition spec_id_of (spec : BscHardfork) : SpecId :=
  match spec with
  | Frontier | Ramanujan | Niels | MirrorSync | Bruno | Euler | Gibbs | Nano | Moran
  | Planck | Luban | Plato => MUIR_GLACIER
  | Hertz | HertzFix => LONDON
  | Kepler | Feynman | FeynmanFix => SHANGHAI
  | Cancun | Haber | HaberFix | Bohr | Tycho => CANCUN
  | Pascal | Lorentz | Maxwell | Fermi => PRAGUE
  end.

(** [match_hardfork]: dispatch on the dynamic type of a boxed fork. *)
Definition match_hardfork (f : AnyHardfork) (hardfork_fn : EthereumHardfork → option Z)
    (bsc_hardfork_fn : BscHardfork → option Z) : option Z :=
  match f with Eth f => hardfork_fn f | Bsc f => bsc_hardfork_fn f end.

(** ** The activation tables *)

Section Tables.
Context `{FCA : ForkConditionApi}.

Definition bsc_mainnet : list (AnyHardfork * ForkCondition) := [
  (Eth EthFrontier, FC_Block 0);
  (Eth EthHomestead, FC_Block 0);
  (Eth EthTangerine, FC_Block 0);
  (Eth EthSpuriousDragon, FC_Block 0);
  (Eth EthByzantium, FC_Block 0);
  (Eth EthConstantinople, FC_Block 0);
  (Eth EthPetersburg, FC_Block 0);
  (Eth EthIstanbul, FC_Block 0);
  (Eth EthMuirGlacier, FC_Block 0);
  (Bsc Ramanujan, FC_Block 0);
  (Bsc Niels, FC_Block 0);
  (Bsc MirrorSync, FC_Block 5184000);
  (Bsc Bruno, FC_Block 13082000);
  (Bsc Euler, FC_Block 18907621);
  (Bsc Nano, FC_Block 21962149);
  (Bsc Moran, FC_Block 22107423);
  (Bsc Gibbs, FC_Block 23846001);
  (Bsc Planck, FC_Block 27281024);
  (Bsc Luban, FC_Block 29020050);
  (Bsc Plato, FC_Block 30720096);
  (Eth EthBerlin, FC_Block 31302048);
  (Eth EthLondon, FC_Block 31302048);
  (Bsc Hertz, FC_Block 31302048);
  (Bsc HertzFix, FC_Block 34140700);
  (Eth EthShanghai, FC_Timestamp 1705996800);
  (Bsc Kepler, FC_Timestamp 1705996800);
  (Bsc Feynman, FC_Timestamp 1713419340);
  (Bsc FeynmanFix, FC_Timestamp 1713419340);
  (Eth EthCancun, FC_Timestamp 1718863500);
  (Bsc Cancun, FC_Timestamp 1718863500);
  (Bsc Haber, FC_Timestamp 1718863500);
  (Bsc Tycho, FC_Timestamp 1718863500);
  (Bsc HaberFix, FC_Timestamp 1727316120);
  (Bsc Bohr, FC_Timestamp 1727317200);
  (Eth EthPrague, FC_Timestamp 1742436600);
  (Bsc Pascal, FC_Timestamp 1742436600);
  (Bsc Lorentz, FC_Timestamp 1745903100);
  (Bsc Maxwell, FC_Timestamp 1751250600);
  (Bsc Fermi, FC_Timestamp 1768357800)
].

Definition bsc_testnet : list (AnyHardfork * ForkCondition) := [
  (Eth EthFrontier, FC_Block 0);
  (Eth EthHomestead, FC_Block 0);
  (Eth EthTangerine, FC_Block 0);
  (Eth EthSpuriousDragon, FC_Block 0);
  (Eth EthByzantium, FC_Block 0);
  (Eth EthConstantinople, FC_Block 0);
  (Eth EthPetersburg, FC_Block 0);
  (Eth EthIstanbul, FC_Block 0);
  (Eth EthMuirGlacier, FC_Block 0);
  (Bsc Ramanujan, FC_Block 1010000);
  (Bsc Niels, FC_Block 1014369);
  (Bsc MirrorSync, FC_Block 5582500);
  (Bsc Bruno, FC_Block 13837000);
  (Bsc Euler, FC_Block 19203503);
  (Bsc Gibbs, FC_Block 22800220);
  (Bsc Nano, FC_Block 23482428);
  (Bsc Moran, FC_Block 23603940);
  (Bsc Planck, FC_Block 28196022);
  (Bsc Luban, FC_Block 29295050);
  (Bsc Plato, FC_Block 29861024);
  (Eth EthBerlin, FC_Block 31103030);
  (Eth EthLondon, FC_Block 31103030);
  (Bsc Hertz, FC_Block 31103030);
  (Bsc HertzFix, FC_Block 35682300);
  (Eth EthShanghai, FC_Timestamp 1702972800);
  (Bsc Kepler, FC_Timestamp 1702972800);
  (Bsc Feynman, FC_Timestamp 1710136800);
  (Bsc FeynmanFix, FC_Timestamp 1711342800);
  (Eth EthCancun, FC_Timestamp 1713330442);
  (Bsc Cancun, FC_Timestamp 1713330442);
  (Bsc Haber, FC_Timestamp 1716962820);
  (Bsc HaberFix, FC_Timestamp 1719986788);
  (Bsc Bohr, FC_Timestamp 1724116996);
  (Bsc Tycho, FC_Timestamp 1713330442);
  (Eth EthPrague, FC_Timestamp 1740452880);
  (Bsc Pascal, FC_Timestamp 1740452880);
  (Bsc Lorentz, FC_Timestamp 1744097580);
  (Bsc Maxwell, FC_Timestamp 1748243100);
  (Bsc Fermi, FC_Timestamp 1762741500)
].

Definition bsc_qanet : list (AnyHardfork * ForkCondition) := [
  (Eth EthFrontier, FC_Block 0);
  (Eth EthHomestead, FC_Block 0);
  (Eth EthTangerine, FC_Block 0);
  (Eth EthSpuriousDragon, FC_Block 0);
  (Eth EthByzantium, FC_Block 0);
  (Eth EthConstantinople, FC_Block 0);
  (Eth EthPetersburg, FC_Block 0);
  (Eth EthIstanbul, FC_Block 0);
  (Eth EthMuirGlacier, FC_Block 0);
  (Bsc Ramanujan, FC_Block 0);
  (Bsc Niels, FC_Block 0);
  (Bsc MirrorSync, FC_Block 1);
  (Bsc Bruno, FC_Block 1);
  (Bsc Euler, FC_Block 2);
  (Bsc Nano, FC_Block 3);
  (Bsc Moran, FC_Block 3);
  (Bsc Gibbs, FC_Block 4);
  (Bsc Planck, FC_Block 5);
  (Bsc Luban, FC_Block 6);
  (Bsc Plato, FC_Block 7);
  (Eth EthBerlin, FC_Block 8);
  (Eth EthLondon, FC_Block 8);
  (Bsc Hertz, FC_Block 8);
  (Bsc HertzFix, FC_Block 8);
  (Eth EthShanghai, FC_Timestamp 1754967081);
  (Bsc Kepler, FC_Timestamp 1754967081);
  (Bsc Feynman, FC_Timestamp 1754967081);
  (Bsc FeynmanFix, FC_Timestamp 1754967081);
  (Eth EthCancun, FC_Timestamp 1754967081);
  (Bsc Cancun, FC_Timestamp 1754967081);
  (Bsc Haber, FC_Timestamp 1754967081);
  (Bsc HaberFix, FC_Timestamp 1754967081);
  (Bsc Bohr, FC_Timestamp 1754967081);
  (Eth EthPrague, FC_Timestamp 1754967081);
  (Bsc Pascal, FC_Timestamp 1754967081);
  (Bsc Lorentz, FC_Timestamp 1754967081);
  (Bsc Maxwell, FC_Timestamp 1754967101);
  (Bsc Fermi, FC_Timestamp 1761030900)
].

Definition bsc_local : list (AnyHardfork * ForkCondition) := [
  (Eth EthFrontier, FC_Block 0);
  (Bsc Bohr, FC_Block 0)
].

End Tables.

(** ** The chain specification ([src/chainspec/mod.rs]) *)

(** [BscChainSpec] wraps a reth [ChainSpec]; of the wrapped value the hard
    forks are modelled. *)
Record BscChainSpec `{HardforksApi} := { inner : ChainHardforks }.
Arguments BscChainSpec {_ _}.
Arguments Build_BscChainSpec {_ _} _.
Arguments inner {_ _} _.

#[export] Instance BscChainSpec_BscHardforks `{HA : HardforksApi} : BscHardforks BscChainSpec := {|
  bsc_fork_activation s f := fork (inner s) (Bsc f);
  ethereum_fork_activation s f := fork (inner s) (Eth f);
  is_london_active_at_block s n := active_at_block (fork (inner s) (Eth EthLondon)) n;
  is_prague_active_at_timestamp s t := active_at_timestamp (fork (inner s) (Eth EthPrague)) t;
|}.

Section Chains.
Context `{HA : HardforksApi}.
Definition mainnet_spec : BscChainSpec := Build_BscChainSpec (ChainHardforks_new bsc_mainnet).
Definition testnet_spec : BscChainSpec := Build_BscChainSpec (ChainHardforks_new bsc_testnet).
Definition qanet_spec : BscChainSpec := Build_BscChainSpec (ChainHardforks_new bsc_qanet).
Definition local_spec : BscChainSpec := Build_BscChainSpec (ChainHardforks_new bsc_local).
End Chains.

(** ** Concrete instances of the interfaces *)

Module RefHardforks.

Inductive fc := Block (b : Z) | Timestamp (t : Z) | Never.

Definition fc_as_block (c : fc) : option Z := match c with Block b => Some b | _ => None end.
Definition fc_at_block (c : fc) (n : Z) : bool := match c with Block b => b <=? n | _ => false end.
Definition fc_transitions (c : fc) (n : Z) : bool := match c with Block b => b =? n | _ => false end.
Definition fc_at_timestamp (c : fc) (t : Z) : bool :=
  match c with Timestamp s => s <=? t | _ => false end.

#[export] Instance fc_api : ForkConditionApi := {|
  ForkCondition := fc; FC_Block := Block; FC_Timestamp := Timestamp; FC_Never := Never;
  as_Block := fc_as_block; active_at_block := fc_at_block;
  transitions_at_block := fc_transitions; active_at_timestamp := fc_at_timestamp |}.

#[export] Instance fc_laws : ForkConditionLaws fc_api.
Proof. split; try done; simpl; intros [] ? ?; simpl; rewrite ?Z.leb_le; lia. Qed.

Fixpoint assoc_from (c : fc) (l : list (AnyHardfork * fc)) (f : AnyHardfork) : fc :=
  match l with
  | [] => c
  | (g, d) :: l => assoc_from (if decide (fork_name g = fork_name f) then d else c) l f
  end.
Definition assoc : list (AnyHardfork * fc) → AnyHardfork → fc := assoc_from Never.

Lemma assoc_snoc l g c f : assoc (l ++ [(g, c)]) f = if decide (fork_name g = fork_name f) then c else assoc l f.
Proof.
  unfold assoc. generalize Never as d. induction l as [|[h e] l IH]; intros d; [done|]. cbn. apply IH.
Qed.

#[export] Instance hardforks_api : HardforksApi := {|
  ChainHardforks := list (AnyHardfork * fc); ChainHardforks_new l := l; fork := assoc |}.

#[export] Instance hardforks_laws : HardforksLaws hardforks_api.
Proof. split; [done|]. intros. apply assoc_snoc. Qed.

End RefHardforks.

(** ** Lookup in a table *)

(** The condition a table gives to a fork: that of the last entry with its name,
    [c] if there is none. *)
Fixpoint table_from `{ForkConditionApi} (c : ForkCondition) (l : list (AnyHardfork * ForkCondition))
    (f : AnyHardfork) : ForkCondition :=
  match l with
  | [] => c
  | (g, d) :: l => table_from (if decide (fork_name g = fork_name f) then d else c) l f
  end.
Definition table_lookup `{ForkConditionApi} : list (AnyHardfork * ForkCondition) → AnyHardfork → ForkCondition :=
  table_from FC_Never.

Section Lookup.
Context `{HL : HardforksLaws}.

Lemma table_from_snoc d l g c f :
  table_from d (l ++ [(g, c)]) f = if decide (fork_name g = fork_name f) then c else table_from d l f.
Proof. revert d. induction l as [|[h e] l IH]; intros d; [done|]. cbn. apply IH. Qed.

Lemma fork_table_lookup l f : fork (ChainHardforks_new l) f = table_lookup l f.
Proof.
  unfold table_lookup. induction l as [|[g c] l IH] using rev_ind; [apply fork_nil|].
  by rewrite fork_snoc, table_from_snoc, IH.
Qed.

End Lookup.

(** ** From the abstract interface to the concrete instance

    Every fact about a chain of the source that the laws determine can be
    computed in [RefHardforks]. *)

Section Transfer.
Context `{HL : HardforksLaws}.
Context {FL : ForkConditionLaws H}.

(** The condition an abstract implementation builds for a concrete one. *)
Definition interp (c : RefHardforks.fc) : ForkCondition :=
  match c with
  | RefHardforks.Block b => FC_Block b
  | RefHardforks.Timestamp t => FC_Timestamp t
  | RefHardforks.Never => FC_Never
  end.

Lemma interp_as_Block c : as_Block (interp c) = RefHardforks.fc_as_block c.
Proof. destruct c; simpl; auto using as_Block_Block, as_Block_Timestamp, as_Block_Never. Qed.
Lemma interp_at_block c n : active_at_block (interp c) n = RefHardforks.fc_at_block c n.
Proof.
  destruct c; simpl;
    auto using active_at_block_Block, active_at_block_Timestamp, active_at_block_Never.
Qed.
Lemma interp_at_timestamp c t : active_at_timestamp (interp c) t = RefHardforks.fc_at_timestamp c t.
Proof.
  destruct c; simpl;
    auto using active_at_timestamp_Block, active_at_timestamp_Timestamp, active_at_timestamp_Never.
Qed.

Lemma fork_interp l f :
  fork (ChainHardforks_new (prod_map id interp <$> l)) f = interp (RefHardforks.assoc l f).
Proof.
  rewrite fork_table_lookup. unfold table_lookup, RefHardforks.assoc. change FC_Never with (interp RefHardforks.Never).
  generalize RefHardforks.Never as c. induction l as [|[g d] l IH]; intros c; [done|].
  cbn [fmap list_fmap prod_map table_from RefHardforks.assoc_from fst snd id]. rewrite <- IH. by case_decide.
Qed.

(** A chain of the library over the abstract interface agrees with the same
    chain over the concrete one. *)
Definition chain_of (l : list (AnyHardfork * RefHardforks.fc)) : BscChainSpec :=
  Build_BscChainSpec (ChainHardforks_new (prod_map id interp <$> l)).
Definition ref_chain_of (l : list (AnyHardfork * RefHardforks.fc)) :
    @BscChainSpec _ RefHardforks.hardforks_api :=
  @Build_BscChainSpec _ RefHardforks.hardforks_api l.

(** [revm_spec_by_timestamp_and_block_number] of the concrete chain. *)
Definition ref_revm_spec (l : list (AnyHardfork * RefHardforks.fc)) (t n : Z) : BscHardfork :=
  @revm_spec_by_timestamp_and_block_number RefHardforks.fc_api _
    (@BscChainSpec_BscHardforks _ RefHardforks.hardforks_api) (ref_chain_of l) t n.

Lemma chains_of_tables :
  mainnet_spec = chain_of (bsc_mainnet (FCA:=RefHardforks.fc_api)) ∧ testnet_spec = chain_of (bsc_testnet (FCA:=RefHardforks.fc_api)) ∧
  qanet_spec = chain_of (bsc_qanet (FCA:=RefHardforks.fc_api)) ∧ local_spec = chain_of (bsc_local (FCA:=RefHardforks.fc_api)).
Proof. done. Qed.

Lemma transfer_at_block l f n :
  active_at_block (bsc_fork_activation (chain_of l) f) n
  = RefHardforks.fc_at_block (RefHardforks.assoc l (Bsc f)) n.
Proof. intros. simpl. rewrite fork_interp. apply interp_at_block. Qed.

Lemma transfer_at_timestamp l f t :
  active_at_timestamp (bsc_fork_activation (chain_of l) f) t
  = RefHardforks.fc_at_timestamp (RefHardforks.assoc l (Bsc f)) t.
Proof. intros. simpl. rewrite fork_interp. apply interp_at_timestamp. Qed.

Lemma transfer_london l n :
  is_london_active_at_block (chain_of l) n
  = RefHardforks.fc_at_block (RefHardforks.assoc l (Eth EthLondon)) n.
Proof. intros. simpl. rewrite fork_interp. apply interp_at_block. Qed.

Lemma transfer_as_Block l f :
  as_Block (bsc_fork_activation (chain_of l) f)
  = RefHardforks.fc_as_block (RefHardforks.assoc l (Bsc f)).
Proof. intros. simpl. rewrite fork_interp. apply interp_as_Block. Qed.

Lemma transfer_revm_spec l t n :
  revm_spec_by_timestamp_and_block_number (chain_of l) t n
  = ref_revm_spec l t n.
Proof.
  unfold ref_revm_spec, revm_spec_by_timestamp_and_block_number, get_activation_block.
  rewrite !transfer_as_Block.
  rewrite (list_find_ext _ (λ '(_, f), RefHardforks.fc_at_block (RefHardforks.assoc l (Bsc f)) n))
    by (intros [_ f]; by rewrite transfer_at_block).
  unfold is_fermi_active_at_timestamp, is_maxwell_active_at_timestamp,
    is_lorentz_active_at_timestamp, is_pascal_active_at_timestamp, is_bohr_active_at_timestamp,
    is_haber_fix_active_at_timestamp, is_haber_active_at_timestamp, is_cancun_active_at_timestamp,
    is_feynman_fix_active_at_timestamp, is_feynman_active_at_timestamp,
    is_kepler_active_at_timestamp, is_hertz_fix_active_at_block, is_hertz_active_at_block,
    is_plato_active_at_block, is_luban_active_at_block, is_planck_active_at_block,
    is_euler_active_at_block, is_bruno_active_at_block, is_mirror_sync_active_at_block,
    is_niels_active_at_block, is_ramanujan_active_at_block.
  by rewrite !transfer_london, !transfer_at_timestamp, !transfer_at_block.
Qed.

End Transfer.

(** ** A chain of activations as a step function *)

(** The rank of the first active entry. *)
Fixpoint first_rank (l : list (bool * Z)) : Z :=
  match l with
  | [] => 0
  | (b, r) :: l => if b then r else first_rank l
  end.

Lemma first_rank_le l r : Forall (λ p, p.2 <= r) l → 0 <= r → first_rank l <= r.
Proof. induction 1 as [|[[] ?] ? ? _ IH]; simpl in *; auto. Qed.

(** When more entries become active and the ranks decrease along the list,
    the rank of the first active entry can only grow. *)
Lemma first_rank_mono l l' :
  Forall2 (λ p q, p.2 = q.2 ∧ (p.1 = true → q.1 = true)) l l' →
  StronglySorted (λ p q, q.2 <= p.2) l → Forall (λ p, 0 <= p.2) l →
  first_rank l <= first_rank l'.
Proof.
  induction 1 as [|[b r] [b' r'] l l' [Hr Hb] Hl IH]; intros Hs Hp; [done|].
  simpl in *. subst r'. apply StronglySorted_inv in Hs as [Hs Hge].
  inversion_clear Hp as [|? ? Hr Hp']. specialize (IH Hs Hp').
  destruct b; [by rewrite Hb|]. destruct b'; [|done].
  apply first_rank_le; done.
Qed.

Definition mainnet_ranks (t n : Z) : list (bool * Z) :=
  let london := 31302048 <=? n in [
  (london && (1768357800 <=? t), 25);
  (london && (1751250600 <=? t), 24); (london && (1745903100 <=? t), 23);
  (london && (1742436600 <=? t), 22); (london && (1727317200 <=? t), 20);
  (london && (1727316120 <=? t), 19); (london && (1718863500 <=? t), 18);
  (london && (1718863500 <=? t), 17); (london && (1713419340 <=? t), 16);
  (london && (1713419340 <=? t), 15); (london && (1705996800 <=? t), 14);
  (34140700 <=? n, 13); (london, 12); (30720096 <=? n, 11); (29020050 <=? n, 10);
  (27281024 <=? n, 9); (23846001 <=? n, 8); (22107423 <=? n, 7); (21962149 <=? n, 6);
  (18907621 <=? n, 5); (13082000 <=? n, 4); (5184000 <=? n, 3); (0 <=? n, 2); (0 <=? n, 1)].

(** Follows the right-hand side of an equation between two chains of tests. *)
Ltac follow_chain :=
  repeat match goal with
  | |- _ = (if ?b then _ else _) => destruct b; [reflexivity|]
  end; reflexivity.

Lemma ref_mainnet_rank t n :
  hf_index (ref_revm_spec (bsc_mainnet (FCA:=RefHardforks.fc_api)) t n)
  = first_rank (mainnet_ranks t n).
Proof.
  cbv -[Z.leb andb hf_index].
  follow_chain.
Qed.

(** The pairs (active, first active) of the forks activated by timestamp, in
    the order in which both live chains schedule them. *)
Definition timestamp_forks `{BscHardforks CS} (self : CS) :
    list ((Z → Z → bool) * (Z → Z → Z → bool)) := [
  (is_kepler_active_at_timestamp self, is_kepler_transition_at_timestamp self);
  (is_feynman_active_at_timestamp self, is_feynman_transition_at_timestamp self);
  (is_feynman_fix_active_at_timestamp self, is_feynman_fix_transition_at_timestamp self);
  (is_cancun_active_at_timestamp self, is_cancun_transition_at_timestamp self);
  (is_haber_active_at_timestamp self, is_haber_transition_at_timestamp self);
  (is_haber_fix_active_at_timestamp self, is_haber_fix_transition_at_timestamp self);
  (is_bohr_active_at_timestamp self, is_bohr_transition_at_timestamp self);
  (is_prague_active_at_block_and_timestamp self, is_prague_transition_at_block_and_timestamp self);
  (is_pascal_active_at_timestamp self, is_pascal_transition_at_timestamp self);
  (is_lorentz_active_at_timestamp self, is_lorentz_transition_at_timestamp self);
  (is_maxwell_active_at_timestamp self, is_maxwell_transition_at_timestamp self);
  (is_fermi_active_at_timestamp self, is_fermi_transition_at_timestamp self);
  (is_tycho_active_at_timestamp self, is_tycho_transition_at_timestamp self)].

Section Transitions.
Context `{BH : BscHardforks CS}.
Context {FL : ForkConditionLaws H} {EL : EthereumHardforksLaws CS}.
Variable self : CS.

(** What every pair of [timestamp_forks] satisfies. *)
Definition fork_pair_ok (p : (Z → Z → bool) * (Z → Z → Z → bool)) : Prop :=
  (∀ n m t u, n <= m → t <= u → p.1 n t = true → p.1 m u = true) ∧
  (∀ n t pt, p.2 n t pt = negb (p.1 (saturating_sub n 1) pt) && p.1 n t).

Lemma timestamp_forks_ok : Forall fork_pair_ok (timestamp_forks self).
Proof.
  repeat constructor; simpl;
    try (unfold is_prague_transition_at_block_and_timestamp; intros; apply andb_comm);
    intros n m t u Hn Ht;
    unfold is_kepler_active_at_timestamp, is_feynman_active_at_timestamp,
      is_feynman_fix_active_at_timestamp, is_cancun_active_at_timestamp,
      is_haber_active_at_timestamp, is_haber_fix_active_at_timestamp,
      is_bohr_active_at_timestamp, is_prague_active_at_block_and_timestamp,
      is_pascal_active_at_timestamp, is_lorentz_active_at_timestamp,
      is_maxwell_active_at_timestamp, is_fermi_active_at_timestamp, is_tycho_active_at_timestamp;
    rewrite !is_london_active_at_block_def, ?is_prague_active_at_timestamp_def;
    intros [Hl Hf]%andb_true_iff; apply andb_true_iff;
    split; eauto using active_at_block_mono, active_at_timestamp_mono.
Qed.

(** A predicate on block numbers that never turns off again turns on once. *)
Lemma first_active_exists (act : Z → bool) i j :
  i <= j → act i = false → act j = true →
  (∀ k l, k <= l → act k = true → act l = true) →
  ∃ k, i < k <= j ∧ act (k - 1) = false ∧ act k = true.
Proof.
  intros Hij Hi Hj Hmono. revert Hj. pattern j.
  apply (Zlt_lower_bound_ind _ i); [|done].
  intros k IH Hik Hk. destruct (decide (k = i)) as [->|]; [congruence|].
  destruct (act (k - 1)) eqn:Hk1.
  - destruct (IH (k - 1)) as (l & ? & ? & ?); [lia|done|]. exists l. split_and!; auto; lia.
  - exists k. split_and!; auto; lia.
Qed.

(** A fork activated by timestamp has exactly one transition block on a
    chain: if the timestamps [ts] of the blocks never decrease and the fork is
    inactive at block [i] and active at a later block [j], then
    [is_*_transition_at_*] holds at one block after [i] up to [j] and at no
    other one.  (The system contract upgrades of the fork run at that block.) *)
Theorem timestamp_transition_exactly_once p (ts : Z → Z) i j :
  p ∈ timestamp_forks self →
  (∀ k l, 0 <= k → k <= l → ts k <= ts l) →
  0 <= i → i <= j →
  p.1 i (ts i) = false → p.1 j (ts j) = true →
  ∃ k, i < k <= j ∧ p.2 k (ts k) (ts (k - 1)) = true ∧
       ∀ l, 0 < l → p.2 l (ts l) (ts (l - 1)) = true → l = k.
Proof.
  intros Hp Hts Hi Hij Hoff Hon.
  destruct (proj1 (list.Forall_forall _ _) timestamp_forks_ok p Hp) as [Hmono Htr].
  set (act := λ k, if k <? 0 then false else p.1 k (ts k)).
  assert (Hact : ∀ k l, k <= l → act k = true → act l = true).
  { intros k l Hkl. unfold act.
    destruct (Z.ltb_spec k 0); [done|]. destruct (Z.ltb_spec l 0); [lia|]. eauto. }
  destruct (first_active_exists act i j) as (k & Hk & Hk0 & Hk1); try done.
  { unfold act. destruct (Z.ltb_spec i 0); [done|done]. }
  { unfold act. destruct (Z.ltb_spec j 0); [lia|done]. }
  unfold act in Hk0, Hk1.
  destruct (Z.ltb_spec (k - 1) 0); [lia|]. destruct (Z.ltb_spec k 0); [lia|].
  exists k. split; [done|]. rewrite Htr.
  unfold saturating_sub. rewrite Z.max_r, Hk0, Hk1 by lia. split; [done|].
  intros l Hl. rewrite Htr. unfold saturating_sub. rewrite Z.max_r by lia.
  intros [Hl0%negb_true_iff Hl1]%andb_true_iff.
  destruct (Z.lt_trichotomy l k) as [Hlt|[->|Hlt]]; [|done|].
  - rewrite (Hmono l (k - 1) (ts l) (ts (k - 1))) in Hk0; [done|lia| |done]. apply Hts; lia.
  - rewrite (Hmono k (l - 1) (ts k) (ts (l - 1))) in Hl0; [done|lia| |done]. apply Hts; lia.
Qed.

End Transitions.

#[export] Instance BscChainSpec_laws `{HA : HardforksApi} : EthereumHardforksLaws BscChainSpec.
Proof. by split. Qed.

Section TransitionWitness.
#[local] Existing Instances RefHardforks.fc_api RefHardforks.hardforks_api.

(** Fermi on the test network, with blocks every second around its activation. *)
Lemma timestamp_transition_exactly_once_witness :
  ∃ k, 40000000 < k <= 40000010 ∧
       is_fermi_transition_at_timestamp
         testnet_spec k (1722741495 + k) (1722741495 + (k - 1)) = true.
Proof.
  destruct (timestamp_transition_exactly_once (FL:=RefHardforks.fc_laws)
    testnet_spec
    (is_fermi_active_at_timestamp testnet_spec, is_fermi_transition_at_timestamp testnet_spec)
    (λ k, 1722741495 + k) 40000000 40000010) as (k & Hk & Htr & _).
  - apply list_elem_of_lookup. exists 11%nat. reflexivity.
  - intros. lia.
  - lia.
  - lia.
  - reflexivity.
  - reflexivity.
  - exists k. split; [exact Hk|exact Htr].
Defined.

End TransitionWitness.

Section Schedules.
Context `{HL : HardforksLaws}.
Context {FL : ForkConditionLaws H}.

(** On the main network the fork chosen for a block never goes back: a
    block with a greater number and timestamp gets the same or a later fork of
    the enumeration [BscHardfork]. *)
Theorem mainnet_revm_spec_monotone t t' n n' :
  t <= t' → n <= n' →
  hf_index (revm_spec_by_timestamp_and_block_number mainnet_spec t n)
  <= hf_index (revm_spec_by_timestamp_and_block_number mainnet_spec t' n').
Proof.
  intros Ht Hn. rewrite (proj1 chains_of_tables), !transfer_revm_spec.
  rewrite !ref_mainnet_rank. apply first_rank_mono.
  - unfold mainnet_ranks.
    repeat constructor; simpl; rewrite ?andb_true_iff, !Z.leb_le; lia.
  - repeat constructor; simpl; lia.
  - repeat constructor; simpl; lia.
Qed.

(** London's block and the timestamps of the two live chains, in the order of
    [timestamp_forks]. *)
Definition mainnet_schedule : Z * list Z := (31302048,
  [1705996800; 1713419340; 1713419340; 1718863500; 1718863500; 1727316120; 1727317200;
   1742436600; 1742436600; 1745903100; 1751250600; 1768357800; 1718863500]).
Definition testnet_schedule : Z * list Z := (31103030,
  [1702972800; 1710136800; 1711342800; 1713330442; 1716962820; 1719986788; 1724116996;
   1740452880; 1740452880; 1744097580; 1748243100; 1762741500; 1713330442]).

Lemma transfer_prague l t :
  is_prague_active_at_timestamp (chain_of l) t
  = RefHardforks.fc_at_timestamp (RefHardforks.assoc l (Eth EthPrague)) t.
Proof. intros. simpl. rewrite fork_interp. apply interp_at_timestamp. Qed.

Ltac unfold_timestamp_methods :=
  unfold is_kepler_active_at_timestamp, is_feynman_active_at_timestamp,
    is_feynman_fix_active_at_timestamp, is_cancun_active_at_timestamp,
    is_haber_active_at_timestamp, is_haber_fix_active_at_timestamp,
    is_bohr_active_at_timestamp, is_prague_active_at_block_and_timestamp,
    is_pascal_active_at_timestamp, is_lorentz_active_at_timestamp,
    is_maxwell_active_at_timestamp, is_fermi_active_at_timestamp, is_tycho_active_at_timestamp.

(** Walks through the 13 entries of [timestamp_forks]. *)
Ltac solve_live k :=
  do 13 (destruct k as [|k];
    [intros [= <-]; eexists; split; [reflexivity|]; simpl; unfold_timestamp_methods;
     rewrite transfer_london, ?transfer_prague, ?transfer_at_timestamp;
     reflexivity|]); done.

Lemma mainnet_live k a n t :
  timestamp_forks mainnet_spec !! k = Some a →
  ∃ T, mainnet_schedule.2 !! k = Some T ∧ a.1 n t = (mainnet_schedule.1 <=? n) && (T <=? t).
Proof. rewrite (proj1 chains_of_tables). solve_live k. Qed.

Lemma testnet_live k a n t :
  timestamp_forks testnet_spec !! k = Some a →
  ∃ T, testnet_schedule.2 !! k = Some T ∧ a.1 n t = (testnet_schedule.1 <=? n) && (T <=? t).
Proof. rewrite (proj1 (proj2 chains_of_tables)). solve_live k. Qed.

Lemma schedule_sorted (l : list Z) i j x y :
  StronglySorted Z.le (take 12 l) → (i <= j)%nat → (j < 12)%nat →
  l !! i = Some x → l !! j = Some y → x <= y.
Proof.
  intros Hs Hij Hj Hx Hy. destruct (decide (i = j)) as [->|]; [simplify_eq; lia|].
  apply (StronglySorted_lookup_lt Z.le _ i j x y Hs); [lia|..]; rewrite lookup_take_lt by lia; done.
Qed.

(** On the main and test networks the timestamp forks are nested: wherever
    a fork of the list [timestamp_forks] is active, every fork listed before it
    is active too.  (The last entry, [Tycho], is not in schedule order; no
    decision of the source uses it.) *)
Theorem timestamp_forks_nested (chain : BscChainSpec) i j a b n t :
  chain = mainnet_spec ∨ chain = testnet_spec →
  (i <= j)%nat → (j < 12)%nat →
  timestamp_forks chain !! i = Some a → timestamp_forks chain !! j = Some b →
  b.1 n t = true → a.1 n t = true.
Proof.
  intros [-> | ->] Hij Hj Ha Hb;
    [destruct (mainnet_live i a n t Ha) as (x & Hx & ->), (mainnet_live j b n t Hb) as (y & Hy & ->)
    |destruct (testnet_live i a n t Ha) as (x & Hx & ->), (testnet_live j b n t Hb) as (y & Hy & ->)];
    (assert (x <= y); [eapply (schedule_sorted _ i j); [|done|done|exact Hx|exact Hy];
       repeat constructor; lia|]);
    rewrite !andb_true_iff, !Z.leb_le; lia.
Qed.

(** The local development chain lists Bohr at block 0, but no block of
    that chain ever runs under Bohr: its table has no London fork, and a block
    condition is never active by timestamp. *)
Theorem local_chain_never_bohr n t :
  (Bsc Bohr, FC_Block 0) ∈ bsc_local ∧ is_bohr_active_at_timestamp local_spec n t = false.
Proof.
  split; [right; left|].
  unfold is_bohr_active_at_timestamp. simpl.
  rewrite !fork_table_lookup. unfold table_lookup. simpl.
  by rewrite active_at_block_Never.
Qed.

End Schedules.

(** The EVM specification of the forks grows with the enumeration: a later
    BSC fork never selects an earlier revm specification. *)
Theorem spec_id_monotone f g :
  hf_index f <= hf_index g → spec_index (spec_id_of f) <= spec_index (spec_id_of g).
Proof. destruct f, g; simpl; lia. Qed.

(** ** Witnesses *)

Section Witnesses.
#[local] Existing Instances RefHardforks.fc_api RefHardforks.hardforks_api
  RefHardforks.fc_laws RefHardforks.hardforks_laws.

Lemma mainnet_revm_spec_monotone_witness :
  hf_index (revm_spec_by_timestamp_and_block_number mainnet_spec 1700000000 22107422)
  <= hf_index (revm_spec_by_timestamp_and_block_number mainnet_spec 1700000000 23846001)
  ∧ revm_spec_by_timestamp_and_block_number mainnet_spec 1700000000 22107422 = Nano
  ∧ revm_spec_by_timestamp_and_block_number mainnet_spec 1700000000 23846001 = Gibbs.
Proof.
  split_and!; [|reflexivity|reflexivity].
  apply (mainnet_revm_spec_monotone 1700000000 1700000000 22107422 23846001); lia.
Defined.

Lemma timestamp_forks_nested_witness :
  is_bohr_active_at_timestamp mainnet_spec 60000000 1768357800 = true.
Proof.
  apply (timestamp_forks_nested mainnet_spec 6 11
    (is_bohr_active_at_timestamp mainnet_spec, is_bohr_transition_at_timestamp mainnet_spec)
    (is_fermi_active_at_timestamp mainnet_spec, is_fermi_transition_at_timestamp mainnet_spec));
    [by left|lia|lia|reflexivity|reflexivity|reflexivity].
Defined.

Lemma spec_id_monotone_witness : spec_index (spec_id_of Nano) <= spec_index (spec_id_of Hertz).
Proof. apply (spec_id_monotone Nano Hertz). simpl. lia. Defined.

Lemma local_chain_never_bohr_witness : is_bohr_active_at_timestamp local_spec 5 1768357800 = false.
Proof. exact (proj2 (local_chain_never_bohr 5 1768357800)). Defined.

(** The tests of [src/hardforks/bsc.rs]. *)
Example activation_order_mainnet :
  (λ n, revm_spec_by_timestamp_and_block_number mainnet_spec 1700000000 n) <$>
    [23846000; 23846001; 22107422; 22107423] = [Moran; Gibbs; Nano; Moran].
Proof. reflexivity. Qed.

Example activation_order_testnet :
  (λ n, revm_spec_by_timestamp_and_block_number testnet_spec 1700000000 n) <$>
    [23603939; 23603940; 23482427; 23482428] = [Nano; Moran; Gibbs; Nano].
Proof. reflexivity. Qed.

End Witnesses.
