(* ===== verification/GoRng.v ===== *)
(** * The Go pseudo-random generator ([src/consensus/parlia/go_rng.rs])

    An additive lagged Fibonacci generator (607, 273) seeded by a Lehmer
    generator, and the Fisher-Yates shuffle driven by it.  The consensus uses
    it to derive the back-off order of the validators, so all nodes must
    compute the same shuffle.

    [i64] registers are [Z] in two's complement range.  The two rejection loops
    ([int63n], [int31n]) take the number of draws they may make as fuel. *)

From S2P Require Import Prelude.

Definition RNG_LEN : Z := 607.
Definition RNG_TAP : Z := 273.
Definition RNG_MAX : Z := 2 ^ 63.
Definition RNG_MASK : Z := RNG_MAX - 1.
Definition INT32_MAX : Z := 2 ^ 31 - 1.

(** The seeding table, in five consecutive parts. *)
Definition RNG_COOKED_0 : list Z := [
  -4181792142133755926; -4576982950128230565; 1395769623340756751; 5333664234075297259;
  -6347679516498800754; 9033628115061424579; 7143218595135194537; 4812947590706362721;
  7937252194349799378; 5307299880338848416; 8209348851763925077; -7107630437535961764;
  4593015457530856296; 8140875735541888011; -5903942795589686782; -603556388664454774;
  -7496297993371156308; 113108499721038619; 4569519971459345583; -4160538177779461077;
  -6835753265595711384; -6507240692498089696; 6559392774825876886; 7650093201692370310;
  7684323884043752161; -8965504200858744418; -2629915517445760644; 271327514973697897;
  -6433985589514657524; 1065192797246149621; 3344507881999356393; -4763574095074709175;
  7465081662728599889; 1014950805555097187; -4773931307508785033; -5742262670416273165;
  2418672789110888383; 5796562887576294778; 4484266064449540171; 3738982361971787048;
  -4699774852342421385; 10530508058128498; -589538253572429690; -6598062107225984180;
  8660405965245884302; 10162832508971942; -2682657355892958417; 7031802312784620857;
  6240911277345944669; 831864355460801054; -1218937899312622917; 2116287251661052151;
  2202309800992166967; 9161020366945053561; 4069299552407763864; 4936383537992622449;
  457351505131524928; -8881176990926596454; -6375600354038175299; -7155351920868399290;
  4368649989588021065; 887231587095185257; -3659780529968199312; -2407146836602825512;
  5616972787034086048; -751562733459939242; 1686575021641186857; -5177887698780513806;
  -4979215821652996885; -1375154703071198421; 5632136521049761902; -8390088894796940536;
  -193645528485698615; -5979788902190688516; -4907000935050298721; -285522056888777828;
  -2776431630044341707; 1679342092332374735; 6050638460742422078; -2229851317345194226;
  -1582494184340482199; 5881353426285907985; 812786550756860885; 4541845584483343330;
  -6497901820577766722; 4980675660146853729; -4012602956251539747; -329088717864244987;
  -2896929232104691526; 1495812843684243920; -2153620458055647789; 7370257291860230865;
  -2466442761497833547; 4706794511633873654; -1398851569026877145; 8549875090542453214;
  -9189721207376179652; -7894453601103453165; 7297902601803624459; 1011190183918857495;
  -6985347000036920864; 5147159997473910359; -8326859945294252826; 2659470849286379941;
  6097729358393448602; -7491646050550022124; -5117116194870963097; -896216826133240300;
  -745860416168701406; 5803876044675762232; -787954255994554146; -3234519180203704564;
  -4507534739750823898; -1657200065590290694; 505808562678895611; -4153273856159712438;
  -8381261370078904295; 572156825025677802; 1791881013492340891; 3393267094866038768;
  -5444650186382539299; 2352769483186201278; -7930912453007408350; -325464993179687389;
  -3441562999710612272; -6489413242825283295; 5092019688680754699; -227247482082248967;
  4234737173186232084; 5027558287275472836; 4635198586344772304; -536033143587636457;
  5907508150730407386; -8438615781380831356; 972392927514829904; -3801314342046600696;
  -4064951393885491917; -174840358296132583; 2407211146698877100; -1640089820333676239;
  3940796514530962282; -5882197405809569433; 3095313889586102949; -1818050141166537098;
  5832080132947175283; 7890064875145919662; 8184139210799583195; -8073512175445549678;
  -7758774793014564506; -4581724029666783935].

Definition RNG_COOKED_1 : list Z := [
  3516491885471466898; -8267083515063118116; 6657089965014657519; 5220884358887979358;
  1796677326474620641; 5340761970648932916; 1147977171614181568; 5066037465548252321;
  2574765911837859848; 1085848279845204775; -5873264506986385449; 6116438694366558490;
  2107701075971293812; -7420077970933506541; 2469478054175558874; -1855128755834809824;
  -5431463669011098282; -9038325065738319171; -6966276280341336160; 7217693971077460129;
  -8314322083775271549; 7196649268545224266; -3585711691453906209; -5267827091426810625;
  8057528650917418961; -5084103596553648165; -2601445448341207749; -7850010900052094367;
  6527366231383600011; 3507654575162700890; 9202058512774729859; 1954818376891585542;
  -2582991129724600103; 8299563319178235687; -5321504681635821435; 7046310742295574065;
  -2376176645520785576; -7650733936335907755; 8850422670118399721; 3631909142291992901;
  5158881091950831288; -6340413719511654215; 4763258931815816403; 6280052734341785344;
  -4979582628649810958; 2043464728020827976; -2678071570832690343; 4562580375758598164;
  5495451168795427352; -7485059175264624713; 553004618757816492; 6895160632757959823;
  -989748114590090637; 7139506338801360852; -672480814466784139; 5535668688139305547;
  2430933853350256242; -3821430778991574732; -1063731997747047009; -3065878205254005442;
  7632066283658143750; 6308328381617103346; 3681878764086140361; 3289686137190109749;
  6587997200611086848; 244714774258135476; -5143583659437639708; 8090302575944624335;
  2945117363431356361; -8359047641006034763; 3009039260312620700; -793344576772241777;
  401084700045993341; -1968749590416080887; 4707864159563588614; -3583123505891281857;
  -3240864324164777915; -5908273794572565703; -3719524458082857382; -5281400669679581926;
  8118566580304798074; 3839261274019871296; 7062410411742090847; -8481991033874568140;
  6027994129690250817; -6725542042704711878; -2971981702428546974; -7854441788951256975;
  8809096399316380241; 6492004350391900708; 2462145737463489636; -8818543617934476634;
  -5070345602623085213; -8961586321599299868; -3758656652254704451; -8630661632476012791;
  6764129236657751224; -709716318315418359; -3403028373052861600; -8838073512170985897;
  -3999237033416576341; -2920240395515973663; -2073249475545404416; 368107899140673753;
  -6108185202296464250; -6307735683270494757; 4782583894627718279; 6718292300699989587;
  8387085186914375220; 3387513132024756289; 4654329375432538231; -292704475491394206;
  -3848998599978456535; 7623042350483453954; 7725442901813263321; 9186225467561587250;
  -5132344747257272453; -6865740430362196008; 2530936820058611833; 1636551876240043639;
  -3658707362519810009; 1452244145334316253; -7161729655835084979; -7943791770359481772;
  9108481583171221009; -3200093350120725999; 5007630032676973346; 2153168792952589781;
  6720334534964750538; -3181825545719981703; 3433922409283786309; 2285479922797300912;
  3110614940896576130; -2856812446131932915; -3804580617188639299; 7163298419643543757;
  4891138053923696990; 580618510277907015; 1684034065251686769; 4429514767357295841;
  -8893025458299325803; -8103734041042601133; 7177515271653460134; 4589042248470800257;
  -1530083407795771245; 143607045258444228; 246994305896273627; -8356954712051676521;
  6473547110565816071; 3092379936208876896].

Definition RNG_COOKED_2 : list Z := [
  2058427839513754051; -4089587328327907870; 8785882556301281247; -3074039370013608197;
  -637529855400303673; 6137678347805511274; -7152924852417805802; 5708223427705576541;
  -3223714144396531304; 4358391411789012426; 325123008708389849; 6837621693887290924;
  4843721905315627004; -3212720814705499393; -3825019837890901156; 4602025990114250980;
  1044646352569048800; 9106614159853161675; -8394115921626182539; -4304087667751778808;
  2681532557646850893; 3681559472488511871; -3915372517896561773; -2889241648411946534;
  -6564663803938238204; -8060058171802589521; 581945337509520675; 3648778920718647903;
  -4799698790548231394; -7602572252857820065; 220828013409515943; -1072987336855386047;
  4287360518296753003; -4633371852008891965; 5513660857261085186; -2258542936462001533;
  -8744380348503999773; 8746140185685648781; 228500091334420247; 1356187007457302238;
  3019253992034194581; 3152601605678500003; -8793219284148773595; 5559581553696971176;
  4916432985369275664; -8559797105120221417; -5802598197927043732; 2868348622579915573;
  -7224052902810357288; -5894682518218493085; 2587672709781371173; -7706116723325376475;
  3092343956317362483; -5561119517847711700; 972445599196498113; -1558506600978816441;
  1708913533482282562; -2305554874185907314; -6005743014309462908; -6653329009633068701;
  -483583197311151195; 2488075924621352812; -4529369641467339140; -4663743555056261452;
  2997203966153298104; 1282559373026354493; 240113143146674385; 8665713329246516443;
  628141331766346752; -4651421219668005332; -7750560848702540400; 7596648026010355826;
  -3132152619100351065; 7834161864828164065; 7103445518877254909; 4390861237357459201;
  -4780718172614204074; -319889632007444440; 622261699494173647; -3186110786557562560;
  -8718967088789066690; -1948156510637662747; -8212195255998774408; -7028621931231314745;
  2623071828615234808; -4066058308780939700; -5484966924888173764; -6683604512778046238;
  -6756087640505506466; 5256026990536851868; 7841086888628396109; 6640857538655893162;
  -8021284697816458310; -7109857044414059830; -1689021141511844405; -4298087301956291063;
  -4077748265377282003; -998231156719803476; 2719520354384050532; 9132346697815513771;
  4332154495710163773; -2085582442760428892; 6994721091344268833; -2556143461985726874;
  -8567931991128098309; 59934747298466858; -3098398008776739403; -265597256199410390;
  2332206071942466437; -7522315324568406181; 3154897383618636503; -7585605855467168281;
  -6762850759087199275; 197309393502684135; -8579694182469508493; 2543179307861934850;
  4350769010207485119; -4468719947444108136; -7207776534213261296; -1224312577878317200;
  4287946071480840813; 8362686366770308971; 6486469209321732151; -5605644191012979782;
  -1669018511020473564; 4450022655153542367; -7618176296641240059; -3896357471549267421;
  -4596796223304447488; -6531150016257070659; -8982326463137525940; -4125325062227681798;
  -1306489741394045544; -8338554946557245229; 5329160409530630596; 7790979528857726136;
  4955070238059373407; -4304834761432101506; -6215295852904371179; 3007769226071157901;
  -6753025801236972788; 8928702772696731736; 7856187920214445904; -4748497451462800923;
  7900176660600710914; -7082800908938549136; -6797926979589575837; -6737316883512927978;
  4186670094382025798; 1883939007446035042].

Definition RNG_COOKED_3 : list Z := [
  -414705992779907823; 3734134241178479257; 4065968871360089196; 6953124200385847784;
  -7917685222115876751; -7585632937840318161; -5567246375906782599; -5256612402221608788;
  3106378204088556331; -2894472214076325998; 4565385105440252958; 1979884289539493806;
  -6891578849933910383; 3783206694208922581; 8464961209802336085; 2843963751609577687;
  3030678195484896323; -4429654462759003204; 4459239494808162889; 402587895800087237;
  8057891408711167515; 4541888170938985079; 1042662272908816815; -3666068979732206850;
  2647678726283249984; 2144477441549833761; -3417019821499388721; -2105601033380872185;
  5916597177708541638; -8760774321402454447; 8833658097025758785; 5970273481425315300;
  563813119381731307; -6455022486202078793; 1598828206250873866; -4016978389451217698;
  -2988328551145513985; -6071154634840136312; 8469693267274066490; 125672920241807416;
  -3912292412830714870; -2559617104544284221; -486523741806024092; -4735332261862713930;
  5923302823487327109; -9082480245771672572; -1808429243461201518; 7990420780896957397;
  4317817392807076702; 3625184369705367340; -6482649271566653105; -3480272027152017464;
  -3225473396345736649; -368878695502291645; -3981164001421868007; -8522033136963788610;
  7609280429197514109; 3020985755112334161; -2572049329799262942; 2635195723621160615;
  5144520864246028816; -8188285521126945980; 1567242097116389047; 8172389260191636581;
  -2885551685425483535; -7060359469858316883; -6480181133964513127; -7317004403633452381;
  6011544915663598137; 5932255307352610768; 2241128460406315459; -8327867140638080220;
  3094483003111372717; 4583857460292963101; 9079887171656594975; -384082854924064405;
  -3460631649611717935; 4225072055348026230; -7385151438465742745; 3801620336801580414;
  -399845416774701952; -7446754431269675473; 7899055018877642622; 5421679761463003041;
  5521102963086275121; -4975092593295409910; 8735487530905098534; -7462844945281082830;
  -2080886987197029914; -1000715163927557685; -4253840471931071485; -5828896094657903328;
  6424174453260338141; 359248545074932887; -5949720754023045210; -2426265837057637212;
  3030918217665093212; -9077771202237461772; -3186796180789149575; 740416251634527158;
  -2142944401404840226; 6951781370868335478; 399922722363687927; -8928469722407522623;
  -1378421100515597285; -8343051178220066766; -3030716356046100229; -8811767350470065420;
  9026808440365124461; 6440783557497587732; 4615674634722404292; 539897290441580544;
  2096238225866883852; 8751955639408182687; -7316147128802486205; 7381039757301768559;
  6157238513393239656; -1473377804940618233; 8629571604380892756; 5280433031239081479;
  7101611890139813254; 2479018537985767835; 7169176924412769570; -1281305539061572506;
  -7865612307799218120; 2278447439451174845; 3625338785743880657; 6477479539006708521;
  8976185375579272206; -3712000482142939688; 1326024180520890843; 7537449876596048829;
  5464680203499696154; 3189671183162196045; 6346751753565857109; -8982212049534145501;
  -6127578587196093755; -245039190118465649; -6320577374581628592; 7208698530190629697;
  7276901792339343736; -7490986807540332668; 4133292154170828382; 2918308698224194548;
  -7703910638917631350; -3929437324238184044; -4300543082831323144; -6344160503358350167;
  5896236396443472108; -758328221503023383].

Definition RNG_COOKED_4 : list Z := [
  -1894351639983151068; -307900319840287220; -6278469401177312761; -2171292963361310674;
  8382142935188824023; 9103922860780351547; 4152330101494654406].

Definition RNG_COOKED : list Z :=
  RNG_COOKED_0 ++ RNG_COOKED_1 ++ RNG_COOKED_2 ++ RNG_COOKED_3 ++ RNG_COOKED_4.

(** [seed_rand]: [i32] arithmetic; [/] and [%] truncate. *)
Definition seed_rand (x : Z) : Z :=
  let A := 48271 in let Q := 44488 in let R := 3399 in
  let hi := Z.quot x Q in
  let lo := Z.rem x Q in
  let x := wraps 32 (wraps 32 (A * lo) - wraps 32 (R * hi)) in
  if x <? 0 then wraps 32 (x + INT32_MAX) else x.

Record RngSource := {
  tap : Z;
  feed : Z;
  vec : list Z;
}.

(** [self.vec[i]] and [self.vec[i] = u]. *)
Definition vec_get {E} (r : RngSource) (i : Z) : comp E Z := index (vec r) i.
Definition vec_set {E} (r : RngSource) (i : Z) (u : Z) : comp E RngSource :=
  if (0 <=? i) && (i <? zlen (vec r))
  then Ret {| tap := tap r; feed := feed r; vec := <[Z.to_nat i := u]> (vec r) |}
  else Panic.

(** The body of the seeding loop for an index [i >= 0]: three Lehmer draws
    combined with the table. *)
Definition seed_entry {E} (x i : Z) : comp E (Z * Z) :=
  let u := wraps 64 (Z.shiftl x 40) in
  let x := seed_rand x in
  let u := Z.lxor u (wraps 64 (Z.shiftl x 20)) in
  let x := seed_rand x in
  let u := Z.lxor u x in
  c ← index RNG_COOKED i;
  Ret (x, Z.lxor u c).

(** The loop [while i < RNG_LEN] with [n] iterations left, from index [i]. *)
Fixpoint seed_loop {E} (n : nat) (i x : Z) (r : RngSource) : comp E RngSource :=
  match n with
  | O => Ret r
  | S n =>
      let x := seed_rand x in
      if i >=? 0 then
        '(x, u) ← seed_entry x i;
        r ← vec_set r i u;
        seed_loop n (i + 1) x r
      else seed_loop n (i + 1) x r
  end.

Definition normalize_seed (seed : Z) : Z :=
  let seed := Z.rem seed INT32_MAX in
  let seed := if seed <? 0 then seed + INT32_MAX else seed in
  if seed =? 0 then 89482311 else seed.

(** [RngSource::seed]; the loop runs from -20 to 606. *)
Definition rng_seed {E} (r : RngSource) (seed : Z) : comp E RngSource :=
  let r := {| tap := 0; feed := RNG_LEN - RNG_TAP; vec := vec r |} in
  seed_loop 627 (-20) (normalize_seed seed) r.

(** [RngSource::new]. *)
Definition rng_new {E} (seed : Z) : comp E RngSource :=
  rng_seed {| tap := 0; feed := 0; vec := replicate 607 0 |} seed.

(** [RngSource::uint64]. *)
Definition uint64 {E} (r : RngSource) : comp E (Z * RngSource) :=
  let t := (tap r + RNG_LEN - 1) mod RNG_LEN in
  let f := (feed r + RNG_LEN - 1) mod RNG_LEN in
  let r := {| tap := t; feed := f; vec := vec r |} in
  a ← vec_get r f;
  b ← vec_get r t;
  let x := wraps 64 (a + b) in
  r ← vec_set r f x;
  Ret (wrapu 64 x, r).

Definition int63 {E} (r : RngSource) : comp E (Z * RngSource) :=
  '(x, r) ← uint64 r; Ret (Z.land x RNG_MASK, r).

Definition uint32 {E} (r : RngSource) : comp E (Z * RngSource) :=
  '(x, r) ← int63 r; Ret (wrapu 32 (Z.shiftr x 31), r).

(** [while v > max { v = self.int63(); }] *)
Fixpoint int63n_loop {E} (fuel : nat) (max v : Z) (r : RngSource) : comp E (Z * RngSource) :=
  if v >? max then
    match fuel with
    | O => OutOfFuel
    | S fuel => '(v, r) ← int63 r; int63n_loop fuel max v r
    end
  else Ret (v, r).

Definition int63n {E} (fuel : nat) (n : Z) (r : RngSource) : comp E (Z * RngSource) :=
  _ ← assert_that (0 <? n);
  if Z.land n (n - 1) =? 0 then
    '(x, r) ← int63 r; Ret (Z.land x (n - 1), r)
  else
    let min64 := wraps 64 (2 ^ 63) in
    let tmp := wraps 64 (min64 - 1) in
    let max := wraps 64 (tmp - Z.rem min64 n) in
    '(v, r) ← int63 r;
    '(v, r) ← int63n_loop fuel max v r;
    Ret (Z.rem v n, r).

(** [while low < thresh { ... }] *)
Fixpoint int31n_loop {E} (fuel : nat) (n thresh prod : Z) (r : RngSource) :
    comp E (Z * RngSource) :=
  if wrapu 32 prod <? thresh then
    match fuel with
    | O => OutOfFuel
    | S fuel => '(v, r) ← uint32 r; int31n_loop fuel n thresh (mul64 v n) r
    end
  else Ret (prod, r).

(** [RngSource::int31n] on [n : i32]; [n as u64] sign-extends. *)
Definition int31n {E} (fuel : nat) (n : Z) (r : RngSource) : comp E (Z * RngSource) :=
  '(v, r) ← uint32 r;
  let n64 := wrapu 64 n in
  let n32 := wrapu 32 n in
  let prod := mul64 v n64 in
  let low := wrapu 32 prod in
  '(prod, r) ←
    (if low <? n32 then
       thresh ← rem_u (wrapu 32 (wraps 32 (- n))) n32;
       int31n_loop fuel n64 thresh prod r
     else Ret (prod, r));
  Ret (wraps 32 (Z.shiftr prod 32), r).

(** [Vec::swap]: panics when an index is out of range. *)
Definition swap {E A} (l : list A) (i j : Z) : comp E (list A) :=
  x ← index l i;
  y ← index l j;
  Ret (<[Z.to_nat j := x]> (<[Z.to_nat i := y]> l)).

(** The first loop of [shuffle], for the indexes that do not fit 31 bits;
    [k] bounds the number of its iterations. *)
Fixpoint shuffle_loop63 {E A} (fuel k : nat) (i : Z) (l : list A) (r : RngSource) :
    comp E (Z * list A * RngSource) :=
  if i >? 2 ^ 31 - 1 - 1 then
    match k with
    | O => OutOfFuel
    | S k =>
        '(j, r) ← int63n fuel (i + 1) r;
        l ← swap l i j;
        shuffle_loop63 fuel k (i - 1) l r
    end
  else Ret (i, l, r).

(** The second loop, [while i > 0]. *)
Fixpoint shuffle_loop31 {E A} (fuel : nat) (i : nat) (l : list A) (r : RngSource) :
    comp E (list A * RngSource) :=
  match i with
  | O => Ret (l, r)
  | S i' =>
      '(j, r) ← int31n fuel (Z.of_nat i + 1) r;
      l ← swap l (Z.of_nat i) j;
      shuffle_loop31 fuel i' l r
  end.

(** [Shuffle::shuffle] for [Vec<T>]; [fuel] bounds the draws of each rejection
    loop. *)
Definition shuffle {E A} (fuel : nat) (l : list A) (r : RngSource) : comp E (list A * RngSource) :=
  match l with
  | [] => Ret ([], r)
  | _ =>
      '(i, l, r) ← shuffle_loop63 fuel (length l) (zlen l - 1) l r;
      shuffle_loop31 fuel (Z.to_nat i) l r
  end.

(** * Lemmas *)

(** ** Seeding *)

(** Schrage's method computes the Lehmer step without overflow. *)
Lemma seed_rand_step x :
  0 < x < INT32_MAX →
  seed_rand x = (48271 * x) mod INT32_MAX ∧ 0 < seed_rand x < INT32_MAX.
Proof.
  unfold INT32_MAX. intros Hx.
  assert (Heq : seed_rand x = (48271 * x) mod (2 ^ 31 - 1)).
  { unfold seed_rand, INT32_MAX.
    rewrite Z.quot_div_nonneg, Z.rem_mod_nonneg by lia.
    pose proof (Z.div_mod x 44488). pose proof (Z.mod_pos_bound x 44488).
    assert (0 <= x / 44488 <= 48271) by lia.
    rewrite (wraps_small 32 (48271 * _)) by (unfold is_s; lia).
    rewrite (wraps_small 32 (3399 * _)) by (unfold is_s; lia).
    rewrite (wraps_small 32 (_ - _)) by (unfold is_s; lia).
    destruct (Z.ltb_spec (48271 * (x mod 44488) - 3399 * (x / 44488)) 0).
    - rewrite wraps_small by (unfold is_s; lia).
      apply (Z.mod_unique_pos _ _ (x / 44488 - 1)); lia.
    - apply (Z.mod_unique_pos _ _ (x / 44488)); lia. }
  split; [done|]. rewrite Heq.
  pose proof (Z.mod_pos_bound (48271 * x) (2 ^ 31 - 1)).
  assert ((48271 * x) mod (2 ^ 31 - 1) ≠ 0); [|lia].
  intros Hz%Z.mod_divide; [|lia].
  apply Z.gauss in Hz; [|reflexivity]. apply Z.divide_pos_le in Hz; lia.
Qed.

(** The registers of a usable generator. *)
Record rng_ok (r : RngSource) : Prop := {
  ok_tap : 0 <= tap r < RNG_LEN;
  ok_feed : 0 <= feed r < RNG_LEN;
  ok_len : length (vec r) = 607%nat;
  ok_vec : Forall (is_s 64) (vec r);
}.

Lemma RNG_COOKED_ok : length RNG_COOKED = 607%nat ∧ Forall (is_s 64) RNG_COOKED.
Proof.
  split; [reflexivity|].
  assert (Hb : forallb (λ z, (- 2 ^ 63 <=? z) && (z <? 2 ^ 63)) RNG_COOKED = true)
    by (vm_compute; reflexivity).
  apply List.Forall_forall. intros z Hz.
  apply List.forallb_forall with (x:=z) in Hb; [|done].
  unfold is_s. reflect_bools. change (64 - 1) with 63. lia.
Qed.

Lemma lxor_is_s64 a b : is_s 64 a → is_s 64 b → is_s 64 (Z.lxor a b).
Proof.
  unfold is_s. change (64 - 1) with 63. intros Ha Hb.
  assert (Hbit : ∀ z, - 2 ^ 63 <= z < 2 ^ 63 ↔ (Z.shiftr z 63 = 0 ∨ Z.shiftr z 63 = -1)).
  { intros z. rewrite Z.shiftr_div_pow2 by lia.
    pose proof (Z.div_mod z (2 ^ 63)). pose proof (Z.mod_pos_bound z (2 ^ 63)). lia. }
  apply Hbit. apply Hbit in Ha, Hb. rewrite Z.shiftr_lxor.
  destruct Ha as [-> | ->], Hb as [-> | ->]; auto.
Qed.

Lemma vec_get_Ret {E} r i :
  rng_ok r → 0 <= i < RNG_LEN → ∃ x, vec_get (E:=E) r i = Ret x ∧ is_s 64 x.
Proof.
  intros [_ _ Hlen Hvec] Hi. unfold RNG_LEN in Hi.
  destruct (index_Ret (E:=E) (vec r) i) as (x & Hx & Hl); [unfold zlen; lia|].
  exists x. split; [done|]. by apply (Forall_lookup_1 _ _ _ _ Hvec Hl).
Qed.

Lemma vec_set_Ret {E} r i u :
  rng_ok r → 0 <= i < RNG_LEN → is_s 64 u →
  vec_set (E:=E) r i u = Ret {| tap := tap r; feed := feed r; vec := <[Z.to_nat i := u]> (vec r) |}
  ∧ rng_ok {| tap := tap r; feed := feed r; vec := <[Z.to_nat i := u]> (vec r) |}.
Proof.
  intros [Ht Hf Hlen Hvec] Hi Hu. unfold RNG_LEN in *. unfold vec_set.
  rewrite (proj2 (Z.leb_le 0 i)), (proj2 (Z.ltb_lt i _)) by (unfold zlen; lia).
  split; [done|]. split; simpl; [done|done|by rewrite length_insert|by apply Forall_insert].
Qed.

Lemma seed_entry_Ret {E} x i :
  0 < x < INT32_MAX → 0 <= i < RNG_LEN →
  ∃ y u, seed_entry (E:=E) x i = Ret (y, u) ∧ 0 < y < INT32_MAX ∧ is_s 64 u.
Proof.
  intros Hx Hi. unfold seed_entry.
  destruct (proj2 (seed_rand_step _ Hx)) as [Hy1 Hy2].
  set (y := seed_rand x) in *.
  destruct (proj2 (seed_rand_step y (conj Hy1 Hy2))) as [Hz1 Hz2].
  set (z := seed_rand y) in *.
  destruct (index_Ret (E:=E) RNG_COOKED i) as (c & -> & Hc).
  { unfold zlen. rewrite (proj1 RNG_COOKED_ok). unfold RNG_LEN in Hi. lia. }
  eexists _, _. split; [reflexivity|]. split; [done|].
  pose proof (Forall_lookup_1 _ _ _ _ (proj2 RNG_COOKED_ok) Hc).
  repeat apply lxor_is_s64; auto using wraps_is_s with lia;
    [apply wraps_is_s; lia..|]. unfold is_s, INT32_MAX in *. lia.
Qed.

Lemma normalize_seed_range seed : is_s 64 seed → 0 < normalize_seed seed < INT32_MAX.
Proof.
  unfold is_s, normalize_seed, INT32_MAX. intros Hs.
  pose proof (Z.rem_bound_abs seed (2 ^ 31 - 1)).
  destruct (Z.ltb_spec (Z.rem seed (2 ^ 31 - 1)) 0); [destruct (Z.eqb_spec (Z.rem seed (2 ^ 31 - 1) + (2 ^ 31 - 1)) 0)
    |destruct (Z.eqb_spec (Z.rem seed (2 ^ 31 - 1)) 0)]; lia.
Qed.

Lemma seed_loop_Ret {E} n i x r :
  rng_ok r → -20 <= i → i + Z.of_nat n <= RNG_LEN → 0 < x < INT32_MAX →
  ∃ r', seed_loop (E:=E) n i x r = Ret r' ∧ rng_ok r'.
Proof.
  revert i x r. induction n as [|n IH]; intros i x r Hr Hi Hn Hx; [by eexists|].
  simpl. destruct (proj2 (seed_rand_step x Hx)) as [Hy1 Hy2].
  rewrite Z.geb_leb. destruct (Z.leb_spec 0 i).
  - destruct (seed_entry_Ret (E:=E) (seed_rand x) i) as (y & u & -> & Hy & Hu); [done|lia|].
    simpl. destruct (vec_set_Ret (E:=E) r i u) as [-> Hr']; [done|lia|done|].
    simpl. apply IH; [done|lia|lia|done].
  - apply IH; [done|lia|lia|done].
Qed.

Lemma rng_new_Ret {E} seed : is_s 64 seed → ∃ r, rng_new (E:=E) seed = Ret r ∧ rng_ok r.
Proof.
  intros Hs. unfold rng_new, rng_seed.
  apply (seed_loop_Ret 627 (-20)); [|lia|unfold RNG_LEN; lia|by apply normalize_seed_range].
  split; cbn [tap feed vec]; [unfold RNG_LEN, RNG_TAP; lia..|apply length_replicate|].
  apply Forall_replicate. unfold is_s. lia.
Qed.

(** ** Draws *)

Lemma uint64_Ret {E} r :
  rng_ok r → ∃ x r', uint64 (E:=E) r = Ret (x, r') ∧ is_u 64 x ∧ rng_ok r'.
Proof.
  intros Hr. unfold uint64.
  set (t := (tap r + RNG_LEN - 1) mod RNG_LEN). set (f := (feed r + RNG_LEN - 1) mod RNG_LEN).
  assert (Ht : 0 <= t < RNG_LEN) by (apply Z.mod_pos_bound; unfold RNG_LEN; lia).
  assert (Hf : 0 <= f < RNG_LEN) by (apply Z.mod_pos_bound; unfold RNG_LEN; lia).
  set (r1 := {| tap := t; feed := f; vec := vec r |}).
  assert (Hr1 : rng_ok r1) by (split; simpl; [done|done|by destruct Hr..]).
  destruct (vec_get_Ret (E:=E) r1 f Hr1 Hf) as (a & -> & _). simpl.
  destruct (vec_get_Ret (E:=E) r1 t Hr1 Ht) as (b & -> & _). simpl.
  destruct (vec_set_Ret (E:=E) r1 f (wraps 64 (a + b)) Hr1 Hf) as [-> Hr2];
    [by apply wraps_is_s|]. simpl.
  eexists _, _. split; [reflexivity|]. split; [by apply wrapu_is_u|done].
Qed.

Lemma int63_Ret {E} r :
  rng_ok r → ∃ x r', int63 (E:=E) r = Ret (x, r') ∧ is_u 63 x ∧ rng_ok r'.
Proof.
  intros Hr. unfold int63. destruct (uint64_Ret (E:=E) r Hr) as (x & r' & -> & Hx & Hr').
  simpl. eexists _, r'. split; [reflexivity|]. split; [|done].
  change RNG_MASK with (Z.ones 63). rewrite Z.land_ones by lia.
  apply Z.mod_pos_bound. lia.
Qed.

Lemma uint32_Ret {E} r :
  rng_ok r → ∃ x r', uint32 (E:=E) r = Ret (x, r') ∧ is_u 32 x ∧ rng_ok r'.
Proof.
  intros Hr. unfold uint32. destruct (int63_Ret (E:=E) r Hr) as (x & r' & -> & Hx & Hr').
  simpl. eexists _, r'. split; [reflexivity|]. split; [by apply wrapu_is_u|done].
Qed.

(** The [k]-th of the [uint32] draws from a state, and the state after it. *)
Fixpoint draw {E} (r : RngSource) (k : nat) : comp E (Z * RngSource) :=
  match k with
  | O => uint32 r
  | S k => '(_, r) ← uint32 r; draw r k
  end.

(** Lemire's acceptance test for a draw [v]. *)
Definition accepted (n v : Z) : bool := 2 ^ 32 mod n <=? (v * n) mod 2 ^ 32.

Lemma draw_Ret {E} r k :
  rng_ok r → ∃ v r', draw (E:=E) r k = Ret (v, r') ∧ is_u 32 v ∧ rng_ok r'.
Proof.
  revert r. induction k as [|k IH]; intros r Hr; simpl; [by apply uint32_Ret|].
  destruct (uint32_Ret (E:=E) r Hr) as (x & r' & -> & _ & Hr'). simpl. by apply IH.
Qed.

Lemma thresh_eq n : 0 < n < 2 ^ 31 → wrapu 32 (wraps 32 (- n)) mod n = 2 ^ 32 mod n.
Proof.
  intros Hn. rewrite wraps_small by (unfold is_s; lia). unfold wrapu.
  replace (- n mod 2 ^ 32) with (2 ^ 32 + (-1) * n).
  - by rewrite Z.mod_add by lia.
  - apply (Z.mod_unique_pos _ _ (-1)); lia.
Qed.

Lemma prod_range n v : 0 < n < 2 ^ 31 → is_u 32 v → 0 <= v * n / 2 ^ 32 < n.
Proof.
  unfold is_u. intros Hn Hv. split; [apply Z.div_pos; nia|].
  apply Z.div_lt_upper_bound; nia.
Qed.

Lemma mul64_draw n v : 0 < n < 2 ^ 31 → is_u 32 v → mul64 v n = v * n.
Proof. unfold is_u. intros Hn Hv. rewrite mul64_small; [done|]. unfold is_u. nia. Qed.

(** [int31n] as a search for the first accepted draw. *)
Fixpoint first_accepted {E} (fuel : nat) (n : Z) (r : RngSource) : comp E (Z * RngSource) :=
  '(v, r) ← uint32 r;
  if accepted n v then Ret (v * n / 2 ^ 32, r)
  else match fuel with O => OutOfFuel | S fuel => first_accepted fuel n r end.

Lemma first_accepted_eq {E} fuel n r v r' :
  uint32 (E:=E) r = Ret (v, r') →
  first_accepted (E:=E) fuel n r =
  (if accepted n v then Ret (v * n / 2 ^ 32, r')
   else match fuel with O => OutOfFuel | S fuel => first_accepted fuel n r' end).
Proof. intros Huv. destruct fuel; simpl; by rewrite Huv. Qed.

Lemma int31n_loop_first {E} fuel n v r :
  rng_ok r → 0 < n < 2 ^ 31 → is_u 32 v →
  ('(prod, r) ← int31n_loop fuel n (2 ^ 32 mod n) (v * n) r;
   Ret (wraps 32 (Z.shiftr prod 32), r))
  = (if accepted n v then Ret (v * n / 2 ^ 32, r)
     else match fuel with O => OutOfFuel | S fuel => first_accepted (E:=E) fuel n r end).
Proof.
  revert v r. induction fuel as [|fuel IH]; intros v r Hr Hn Hv;
    simpl int31n_loop; unfold accepted, wrapu; rewrite Z.ltb_antisym;
    destruct (2 ^ 32 mod n <=? (v * n) mod 2 ^ 32); simpl; try done.
  1, 2: rewrite Z.shiftr_div_pow2 by lia; pose proof (prod_range n v Hn Hv);
    rewrite wraps_small by (unfold is_s; lia); done.
  destruct (uint32_Ret (E:=E) r Hr) as (w & r' & Huv & Hw & Hr').
  rewrite (first_accepted_eq _ _ _ _ _ Huv), Huv. cbn [mbind comp_bind].
  rewrite mul64_draw by done. by apply IH.
Qed.

Lemma int31n_first {E} fuel n r :
  rng_ok r → 0 < n < 2 ^ 31 → int31n (E:=E) fuel n r = first_accepted fuel n r.
Proof.
  intros Hr Hn. unfold int31n.
  destruct (uint32_Ret (E:=E) r Hr) as (v & r' & Huv & Hv & Hr').
  rewrite (first_accepted_eq _ _ _ _ _ Huv), Huv. simpl.
  rewrite (wrapu_small 64 n), (wrapu_small 32 n) by (unfold is_u; lia).
  rewrite mul64_draw by done.
  rewrite <- int31n_loop_first by done.
  pose proof (Z.mod_pos_bound (2 ^ 32) n).
  destruct (Z.ltb_spec (wrapu 32 (v * n)) n).
  - unfold rem_u. destruct (Z.eqb_spec n 0); [lia|]. cbn [mbind comp_bind].
    by rewrite thresh_eq by done.
  - assert (Hlt : (wrapu 32 (v * n) <? 2 ^ 32 mod n) = false) by (apply Z.ltb_ge; lia).
    destruct fuel; simpl; by rewrite Hlt.
Qed.

Lemma first_accepted_draw {E} k fuel n r v r' :
  rng_ok r → (k <= fuel)%nat → draw (E:=E) r k = Ret (v, r') → accepted n v = true →
  (∀ j w s, (j < k)%nat → draw (E:=E) r j = Ret (w, s) → accepted n w = false) →
  first_accepted (E:=E) fuel n r = Ret (v * n / 2 ^ 32, r').
Proof.
  revert fuel r. induction k as [|k IH]; intros fuel r Hr Hk Hd Hacc Hbefore; simpl in Hd.
  - rewrite (first_accepted_eq _ _ _ _ _ Hd). by rewrite Hacc.
  - destruct (uint32_Ret (E:=E) r Hr) as (w & s & Huv & Hw & Hs).
    rewrite (first_accepted_eq _ _ _ _ _ Huv).
    rewrite (Hbefore 0%nat w s) by (lia || done).
    destruct fuel as [|fuel]; [lia|]. rewrite Huv in Hd. simpl in Hd.
    apply IH; [done|lia|done|done|].
    intros j x u Hj Hx. apply (Hbefore (S j) x u); [lia|]. simpl. by rewrite Huv.
Qed.

Lemma first_accepted_none {E} fuel n r :
  rng_ok r →
  (∀ j w s, (j <= fuel)%nat → draw (E:=E) r j = Ret (w, s) → accepted n w = false) →
  first_accepted (E:=E) fuel n r = OutOfFuel.
Proof.
  revert r. induction fuel as [|fuel IH]; intros r Hr Hnone;
    destruct (uint32_Ret (E:=E) r Hr) as (w & s & Huv & Hw & Hs);
    rewrite (first_accepted_eq _ _ _ _ _ Huv), (Hnone 0%nat w s) by (lia || done); [done|].
  apply IH; [done|]. intros j x u Hj Hx. apply (Hnone (S j) x u); [lia|].
  simpl. by rewrite Huv.
Qed.

Lemma first_accepted_result {E} fuel n r :
  rng_ok r → 0 < n < 2 ^ 31 →
  first_accepted (E:=E) fuel n r = OutOfFuel ∨
  ∃ v r', first_accepted (E:=E) fuel n r = Ret (v, r') ∧ 0 <= v < n ∧ rng_ok r'.
Proof.
  revert r. induction fuel as [|fuel IH]; intros r Hr Hn;
    destruct (uint32_Ret (E:=E) r Hr) as (w & s & Huv & Hw & Hs);
    rewrite (first_accepted_eq _ _ _ _ _ Huv);
    destruct (accepted n w); auto; right; eauto 10 using prod_range.
Qed.

(** More fuel never changes a result. *)
Lemma first_accepted_more {E} fuel fuel' n r x :
  rng_ok r → (fuel <= fuel')%nat →
  first_accepted (E:=E) fuel n r = Ret x → first_accepted (E:=E) fuel' n r = Ret x.
Proof.
  revert fuel' r. induction fuel as [|fuel IH]; intros fuel' r Hr Hle;
    destruct (uint32_Ret (E:=E) r Hr) as (w & s & Huv & Hw & Hs);
    rewrite !(first_accepted_eq _ _ _ _ _ Huv); destruct (accepted n w); try done.
  destruct fuel' as [|fuel']; [lia|]. apply IH; [done|lia].
Qed.

(** ** Shuffling *)

Lemma swap_Ret {E A} (l : list A) i j :
  0 <= i < zlen l → 0 <= j < zlen l → ∃ l', swap (E:=E) l i j = Ret l' ∧ l' ≡ₚ l.
Proof.
  intros Hi Hj. unfold swap.
  destruct (index_Ret (E:=E) l i Hi) as (x & -> & Hx).
  destruct (index_Ret (E:=E) l j Hj) as (y & -> & Hy). simpl.
  eexists. split; [reflexivity|].
  destruct (decide (Z.to_nat i = Z.to_nat j)) as [Heq|Hne].
  - rewrite Heq in *. simplify_eq. by rewrite list_insert_insert_eq, list_insert_id.
  - by apply Permutation_insert_swap.
Qed.

Lemma shuffle_loop31_result {E A} fuel i (l : list A) r :
  rng_ok r → (i < length l)%nat → zlen l < 2 ^ 31 →
  shuffle_loop31 (E:=E) fuel i l r = OutOfFuel ∨
  ∃ l' r', shuffle_loop31 (E:=E) fuel i l r = Ret (l', r') ∧ l' ≡ₚ l ∧ rng_ok r'.
Proof.
  revert l r. induction i as [|i IH]; intros l r Hr Hi Hl; [right; by eexists _, _|].
  unfold zlen in Hl. cbn [shuffle_loop31]. rewrite int31n_first by (done || lia).
  destruct (first_accepted_result (E:=E) fuel (Z.of_nat (S i) + 1) r)
    as [->|(j & r' & -> & Hj & Hr')]; [done|lia|by left|].
  simpl. destruct (swap_Ret (E:=E) l (Z.of_nat (S i)) j) as (l' & -> & Hp);
    [unfold zlen; lia..|]. simpl.
  apply Permutation_length in Hp as Hlen.
  destruct (IH l' r') as [->|(l2 & r2 & -> & Hp2 & Hr2)];
    [done|lia|unfold zlen; lia|by left|].
  right. eexists _, _. split; [done|]. split; [by rewrite Hp2|done].
Qed.

Lemma shuffle_loop63_short {E A} fuel k i (l : list A) r :
  i < 2 ^ 31 - 1 → shuffle_loop63 (E:=E) fuel k i l r = Ret (i, l, r).
Proof.
  intros Hi. destruct k; simpl; rewrite Z.gtb_ltb;
    by rewrite (proj2 (Z.ltb_ge (2 ^ 31 - 1 - 1) i)) by lia.
Qed.

Lemma shuffle_short {E A} fuel (l : list A) r :
  zlen l < 2 ^ 31 → l ≠ [] →
  shuffle (E:=E) fuel l r = shuffle_loop31 fuel (length l - 1) l r.
Proof.
  intros Hl Hne. destruct l as [|x l]; [done|]. unfold shuffle.
  rewrite shuffle_loop63_short by lia. simpl. f_equal. unfold zlen. simpl. lia.
Qed.

Lemma shuffle_result {E A} fuel (l : list A) r :
  rng_ok r → zlen l < 2 ^ 31 →
  shuffle (E:=E) fuel l r = OutOfFuel ∨
  ∃ l' r', shuffle (E:=E) fuel l r = Ret (l', r') ∧ l' ≡ₚ l ∧ rng_ok r'.
Proof.
  intros Hr Hl. destruct (decide (l = [])) as [->|Hne]; [right; by eexists _, _|].
  rewrite shuffle_short by done.
  apply shuffle_loop31_result; [done| |done]. destruct l; simpl; [done|lia].
Qed.

Lemma shuffle_loop31_more {E A} fuel fuel' i (l : list A) r x :
  rng_ok r → (i < length l)%nat → zlen l < 2 ^ 31 → (fuel <= fuel')%nat →
  shuffle_loop31 (E:=E) fuel i l r = Ret x → shuffle_loop31 (E:=E) fuel' i l r = Ret x.
Proof.
  revert l r. induction i as [|i IH]; intros l r Hr Hi Hl Hle; [done|].
  unfold zlen in Hl. cbn [shuffle_loop31]. rewrite !int31n_first by (done || lia).
  destruct (first_accepted_result (E:=E) fuel (Z.of_nat (S i) + 1) r)
    as [->|(j & r' & Hfa & Hj & Hr')]; [done|lia|done|].
  rewrite Hfa, (first_accepted_more fuel fuel' _ _ _ Hr Hle Hfa). simpl.
  destruct (swap_Ret (E:=E) l (Z.of_nat (S i)) j) as (l' & -> & Hp); [unfold zlen; lia..|].
  simpl. apply Permutation_length in Hp. apply IH; [done|lia|unfold zlen; lia|done].
Qed.

(** * Properties *)

(** The Lehmer generator: [k] steps of [seed_rand] multiply by [48271^k]
    modulo the prime [2^31 - 1] and stay in [1 .. 2^31 - 2], so the [i32]
    arithmetic of Schrage's method never overflows and never reaches the fixed
    point 0. *)
Theorem seed_rand_lehmer (k : nat) x :
  0 < x < INT32_MAX →
  Nat.iter k seed_rand x = (48271 ^ Z.of_nat k * x) mod INT32_MAX
  ∧ 0 < Nat.iter k seed_rand x < INT32_MAX.
Proof.
  intros Hx. induction k as [|k [IHeq IHr]].
  - simpl. rewrite Z.pow_0_r, Z.mul_1_l, Z.mod_small; lia.
  - simpl Nat.iter. destruct (seed_rand_step _ IHr) as [Heq Hr]. split; [|done].
    rewrite Heq, IHeq, Nat2Z.inj_succ, Z.pow_succ_r by lia.
    rewrite Z.mul_mod_idemp_r by (unfold INT32_MAX; lia). f_equal. lia.
Qed.

Lemma seed_rand_lehmer_witness : 0 < Nat.iter 1822 seed_rand 89482311 < INT32_MAX.
Proof. apply (seed_rand_lehmer 1822 89482311). unfold INT32_MAX. lia. Defined.

(** [int31n] on [0 < n < 2^31] returns exactly when one of its draws passes
    Lemire's test, and then returns [v * n / 2^32], in [0 .. n-1], for the first
    draw [v] that does: with [fuel] retries it gives that result if the draw is
    among the first [fuel + 1], and is still looping if none of these passes.
    The shortcut [low < n] of the source does not change the result. *)
Theorem int31n_first_accepted_draw {E} fuel n r :
  rng_ok r → 0 < n < 2 ^ 31 →
  (∀ k v r', (k <= fuel)%nat → draw (E:=E) r k = Ret (v, r') → accepted n v = true →
     (∀ j w s, (j < k)%nat → draw (E:=E) r j = Ret (w, s) → accepted n w = false) →
     int31n (E:=E) fuel n r = Ret (v * n / 2 ^ 32, r') ∧ 0 <= v * n / 2 ^ 32 < n) ∧
  ((∀ j w s, (j <= fuel)%nat → draw (E:=E) r j = Ret (w, s) → accepted n w = false) →
     int31n (E:=E) fuel n r = OutOfFuel).
Proof.
  intros Hr Hn. rewrite int31n_first by done. split.
  - intros k v r' Hk Hd Hacc Hb. split; [by eapply first_accepted_draw|].
    destruct (draw_Ret (E:=E) r k Hr) as (v' & s & Hd' & Hv & _).
    rewrite Hd in Hd'. injection Hd' as <- <-.
    by apply prod_range.
  - by apply first_accepted_none.
Qed.

(** Lemire's method is unbiased: every result [j] of [int31n n] has exactly
    [2^32 / n] accepted draws, the consecutive ones from
    [ceil((j * 2^32 + 2^32 mod n) / n)] on. *)
Theorem int31n_unbiased n j v :
  0 < n < 2 ^ 31 → 0 <= j < n → is_u 32 v →
  let a := div_ceil (j * 2 ^ 32 + 2 ^ 32 mod n) n in
  (accepted n v = true ∧ v * n / 2 ^ 32 = j) ↔ a <= v < a + 2 ^ 32 / n.
Proof.
  intros Hn Hj Hv a. unfold accepted, is_u in *. rewrite Z.leb_le.
  pose proof (div_ceil_bounds (j * 2 ^ 32 + 2 ^ 32 mod n) n) as Ha. fold a in Ha.
  pose proof (Z.div_mod (2 ^ 32) n). pose proof (Z.mod_pos_bound (2 ^ 32) n).
  pose proof (Z.div_mod (v * n) (2 ^ 32)). pose proof (Z.mod_pos_bound (v * n) (2 ^ 32)).
  set (q := 2 ^ 32 / n) in *. set (m := 2 ^ 32 mod n) in *.
  set (h := v * n / 2 ^ 32) in *. set (lo := (v * n) mod 2 ^ 32) in *.
  assert (Hnq : 2 ^ 32 = n * q + m) by lia.
  split.
  - intros [Hlo Hh]. subst h. split; [|].
    + assert (n * (a - 1) < n * v) by lia. nia.
    + assert (n * v < n * (a + q)) by lia. nia.
  - intros [Hav Hva].
    assert (j * 2 ^ 32 + m <= v * n) by nia.
    assert (v * n < (j + 1) * 2 ^ 32) by nia.
    assert (h = j) by (unfold h; symmetry; apply (Z.div_unique_pos _ _ _ (v * n - j * 2 ^ 32)); lia).
    lia.
Qed.

(** ** The lagged Fibonacci recurrence *)

Lemma wrapu_wraps z : wrapu 64 (wraps 64 z) = wrapu 64 z.
Proof.
  unfold wrapu, wraps. rewrite Zminus_mod_idemp_l. f_equal. lia.
Qed.

(** [uint64] on usable generators, without the panic of the indexing. *)
Definition uint64_step (r : RngSource) : Z * RngSource :=
  let t := (tap r + RNG_LEN - 1) mod RNG_LEN in
  let f := (feed r + RNG_LEN - 1) mod RNG_LEN in
  let x := wraps 64 (vec r !!! Z.to_nat f + vec r !!! Z.to_nat t) in
  (wrapu 64 x, {| tap := t; feed := f; vec := <[Z.to_nat f := x]> (vec r) |}).

Lemma uint64_step_eq {E} r : rng_ok r → uint64 (E:=E) r = Ret (uint64_step r).
Proof.
  intros Hr. unfold uint64, uint64_step.
  set (t := (tap r + RNG_LEN - 1) mod RNG_LEN). set (f := (feed r + RNG_LEN - 1) mod RNG_LEN).
  assert (Ht : 0 <= t < RNG_LEN) by (apply Z.mod_pos_bound; unfold RNG_LEN; lia).
  assert (Hf : 0 <= f < RNG_LEN) by (apply Z.mod_pos_bound; unfold RNG_LEN; lia).
  destruct Hr as [_ _ Hlen _]. unfold RNG_LEN in *. unfold vec_get, vec_set. cbn [vec tap feed].
  destruct (index_Ret (E:=E) (vec r) f) as (a & -> & Ha); [unfold zlen; lia|]. cbn [mbind comp_bind].
  destruct (index_Ret (E:=E) (vec r) t) as (b & -> & Hb); [unfold zlen; lia|]. cbn [mbind comp_bind].
  rewrite (proj2 (Z.leb_le 0 f)), (proj2 (Z.ltb_lt f _)) by (unfold zlen; lia).
  cbn [andb mbind comp_bind]. by rewrite (list_lookup_total_correct _ _ _ Ha),
    (list_lookup_total_correct _ _ _ Hb).
Qed.

(** The state before the [k]-th draw and the value it draws. *)
Definition nth_state (r : RngSource) (k : nat) : RngSource := Nat.iter k (λ r, (uint64_step r).2) r.
Definition nth_out (r : RngSource) (k : nat) : Z := (uint64_step (nth_state r k)).1.

Lemma nth_state_ok r k : rng_ok r → rng_ok (nth_state r k).
Proof.
  intros Hr. induction k as [|k IH]; [done|].
  change (nth_state r (S k)) with (uint64_step (nth_state r k)).2.
  destruct (uint64_Ret (E:=unit) _ IH) as (x & r' & Hu & _ & Hr').
  rewrite uint64_step_eq in Hu by done.
  assert (Hst : uint64_step (nth_state r k) = (x, r')) by congruence. by rewrite Hst.
Qed.

Lemma pred_mod a : (a mod RNG_LEN + RNG_LEN - 1) mod RNG_LEN = (a - 1) mod RNG_LEN.
Proof.
  unfold RNG_LEN. rewrite <- Z.add_sub_assoc, Z.add_mod_idemp_l by lia.
  replace (a + (607 - 1)) with (a - 1 + 1 * 607) by lia. by rewrite Z.mod_add by lia.
Qed.

Lemma nth_state_pos r k :
  rng_ok r →
  feed (nth_state r k) = (feed r - Z.of_nat k) mod RNG_LEN ∧
  tap (nth_state r k) = (tap r - Z.of_nat k) mod RNG_LEN.
Proof.
  intros Hr. induction k as [|k [IHf IHt]].
  - destruct Hr. simpl. rewrite !Z.sub_0_r, !Z.mod_small by done. done.
  - change (nth_state r (S k)) with (uint64_step (nth_state r k)).2.
    unfold uint64_step. cbn [snd feed tap]. rewrite IHf, IHt, !pred_mod, Nat2Z.inj_succ.
    split; f_equal; lia.
Qed.

Lemma mod_slot_neq a i j :
  0 < i - j < RNG_LEN → Z.to_nat ((a - i) mod RNG_LEN) ≠ Z.to_nat ((a - j) mod RNG_LEN).
Proof.
  unfold RNG_LEN. intros Hij Heq.
  pose proof (Z.mod_pos_bound (a - i) 607). pose proof (Z.mod_pos_bound (a - j) 607).
  pose proof (Z.div_mod (a - i) 607). pose proof (Z.div_mod (a - j) 607).
  assert ((a - i) mod 607 = (a - j) mod 607) by lia. lia.
Qed.

Lemma nth_state_S r k : nth_state r (S k) = (uint64_step (nth_state r k)).2.
Proof. done. Qed.

(** A slot keeps the value of the draw that wrote it for 607 draws. *)
Lemma nth_state_memory r j k :
  rng_ok r → (j < k)%nat → (k <= j + 607)%nat →
  wrapu 64 (vec (nth_state r k) !!! Z.to_nat ((feed r - Z.of_nat (S j)) mod RNG_LEN)) = nth_out r j.
Proof.
  intros Hr Hjk. induction Hjk as [|k Hjk IH]; intros Hk; rewrite nth_state_S;
    unfold uint64_step; cbn [snd vec].
  - destruct (nth_state_pos r j Hr) as [Hf _].
    assert (Hslot : (feed (nth_state r j) + RNG_LEN - 1) mod RNG_LEN
                    = (feed r - Z.of_nat (S j)) mod RNG_LEN).
    { destruct (nth_state_pos r (S j) Hr) as [Hf' _]. by rewrite <- Hf'. }
    rewrite <- Hslot. rewrite list_lookup_total_insert_eq; [done|].
    rewrite (ok_len _ (nth_state_ok r j Hr)).
    pose proof (Z.mod_pos_bound (feed (nth_state r j) + RNG_LEN - 1) RNG_LEN). unfold RNG_LEN in *. lia.
  - rewrite list_lookup_total_insert_ne; [apply IH; lia|].
    destruct (nth_state_pos r (S k) Hr) as [Hf' _].
    change ((feed (nth_state r k) + RNG_LEN - 1) mod RNG_LEN) with (feed (nth_state r (S k))).
    rewrite Hf'. apply mod_slot_neq. unfold RNG_LEN. lia.
Qed.

Lemma nth_out_recurrence r k :
  rng_ok r → (feed r - tap r) mod RNG_LEN = RNG_LEN - RNG_TAP → (607 <= k)%nat →
  nth_out r k = (nth_out r (k - 607) + nth_out r (k - 273)) mod 2 ^ 64.
Proof.
  intros Hr Hlag Hk.
  rewrite <- (nth_state_memory r (k - 607) k Hr), <- (nth_state_memory r (k - 273) k Hr) by lia.
  unfold nth_out. unfold uint64_step. cbn [fst].
  destruct (nth_state_pos r (S k) Hr) as [Hf Ht]. rewrite nth_state_S in Hf, Ht.
  unfold uint64_step in Hf, Ht. cbn [snd feed tap] in Hf, Ht. rewrite Hf, Ht.
  assert (H1 : (feed r - Z.of_nat (S k)) mod RNG_LEN
             = (feed r - Z.of_nat (S (k - 607))) mod RNG_LEN).
  { unfold RNG_LEN.
    replace (feed r - Z.of_nat (S (k - 607))) with (feed r - Z.of_nat (S k) + 1 * 607) by lia.
    by rewrite Z.mod_add by lia. }
  assert (H2 : (tap r - Z.of_nat (S k)) mod RNG_LEN
             = (feed r - Z.of_nat (S (k - 273))) mod RNG_LEN).
  { unfold RNG_LEN, RNG_TAP in *.
    pose proof (Z.div_mod (feed r - tap r) 607).
    replace (feed r - Z.of_nat (S (k - 273)))
      with (tap r - Z.of_nat (S k) + ((feed r - tap r) / 607 + 1) * 607) by lia.
    by rewrite Z.mod_add by lia. }
  rewrite H1, H2, wrapu_wraps. unfold wrapu. by rewrite <- Zplus_mod.
Qed.

(** The [k]-th [uint64] draw from a state, and the state after it. *)
Fixpoint draw64 {E} (r : RngSource) (k : nat) : comp E (Z * RngSource) :=
  match k with
  | O => uint64 r
  | S k => '(_, r) ← uint64 r; draw64 r k
  end.

Lemma draw64_nth {E} r k :
  rng_ok r → draw64 (E:=E) r k = Ret (nth_out r k, nth_state r (S k)).
Proof.
  intros Hr. assert (H0 : r = nth_state r 0) by done.
  assert (Hgen : ∀ j, draw64 (E:=E) (nth_state r j) k = Ret (nth_out r (j + k), nth_state r (S (j + k)))).
  { induction k as [|k IH]; intros j; simpl draw64.
    - rewrite uint64_step_eq by by apply nth_state_ok.
      rewrite Nat.add_0_r. unfold nth_out. rewrite nth_state_S. by destruct (uint64_step _).
    - rewrite uint64_step_eq by by apply nth_state_ok. cbn [mbind comp_bind].
      pose proof (IH (S j)) as IHj. rewrite nth_state_S in IHj.
      destruct (uint64_step (nth_state r j)) as [x s] eqn:Hs. simpl in IHj. rewrite IHj.
      replace (j + S k)%nat with (S (j + k)) by lia. done. }
  apply (Hgen 0%nat).
Qed.

Lemma seed_loop_pos {E} n i x r r' :
  seed_loop (E:=E) n i x r = Ret r' → feed r' = feed r ∧ tap r' = tap r.
Proof.
  revert i x r. induction n as [|n IH]; intros i x r; simpl; [by intros [= ->]|].
  destruct (i >=? 0); [|by apply IH].
  intros Hb. apply bind_Ret_inv in Hb as ([y u] & _ & Hb).
  apply bind_Ret_inv in Hb as (r1 & Hset & Hb).
  unfold vec_set in Hset. destruct (_ && _); [|done]. injection Hset as <-.
  by apply IH in Hb.
Qed.

Lemma rng_new_pos {E} seed r :
  rng_new (E:=E) seed = Ret r → feed r = RNG_LEN - RNG_TAP ∧ tap r = 0.
Proof. unfold rng_new, rng_seed. intros Hr. apply seed_loop_pos in Hr. exact Hr. Qed.

(** From any seed, [RngSource::new] yields a generator whose [uint64] draws
    never panic and satisfy the additive lagged Fibonacci recurrence
    [x(k) = x(k-607) + x(k-273) mod 2^64]. *)
Theorem lagged_fibonacci seed (k : nat) :
  is_s 64 seed → (607 <= k)%nat →
  ∃ r x y z sx sy sz, rng_new (E:=Empty_set) seed = Ret r ∧
    draw64 (E:=Empty_set) r k = Ret (x, sx) ∧
    draw64 (E:=Empty_set) r (k - 607) = Ret (y, sy) ∧
    draw64 (E:=Empty_set) r (k - 273) = Ret (z, sz) ∧
    x = (y + z) mod 2 ^ 64.
Proof.
  intros Hseed Hk. destruct (rng_new_Ret (E:=Empty_set) seed Hseed) as (r & Hr & Hok).
  destruct (rng_new_pos seed r Hr) as [Hf Ht].
  exists r, (nth_out r k), (nth_out r (k - 607)), (nth_out r (k - 273)).
  eexists _, _, _. split_and!; [done|by apply draw64_nth..|].
  apply nth_out_recurrence; [done| |done]. by rewrite Hf, Ht.
Qed.

Lemma lagged_fibonacci_witness :
  ∃ r x sx, rng_new (E:=Empty_set) 51 = Ret r ∧ draw64 (E:=Empty_set) r 607 = Ret (x, sx).
Proof.
  destruct (lagged_fibonacci 51 607) as (r & x & y & z & sx & sy & sz & Hr & Hx & _);
    [unfold is_s; lia|lia|].
  exists r, x, sx. split; [exact Hr|exact Hx].
Defined.

(** [shuffle] of a vector of fewer than [2^31] elements with a seeded
    generator never panics (no index of [swap] and no argument of [int31n] is
    out of range); when its rejection loops end, the result is a permutation
    of the vector, and it does not depend on how much fuel was left. *)
Theorem shuffle_permutes {E A} fuel (l : list A) seed r :
  is_s 64 seed → rng_new (E:=E) seed = Ret r → zlen l < 2 ^ 31 →
  shuffle (E:=E) fuel l r = OutOfFuel ∨
  ∃ l' r', l' ≡ₚ l ∧ rng_ok r' ∧
    ∀ fuel', (fuel <= fuel')%nat → shuffle (E:=E) fuel' l r = Ret (l', r').
Proof.
  intros Hs Hr Hl. destruct (rng_new_Ret (E:=E) seed Hs) as (r1 & Hr1 & Hok).
  assert (r1 = r) as -> by congruence. clear Hr Hr1.
  destruct (shuffle_result (E:=E) fuel l r Hok Hl) as [?|(l' & r' & Hsh & Hp & Hr')]; [by left|].
  right. exists l', r'. split_and!; [done|done|]. intros fuel' Hle.
  destruct (decide (l = [])) as [->|Hne]; [done|].
  rewrite shuffle_short in Hsh by done. rewrite shuffle_short by done.
  eapply shuffle_loop31_more; [done| |done|done|done].
  destruct l; simpl; [done|lia].
Qed.

(** The divisors of a power of two are powers of two. *)
Lemma divide_pow2 (k : nat) n :
  0 < n → (n | 2 ^ Z.of_nat k) → ∃ e, 0 <= e ∧ n = 2 ^ e.
Proof.
  revert n. induction k as [|k IH]; intros n Hn Hdiv.
  - exists 0. split; [lia|]. apply Z.divide_1_r in Hdiv. simpl. lia.
  - rewrite Nat2Z.inj_succ, Z.pow_succ_r in Hdiv by lia.
    destruct (Z.Even_or_Odd n) as [[m ->]|[m ->]].
    + destruct (IH m) as (e & He & ->); [lia| |].
      * apply Z.mul_divide_cancel_l with (p:=2); [lia|done].
      * exists (Z.succ e). split; [lia|]. by rewrite Z.pow_succ_r.
    + apply IH; [lia|]. apply Z.gauss in Hdiv; [done|].
      apply Z.bezout_1_gcd. exists 1, (- m). lia.
Qed.

(** [int63n] never returns unless [n] is a power of two: [2^63 % n] is
    computed on [i64::MIN], so it is negative, [max] overflows to a negative
    number, and every draw exceeds it.  (Go computes [1<<63 % uint64(n)].)
    For a power of two it returns a draw in [0 .. n-1].  [shuffle] calls
    [int63n] only for vectors of [2^31] elements or more. *)
Theorem int63n_loops_forever {E} fuel n r :
  rng_ok r → 0 < n < 2 ^ 63 →
  (Z.land n (n - 1) ≠ 0 → int63n (E:=E) fuel n r = OutOfFuel) ∧
  (∀ e, 0 <= e < 63 → n = 2 ^ e → ∃ v r', int63n (E:=E) fuel n r = Ret (v, r') ∧ 0 <= v < n).
Proof.
  intros Hr Hn. split.
  - intros Hland.
    assert (Hmod : 2 ^ 63 mod n ≠ 0).
    { intros Hm%Z.mod_divide; [|lia].
      destruct (divide_pow2 63 n) as (e & He & ->); [lia|done|]. apply Hland.
      replace (2 ^ e - 1) with (Z.ones e) by (rewrite Z.ones_equiv; lia).
      by rewrite Z.land_ones, Z.mod_same by lia. }
    unfold int63n, assert_that.
    rewrite (proj2 (Z.ltb_lt 0 n)) by lia. cbn [mbind comp_bind].
    rewrite (proj2 (Z.eqb_neq _ 0)) by done.
    set (max := wraps 64 (wraps 64 (wraps 64 (2 ^ 63) - 1) - Z.rem (wraps 64 (2 ^ 63)) n)).
    assert (Hmax : max < 0).
    { unfold max. change (wraps 64 (2 ^ 63)) with (- 2 ^ 63).
      change (wraps 64 (- 2 ^ 63 - 1)) with (2 ^ 63 - 1).
      rewrite Z.rem_opp_l', Z.rem_mod_nonneg by lia.
      pose proof (Z.mod_pos_bound (2 ^ 63) n).
      replace (2 ^ 63 - 1 - - (2 ^ 63 mod n)) with (2 ^ 63 - 1 + 2 ^ 63 mod n) by lia.
      unfold wraps. change (64 - 1) with 63.
      replace (2 ^ 63 - 1 + 2 ^ 63 mod n + 2 ^ 63) with (2 ^ 63 mod n - 1 + 1 * 2 ^ 64) by lia.
      rewrite Z.mod_add, Z.mod_small by lia. lia. }
    clearbody max. clear Hland Hmod.
    destruct (int63_Ret (E:=E) r Hr) as (v & r' & -> & Hv & Hr'). cbn [mbind comp_bind].
    assert (Hloop : ∀ fuel v r, rng_ok r → is_u 63 v → int63n_loop (E:=E) fuel max v r = OutOfFuel).
    { clear -Hmax. induction fuel as [|fuel IH]; intros v r Hr Hv; unfold is_u in Hv; simpl;
        rewrite Z.gtb_ltb, (proj2 (Z.ltb_lt max v)) by lia; [done|].
      destruct (int63_Ret (E:=E) r Hr) as (w & s & -> & Hw & Hs). simpl. by apply IH. }
    by rewrite Hloop.
  - intros e He ->. unfold int63n, assert_that.
    rewrite (proj2 (Z.ltb_lt 0 _)) by lia. cbn [mbind comp_bind].
    replace (2 ^ e - 1) with (Z.ones e) by (rewrite Z.ones_equiv; lia).
    rewrite Z.land_ones, Z.mod_same by lia. cbn [Z.eqb].
    destruct (int63_Ret (E:=E) r Hr) as (v & r' & -> & Hv & Hr'). cbn [mbind comp_bind].
    eexists _, _. split; [done|]. rewrite Z.land_ones by lia. apply Z.mod_pos_bound. lia.
Qed.

(** ** Witnesses and the vectors of the source's tests *)

Definition first_int63 (seed : Z) : comp Empty_set Z :=
  r ← rng_new seed; '(x, _) ← int63 r; Ret x.

Example test_seeable_rand :
  first_int63 <$> [4037200794235010051; 3916589616287113937; 6334824724549167320;
    605394647632969758; 1443635317331776148; 894385949183117216; 1661493340433845000]
  = Ret <$> [7039896061028515893; 8675804364753902221; 7420226548541032724;
    6835526398207435727; 7622528842839255797; 4295814465130857885; 6987264066974383553].
Proof. vm_compute. reflexivity. Qed.

Definition validators_shuffle_idx (seed : Z) (n : nat) (idx : Z) : comp Empty_set Z :=
  r ← rng_new seed;
  '(y, _) ← shuffle 2 (zrange 0 n) r;
  index y idx.

Example test_shuffle_validators : validators_shuffle_idx 6378 1109 237 = Ret 889.
Proof. vm_compute. reflexivity. Qed.

Lemma int31n_first_accepted_draw_witness :
  ∃ r, rng_new (E:=Empty_set) 51 = Ret r ∧
    ∀ v r', draw (E:=Empty_set) r 0 = Ret (v, r') → accepted 5 v = true →
      int31n (E:=Empty_set) 3 5 r = Ret (v * 5 / 2 ^ 32, r').
Proof.
  destruct (rng_new_Ret (E:=Empty_set) 51) as (r & Hr & Hok); [unfold is_s; lia|].
  exists r. split; [exact Hr|]. intros v r' Hd Ha.
  apply (int31n_first_accepted_draw (E:=Empty_set) 3 5 r Hok ltac:(lia)) with (k:=0%nat);
    [lia|exact Hd|exact Ha|intros; lia].
Defined.

Lemma int31n_unbiased_witness : accepted 3 7 = true ∧ 7 * 3 / 2 ^ 32 = 0.
Proof.
  apply (int31n_unbiased 3 0 7); [lia|lia|unfold is_u; lia|].
  vm_compute. split; [intros H; discriminate H|reflexivity].
Defined.

Lemma shuffle_permutes_witness :
  ∃ r, rng_new (E:=Empty_set) 51 = Ret r ∧
    (shuffle (E:=Empty_set) 2 [1; 2; 3] r = OutOfFuel ∨
     ∃ l' r', l' ≡ₚ [1; 2; 3] ∧ shuffle (E:=Empty_set) 2 [1; 2; 3] r = Ret (l', r')).
Proof.
  destruct (rng_new_Ret (E:=Empty_set) 51) as (r & Hr & Hok); [unfold is_s; lia|].
  exists r. split; [exact Hr|].
  destruct (shuffle_permutes (E:=Empty_set) 2 [1; 2; 3] 51 r) as [H|(l' & r' & Hp & _ & Hf)];
    [unfold is_s; lia|exact Hr|vm_compute; reflexivity|left; exact H|].
  right. exists l', r'. split; [exact Hp|]. apply Hf. lia.
Defined.

Lemma int63n_loops_forever_witness :
  ∃ r, rng_new (E:=Empty_set) 51 = Ret r ∧ int63n (E:=Empty_set) 100 3 r = OutOfFuel.
Proof.
  destruct (rng_new_Ret (E:=Empty_set) 51) as (r & Hr & Hok); [unfold is_s; lia|].
  exists r. split; [exact Hr|].
  apply (int63n_loops_forever (E:=Empty_set) 100 3 r Hok ltac:(lia)).
  intros H; vm_compute in H; discriminate H.
Defined.
