(* ===== verification/Types.v ===== *)
(** * Data shared by the components

    Block headers (the fields of [alloy_consensus::Header] the source reads or
    writes), and the vote records of [src/consensus/parlia/vote.rs].

    Fixed-size byte strings ([Address], [B256], BLS keys and signatures) are
    their big-endian numbers; [Bytes] and [Vec<u8>] are lists of bytes. *)

From S2P Require Import Prelude.

Notation Address := Z (only parsing).
Notation B256 := Z (only parsing).
Notation VoteAddress := Z (only parsing).
Notation VoteSignature := Z (only parsing).
Notation ValidatorsBitSet := Z (only parsing).

Definition MAX_ATTESTATION_EXTRA_LENGTH : Z := 256.

(** [Address::default()], [B256::ZERO], [VoteAddress::ZERO]. *)
Notation ZERO := 0 (only parsing).

Record Header := {
  parent_hash : B256;
  ommers_hash : B256;
  beneficiary : Address;
  state_root : B256;
  transactions_root : B256;
  receipts_root : B256;
  logs_bloom : Z;
  difficulty : Z;
  number : Z;
  gas_limit : Z;
  gas_used : Z;
  timestamp : Z;
  extra_data : list Z;
  mix_hash : B256;
  nonce : Z;
  base_fee_per_gas : option Z;
  withdrawals_root : option B256;
  blob_gas_used : option Z;
  excess_blob_gas : option Z;
  parent_beacon_block_root : option B256;
  requests_hash : option B256;
}.

(** [alloy_primitives::Sealable::hash_slow]: the hash of a header. *)
Class Sealable := hash_slow : Header → B256.

Record VoteData := {
  source_number : Z;
  source_hash : B256;
  target_number : Z;
  target_hash : B256;
}.

Definition VoteData_default : VoteData :=
  {| source_number := 0; source_hash := ZERO; target_number := 0; target_hash := ZERO |}.

#[export] Instance VoteData_eq_dec : EqDecision VoteData.
Proof. solve_decision. Defined.

Record VoteEnvelope := {
  vote_address : VoteAddress;
  signature : VoteSignature;
  data : VoteData;
}.

#[export] Instance VoteEnvelope_eq_dec : EqDecision VoteEnvelope.
Proof. solve_decision. Defined.

Record VoteAttestation := {
  vote_address_set : ValidatorsBitSet;
  agg_signature : VoteSignature;
  att_data : VoteData;
  extra : list Z;
}.

Definition new_with_vote_data (d : VoteData) : VoteAttestation :=
  {| vote_address_set := 0; agg_signature := ZERO; att_data := d; extra := [] |}.

(** A header whose other fields are zero, for concrete inputs. *)
Definition test_header (n t : Z) (parent : B256) : Header := {|
  parent_hash := parent; ommers_hash := 0; beneficiary := 0; state_root := 0;
  transactions_root := 0; receipts_root := 0; logs_bloom := 0; difficulty := 1;
  number := n; gas_limit := 8000000; gas_used := 0; timestamp := t; extra_data := [];
  mix_hash := 0; nonce := 0; base_fee_per_gas := None; withdrawals_root := None;
  blob_gas_used := None; excess_blob_gas := None; parent_beacon_block_root := None;
  requests_hash := None |}.

(** Assignments to the header fields the source writes. *)
Definition set_extra_data (x : list Z) (h : Header) : Header := {|
  parent_hash := parent_hash h; ommers_hash := ommers_hash h; beneficiary := beneficiary h;
  state_root := state_root h; transactions_root := transactions_root h;
  receipts_root := receipts_root h; logs_bloom := logs_bloom h; difficulty := difficulty h;
  number := number h; gas_limit := gas_limit h; gas_used := gas_used h; timestamp := timestamp h;
  extra_data := x; mix_hash := mix_hash h; nonce := nonce h;
  base_fee_per_gas := base_fee_per_gas h; withdrawals_root := withdrawals_root h;
  blob_gas_used := blob_gas_used h; excess_blob_gas := excess_blob_gas h;
  parent_beacon_block_root := parent_beacon_block_root h; requests_hash := requests_hash h |}.
Definition set_timestamp (x : Z) (h : Header) : Header := {|
  parent_hash := parent_hash h; ommers_hash := ommers_hash h; beneficiary := beneficiary h;
  state_root := state_root h; transactions_root := transactions_root h;
  receipts_root := receipts_root h; logs_bloom := logs_bloom h; difficulty := difficulty h;
  number := number h; gas_limit := gas_limit h; gas_used := gas_used h; timestamp := x;
  extra_data := extra_data h; mix_hash := mix_hash h; nonce := nonce h;
  base_fee_per_gas := base_fee_per_gas h; withdrawals_root := withdrawals_root h;
  blob_gas_used := blob_gas_used h; excess_blob_gas := excess_blob_gas h;
  parent_beacon_block_root := parent_beacon_block_root h; requests_hash := requests_hash h |}.
Definition set_mix_hash (x : B256) (h : Header) : Header := {|
  parent_hash := parent_hash h; ommers_hash := ommers_hash h; beneficiary := beneficiary h;
  state_root := state_root h; transactions_root := transactions_root h;
  receipts_root := receipts_root h; logs_bloom := logs_bloom h; difficulty := difficulty h;
  number := number h; gas_limit := gas_limit h; gas_used := gas_used h; timestamp := timestamp h;
  extra_data := extra_data h; mix_hash := x; nonce := nonce h;
  base_fee_per_gas := base_fee_per_gas h; withdrawals_root := withdrawals_root h;
  blob_gas_used := blob_gas_used h; excess_blob_gas := excess_blob_gas h;
  parent_beacon_block_root := parent_beacon_block_root h; requests_hash := requests_hash h |}.
Definition set_difficulty (x : Z) (h : Header) : Header := {|
  parent_hash := parent_hash h; ommers_hash := ommers_hash h; beneficiary := beneficiary h;
  state_root := state_root h; transactions_root := transactions_root h;
  receipts_root := receipts_root h; logs_bloom := logs_bloom h; difficulty := x;
  number := number h; gas_limit := gas_limit h; gas_used := gas_used h; timestamp := timestamp h;
  extra_data := extra_data h; mix_hash := mix_hash h; nonce := nonce h;
  base_fee_per_gas := base_fee_per_gas h; withdrawals_root := withdrawals_root h;
  blob_gas_used := blob_gas_used h; excess_blob_gas := excess_blob_gas h;
  parent_beacon_block_root := parent_beacon_block_root h; requests_hash := requests_hash h |}.

Definition set_beneficiary (x : Address) (h : Header) : Header := {|
  parent_hash := parent_hash h; ommers_hash := ommers_hash h; beneficiary := x;
  state_root := state_root h; transactions_root := transactions_root h;
  receipts_root := receipts_root h; logs_bloom := logs_bloom h; difficulty := difficulty h;
  number := number h; gas_limit := gas_limit h; gas_used := gas_used h; timestamp := timestamp h;
  extra_data := extra_data h; mix_hash := mix_hash h; nonce := nonce h;
  base_fee_per_gas := base_fee_per_gas h; withdrawals_root := withdrawals_root h;
  blob_gas_used := blob_gas_used h; excess_blob_gas := excess_blob_gas h;
  parent_beacon_block_root := parent_beacon_block_root h; requests_hash := requests_hash h |}.

(** ** Libraries the components call *)

(** [schnellru::LruMap] with [B256] keys: [get] may reorder the entries,
    [insert] may evict some. *)
Class LruApi (V : Type) := {
  LruMap : Type;
  lru_entries : LruMap → gmap B256 V;
  lru_get : LruMap → B256 → option V * LruMap;
  lru_insert : LruMap → B256 → V → LruMap;
}.
Arguments LruMap V {_}.
Class LruLaws V `(LruApi V) : Prop := {
  lru_get_value c k : (lru_get c k).1 = lru_entries c !! k;
  lru_get_entries c k : lru_entries (lru_get c k).2 = lru_entries c;
  lru_insert_entries c k v : lru_entries (lru_insert c k v) ⊆ <[k := v]> (lru_entries c);
}.

(** [alloy_primitives::keccak256]. *)
Class Keccak := keccak256 : list Z → B256.

(** The derived RLP codec of [VoteAttestation]: [Decodable::decode] reads one
    item from the front of its buffer. *)
Class AttestationRlp := {
  rlp_decode_attestation : list Z → option VoteAttestation;
  rlp_encode_attestation : VoteAttestation → list Z;
}.
Class AttestationRlpLaws `(AttestationRlp) : Prop := {
  rlp_attestation_roundtrip a rest :
    rlp_decode_attestation (rlp_encode_attestation a ++ rest) = Some a;
  rlp_attestation_nonempty a : rlp_encode_attestation a ≠ [];
}.

(** The derived RLP encodings of [VoteData] and [VoteEnvelope]. *)
Class VoteRlp := {
  rlp_encode_vote_data : VoteData → list Z;
  rlp_encode_vote_envelope : VoteEnvelope → list Z;
}.

(** [alloy_rlp::Encodable] for unsigned integers and for byte strings
    ([B256], [Address], [Bloom], [nonce] and slices), the length each announces,
    and the header of a list with a given payload length. *)
Class Rlp := {
  rlp_uint : Z → list Z;
  rlp_uint_length : Z → Z;
  rlp_bytes : list Z → list Z;
  rlp_bytes_length : list Z → Z;
  rlp_list_header : Z → list Z;
}.
Class RlpLaws `(Rlp) : Prop := {
  rlp_uint_length_ok z : rlp_uint_length z = zlen (rlp_uint z);
  rlp_bytes_length_ok l : rlp_bytes_length l = zlen (rlp_bytes l);
}.

(** The [secp256k1] crate. *)
Class Secp256k1 := {
  Message : Type;
  RecoveryId : Type;
  RecoverableSignature : Type;
  PublicKey : Type;
  SecretKey : Type;
  from_digest : list Z → Message;
  from_digest_slice : list Z → option Message;
  recovery_id_try_from : Z → option RecoveryId;
  recovery_id_to_i32 : RecoveryId → Z;
  from_compact : list Z → RecoveryId → option RecoverableSignature;
  recover_ecdsa : Message → RecoverableSignature → option PublicKey;
  serialize_uncompressed : PublicKey → list Z;
  secret_from_slice : list Z → option SecretKey;
  sign_ecdsa_recoverable : Message → SecretKey → RecoverableSignature;
  serialize_compact : RecoverableSignature → RecoveryId * list Z;
  public_key_of : SecretKey → PublicKey;
}.
Class Secp256k1Laws `(Secp256k1) : Prop := {
  from_digest_slice_ok l : zlen l = 32 → from_digest_slice l = Some (from_digest l);
  serialize_uncompressed_length k : zlen (serialize_uncompressed k) = 65;
  serialize_compact_length s : zlen (serialize_compact s).2 = 64;
  recovery_id_byte r : is_u 8 (recovery_id_to_i32 r);
  recovery_id_roundtrip r : recovery_id_try_from (recovery_id_to_i32 r) = Some r;
  compact_roundtrip s : from_compact (serialize_compact s).2 (serialize_compact s).1 = Some s;
  recover_sign m k : recover_ecdsa m (sign_ecdsa_recoverable m k) = Some (public_key_of k);
}.

(** The [blst] crate ([min_pk]): public keys and signatures are read from
    bytes, signatures on one message are aggregated, and an aggregate is checked
    against the public keys under the domain separation tag of the source. *)
Class Bls := {
  BlsPublicKey : Type;
  BlsSignature : Type;
  bls_pk_from_bytes : VoteAddress → option BlsPublicKey;
  bls_sig_from_bytes : VoteSignature → option BlsSignature;
  bls_sig_to_bytes : BlsSignature → VoteSignature;
  bls_verify : BlsPublicKey → B256 → BlsSignature → bool;
  bls_aggregate : list BlsSignature → option BlsSignature;
  fast_aggregate_verify : BlsSignature → B256 → list BlsPublicKey → bool;
}.
Class BlsLaws `(Bls) : Prop := {
  bls_sig_roundtrip s : bls_sig_from_bytes (bls_sig_to_bytes s) = Some s;
  bls_aggregate_some sigs : sigs ≠ [] → is_Some (bls_aggregate sigs);
  bls_aggregate_ok m pks sigs pks' a :
    Forall2 (λ pk s, bls_verify pk m s = true) pks sigs →
    bls_aggregate sigs = Some a → pks' ≡ₚ pks → fast_aggregate_verify a m pks' = true;
}.

(** ** Concrete libraries

    Simple implementations that satisfy the laws, so that every theorem that
    assumes them can be instantiated. *)
Module RefLibraries.

#[export] Instance ref_lru V : LruApi V := {|
  LruMap := gmap B256 V;
  lru_entries c := c;
  lru_get c k := (c !! k, c);
  lru_insert c k v := <[k := v]> c;
|}.
#[export] Instance ref_lru_laws V : LruLaws V (ref_lru V).
Proof. by constructor. Qed.

#[export] Instance ref_keccak : Keccak := λ l, fold_left (λ acc b, (acc * 31 + b) mod 2 ^ 256) l (zlen l).

#[export] Instance ref_attestation_rlp : AttestationRlp := {|
  rlp_encode_attestation a :=
    [vote_address_set a; agg_signature a; source_number (att_data a); source_hash (att_data a);
     target_number (att_data a); target_hash (att_data a); zlen (extra a)] ++ extra a;
  rlp_decode_attestation l :=
    match l with
    | s :: g :: sn :: sh :: tn :: th :: n :: l =>
        Some {| vote_address_set := s; agg_signature := g;
                att_data := {| source_number := sn; source_hash := sh; target_number := tn; target_hash := th |};
                extra := take (Z.to_nat n) l |}
    | _ => None
    end;
|}.
#[export] Instance ref_attestation_rlp_laws : AttestationRlpLaws ref_attestation_rlp.
Proof.
  constructor; [|done]. intros [s g [sn sh tn th] e] rest. cbn. unfold zlen. by rewrite Nat2Z.id, take_app_length.
Qed.

#[export] Instance ref_vote_rlp : VoteRlp := {|
  rlp_encode_vote_data d := [source_number d; source_hash d; target_number d; target_hash d];
  rlp_encode_vote_envelope v :=
    [vote_address v; signature v; source_number (data v); source_hash (data v);
     target_number (data v); target_hash (data v)];
|}.

#[export] Instance ref_rlp : Rlp := {|
  rlp_uint z := [z];
  rlp_uint_length z := 1;
  rlp_bytes l := zlen l :: l;
  rlp_bytes_length l := 1 + zlen l;
  rlp_list_header n := [n];
|}.
#[export] Instance ref_rlp_laws : RlpLaws ref_rlp.
Proof. constructor; [done|]. intros l. cbn. by rewrite zlen_cons. Qed.

#[export] Instance ref_secp : Secp256k1 := {|
  Message := list Z;
  RecoveryId := unit;
  RecoverableSignature := Z;
  PublicKey := Z;
  SecretKey := Z;
  from_digest l := l;
  from_digest_slice l := if zlen l =? 32 then Some l else None;
  recovery_id_try_from b := if b =? 0 then Some tt else None;
  recovery_id_to_i32 _ := 0;
  from_compact l _ := head l;
  recover_ecdsa _ s := Some s;
  serialize_uncompressed k := k :: replicate 64 0;
  secret_from_slice l := if zlen l =? 32 then Some (be_decode l) else None;
  sign_ecdsa_recoverable _ k := k;
  serialize_compact s := (tt, s :: replicate 63 0);
  public_key_of k := k;
|}.
#[export] Instance ref_secp_laws : Secp256k1Laws ref_secp.
Proof.
  constructor; try done.
  - intros l Hl. cbn. by rewrite Hl.
  - by intros [].
Qed.

(** Signatures that are linear in the key, as those of BLS. *)
Fixpoint sum_N (l : list N) : N :=
  match l with [] => 0%N | x :: l => (x + sum_N l)%N end.

#[export] Instance ref_bls : Bls := {|
  BlsPublicKey := N;
  BlsSignature := N;
  bls_pk_from_bytes z := if z <? 0 then None else Some (Z.to_N z);
  bls_sig_from_bytes z := if z <? 0 then None else Some (Z.to_N z);
  bls_sig_to_bytes s := Z.of_N s;
  bls_verify pk m s := (s =? pk * Z.to_N m)%N;
  bls_aggregate sigs := match sigs with [] => None | _ => Some (sum_N sigs) end;
  fast_aggregate_verify s m pks := (s =? sum_N pks * Z.to_N m)%N;
|}.

#[export] Instance ref_bls_laws : BlsLaws ref_bls.
Proof.
  split; cbn.
  - intros s. destruct (Z.ltb_spec (Z.of_N s) 0); [lia|]. by rewrite N2Z.id.
  - by intros [|s sigs].
  - intros m pks sigs pks' a Hv Ha Hp. apply N.eqb_eq.
    assert (Hs : a = sum_N sigs) by (destruct sigs; [done|by injection Ha]). rewrite Hs. clear Ha Hs.
    assert (Hsum : sum_N pks' = sum_N pks).
    { clear Hv. induction Hp; cbn [sum_N]; lia. }
    rewrite Hsum. clear Hsum Hp. induction Hv as [|pk s pks sigs H Hv IH]; [done|].
    cbn [sum_N] in *. apply N.eqb_eq in H. lia.
Qed.

End RefLibraries.
