(* ===== verification/Snapshot.v ===== *)
(** * Parlia snapshots ([src/consensus/parlia/snapshot.rs])

    The state of the validator set at a block, and its transition [apply] by
    the next block: continuity, membership and over-proposing checks, the
    justified and finalized block, the window of recent proposers, and the
    switch of the validator set at an epoch boundary. *)

From S2P Require Import Prelude Hardforks Types.

Definition CHECKPOINT_INTERVAL : Z := 1024.
Definition DEFAULT_EPOCH_LENGTH : Z := 200.
Definition DEFAULT_TURN_LENGTH : Z := 1.
Definition LORENTZ_EPOCH_LENGTH : Z := 500.
Definition LORENTZ_TURN_LENGTH : Z := 8.
Definition MAXWELL_EPOCH_LENGTH : Z := 1000.
Definition MAXWELL_TURN_LENGTH : Z := 16.
Definition DEFAULT_BLOCK_INTERVAL : Z := 3000.
Definition LORENTZ_BLOCK_INTERVAL : Z := 1500.
Definition MAXWELL_BLOCK_INTERVAL : Z := 750.
Definition FERMI_BLOCK_INTERVAL : Z := 450.

Record ValidatorInfo := {
  v_index : Z;
  vote_addr : VoteAddress;
}.

(** [validators_map] and [recent_proposers] are finite maps; nothing in the
    source depends on the order in which they are traversed. *)
Record Snapshot := {
  epoch_num : Z;
  block_number : Z;
  block_hash : B256;
  validators : list Address;
  validators_map : gmap Address ValidatorInfo;
  recent_proposers : gmap Z Address;
  vote_data : VoteData;
  turn_length : option Z;
  block_interval : Z;
}.

(** Assignments to one field. *)
Definition set_epoch_num (x : Z) (s : Snapshot) : Snapshot :=
  {| epoch_num := x; block_number := block_number s; block_hash := block_hash s;
     validators := validators s; validators_map := validators_map s;
     recent_proposers := recent_proposers s; vote_data := vote_data s;
     turn_length := turn_length s; block_interval := block_interval s |}.
Definition set_block (n : Z) (h : B256) (s : Snapshot) : Snapshot :=
  {| epoch_num := epoch_num s; block_number := n; block_hash := h;
     validators := validators s; validators_map := validators_map s;
     recent_proposers := recent_proposers s; vote_data := vote_data s;
     turn_length := turn_length s; block_interval := block_interval s |}.
Definition set_validators (v : list Address) (m : gmap Address ValidatorInfo) (s : Snapshot) : Snapshot :=
  {| epoch_num := epoch_num s; block_number := block_number s; block_hash := block_hash s;
     validators := v; validators_map := m;
     recent_proposers := recent_proposers s; vote_data := vote_data s;
     turn_length := turn_length s; block_interval := block_interval s |}.
Definition set_recent_proposers (r : gmap Z Address) (s : Snapshot) : Snapshot :=
  {| epoch_num := epoch_num s; block_number := block_number s; block_hash := block_hash s;
     validators := validators s; validators_map := validators_map s;
     recent_proposers := r; vote_data := vote_data s;
     turn_length := turn_length s; block_interval := block_interval s |}.
Definition set_vote_data (d : VoteData) (s : Snapshot) : Snapshot :=
  {| epoch_num := epoch_num s; block_number := block_number s; block_hash := block_hash s;
     validators := validators s; validators_map := validators_map s;
     recent_proposers := recent_proposers s; vote_data := d;
     turn_length := turn_length s; block_interval := block_interval s |}.
Definition set_turn_length (t : option Z) (s : Snapshot) : Snapshot :=
  {| epoch_num := epoch_num s; block_number := block_number s; block_hash := block_hash s;
     validators := validators s; validators_map := validators_map s;
     recent_proposers := recent_proposers s; vote_data := vote_data s;
     turn_length := t; block_interval := block_interval s |}.
Definition set_block_interval (i : Z) (s : Snapshot) : Snapshot :=
  {| epoch_num := epoch_num s; block_number := block_number s; block_hash := block_hash s;
     validators := validators s; validators_map := validators_map s;
     recent_proposers := recent_proposers s; vote_data := vote_data s;
     turn_length := turn_length s; block_interval := i |}.

(** ** The validator map

    The blocks of [new] and [apply] that sort a validator list and number it. *)

Fixpoint insert_votes {E} (l : list (Z * Address)) (vote_addrs : list VoteAddress)
    (m : gmap Address ValidatorInfo) : comp E (gmap Address ValidatorInfo) :=
  match l with
  | [] => Ret m
  | (i, v) :: l =>
      a ← index vote_addrs i;
      insert_votes l vote_addrs (<[v := {| v_index := 0; vote_addr := a |}]> m)
  end.

Definition set_index (m : gmap Address ValidatorInfo) (iv : Z * Address) : gmap Address ValidatorInfo :=
  alter (λ info, {| v_index := add64 (wrapu 64 iv.1) 1; vote_addr := vote_addr info |}) iv.2 m.

Definition insert_unknown (m : gmap Address ValidatorInfo) (iv : Z * Address) : gmap Address ValidatorInfo :=
  <[iv.2 := {| v_index := add64 (wrapu 64 iv.1) 1; vote_addr := ZERO |}]> m.

Definition index_validators {E} (vals : list Address) (vote_addrs : option (list VoteAddress))
    : comp E (list Address * gmap Address ValidatorInfo) :=
  match vote_addrs with
  | Some vote_addrs =>
      _ ← assert_that (zlen vals =? zlen vote_addrs);
      m ← insert_votes (enumerate 0 vals) vote_addrs ∅;
      let sorted := sort vals in
      Ret (sorted, foldl set_index m (enumerate 0 sorted))
  | None =>
      let sorted := sort vals in
      Ret (sorted, foldl insert_unknown ∅ (enumerate 0 sorted))
  end.

Definition snapshot_new {E} (vals : list Address) (bn : Z) (bh : B256) (epoch : Z)
    (vote_addrs : option (list VoteAddress)) : comp E Snapshot :=
  let epoch := if epoch =? 0 then DEFAULT_EPOCH_LENGTH else epoch in
  '(vals, m) ← index_validators vals vote_addrs;
  Ret {| epoch_num := epoch; block_number := bn; block_hash := bh; validators := vals;
         validators_map := m; recent_proposers := ∅; vote_data := VoteData_default;
         turn_length := Some DEFAULT_TURN_LENGTH; block_interval := DEFAULT_BLOCK_INTERVAL |}.

(** ** Queries *)

Definition turn_of (self : Snapshot) : Z := default DEFAULT_TURN_LENGTH (turn_length self).

Definition miner_history_check_len (self : Snapshot) : Z :=
  sub64 (mul64 (zlen (validators self) / 2 + 1) (turn_of self)) 1.

Definition inturn_validator {E} (self : Snapshot) : comp E Address :=
  let next_block := add64 (block_number self) 1 in
  q ← div_u next_block (turn_of self);
  offset ← rem_u q (zlen (validators self));
  index (validators self) offset.

Definition is_inturn {E} (self : Snapshot) (proposer : Address) : comp E bool :=
  inturn_val ← inturn_validator self;
  Ret (inturn_val =? proposer).

Definition index_of (self : Snapshot) (validator : Address) : option Z :=
  p ← list_find (λ v, v = validator) (validators self);
  Some (Z.of_nat p.1).

Definition last_block_in_one_turn (self : Snapshot) (bn : Z) : bool :=
  let tl := turn_of self in
  if tl <=? 1 then true else bn mod tl =? tl - 1.

Definition left_bound (self : Snapshot) : Z :=
  if miner_history_check_len self <? block_number self
  then sub64 (block_number self) (miner_history_check_len self) else 0.

(** [*counts.entry(v).or_insert(0) += 1], on [u8]. *)
Definition count_proposer (lb : Z) (bv : Z * Address) (counts : gmap Address Z) : gmap Address Z :=
  let '(block, v) := bv in
  if (block <=? lb) || (v =? ZERO) then counts
  else <[v := wrapu 8 (default 0 (counts !! v) + 1)]> counts.

Definition count_recent_proposers (self : Snapshot) : gmap Address Z :=
  foldr (count_proposer (left_bound self)) ∅ (map_to_list (recent_proposers self)).

Definition sign_recently_by_counts (self : Snapshot) (validator : Address)
    (counts : gmap Address Z) : bool :=
  match counts !! validator with
  | Some times => turn_of self <=? times
  | None => false
  end.

Definition sign_recently (self : Snapshot) (validator : Address) : bool :=
  sign_recently_by_counts self validator (count_recent_proposers self).

Definition get_finalized_number (self : Snapshot) : Z :=
  if 0 <? source_number (vote_data self) then source_number (vote_data self) else 0.

(** ** Applying a block *)

Section Apply.
Context `{FCA : ForkConditionApi} {CS : Type} `{!BscHardforks CS} `{SL : Sealable}.
Variable chain_spec : CS.

Definition update_attestation (header : Header) (attestation : option VoteAttestation)
    (self : Snapshot) : Snapshot :=
  match attestation with
  | None => self
  | Some att =>
      let d := att_data att in
      if negb (is_fermi_active_at_timestamp chain_spec (number header) (timestamp header))
         && (negb (add64 (target_number d) 1 =? number header)
             || negb (target_hash d =? parent_hash header))
      then self
      else if negb (add64 (source_number d) 1 =? target_number d) then
        set_vote_data {| source_number := source_number (vote_data self);
                         source_hash := source_hash (vote_data self);
                         target_number := target_number d;
                         target_hash := target_hash d |} self
      else set_vote_data d self
  end.

(** Lines 161-165: the block that leaves the window of [self] is forgotten. *)
Definition slide_window (self : Snapshot) (bn : Z) (snap : Snapshot) : Snapshot :=
  let limit := add64 (miner_history_check_len self) 1 in
  if limit <=? bn
  then set_recent_proposers (delete (sub64 bn limit) (recent_proposers snap)) snap
  else snap.

(** Lines 174-187. *)
Definition over_proposed (is_bohr : bool) (validator : Address) (snap : Snapshot) : bool :=
  if is_bohr then sign_recently snap validator
  else existsb (λ '(_, v), v =? validator) (map_to_list (recent_proposers snap)).

(** Lines 193-205: BEP-524, the entries up to the finalized block are cleared. *)
Definition clear_finalized (snap : Snapshot) : Snapshot :=
  let latest_finalized_block_number := get_finalized_number snap in
  let blocks_to_remove :=
    filter (λ b, b <= latest_finalized_block_number) (map_to_list (recent_proposers snap)).*1 in
  set_recent_proposers (foldl (λ m b, delete b m) (recent_proposers snap) blocks_to_remove) snap.

(** Lines 211-217. *)
Definition upgrade_interval (is_fermi is_maxwell is_lorentz : bool) (snap : Snapshot) : Snapshot :=
  if is_fermi then set_block_interval FERMI_BLOCK_INTERVAL snap
  else if is_maxwell then set_block_interval MAXWELL_BLOCK_INTERVAL snap
  else if is_lorentz then set_block_interval LORENTZ_BLOCK_INTERVAL snap
  else snap.

(** Lines 220-232. *)
Definition upgrade_epoch (bn : Z) (is_maxwell is_lorentz : bool) (snap : Snapshot) : Snapshot :=
  let next_block_number := add64 bn 1 in
  let snap :=
    if (epoch_num snap =? DEFAULT_EPOCH_LENGTH) && is_lorentz
       && is_multiple_of next_block_number LORENTZ_EPOCH_LENGTH
    then set_epoch_num LORENTZ_EPOCH_LENGTH snap else snap in
  if (epoch_num snap =? LORENTZ_EPOCH_LENGTH) && is_maxwell
     && is_multiple_of next_block_number MAXWELL_EPOCH_LENGTH
  then set_epoch_num MAXWELL_EPOCH_LENGTH snap else snap.

(** Lines 244-256: the window after a switch of the validator set. *)
Definition switch_window (is_bohr : bool) (epoch_key bn : Z) (new_validators : list Address)
    (snap : Snapshot) : Snapshot :=
  if is_bohr then set_recent_proposers {[ epoch_key := ZERO ]} snap
  else
    let old_limit := zlen (validators snap) / 2 + 1 in
    let new_limit := zlen new_validators / 2 + 1 in
    if new_limit <? old_limit then
      set_recent_proposers
        (foldl (λ m i, delete (sub64 (sub64 bn new_limit) i) m) (recent_proposers snap)
           (zrange 0 (Z.to_nat (old_limit - new_limit)))) snap
    else snap.

(** Lines 234-299. *)
Definition switch_validators {E} (is_bohr : bool) (epoch_key bn : Z)
    (new_validators : list Address) (vote_addrs : option (list VoteAddress)) (turn : option Z)
    (snap : Snapshot) : comp E Snapshot :=
  if negb (bool_decide (new_validators = []))
     && (negb is_bohr || negb (bool_decide (is_Some (recent_proposers snap !! epoch_key))))
  then
    let snap := match turn with Some tl => set_turn_length (Some tl) snap | None => snap end in
    let snap := switch_window is_bohr epoch_key bn new_validators snap in
    '(vals, m) ← index_validators new_validators vote_addrs;
    Ret (set_validators vals m snap)
  else Ret snap.

Definition apply {E} (self : Snapshot) (validator : Address) (next_header : Header)
    (new_validators : list Address) (vote_addrs : option (list VoteAddress))
    (attestation : option VoteAttestation) (turn : option Z) : comp E (option Snapshot) :=
  let bn := number next_header in
  if negb (add64 (block_number self) 1 =? bn) then Ret None
  else
    let snap := set_block bn (hash_slow next_header) self in
    let snap := slide_window self bn snap in
    if negb (bool_decide (validator ∈ validators snap)) then Ret None
    else
      let t := timestamp next_header in
      let is_bohr := is_bohr_active_at_timestamp chain_spec bn t in
      if over_proposed is_bohr validator snap then Ret None
      else
        let snap := update_attestation next_header attestation snap in
        let snap := set_recent_proposers (<[bn := validator]> (recent_proposers snap)) snap in
        let is_maxwell := is_maxwell_active_at_timestamp chain_spec bn t in
        let snap := if is_maxwell then clear_finalized snap else snap in
        let is_lorentz := is_lorentz_active_at_timestamp chain_spec bn t in
        let is_fermi := is_fermi_active_at_timestamp chain_spec bn t in
        let snap := upgrade_interval is_fermi is_maxwell is_lorentz snap in
        let epoch_length := epoch_num snap in
        let snap := upgrade_epoch bn is_maxwell is_lorentz snap in
        q ← div_u bn epoch_length;
        let epoch_key := sub64 U64_MAX q in
        snap ← switch_validators is_bohr epoch_key bn new_validators vote_addrs turn snap;
        Ret (Some snap).

End Apply.

(** * Proofs *)

(** ** The validator map *)

Section ValidatorMap.
Context {E : Type}.

Lemma insert_votes_spec (l : list Address) k (votes : list VoteAddress) m :
  0 <= k → k + zlen l <= zlen votes → NoDup l →
  ∃ m', insert_votes (E:=E) (enumerate k l) votes m = Ret m'
  ∧ (∀ j v, l !! j = Some v → ∃ a, votes !! (Z.to_nat k + j)%nat = Some a
       ∧ m' !! v = Some {| v_index := 0; vote_addr := a |})
  ∧ (∀ v, v ∉ l → m' !! v = m !! v).
Proof.
  revert k m. induction l as [|x l IH]; intros k m Hk Hlen Hnd.
  - exists m. split_and!; [done| |done]. intros j v Hj. by rewrite lookup_nil in Hj.
  - apply list.NoDup_cons in Hnd as [Hx Hnd]. rewrite zlen_cons in Hlen.
    pose proof (zlen_nonneg l).
    destruct (index_Ret (E:=E) votes k) as (a & Ha & Hlk); [lia|].
    destruct (IH (k + 1) (<[x := {| v_index := 0; vote_addr := a |}]> m)) as (m' & Hm' & H1 & H2);
      [lia|lia|done|].
    exists m'. simpl. rewrite Ha. split_and!; [done| |].
    + intros [|j] v Hj; simpl in Hj; simplify_eq.
      * exists a. rewrite Nat.add_0_r, H2 by done. by rewrite lookup_insert_eq.
      * destruct (H1 j v Hj) as (b & Hb & Hv). exists b.
        replace (Z.to_nat k + S j)%nat with (Z.to_nat (k + 1) + j)%nat by lia. done.
    + intros v Hv. apply not_elem_of_cons in Hv as [Hvx Hvl].
      rewrite H2, lookup_insert_ne by done. done.
Qed.

Lemma foldl_set_index_spec l k m :
  NoDup l →
  (∀ i v, l !! i = Some v → foldl set_index m (enumerate k l) !! v =
     (λ info, {| v_index := add64 (wrapu 64 (k + Z.of_nat i)) 1; vote_addr := vote_addr info |})
       <$> m !! v)
  ∧ (∀ v, v ∉ l → foldl set_index m (enumerate k l) !! v = m !! v).
Proof.
  revert k m. induction l as [|x l IH]; intros k m Hnd.
  - split; [|done]. intros i v Hi. by rewrite lookup_nil in Hi.
  - apply list.NoDup_cons in Hnd as [Hx Hnd].
    destruct (IH (k + 1) (set_index m (k, x)) Hnd) as [H1 H2]. split.
    + intros [|i] v Hi; simpl in Hi; simplify_eq; simpl foldl.
      * rewrite H2 by done. unfold set_index. simpl. rewrite lookup_alter_eq, Z.add_0_r. done.
      * rewrite (H1 i v Hi). unfold set_index. simpl.
        rewrite lookup_alter_ne by (intros ->; apply Hx; by eapply list_elem_of_lookup_2).
        replace (k + 1 + Z.of_nat i) with (k + Z.of_nat (S i)) by lia. done.
    + intros v Hv. apply not_elem_of_cons in Hv as [Hvx Hvl]. simpl foldl.
      rewrite H2 by done. unfold set_index. simpl. by rewrite lookup_alter_ne.
Qed.

Lemma foldl_insert_unknown_spec l k m :
  NoDup l →
  (∀ i v, l !! i = Some v → foldl insert_unknown m (enumerate k l) !! v =
     Some {| v_index := add64 (wrapu 64 (k + Z.of_nat i)) 1; vote_addr := ZERO |})
  ∧ (∀ v, v ∉ l → foldl insert_unknown m (enumerate k l) !! v = m !! v).
Proof.
  revert k m. induction l as [|x l IH]; intros k m Hnd.
  - split; [|done]. intros i v Hi. by rewrite lookup_nil in Hi.
  - apply list.NoDup_cons in Hnd as [Hx Hnd].
    destruct (IH (k + 1) (insert_unknown m (k, x)) Hnd) as [H1 H2]. split.
    + intros [|i] v Hi; simpl in Hi; simplify_eq; simpl foldl.
      * rewrite H2 by done. unfold insert_unknown. simpl. rewrite lookup_insert_eq, Z.add_0_r. done.
      * rewrite (H1 i v Hi).
        replace (k + 1 + Z.of_nat i) with (k + Z.of_nat (S i)) by lia. done.
    + intros v Hv. apply not_elem_of_cons in Hv as [Hvx Hvl]. simpl foldl.
      rewrite H2 by done. unfold insert_unknown. simpl. by rewrite lookup_insert_ne.
Qed.

(** The vote address of the validator at position [j] of the unsorted list. *)
Definition vote_of (vote_addrs : option (list VoteAddress)) (j : nat) : option VoteAddress :=
  match vote_addrs with Some l => l !! j | None => Some ZERO end.

Definition votes_match (vals : list Address) (vote_addrs : option (list VoteAddress)) : Prop :=
  match vote_addrs with Some l => zlen l = zlen vals | None => True end.

Lemma index_validators_spec vals vote_addrs :
  NoDup vals → zlen vals < U64_MAX → votes_match vals vote_addrs →
  ∃ m, index_validators (E:=E) vals vote_addrs = Ret (sort vals, m)
  ∧ (∀ i j v, sort vals !! i = Some v → vals !! j = Some v → ∃ a,
       vote_of vote_addrs j = Some a
       ∧ m !! v = Some {| v_index := Z.of_nat i + 1; vote_addr := a |})
  ∧ (∀ v, v ∉ vals → m !! v = None).
Proof.
  intros Hnd Hlen Hm. pose proof (proj2 (NoDup_sort vals) Hnd) as Hnds.
  assert (Hsmall : ∀ i v, sort vals !! i = Some v →
    add64 (wrapu 64 (0 + Z.of_nat i)) 1 = Z.of_nat i + 1).
  { intros i v Hi%lookup_lt_Some. rewrite length_sort in Hi.
    unfold U64_MAX, zlen in Hlen. rewrite wrapu_small by (unfold is_u; lia).
    rewrite add64_small by (unfold is_u; lia). lia. }
  unfold index_validators. destruct vote_addrs as [votes|]; simpl in Hm.
  - rewrite Hm, Z.eqb_refl. cbn [assert_that mbind comp_bind].
    destruct (insert_votes_spec vals 0 votes ∅) as (m & Hins & H1 & H2); [lia|lia|done|].
    rewrite Hins. cbn [mbind comp_bind].
    destruct (foldl_set_index_spec (sort vals) 0 m Hnds) as [H3 H4].
    eexists; split_and!; [done| |].
    + intros i j v Hi Hj. destruct (H1 j v Hj) as (a & Ha & Hv). exists a.
      split; [done|]. rewrite (H3 i v Hi), Hv. simpl. by rewrite (Hsmall i v Hi).
    + intros v Hv. rewrite H4 by (by rewrite elem_of_sort). by rewrite H2.
  - destruct (foldl_insert_unknown_spec (sort vals) 0 ∅ Hnds) as [H3 H4].
    eexists; split_and!; [done| |].
    + intros i j v Hi Hj. exists ZERO. split; [done|]. rewrite (H3 i v Hi).
      by rewrite (Hsmall i v Hi).
    + intros v Hv. rewrite H4 by (by rewrite elem_of_sort). done.
Qed.

End ValidatorMap.

(** ** Well-formed snapshots *)

(** A validator list that a header may carry: distinct members, one vote
    address each. *)
Record validator_list_ok (vals : list Address) (vote_addrs : option (list VoteAddress)) : Prop := {
  vl_nodup : NoDup vals;
  vl_small : zlen vals < 2 ^ 32;
  vl_votes : votes_match vals vote_addrs;
}.

Record snapshot_wf (s : Snapshot) : Prop := {
  wf_epoch : is_u 64 (epoch_num s) ∧ 0 < epoch_num s;
  wf_block : is_u 64 (block_number s);
  wf_nonempty : validators s ≠ [];
  wf_small : zlen (validators s) < 2 ^ 32;
  wf_nodup : NoDup (validators s);
  wf_sorted : Sorted Z.le (validators s);
  wf_index : ∀ i v, validators s !! i = Some v →
    ∃ a, validators_map s !! v = Some {| v_index := Z.of_nat i + 1; vote_addr := a |};
  wf_dom : ∀ v, v ∉ validators s → validators_map s !! v = None;
  wf_turn : 0 < turn_of s < 256;
}.

Lemma zlen_sort l : zlen (sort l) = zlen l.
Proof. unfold zlen. by rewrite length_sort. Qed.

Lemma sort_nil_inv l : sort l = [] → l = [].
Proof. intros H. apply Permutation_nil. by rewrite <- H, sort_perm. Qed.

Lemma index_validators_wf {E} vals vote_addrs l m :
  validator_list_ok vals vote_addrs →
  index_validators (E:=E) vals vote_addrs = Ret (l, m) →
  l = sort vals
  ∧ (∀ i v, l !! i = Some v →
       ∃ a, m !! v = Some {| v_index := Z.of_nat i + 1; vote_addr := a |})
  ∧ (∀ v, v ∉ l → m !! v = None).
Proof.
  intros [Hnd Hsm Hv] Hr.
  destruct (index_validators_spec (E:=E) vals vote_addrs) as (m' & Hm' & H1 & H2);
    [done|unfold U64_MAX; lia|done|].
  rewrite Hr in Hm'. injection Hm' as -> ->. split_and!; [done| |].
  - intros i v Hi. assert (v ∈ vals) as (j & Hj)%list_elem_of_lookup.
    { rewrite <- elem_of_sort. by eapply list_elem_of_lookup_2. }
    destruct (H1 i j v Hi Hj) as (a & _ & Ha). by exists a.
  - intros v Hv'. apply H2. by rewrite <- elem_of_sort.
Qed.

Lemma index_validators_total {E} vals vote_addrs :
  votes_match vals vote_addrs → ∃ m, index_validators (E:=E) vals vote_addrs = Ret (sort vals, m).
Proof.
  unfold index_validators. destruct vote_addrs as [votes|]; simpl; [|eauto].
  intros Hv. rewrite Hv, Z.eqb_refl. cbn [assert_that mbind comp_bind].
  assert (Hi : ∀ l k m, 0 <= k → k + zlen l <= zlen votes →
    ∃ m', insert_votes (E:=E) (enumerate k l) votes m = Ret m').
  { induction l as [|x l IH]; intros k m Hk Hl; [by exists m|].
    rewrite zlen_cons in Hl. pose proof (zlen_nonneg l).
    destruct (index_Ret (E:=E) votes k) as (a & Ha & _); [lia|].
    simpl. rewrite Ha. cbn [mbind comp_bind]. apply IH; lia. }
  destruct (Hi vals 0 ∅) as [m' Hm']; [lia|lia|]. rewrite Hm'.
  cbn [mbind comp_bind]. eauto.
Qed.

(** ** The stages of [apply] *)

Section Stages.
Context `{FCA : ForkConditionApi} {CS : Type} `{!BscHardforks CS} `{SL : Sealable}.
Variable chain_spec : CS.
Implicit Types (s snap : Snapshot) (h : Header).

(** The snapshot just before the validator set may be switched. *)
Definition accepted_snap (self : Snapshot) (validator : Address) (h : Header)
    (attestation : option VoteAttestation) : Snapshot :=
  let bn := number h in
  let t := timestamp h in
  let snap := slide_window self bn (set_block bn (hash_slow h) self) in
  let snap := update_attestation chain_spec h attestation snap in
  let snap := set_recent_proposers (<[bn := validator]> (recent_proposers snap)) snap in
  let is_maxwell := is_maxwell_active_at_timestamp chain_spec bn t in
  let is_lorentz := is_lorentz_active_at_timestamp chain_spec bn t in
  let snap := if is_maxwell then clear_finalized snap else snap in
  upgrade_epoch bn is_maxwell is_lorentz
    (upgrade_interval (is_fermi_active_at_timestamp chain_spec bn t) is_maxwell is_lorentz snap).

(** The checks of [apply], on the window that remains for the new block. *)
Definition admissible (self : Snapshot) (validator : Address) (h : Header) : bool :=
  (add64 (block_number self) 1 =? number h)
  && bool_decide (validator ∈ validators self)
  && negb (over_proposed (is_bohr_active_at_timestamp chain_spec (number h) (timestamp h)) validator
             (slide_window self (number h) (set_block (number h) (hash_slow h) self))).

Lemma slide_window_fields s bn snap :
  epoch_num (slide_window s bn snap) = epoch_num snap
  ∧ block_number (slide_window s bn snap) = block_number snap
  ∧ block_hash (slide_window s bn snap) = block_hash snap
  ∧ validators (slide_window s bn snap) = validators snap
  ∧ validators_map (slide_window s bn snap) = validators_map snap
  ∧ vote_data (slide_window s bn snap) = vote_data snap
  ∧ turn_length (slide_window s bn snap) = turn_length snap
  ∧ block_interval (slide_window s bn snap) = block_interval snap.
Proof. unfold slide_window. by destruct (_ <=? _). Qed.

Lemma update_attestation_fields h att snap :
  epoch_num (update_attestation chain_spec h att snap) = epoch_num snap
  ∧ block_number (update_attestation chain_spec h att snap) = block_number snap
  ∧ block_hash (update_attestation chain_spec h att snap) = block_hash snap
  ∧ validators (update_attestation chain_spec h att snap) = validators snap
  ∧ validators_map (update_attestation chain_spec h att snap) = validators_map snap
  ∧ recent_proposers (update_attestation chain_spec h att snap) = recent_proposers snap
  ∧ turn_length (update_attestation chain_spec h att snap) = turn_length snap.
Proof. unfold update_attestation. repeat case_match; done. Qed.

Lemma upgrade_fields bn f x l snap :
  let u := upgrade_epoch bn x l (upgrade_interval f x l snap) in
  block_number u = block_number snap ∧ block_hash u = block_hash snap
  ∧ validators u = validators snap ∧ validators_map u = validators_map snap
  ∧ recent_proposers u = recent_proposers snap ∧ vote_data u = vote_data snap
  ∧ turn_length u = turn_length snap.
Proof. unfold upgrade_epoch, upgrade_interval. repeat case_match; done. Qed.

Lemma apply_stages {E} s v h nv va att tl :
  apply (E:=E) chain_spec s v h nv va att tl =
  if admissible s v h then
    q ← div_u (number h) (epoch_num s);
    snap ← switch_validators (is_bohr_active_at_timestamp chain_spec (number h) (timestamp h))
             (sub64 U64_MAX q) (number h) nv va tl (accepted_snap s v h att);
    Ret (Some snap)
  else Ret None.
Proof.
  unfold apply, admissible.
  destruct (add64 _ _ =? _); [|done].
  destruct (slide_window_fields s (number h) (set_block (number h) (hash_slow h) s))
    as (_&_&_&Hv&_).
  rewrite Hv. cbn [validators set_block].
  destruct (bool_decide (v ∈ validators s)); [|done].
  destruct (over_proposed _ _ _); [done|]. cbn [andb negb].
  unfold accepted_snap. cbv zeta.
  assert (He : ∀ snap b1 b2 b3, epoch_num (upgrade_interval b1 b2 b3 snap) = epoch_num snap).
  { intros. unfold upgrade_interval. by repeat case_match. }
  rewrite He.
  assert (Hc : ∀ (b : bool) snap, epoch_num (if b then clear_finalized snap else snap) = epoch_num snap).
  { by intros []. }
  rewrite Hc. cbn [epoch_num set_recent_proposers].
  rewrite (proj1 (update_attestation_fields _ _ _)), (proj1 (slide_window_fields _ _ _)).
  done.
Qed.

Lemma accepted_snap_fields s v h att :
  block_number (accepted_snap s v h att) = number h
  ∧ block_hash (accepted_snap s v h att) = hash_slow h
  ∧ validators (accepted_snap s v h att) = validators s
  ∧ validators_map (accepted_snap s v h att) = validators_map s
  ∧ turn_length (accepted_snap s v h att) = turn_length s
  ∧ vote_data (accepted_snap s v h att) = vote_data (update_attestation chain_spec h att s).
Proof.
  unfold accepted_snap. cbv zeta.
  match goal with |- context [upgrade_epoch ?a ?b ?c (upgrade_interval ?d ?b ?c ?e)] =>
    destruct (upgrade_fields a d b c e) as (->&->&->&->&_&->&->) end.
  assert (Hc : ∀ (b : bool) snap, let u := if b then clear_finalized snap else snap in
    block_number u = block_number snap ∧ block_hash u = block_hash snap
    ∧ validators u = validators snap ∧ validators_map u = validators_map snap
    ∧ vote_data u = vote_data snap ∧ turn_length u = turn_length snap) by by intros [].
  match goal with |- context [if ?b then clear_finalized ?e else _] =>
    destruct (Hc b e) as (->&->&->&->&->&->) end.
  cbn [set_recent_proposers block_number block_hash validators validators_map vote_data turn_length].
  match goal with |- context [update_attestation ?c ?h ?a ?e] =>
    destruct (update_attestation_fields h a e) as (_&->&->&->&->&_&->) end.
  destruct (slide_window_fields s (number h) (set_block (number h) (hash_slow h) s))
    as (_&->&->&->&->&Hvd&->&_).
  split_and!; try done. unfold update_attestation. rewrite Hvd.
  repeat case_match; try done.
Qed.

(** The window kept by [accepted_snap]. *)
Lemma slide_window_lookup s bn snap b :
  recent_proposers (slide_window s bn snap) !! b =
  if bool_decide (add64 (miner_history_check_len s) 1 <= bn
                  ∧ b = sub64 bn (add64 (miner_history_check_len s) 1))
  then None else recent_proposers snap !! b.
Proof.
  unfold slide_window. destruct (Z.leb_spec (add64 (miner_history_check_len s) 1) bn) as [H|H].
  - cbn [recent_proposers set_recent_proposers].
    destruct (decide (b = sub64 bn (add64 (miner_history_check_len s) 1))) as [->|Hne].
    + rewrite bool_decide_true by done. by rewrite lookup_delete_eq.
    + rewrite bool_decide_false by tauto. by rewrite lookup_delete_ne.
  - rewrite bool_decide_false by lia. done.
Qed.

Lemma foldl_delete_lookup {A} (l : list A) (f : A → Z) (m : gmap Z Address) b :
  foldl (λ m i, delete (f i) m) m l !! b = if bool_decide (b ∈ f <$> l) then None else m !! b.
Proof.
  revert m. induction l as [|x l IH]; intros m; rewrite ?fmap_cons; cbn [foldl].
  { case_bool_decide as Hb; [by apply elem_of_nil in Hb|done]. }
  rewrite IH. destruct (decide (b ∈ f <$> l)) as [Hb|Hb].
  - rewrite !bool_decide_true; [done| |done]. by apply elem_of_cons; right.
  - rewrite (bool_decide_false (b ∈ f <$> l)) by done.
    destruct (decide (b = f x)) as [->|Hne].
    + rewrite lookup_delete_eq, bool_decide_true by (apply elem_of_cons; by left). done.
    + rewrite lookup_delete_ne by done. rewrite bool_decide_false; [done|].
      intros [?|?]%elem_of_cons; done.
Qed.

Lemma clear_finalized_lookup snap b :
  recent_proposers (clear_finalized snap) !! b =
  if bool_decide (b <= get_finalized_number snap) then None else recent_proposers snap !! b.
Proof.
  unfold clear_finalized. cbn [recent_proposers set_recent_proposers].
  rewrite (foldl_delete_lookup _ (λ b, b)), list_fmap_id.
  destruct (decide (b <= get_finalized_number snap)) as [Hb|Hb].
  - rewrite (bool_decide_true (b <= _)) by done.
    destruct (recent_proposers snap !! b) as [v|] eqn:Hv.
    + rewrite bool_decide_true; [done|]. apply list_elem_of_filter. split; [done|].
      apply list_elem_of_fmap. exists (b, v). split; [done|]. by apply elem_of_map_to_list.
    + by case_bool_decide.
  - rewrite (bool_decide_false (b <= _)) by done. rewrite bool_decide_false; [done|].
    intros [? _]%list_elem_of_filter. done.
Qed.

Lemma accepted_snap_recent s v h att b :
  recent_proposers (accepted_snap s v h att) !! b =
  if bool_decide (is_maxwell_active_at_timestamp chain_spec (number h) (timestamp h) = true
                  ∧ b <= get_finalized_number (accepted_snap s v h att))
  then None
  else if bool_decide (b = number h) then Some v
  else recent_proposers (slide_window s (number h) s) !! b.
Proof.
  assert (Hf : get_finalized_number (accepted_snap s v h att) =
               get_finalized_number (update_attestation chain_spec h att s)).
  { unfold get_finalized_number.
    by rewrite !(proj2 (proj2 (proj2 (proj2 (proj2 (accepted_snap_fields s v h att)))))). }
  assert (Hvd : ∀ n hh r, vote_data (set_recent_proposers r (update_attestation chain_spec h att
             (slide_window s (number h) (set_block n hh s)))) =
             vote_data (update_attestation chain_spec h att s)).
  { intros n hh r. cbn. unfold update_attestation.
    pose proof (slide_window_fields s (number h) (set_block n hh s)) as (_&_&_&_&_&Hx&_).
    repeat case_match; cbn in *; try rewrite Hx; done. }
  rewrite Hf. unfold accepted_snap. cbv zeta.
  match goal with |- context [upgrade_epoch ?a ?b ?c (upgrade_interval ?d ?b ?c ?e)] =>
    destruct (upgrade_fields a d b c e) as (_&_&_&_&->&_) end.
  set (s1 := set_recent_proposers _ _).
  assert (H1 : recent_proposers s1 !! b = if bool_decide (b = number h) then Some v
             else recent_proposers (slide_window s (number h) s) !! b).
  { subst s1. cbn [recent_proposers set_recent_proposers].
    rewrite (proj1 (proj2 (proj2 (proj2 (proj2 (proj2 (update_attestation_fields _ _ _))))))).
    case_bool_decide as Hb; [subst; by rewrite lookup_insert_eq|].
    rewrite lookup_insert_ne by done. by rewrite !slide_window_lookup. }
  assert (H2 : get_finalized_number s1 = get_finalized_number (update_attestation chain_spec h att s)).
  { subst s1. unfold get_finalized_number. by rewrite Hvd. }
  destruct (is_maxwell_active_at_timestamp _ _ _).
  - rewrite clear_finalized_lookup, H1, H2.
    destruct (decide (b <= get_finalized_number (update_attestation chain_spec h att s))).
    + rewrite !bool_decide_true by done. done.
    + rewrite (bool_decide_false (b <= _)), (bool_decide_false (_ ∧ _)) by tauto. done.
  - rewrite (bool_decide_false (_ ∧ _)) by (intros [? _]; done). done.
Qed.

End Stages.

(** ** Counting recent proposals *)

(** The entries of the window proposed by [v]. *)
Definition window_blocks (s : Snapshot) (v : Address) : list Z :=
  (filter (λ bv, left_bound s < bv.1 ∧ bv.2 = v) (map_to_list (recent_proposers s))).*1.

Definition proposals (s : Snapshot) (v : Address) : Z := zlen (window_blocks s v).

Lemma count_list_spec lb (l : list (Z * Address)) v :
  v ≠ ZERO →
  let c := zlen (filter (λ bv, lb < bv.1 ∧ bv.2 = v) l) in
  foldr (count_proposer lb) ∅ l !! v = if c =? 0 then None else Some (wrapu 8 c).
Proof.
  intros Hv. induction l as [|[b w] l IH]; [done|].
  cbv zeta in *. cbn [foldr]. unfold count_proposer at 1.
  rewrite filter_cons. cbn [fst snd]. revert IH.
  set (c := zlen (filter _ l)). set (m := foldr _ _ _). intros IH.
  assert (Hc : 0 <= c) by apply zlen_nonneg.
  destruct (Z.leb_spec b lb) as [Hb|Hb]; cbn [orb].
  { rewrite decide_False by lia. done. }
  destruct (Z.eqb_spec w ZERO) as [->|Hw].
  { rewrite decide_False by (intros [_ ?]; congruence). done. }
  destruct (decide (w = v)) as [->|Hwv].
  - rewrite decide_True by done. rewrite zlen_cons, lookup_insert_eq. fold c.
    rewrite (proj2 (Z.eqb_neq (1 + c) 0)) by lia. f_equal. rewrite IH.
    destruct (Z.eqb_spec c 0) as [->|Hc0]; [done|]. 
    change (default 0 (Some (wrapu 8 c))) with (c mod 256). unfold wrapu. change (2 ^ 8) with 256.
    rewrite Z.add_mod_idemp_l by lia. f_equal. lia.
  - rewrite decide_False by naive_solver. rewrite lookup_insert_ne by done. done.
Qed.

Lemma count_recent_proposers_lookup s v :
  v ≠ ZERO →
  count_recent_proposers s !! v =
  if proposals s v =? 0 then None else Some (wrapu 8 (proposals s v)).
Proof.
  intros Hv. unfold count_recent_proposers, proposals, window_blocks.
  rewrite count_list_spec by done. unfold zlen. by rewrite length_fmap.
Qed.

Lemma count_recent_proposers_zero s : count_recent_proposers s !! ZERO = None.
Proof.
  unfold count_recent_proposers. induction (map_to_list _) as [|[b w] l IH]; [done|].
  cbn [foldr]. unfold count_proposer at 1. destruct (_ || _) eqn:Hb; [done|].
  reflect_bools. by rewrite lookup_insert_ne.
Qed.

Lemma sign_recently_spec s v :
  0 < turn_of s → proposals s v < 256 →
  sign_recently s v = negb (v =? ZERO) && (turn_of s <=? proposals s v).
Proof.
  intros Ht Hp. unfold sign_recently, sign_recently_by_counts.
  destruct (Z.eqb_spec v ZERO) as [->|Hv]; [by rewrite count_recent_proposers_zero|].
  rewrite count_recent_proposers_lookup by done.
  assert (0 <= proposals s v) by apply zlen_nonneg.
  destruct (Z.eqb_spec (proposals s v) 0) as [->|H0]; simpl negb; cbn [andb].
  - symmetry. apply Z.leb_gt. lia.
  - rewrite wrapu_small by (unfold is_u; change (2 ^ 8) with 256; lia). done.
Qed.

Lemma window_blocks_elem s v b :
  b ∈ window_blocks s v ↔ left_bound s < b ∧ recent_proposers s !! b = Some v.
Proof.
  unfold window_blocks. rewrite list_elem_of_fmap. split.
  - intros ([b' v'] & -> & Hf). apply list_elem_of_filter in Hf as [[Hlb Hv] Hm].
    simpl in *. subst. by apply elem_of_map_to_list in Hm.
  - intros [Hlb Hm]. exists (b, v). split; [done|]. apply list_elem_of_filter.
    split; [done|]. by apply elem_of_map_to_list.
Qed.

Lemma NoDup_window_blocks s v : NoDup (window_blocks s v).
Proof.
  apply NoDup_fst_filter, NoDup_fst_map_to_list.
Qed.

Lemma over_proposed_pre_bohr s v :
  over_proposed false v s = true ↔ ∃ b, recent_proposers s !! b = Some v.
Proof.
  unfold over_proposed. rewrite existsb_exists. split.
  - intros ([b w] & Hin & Hw). apply Z.eqb_eq in Hw as ->. exists b.
    apply elem_of_map_to_list. by apply list_elem_of_In.
  - intros [b Hb]. exists (b, v). split; [|apply Z.eqb_refl].
    apply list_elem_of_In. by apply elem_of_map_to_list.
Qed.

(** ** Arithmetic of the history length *)

Lemma turn_limit_bound s :
  snapshot_wf s → 0 < (zlen (validators s) / 2 + 1) * turn_of s < 2 ^ 41.
Proof.
  intros Hwf. destruct (wf_turn s Hwf). pose proof (wf_small s Hwf).
  pose proof (zlen_nonneg (validators s)).
  assert (0 <= zlen (validators s) / 2 < 2 ^ 31).
  { split; [apply Z.div_pos; lia|]. apply Z.div_lt_upper_bound; lia. }
  change (2 ^ 41) with 2199023255552. change (2 ^ 31) with 2147483648 in *. nia.
Qed.

Lemma miner_history_check_len_eq s :
  snapshot_wf s →
  miner_history_check_len s = (zlen (validators s) / 2 + 1) * turn_of s - 1
  ∧ add64 (miner_history_check_len s) 1 = (zlen (validators s) / 2 + 1) * turn_of s.
Proof.
  intros Hwf. pose proof (turn_limit_bound s Hwf) as Hb.
  change (2 ^ 41) with 2199023255552 in Hb.
  unfold miner_history_check_len. set (L := _ * _) in *.
  rewrite mul64_small by (unfold is_u; change (2 ^ 64) with 18446744073709551616; fold L; lia).
  fold L. rewrite sub64_small by (unfold is_u; change (2 ^ 64) with 18446744073709551616; lia).
  rewrite add64_small by (unfold is_u; change (2 ^ 64) with 18446744073709551616; lia).
  split; [done|lia].
Qed.

Lemma left_bound_eq s :
  snapshot_wf s → left_bound s = Z.max 0 (block_number s - miner_history_check_len s).
Proof.
  intros Hwf. destruct (miner_history_check_len_eq s Hwf) as [Hm _].
  pose proof (turn_limit_bound s Hwf). destruct (wf_block s Hwf).
  unfold left_bound. destruct (Z.ltb_spec (miner_history_check_len s) (block_number s)); [|lia].
  rewrite sub64_small by (unfold is_u; lia). lia.
Qed.

(** ** Every branch of [apply] *)

(** What a block must not do, in terms of the window alone: before Bohr its
    proposer must not occur among the remaining entries, from Bohr on its
    proposals in the remaining window must not use up the turn. *)
Definition over_proposes (is_bohr : bool) (s : Snapshot) (v : Address) : Prop :=
  if is_bohr then v ≠ ZERO ∧ turn_of s <= proposals s v
  else ∃ b, recent_proposers s !! b = Some v.

(** The arguments [apply] gets from a verified header. *)
Record block_args_ok (h : Header) (nv : list Address) (va : option (list VoteAddress))
    (tl : option Z) : Prop := {
  ba_number : is_u 64 (number h);
  ba_list : validator_list_ok nv va;
  ba_turn : ∀ t, tl = Some t → 0 < t < 256;
}.

Section Apply_facts.
Context `{FCA : ForkConditionApi} {CS : Type} `{!BscHardforks CS} `{SL : Sealable}.
Variable chain_spec : CS.
Implicit Types (s snap : Snapshot) (h : Header).

Definition bohr_at h : bool := is_bohr_active_at_timestamp chain_spec (number h) (timestamp h).

(** The window against which block [h] is checked. *)
Definition window_for s h : Snapshot :=
  slide_window s (number h) (set_block (number h) (hash_slow h) s).

Lemma window_for_recent s h b v :
  recent_proposers (window_for s h) !! b = Some v → recent_proposers s !! b = Some v.
Proof. unfold window_for. rewrite slide_window_lookup. by case_bool_decide. Qed.

Lemma window_for_turn s h : turn_of (window_for s h) = turn_of s.
Proof.
  unfold turn_of, window_for. by rewrite (proj1 (proj2 (proj2 (proj2 (proj2 (proj2 (proj2
    (slide_window_fields _ _ _)))))))).
Qed.

Lemma window_for_check_len s h :
  miner_history_check_len (window_for s h) = miner_history_check_len s.
Proof.
  unfold miner_history_check_len. rewrite window_for_turn. unfold window_for.
  by rewrite (proj1 (proj2 (proj2 (proj2 (slide_window_fields _ _ _))))).
Qed.

Lemma window_for_block s h : block_number (window_for s h) = number h.
Proof. unfold window_for. by rewrite (proj1 (proj2 (slide_window_fields _ _ _))). Qed.

Lemma over_proposed_spec s v h :
  snapshot_wf s → (bohr_at h = true → proposals (window_for s h) v < 256) →
  over_proposed (bohr_at h) v (window_for s h) = true ↔ over_proposes (bohr_at h) (window_for s h) v.
Proof.
  intros Hwf Hp. destruct (wf_turn s Hwf). destruct (bohr_at h) eqn:Hb.
  - unfold over_proposed, over_proposes.
    rewrite sign_recently_spec by (rewrite ?window_for_turn; auto).
    rewrite andb_true_iff, negb_true_iff, Z.eqb_neq, Z.leb_le. done.
  - apply over_proposed_pre_bohr.
Qed.

Lemma admissible_spec s v h :
  snapshot_wf s → (bohr_at h = true → proposals (window_for s h) v < 256) →
  admissible chain_spec s v h = true ↔
  add64 (block_number s) 1 = number h ∧ v ∈ validators s
  ∧ ¬ over_proposes (bohr_at h) (window_for s h) v.
Proof.
  intros Hwf Hp. unfold admissible.
  rewrite !andb_true_iff, Z.eqb_eq, bool_decide_eq_true, negb_true_iff.
  rewrite <- (over_proposed_spec s v h Hwf Hp). fold (bohr_at h). fold (window_for s h).
  rewrite not_true_iff_false. tauto.
Qed.

Lemma switch_validators_total {E} is_bohr key bn nv va tl s :
  votes_match nv va →
  ∃ s', switch_validators (E:=E) is_bohr key bn nv va tl s = Ret s'.
Proof.
  intros Hv. unfold switch_validators. destruct (_ && _); [|eauto].
  destruct (index_validators_total (E:=E) nv va Hv) as [m Hm]. rewrite Hm. eauto.
Qed.

Lemma apply_result {E} s v h nv va att tl :
  snapshot_wf s → votes_match nv va →
  ∃ r, apply (E:=E) chain_spec s v h nv va att tl = Ret r
       ∧ (is_Some r ↔ admissible chain_spec s v h = true).
Proof.
  intros Hwf Hv. rewrite apply_stages. destruct (admissible _ _ _ _).
  - unfold div_u. destruct (wf_epoch s Hwf) as [_ He].
    rewrite (proj2 (Z.eqb_neq _ 0)) by lia. cbn [mbind comp_bind].
    match goal with |- context [switch_validators ?a ?b ?c nv va tl ?d] =>
      destruct (switch_validators_total (E:=E) a b c nv va tl d Hv) as [s' Hs'] end.
    rewrite Hs'. cbn [mbind comp_bind]. eexists. split; [done|]. split; eauto.
  - exists None. split; [done|]. split; [by intros [? ?]|done].
Qed.

Lemma apply_Some_inv {E} s v h nv va att tl s' :
  apply (E:=E) chain_spec s v h nv va att tl = Ret (Some s') →
  admissible chain_spec s v h = true ∧ epoch_num s ≠ 0 ∧
  switch_validators (E:=E) (bohr_at h) (sub64 U64_MAX (number h / epoch_num s)) (number h)
    nv va tl (accepted_snap chain_spec s v h att) = Ret s'.
Proof.
  rewrite apply_stages. destruct (admissible _ _ _ _); [|done].
  intros H. apply bind_Ret_inv in H as (q & Hq & H). apply bind_Ret_inv in H as (s1 & Hs1 & [= <-]).
  unfold div_u in Hq. destruct (Z.eqb_spec (epoch_num s) 0); [done|]. injection Hq as <-.
  split_and!; done.
Qed.

Lemma switch_validators_inv {E} is_bohr key bn nv va tl s s' :
  switch_validators (E:=E) is_bohr key bn nv va tl s = Ret s' →
  s' = s ∨
  (nv ≠ [] ∧ (is_bohr = true → recent_proposers s !! key = None) ∧
   ∃ l m, index_validators (E:=E) nv va = Ret (l, m)
   ∧ epoch_num s' = epoch_num s ∧ block_number s' = block_number s ∧ block_hash s' = block_hash s
   ∧ validators s' = l ∧ validators_map s' = m ∧ vote_data s' = vote_data s
   ∧ turn_length s' = match tl with Some t => Some t | None => turn_length s end
   ∧ recent_proposers s' = recent_proposers (switch_window is_bohr key bn nv s)
   ∧ block_interval s' = block_interval s).
Proof.
  unfold switch_validators. destruct (_ && _) eqn:Hc; [|intros [= <-]; by left].
  intros H. apply bind_Ret_inv in H as ([l m] & Hl & [= <-]). right.
  apply andb_true_iff in Hc as [Hn Hb]. apply negb_true_iff, bool_decide_eq_false in Hn.
  split; [done|]. split.
  { intros ->. cbn in Hb. apply negb_true_iff, bool_decide_eq_false in Hb.
    by apply eq_None_not_Some. }
  exists l, m. split; [done|]. unfold switch_window. destruct tl, is_bohr; cbn; try done;
  case_match; done.
Qed.

(** [apply] never changes these without a switch; a switch sets them all. *)
Lemma apply_block {E} s v h nv va att tl s' :
  apply (E:=E) chain_spec s v h nv va att tl = Ret (Some s') →
  block_number s' = number h ∧ block_hash s' = hash_slow h
  ∧ vote_data s' = vote_data (update_attestation chain_spec h att s).
Proof.
  intros (_ & _ & Hs)%apply_Some_inv.
  destruct (accepted_snap_fields chain_spec s v h att) as (Hb&Hh&_&_&_&Hd).
  apply switch_validators_inv in Hs as [->|(_&_&l&m&_&_&->&->&_&_&->&_)]; done.
Qed.

End Apply_facts.

(** ** Well-formedness is an invariant *)

Section Wf.
Context `{FCA : ForkConditionApi} {CS : Type} `{!BscHardforks CS} `{SL : Sealable}.
Variable chain_spec : CS.
Implicit Types (s snap : Snapshot) (h : Header).

(** The epoch length after block [bn], as a case analysis. *)
Lemma upgrade_epoch_cases bn x l s :
  is_u 64 (bn + 1) →
  let e := epoch_num s in let e' := epoch_num (upgrade_epoch bn x l s) in
  (e' = e) ∨
  (e = DEFAULT_EPOCH_LENGTH ∧ l = true ∧ e' = LORENTZ_EPOCH_LENGTH ∧ (bn + 1) mod 500 = 0) ∨
  (e = DEFAULT_EPOCH_LENGTH ∧ l = true ∧ x = true ∧ e' = MAXWELL_EPOCH_LENGTH ∧ (bn + 1) mod 1000 = 0) ∨
  (e = LORENTZ_EPOCH_LENGTH ∧ x = true ∧ e' = MAXWELL_EPOCH_LENGTH ∧ (bn + 1) mod 1000 = 0).
Proof.
  intros Hu. unfold upgrade_epoch. rewrite add64_small by done.
  rewrite !is_multiple_of_mod by done.
  change LORENTZ_EPOCH_LENGTH with 500. change MAXWELL_EPOCH_LENGTH with 1000.
  change DEFAULT_EPOCH_LENGTH with 200.
  destruct (Z.eqb_spec (epoch_num s) 200) as [He|He], l,
    (Z.eqb_spec ((bn + 1) mod 500) 0); cbn [andb];
    cbn [epoch_num set_epoch_num];
    try (destruct (Z.eqb_spec (epoch_num s) 500) as [He'|He']);
    rewrite ?Z.eqb_refl; destruct x, (Z.eqb_spec ((bn + 1) mod 1000) 0); cbn; try lia.
Qed.

Lemma accepted_snap_epoch s v h att :
  epoch_num (accepted_snap chain_spec s v h att) =
  epoch_num (upgrade_epoch (number h) (is_maxwell_active_at_timestamp chain_spec (number h) (timestamp h))
    (is_lorentz_active_at_timestamp chain_spec (number h) (timestamp h)) s).
Proof.
  assert (Hu : ∀ x l s1 s2, epoch_num s1 = epoch_num s2 →
    epoch_num (upgrade_epoch (number h) x l s1) = epoch_num (upgrade_epoch (number h) x l s2)).
  { intros x l s1 s2 He. unfold upgrade_epoch. rewrite He.
    destruct (epoch_num s2 =? DEFAULT_EPOCH_LENGTH), l,
      (is_multiple_of (add64 (number h) 1) LORENTZ_EPOCH_LENGTH); cbn [andb];
      cbn [epoch_num set_epoch_num]; rewrite ?He; destruct (_ && _); done. }
  unfold accepted_snap. apply Hu.
  assert (Hi : ∀ a b c snap, epoch_num (upgrade_interval a b c snap) = epoch_num snap)
    by (intros [] [] [] ?; done).
  rewrite Hi. assert (Hc : ∀ (b : bool) snap,
    epoch_num (if b then clear_finalized snap else snap) = epoch_num snap) by by intros [].
  rewrite Hc. cbn [epoch_num set_recent_proposers].
  by rewrite (proj1 (update_attestation_fields _ _ _ _)), (proj1 (slide_window_fields _ _ _)).
Qed.

Lemma apply_epoch {E} s v h nv va att tl s' :
  apply (E:=E) chain_spec s v h nv va att tl = Ret (Some s') →
  epoch_num s' = epoch_num (accepted_snap chain_spec s v h att).
Proof.
  intros (_ & _ & Hs)%apply_Some_inv.
  apply switch_validators_inv in Hs as [->|(_&_&l&m&_&->&_)]; done.
Qed.

Lemma admissible_continuous s v h :
  admissible chain_spec s v h = true → add64 (block_number s) 1 = number h.
Proof. unfold admissible. intros H. reflect_bools. done. Qed.

Lemma apply_preserves_wf {E} s v h nv va att tl s' :
  snapshot_wf s → block_args_ok h nv va tl → number h < U64_MAX →
  apply (E:=E) chain_spec s v h nv va att tl = Ret (Some s') → snapshot_wf s'.
Proof.
  intros Hwf [Hn Hl Ht] Hmax Ha.
  pose proof (apply_epoch _ _ _ _ _ _ _ _ Ha) as He.
  destruct (apply_Some_inv _ _ _ _ _ _ _ _ _ Ha) as (_ & _ & Hs).
  destruct (accepted_snap_fields chain_spec s v h att) as (Hb&_&Hv&Hm&Htl&_).
  assert (Hepoch : is_u 64 (epoch_num s') ∧ 0 < epoch_num s').
  { rewrite He, accepted_snap_epoch.
    destruct (upgrade_epoch_cases (number h)
      (is_maxwell_active_at_timestamp chain_spec (number h) (timestamp h))
      (is_lorentz_active_at_timestamp chain_spec (number h) (timestamp h)) s)
      as [->|[(_&_&->&_)|[(_&_&_&->&_)|(_&_&->&_)]]];
      [unfold is_u, U64_MAX in *; lia|by apply (wf_epoch s)|done..]. }
  destruct Hwf. apply switch_validators_inv in Hs as [->|(Hnv&_&l&m&Hi&_&Hb'&_&Hv'&Hm'&_&Htl'&_)].
  - constructor; rewrite ?Hb, ?Hv, ?Hm; auto. unfold turn_of in *. by rewrite Htl.
  - destruct (index_validators_wf _ _ _ _ Hl Hi) as (-> & H1 & H2).
    destruct Hl as [Hnd Hsm _].
    constructor; rewrite ?Hb', ?Hv', ?Hm'; auto.
    + by rewrite Hb.
    + intros Hnil. by apply sort_nil_inv in Hnil.
    + by rewrite zlen_sort.
    + by apply NoDup_sort.
    + apply sort_sorted.
    + unfold turn_of. rewrite Htl'. destruct tl as [t|]; [by apply Ht|].
      rewrite Htl. done.
Qed.

Lemma snapshot_new_preserves_wf {E} vals bn bh epoch va s :
  validator_list_ok vals va → vals ≠ [] → is_u 64 bn → is_u 64 epoch →
  snapshot_new (E:=E) vals bn bh epoch va = Ret s → snapshot_wf s.
Proof.
  intros Hl Hne Hb He Hs. unfold snapshot_new in Hs.
  apply bind_Ret_inv in Hs as ([l m] & Hi & [= <-]).
  destruct (index_validators_wf _ _ _ _ Hl Hi) as (-> & H1 & H2). destruct Hl as [Hnd Hsm _].
  constructor; cbn; auto.
  - destruct (Z.eqb_spec epoch 0); [done|]. unfold is_u in *. lia.
  - intros Hnil. by apply sort_nil_inv in Hnil.
  - by rewrite zlen_sort.
  - by apply NoDup_sort.
  - apply sort_sorted.
  - done.
Qed.

End Wf.

(** ** The main properties *)

Section Properties.
Context `{FCA : ForkConditionApi} {CS : Type} `{!BscHardforks CS} `{SL : Sealable}.
Variable chain_spec : CS.
Implicit Types (s snap : Snapshot) (h : Header).

(** The validator map: for distinct validators and one vote address per
    validator, building the map of a validator set never panics, the
    validators come out sorted, and the map sends every validator to its
    1-based position in the sorted list and to the vote address that stood
    next to it in the unsorted one; no other address is in the map. *)
Theorem validators_map_keeps_votes {E} vals bn bh epoch va :
  NoDup vals → zlen vals < U64_MAX → votes_match vals va →
  ∃ s, snapshot_new (E:=E) vals bn bh epoch va = Ret s
  ∧ validators s ≡ₚ vals ∧ Sorted Z.le (validators s)
  ∧ (∀ i j v, validators s !! i = Some v → vals !! j = Some v → ∃ a,
       vote_of va j = Some a
       ∧ validators_map s !! v = Some {| v_index := Z.of_nat i + 1; vote_addr := a |})
  ∧ (∀ v, v ∉ vals → validators_map s !! v = None).
Proof.
  intros Hnd Hlen Hv. destruct (index_validators_spec (E:=E) vals va Hnd Hlen Hv) as (m & Hm & H1 & H2).
  unfold snapshot_new. rewrite Hm. eexists. split; [done|]. cbn.
  split_and!; [apply sort_perm|apply sort_sorted|done|done].
Qed.

(** C22. Well-formedness of snapshots (a positive epoch length, a nonempty,
    sorted, repetition-free validator list, a map that holds exactly the
    validators with their 1-based positions, a positive turn length) holds of
    [Snapshot::new] on a nonempty list of distinct validators and is preserved
    by every successful [apply]. *)
Theorem snapshot_invariant {E} :
  (∀ vals bn bh epoch va s, validator_list_ok vals va → vals ≠ [] → is_u 64 bn → is_u 64 epoch →
     snapshot_new (E:=E) vals bn bh epoch va = Ret s → snapshot_wf s)
  ∧ (∀ s v h nv va att tl s', snapshot_wf s → block_args_ok h nv va tl → number h < U64_MAX →
     apply (E:=E) chain_spec s v h nv va att tl = Ret (Some s') → snapshot_wf s').
Proof.
  split; intros; [eapply snapshot_new_preserves_wf; [..|eassumption]|eapply apply_preserves_wf; [..|eassumption]];
    assumption.
Qed.

(** C23. [apply] on a well-formed snapshot never panics, and it accepts the
    block exactly when the block continues the chain, its proposer is a
    validator, and the proposer has not over-proposed: before Bohr it does not
    occur in the remaining window at all, from Bohr on it has used less than
    its turn there.  The byte-sized counters do not wrap as long as no
    validator has 256 entries in the window. *)
Theorem apply_accepts_iff {E} s v h nv va att tl :
  snapshot_wf s → votes_match nv va →
  (bohr_at chain_spec h = true → proposals (window_for s h) v < 256) →
  ∃ r, apply (E:=E) chain_spec s v h nv va att tl = Ret r
  ∧ (is_Some r ↔ add64 (block_number s) 1 = number h ∧ v ∈ validators s
       ∧ ¬ over_proposes (bohr_at chain_spec h) (window_for s h) v).
Proof.
  intros Hwf Hv Hp. destruct (apply_result (E:=E) chain_spec s v h nv va att tl Hwf Hv) as (r & Hr & Hiff).
  exists r. split; [done|]. rewrite Hiff. by apply admissible_spec.
Qed.

(** The epoch length only changes at a boundary of the new length: if
    block [bn] changes it, then it goes from 200 to 500 (Lorentz), from 500 to
    1000 or from 200 to 1000 (Maxwell), and [bn + 1] is a multiple of the new
    length; so it only grows and never becomes zero. *)
Theorem epoch_upgrade_at_boundary {E} s v h nv va att tl s' :
  number h < U64_MAX → 0 <= number h →
  apply (E:=E) chain_spec s v h nv va att tl = Ret (Some s') →
  let lorentz := is_lorentz_active_at_timestamp chain_spec (number h) (timestamp h) in
  let maxwell := is_maxwell_active_at_timestamp chain_spec (number h) (timestamp h) in
  epoch_num s' = epoch_num s
  ∨ ((number h + 1) mod epoch_num s' = 0
     ∧ ((epoch_num s = 200 ∧ epoch_num s' = 500 ∧ lorentz = true)
        ∨ (epoch_num s = 200 ∧ epoch_num s' = 1000 ∧ lorentz = true ∧ maxwell = true)
        ∨ (epoch_num s = 500 ∧ epoch_num s' = 1000 ∧ maxwell = true))).
Proof.
  intros Hm Hn Ha. cbv zeta. rewrite (apply_epoch _ _ _ _ _ _ _ _ _ Ha), accepted_snap_epoch.
  edestruct (upgrade_epoch_cases (number h)) as [He|[(?&?&He&?)|[(?&?&?&He&?)|(?&?&He&?)]]];
    [unfold is_u, U64_MAX in *; lia|left; exact He|right; rewrite He..]; split; auto 10.
Qed.

End Properties.

(** ** Runs of the chain *)

Section Runs.
Context `{FCA : ForkConditionApi} {CS : Type} `{!BscHardforks CS} `{SL : Sealable}.
Variable chain_spec : CS.
Implicit Types (s snap : Snapshot) (h : Header).

(** [run ok s0 tr s]: from [s0], blocks have been applied that lead to [s];
    [tr] lists their numbers and proposers, newest first, and every step
    satisfies [ok]. *)
Inductive run (ok : Snapshot → Header → list Address → option Z → Snapshot → Prop) (s0 : Snapshot)
    : list (Z * Address) → Snapshot → Prop :=
| run_start : run ok s0 [] s0
| run_step tr s v h nv va att tl s' :
    run ok s0 tr s → block_args_ok h nv va tl → number h < U64_MAX → ok s h nv tl s' →
    apply (E:=Empty_set) chain_spec s v h nv va att tl = Ret (Some s') →
    run ok s0 ((number h, v) :: tr) s'.

Lemma run_wf ok s0 tr s : run ok s0 tr s → snapshot_wf s0 → snapshot_wf s.
Proof.
  intros Hr Hwf. induction Hr; [done|]. eapply apply_preserves_wf; [..|eassumption]; auto.
Qed.

Lemma run_numbers ok s0 tr s :
  run ok s0 tr s → snapshot_wf s0 → block_number s0 < U64_MAX →
  block_number s < U64_MAX ∧ block_number s = block_number s0 + zlen tr
  ∧ (∀ b v, (b, v) ∈ tr → block_number s0 < b <= block_number s).
Proof.
  intros Hr Hwf Hmax. induction Hr as [|tr s v h nv va att tl s' Hr IH Hargs Hn Hok Ha].
  { split_and!; [done|rewrite zlen_nil; lia|]. intros b v Hb. by apply elem_of_nil in Hb. }
  destruct IH as (H1 & H2 & H3).
  pose proof (run_wf _ _ _ _ Hr Hwf) as Hwfs. destruct (wf_block s Hwfs).
  destruct (apply_Some_inv _ _ _ _ _ _ _ _ _ Ha) as (Hc%admissible_continuous & _ & _).
  rewrite add64_small in Hc by (unfold is_u, U64_MAX in *; lia).
  rewrite (proj1 (apply_block _ _ _ _ _ _ _ _ _ Ha)), zlen_cons.
  split_and!; [done|lia|]. intros b w [[= -> ->]|Hin]%elem_of_cons; [|specialize (H3 _ _ Hin)];
  pose proof (zlen_nonneg tr); lia.
Qed.

(** A step with [number h = block_number s + 1]. *)
Lemma run_next ok s0 tr s v h nv va att tl s' :
  run ok s0 tr s → snapshot_wf s0 → block_number s0 < U64_MAX →
  apply (E:=Empty_set) chain_spec s v h nv va att tl = Ret (Some s') →
  number h = block_number s + 1.
Proof.
  intros Hr Hwf Hmax Ha. destruct (run_numbers _ _ _ _ Hr Hwf Hmax) as (H1 & _ & _).
  destruct (wf_block s (run_wf _ _ _ _ Hr Hwf)).
  destruct (apply_Some_inv _ _ _ _ _ _ _ _ _ Ha) as (Hc%admissible_continuous & _ & _).
  rewrite add64_small in Hc by (unfold is_u, U64_MAX in *; lia). done.
Qed.

(** *** Before Bohr *)

Definition pre_bohr (m : Z) (s : Snapshot) (h : Header) (nv : list Address) (tl : option Z)
    (s' : Snapshot) : Prop :=
  bohr_at chain_spec h = false
  ∧ is_maxwell_active_at_timestamp chain_spec (number h) (timestamp h) = false
  ∧ tl = None ∧ m <= zlen (validators s').

(** The window keeps the blocks that are less than [m/2 + 1] old. *)
Definition window_keeps (m : Z) (tr : list (Z * Address)) (s : Snapshot) : Prop :=
  turn_of s = 1 ∧ m <= zlen (validators s)
  ∧ ∀ b v, (b, v) ∈ tr → block_number s - (m / 2 + 1) < b → recent_proposers s !! b = Some v.

Lemma half_mono m n : m <= n → m / 2 <= n / 2.
Proof. intros. apply Z.div_le_mono; lia. Qed.

Lemma slide_keeps s h b L :
  snapshot_wf s → number h < U64_MAX → L <= (zlen (validators s) / 2 + 1) * turn_of s →
  number h - L < b →
  recent_proposers (slide_window s (number h) s) !! b = recent_proposers s !! b.
Proof.
  intros Hwf Hn HL Hb. rewrite slide_window_lookup.
  destruct (miner_history_check_len_eq s Hwf) as [_ ->]. pose proof (turn_limit_bound s Hwf).
  rewrite bool_decide_false; [done|]. intros [Hle ->].
  rewrite sub64_small in Hb by (unfold is_u, U64_MAX in *; lia). lia.
Qed.

Lemma switch_window_keeps bn key nv s b m :
  zlen nv < 2 ^ 32 → zlen (validators s) < 2 ^ 32 → m <= zlen nv → b <= bn → bn - (m / 2 + 1) < b →
  recent_proposers (switch_window false key bn nv s) !! b = recent_proposers s !! b.
Proof.
  intros Hnv Hv Hm Hb Hlt. unfold switch_window. destruct (Z.ltb_spec (zlen nv / 2 + 1) (zlen (validators s) / 2 + 1)); [|done].
  cbn [recent_proposers set_recent_proposers].
  rewrite (foldl_delete_lookup _ (λ i, sub64 (sub64 bn (zlen nv / 2 + 1)) i)).
  rewrite bool_decide_false; [done|]. intros (i & Hi & Hin)%list_elem_of_fmap.
  unfold zrange in Hin. apply list_elem_of_fmap in Hin as (k & -> & Hk).
  apply elem_of_seq in Hk. pose proof (half_mono _ _ Hm).
  assert (zlen (validators s) / 2 < 2 ^ 31) by (apply Z.div_lt_upper_bound; lia).
  assert (Hd : b mod 2 ^ 64 = (bn - (zlen nv / 2 + 1) - (0 + Z.of_nat k)) mod 2 ^ 64).
  { rewrite Hi. unfold sub64, wrapu. rewrite Zminus_mod_idemp_l, Z.mod_mod by done. done. }
  set (d := b - (bn - (zlen nv / 2 + 1) - (0 + Z.of_nat k))).
  assert (Hd0 : d mod 2 ^ 64 = 0).
  { subst d. rewrite Zminus_mod, Hd, Z.sub_diag. done. }
  assert (0 < d < 2 ^ 64).
  { subst d. change (2 ^ 32) with 4294967296 in *. change (2 ^ 31) with 2147483648 in *.
    change (2 ^ 64) with 18446744073709551616. lia. }
  rewrite Z.mod_small in Hd0; lia.
Qed.

Lemma pre_bohr_step m tr s v h nv va att tl s' :
  snapshot_wf s → block_args_ok h nv va tl → number h < U64_MAX → pre_bohr m s h nv tl s' →
  (∀ b w, (b, w) ∈ tr → b <= block_number s) → number h = block_number s + 1 →
  window_keeps m tr s →
  apply (E:=Empty_set) chain_spec s v h nv va att tl = Ret (Some s') →
  window_keeps m ((number h, v) :: tr) s'
  ∧ (∀ b, (b, v) ∈ tr → m / 2 + 1 <= number h - b).
Proof.
  intros Hwf Hargs Hn (Hnb & Hnm & -> & Hm') Hle Hnext (Ht & Hm & Hk) Ha.
  destruct (apply_Some_inv _ _ _ _ _ _ _ _ _ Ha) as (Hadm & _ & Hs).
  pose proof (half_mono _ _ Hm).
  assert (Hslide : ∀ b w, (b, w) ∈ tr → number h - (m / 2 + 1) < b →
    recent_proposers (slide_window s (number h) s) !! b = Some w).
  { intros b w Hb Hlt. rewrite (slide_keeps s h b (m / 2 + 1)); [|done|done|lia|done].
    apply Hk; [done|]. lia. }
  split.
  - destruct (accepted_snap_fields chain_spec s v h att) as (Hb&_&Hv&_&Htl&_).
    assert (Hacc : ∀ b w, (b, w) ∈ (number h, v) :: tr → number h - (m / 2 + 1) < b →
      recent_proposers (accepted_snap chain_spec s v h att) !! b = Some w).
    { intros b w Hin Hlt. rewrite accepted_snap_recent, bool_decide_false by (rewrite Hnm; naive_solver).
      apply elem_of_cons in Hin as [[= -> ->]|Hin]; [by rewrite bool_decide_true|].
      specialize (Hle _ _ Hin). rewrite bool_decide_false by lia. by apply Hslide. }
    rewrite Hnb in Hs.
    apply switch_validators_inv in Hs as [->|(_&_&l&m'&Hi&_&Hb'&_&Hv'&_&_&Htl'&Hrec&_)].
    + split_and!; [unfold turn_of in *; by rewrite Htl|by rewrite Hv|].
      intros b w Hin Hlt. rewrite Hb in Hlt. by apply Hacc.
    + split_and!; [unfold turn_of in *; by rewrite Htl', Htl|done|].
      intros b w Hin Hlt. rewrite Hb', Hb in Hlt. rewrite Hrec.
      destruct (index_validators_wf _ _ _ _ (ba_list _ _ _ _ Hargs) Hi) as (-> & _).
      rewrite Hv', zlen_sort in Hm'.
      rewrite (switch_window_keeps _ _ _ _ _ m); [by apply Hacc| | |done| |done].
      * apply (ba_list _ _ _ _ Hargs).
      * rewrite Hv. apply (wf_small s Hwf).
      * apply elem_of_cons in Hin as [[= -> ->]|Hin]; [lia|]. specialize (Hle _ _ Hin). lia.
  - intros b Hb. destruct (Z.le_gt_cases (m / 2 + 1) (number h - b)) as [|Hlt]; [done|exfalso].
    apply (admissible_spec chain_spec s v h Hwf) in Hadm as (_ & _ & Hno);
      [|rewrite Hnb; done].
    apply Hno. rewrite Hnb. exists b. unfold window_for. rewrite slide_window_lookup.
    specialize (Hslide b v Hb). rewrite slide_window_lookup in Hslide. apply Hslide. lia.
Qed.

Lemma pre_bohr_run m s0 tr s :
  run (pre_bohr m) s0 tr s → snapshot_wf s0 → block_number s0 < U64_MAX →
  turn_of s0 = 1 → m <= zlen (validators s0) →
  window_keeps m tr s
  ∧ ∀ b1 b2 v, (b1, v) ∈ tr → (b2, v) ∈ tr → b1 < b2 → m / 2 + 1 <= b2 - b1.
Proof.
  intros Hr Hwf Hmax Ht Hm. induction Hr as [|tr s v h nv va att tl s' Hr [Hk IH] Hargs Hn Hok Ha].
  { split; [split_and!; [done|done|]|]; intros * Hb; by apply elem_of_nil in Hb. }
  pose proof (run_next _ _ _ _ _ _ _ _ _ _ _ Hr Hwf Hmax Ha) as Hnext.
  destruct (run_numbers _ _ _ _ Hr Hwf Hmax) as (_ & _ & Hnums).
  destruct (pre_bohr_step m tr s v h nv va att tl s') as [Hk' Hdist];
    [by eapply run_wf|done|done|done|intros b w Hb; by apply (Hnums b w)|done|done|done|].
  split; [done|]. intros b1 b2 w [H1|H1]%elem_of_cons [H2|H2]%elem_of_cons Hlt.
  - simplify_eq. lia.
  - destruct (Hnums _ _ H2). simplify_eq. lia.
  - simplify_eq. by apply Hdist.
  - by eapply IH.
Qed.

(** Before Bohr, no validator proposes too often: along any run of blocks
    whose validator sets all have at least [m] members (the set may be
    switched, grow and shrink on the way), two blocks by the same proposer are
    at least [m / 2 + 1] apart, so any [m / 2 + 1] consecutive blocks have
    distinct proposers. *)
Theorem pre_bohr_recency m s0 tr s :
  run (pre_bohr m) s0 tr s → snapshot_wf s0 → block_number s0 < U64_MAX →
  turn_of s0 = 1 → m <= zlen (validators s0) →
  ∀ b1 b2 v, (b1, v) ∈ tr → (b2, v) ∈ tr → b1 < b2 → m / 2 + 1 <= b2 - b1.
Proof. intros Hr Hwf Hmax Ht Hm. apply (pre_bohr_run m s0 tr s Hr Hwf Hmax Ht Hm). Qed.

(** *** From Bohr on *)

(** Blocks of one epoch, without a switch, whose finalized block is at most
    [F]. *)
Definition bohr_epoch (F : Z) (s : Snapshot) (h : Header) (nv : list Address) (tl : option Z)
    (s' : Snapshot) : Prop :=
  bohr_at chain_spec h = true ∧ nv = [] ∧ get_finalized_number s' <= F.

(** No validator has more entries in the window than its turn is long. *)
Definition turns_kept (s : Snapshot) : Prop := ∀ v, v ≠ ZERO → proposals s v <= turn_of s.

Definition window_retains (F : Z) (tr : list (Z * Address)) (s : Snapshot) : Prop :=
  ∀ b v, (b, v) ∈ tr → F < b → block_number s - miner_history_check_len s < b →
  recent_proposers s !! b = Some v.

Lemma window_for_wf s h :
  snapshot_wf s → number h < U64_MAX → 0 <= number h → snapshot_wf (window_for s h).
Proof.
  intros [] ? ?. destruct (slide_window_fields s (number h) (set_block (number h) (hash_slow h) s))
    as (He&Hb&_&Hv&Hm&_&Ht&_).
  unfold window_for. constructor; rewrite ?He, ?Hb, ?Hv, ?Hm; auto.
  - cbn. unfold is_u, U64_MAX in *. lia.
  - unfold turn_of in *. by rewrite Ht.
Qed.

Lemma left_bound_le s s' :
  block_number s <= block_number s' → miner_history_check_len s = miner_history_check_len s' →
  snapshot_wf s → snapshot_wf s' → left_bound s <= left_bound s'.
Proof. intros. rewrite !left_bound_eq by done. lia. Qed.

(** A snapshot with a subset of the entries and a later left bound. *)
Lemma proposals_le s s' v :
  left_bound s <= left_bound s' →
  (∀ b, recent_proposers s' !! b = Some v → recent_proposers s !! b = Some v) →
  proposals s' v <= proposals s v.
Proof.
  intros Hl Hs. apply NoDup_incl_zlen; [apply NoDup_window_blocks|].
  intros b [Hb Hr]%window_blocks_elem. apply window_blocks_elem. split; [lia|auto].
Qed.

Lemma proposals_snoc_le s s' v bn :
  left_bound s <= left_bound s' →
  (∀ b, recent_proposers s' !! b = Some v → b = bn ∨ recent_proposers s !! b = Some v) →
  proposals s' v <= proposals s v + 1.
Proof.
  intros Hl Hs. assert (zlen (window_blocks s' v) <= zlen (bn :: window_blocks s v)).
  { apply NoDup_incl_zlen; [apply NoDup_window_blocks|].
    intros b [Hb Hr]%window_blocks_elem. destruct (Hs b Hr) as [->|Hr']; apply elem_of_cons; [by left|].
    right. apply window_blocks_elem. split; [lia|done]. }
  rewrite zlen_cons in *. unfold proposals. lia.
Qed.

Lemma bohr_epoch_step F tr s v h nv va att tl s' :
  snapshot_wf s → block_args_ok h nv va tl → number h < U64_MAX → bohr_epoch F s h nv tl s' →
  (∀ b w, (b, w) ∈ tr → b <= block_number s) → number h = block_number s + 1 →
  turns_kept s → window_retains F tr s →
  apply (E:=Empty_set) chain_spec s v h nv va att tl = Ret (Some s') →
  miner_history_check_len s' = miner_history_check_len s ∧ turn_of s' = turn_of s
  ∧ turns_kept s' ∧ window_retains F ((number h, v) :: tr) s'.
Proof.
  intros Hwf Hargs Hn (Hb & -> & HF) Hle Hnext Hturns Hret Ha.
  pose proof (apply_preserves_wf _ _ _ _ _ _ _ _ _ Hwf Hargs Hn Ha) as Hwf'.
  assert (Hwfw : snapshot_wf (window_for s h)) by (apply window_for_wf; destruct (ba_number _ _ _ _ Hargs); auto).
  destruct (apply_Some_inv _ _ _ _ _ _ _ _ _ Ha) as (Hadm & _ & Hs).
  apply switch_validators_inv in Hs as [->|(Hne&_)]; [|done].
  set (s' := accepted_snap chain_spec s v h att) in *.
  destruct (accepted_snap_fields chain_spec s v h att) as (Hbn&_&Hv&_&Htl&_).
  fold s' in Hbn, Hv, Htl.
  assert (Ht : turn_of s' = turn_of s) by (unfold turn_of; by rewrite Htl).
  assert (Hcl : miner_history_check_len s' = miner_history_check_len s)
    by (unfold miner_history_check_len; by rewrite Ht, Hv).
  assert (Hlw : left_bound s <= left_bound (window_for s h)).
  { apply left_bound_le; [|by rewrite window_for_check_len|done..].
    rewrite window_for_block. lia. }
  assert (Hlw' : left_bound (window_for s h) = left_bound s').
  { rewrite !left_bound_eq by done. by rewrite window_for_block, window_for_check_len, Hbn, Hcl. }
  assert (Hsmall : ∀ w, w ≠ ZERO → proposals (window_for s h) w <= turn_of s).
  { intros w Hw. etrans; [apply proposals_le|by apply Hturns]; [done|].
    intros b. apply window_for_recent. }
  assert (Hrecent : ∀ b w, recent_proposers s' !! b = Some w →
    (b = number h ∧ w = v) ∨ recent_proposers (window_for s h) !! b = Some w).
  { intros b w. unfold s'. rewrite accepted_snap_recent. case_bool_decide; [done|].
    case_bool_decide; [naive_solver|]. right. unfold window_for. by rewrite slide_window_lookup in *. }
  split_and!; [done|done| |].
  - intros w Hw. rewrite Ht. destruct (decide (w = v)) as [->|Hwv].
    + apply (admissible_spec chain_spec s v h Hwf) in Hadm as (_ & _ & Hno).
      2: { intros _. specialize (Hsmall v Hw). destruct (wf_turn s Hwf). lia. }
      rewrite Hb in Hno. unfold over_proposes in Hno. rewrite window_for_turn in Hno.
      assert (proposals s' v <= proposals (window_for s h) v + 1).
      { apply (proposals_snoc_le _ _ _ (number h)); [lia|]. intros b Hr. destruct (Hrecent b v Hr); tauto. }
      lia.
    + etrans; [apply (proposals_le (window_for s h))|by apply Hsmall]; [lia|].
      intros b Hr. destruct (Hrecent b w Hr) as [[_ ?]|]; done.
  - intros b w Hin HFb Hlt. rewrite Hbn, Hcl in Hlt. unfold s'. rewrite accepted_snap_recent.
    fold s'. rewrite bool_decide_false by lia.
    apply elem_of_cons in Hin as [Heq|Hin].
    + simplify_eq. by rewrite bool_decide_true.
    + specialize (Hle _ _ Hin). rewrite bool_decide_false by lia.
      destruct (miner_history_check_len_eq s Hwf) as [Hm _].
      rewrite (slide_keeps s h b (miner_history_check_len s)); [|done|done|lia|done].
      apply Hret; [done|done|lia].
Qed.

Lemma bohr_epoch_run F s0 tr s :
  run (bohr_epoch F) s0 tr s → snapshot_wf s0 → block_number s0 < U64_MAX → turns_kept s0 →
  miner_history_check_len s = miner_history_check_len s0 ∧ turn_of s = turn_of s0
  ∧ turns_kept s ∧ window_retains F tr s.
Proof.
  intros Hr Hwf Hmax Ht. induction Hr as [|tr s v h nv va att tl s' Hr (H1&H2&H3&H4) Hargs Hn Hok Ha].
  { split_and!; try done. intros b v Hb. by apply elem_of_nil in Hb. }
  pose proof (run_next _ _ _ _ _ _ _ _ _ _ _ Hr Hwf Hmax Ha) as Hnext.
  destruct (run_numbers _ _ _ _ Hr Hwf Hmax) as (_ & _ & Hnums).
  destruct (bohr_epoch_step F tr s v h nv va att tl s') as (H5&H6&H7&H8);
    [by eapply run_wf|done|done|done|intros b w Hb; by apply (Hnums b w)|done|done|done|done|].
  split_and!; [congruence|congruence|done|done].
Qed.

Lemma run_NoDup ok s0 tr s :
  run ok s0 tr s → snapshot_wf s0 → block_number s0 < U64_MAX → NoDup tr.*1.
Proof.
  intros Hr Hwf Hmax. induction Hr as [|tr s v h nv va att tl s' Hr IH Hargs Hn Hok Ha]; [constructor|].
  rewrite fmap_cons. apply list.NoDup_cons. split; [|done].
  intros ([b w] & Hb & Hin)%list_elem_of_fmap. cbn in Hb.
  destruct (run_numbers _ _ _ _ Hr Hwf Hmax) as (_ & _ & Hnums).
  pose proof (run_next _ _ _ _ _ _ _ _ _ _ _ Hr Hwf Hmax Ha). specialize (Hnums _ _ Hin). lia.
Qed.

(** The blocks of a run proposed by [v] after [lb]. *)
Definition proposed_after (lb : Z) (v : Address) (tr : list (Z * Address)) : Z :=
  zlen (filter (λ bv, lb < bv.1 ∧ bv.2 = v) tr).

(** C25. From Bohr on, within an epoch, no validator exceeds its turn: from a
    snapshot in which the window holds no more proposals of a validator than
    its turn is long (a freshly switched validator set has an empty one), any
    run of blocks keeps it so that among the latest
    [(n / 2 + 1) * turn_length - 1] blocks that are not yet finalized every
    validator has proposed at most [turn_length].  The finalized blocks, which
    [apply] forgets from Maxwell on, are excluded by [F]. *)
Theorem bohr_turn_limit F s0 tr s v :
  run (bohr_epoch F) s0 tr s → snapshot_wf s0 → block_number s0 < U64_MAX → turns_kept s0 →
  v ≠ ZERO →
  proposed_after (Z.max F (block_number s - ((zlen (validators s0) / 2 + 1) * turn_of s0 - 1))) v tr
  <= turn_of s0.
Proof.
  intros Hr Hwf Hmax Ht Hv. destruct (bohr_epoch_run _ _ _ _ Hr Hwf Hmax Ht) as (Hcl&Htn&Hk&Hret).
  rewrite <- (proj1 (miner_history_check_len_eq s0 Hwf)), <- Hcl, <- Htn.
  etrans; [|apply (Hk v Hv)].
  pose proof (run_NoDup _ _ _ _ Hr Hwf Hmax) as Hnd.
  destruct (run_numbers _ _ _ _ Hr Hwf Hmax) as (_ & _ & Hnums). destruct (wf_block s0 Hwf).
  pose proof (left_bound_eq s (run_wf _ _ _ _ Hr Hwf)) as Hlb.
  unfold proposed_after, proposals.
  set (lb := Z.max F (block_number s - miner_history_check_len s)) in *.
  assert (Hz : zlen (filter (λ bv, lb < bv.1 ∧ bv.2 = v) tr)
               = zlen (filter (λ bv, lb < bv.1 ∧ bv.2 = v) tr).*1)
    by (unfold zlen; by rewrite length_fmap).
  rewrite Hz. apply NoDup_incl_zlen.
  - by apply NoDup_fst_filter.
  - intros b ([b' w] & -> & Hin)%list_elem_of_fmap.
    apply list_elem_of_filter in Hin as [[Hgt Hw] Hin]. cbn in *. subst w.
    apply window_blocks_elem. destruct (Hnums _ _ Hin). split; [rewrite Hlb; lia|].
    apply Hret; [done|lia|lia].
Qed.

End Runs.

(** ** The order of proposers *)

Section Turns.
Implicit Types (s : Snapshot).

(** The snapshot [s] moved to the parent of block [b]. *)
Definition at_parent_of (b : Z) s : Snapshot := set_block (sub64 b 1) (block_hash s) s.

Lemma at_parent_next b s : is_u 64 b → add64 (block_number (at_parent_of b s)) 1 = b.
Proof.
  intros Hb. cbn. unfold sub64, add64, wrapu. rewrite Zplus_mod_idemp_l.
  replace (b - 1 + 1) with b by lia. rewrite Z.mod_small; [done|exact Hb].
Qed.

Lemma inturn_validator_at {E} b s :
  snapshot_wf s → is_u 64 b →
  ∃ v, inturn_validator (E:=E) (at_parent_of b s) = Ret v
  ∧ validators s !! Z.to_nat ((b / turn_of s) mod zlen (validators s)) = Some v.
Proof.
  intros Hwf Hb. pose proof (wf_turn s Hwf) as [Ht _].
  assert (0 < zlen (validators s)).
  { pose proof (wf_nonempty s Hwf). unfold zlen. destruct (validators s); [done|simpl; lia]. }
  unfold inturn_validator. rewrite at_parent_next by done.
  change (turn_of (at_parent_of b s)) with (turn_of s).
  change (validators (at_parent_of b s)) with (validators s).
  unfold div_u, rem_u. rewrite (proj2 (Z.eqb_neq (turn_of s) 0)) by lia. cbn [mbind comp_bind].
  rewrite (proj2 (Z.eqb_neq (zlen _) 0)) by lia. cbn [mbind comp_bind].
  apply (index_Ret (E:=E)). apply Z.mod_pos_bound. lia.
Qed.

Lemma validators_index_inj s i j v :
  snapshot_wf s → validators s !! i = Some v → validators s !! j = Some v → i = j.
Proof. intros Hwf. apply NoDup_lookup, (wf_nodup s Hwf). Qed.

(** Position [i] of a cycle of [n] turns of length [t] that starts at [k]. *)
Lemma turn_index k n t i b :
  0 < n → 0 < t → 0 <= i < n → k * (n * t) <= b < (k + 1) * (n * t) →
  (b / t) mod n = i ↔ k * (n * t) + i * t <= b < k * (n * t) + (i + 1) * t.
Proof.
  intros Hn Ht Hi Hb.
  assert (Hq : k * n <= b / t < (k + 1) * n).
  { split; [apply Z.div_le_lower_bound; nia|apply Z.div_lt_upper_bound; nia]. }
  assert (Hm : (b / t) mod n = b / t - k * n).
  { symmetry. apply (Z.mod_unique_pos _ _ k); nia. }
  rewrite Hm. pose proof (Z.div_mod b t ltac:(lia)). pose proof (Z.mod_pos_bound b t Ht). split; intros; nia.
Qed.

(** Turns are fair: in every cycle of [n * turn_length] blocks, the
    validator at position [i] of the sorted set is in turn for exactly the
    [turn_length] consecutive blocks of the [i]-th turn, and for no other. *)
Theorem inturn_fair {E} s k i v b :
  snapshot_wf s → validators s !! i = Some v →
  let n := zlen (validators s) in let t := turn_of s in
  0 <= k → (k + 1) * (n * t) <= 2 ^ 64 → k * (n * t) <= b < (k + 1) * (n * t) →
  is_inturn (E:=E) (at_parent_of b s) v =
    Ret (bool_decide (k * (n * t) + Z.of_nat i * t <= b < k * (n * t) + (Z.of_nat i + 1) * t)).
Proof.
  intros Hwf Hi n t Hk Hmax Hb. pose proof (wf_turn s Hwf) as [Ht _].
  pose proof (lookup_lt_Some _ _ _ Hi) as Hlt.
  assert (Hn : 0 <= Z.of_nat i < n) by (unfold n, zlen; lia).
  destruct (inturn_validator_at (E:=E) b s Hwf) as (w & Hw & Hj); [unfold is_u; nia|].
  unfold is_inturn. rewrite Hw. cbn [mbind comp_bind]. f_equal.
  rewrite <- (bool_decide_ext _ _ (turn_index k n t (Z.of_nat i) b ltac:(lia) Ht Hn Hb)).
  pose proof (Z.mod_pos_bound (b / turn_of s) (zlen (validators s)) ltac:(unfold n in Hn; lia)).
  destruct (Z.eqb_spec w v) as [->|Hne].
  - rewrite bool_decide_true; [done|]. pose proof (validators_index_inj _ _ _ _ Hwf Hi Hj). subst n t. lia.
  - rewrite bool_decide_false; [done|]. intros Heq. apply Hne. subst n t.
    rewrite Heq, Nat2Z.id in Hj. congruence.
Qed.

Lemma next_turn_index n t b :
  2 <= n → 0 < t → 0 <= b →
  ((b + 1) / t) mod n = (b / t) mod n ↔ b mod t ≠ t - 1.
Proof.
  intros Hn Ht Hb. pose proof (Z.div_mod b t ltac:(lia)) as Hd. pose proof (Z.mod_pos_bound b t Ht).
  destruct (Z.eq_dec (b mod t) (t - 1)) as [Hm|Hm].
  - assert (Hs : (b + 1) / t = b / t + 1) by (symmetry; apply (Z.div_unique_pos _ _ _ 0); nia).
    rewrite Hs. split; [|done]. intros Heq. exfalso.
    assert (Hz : (b / t + 1 - b / t) mod n = 0).
    { rewrite Zminus_mod, Heq, Z.sub_diag. done. }
    replace (b / t + 1 - b / t) with 1 in Hz by lia. rewrite Z.mod_small in Hz; lia.
  - assert (Hs : (b + 1) / t = b / t) by (symmetry; apply (Z.div_unique_pos _ _ _ (b mod t + 1)); nia).
    by rewrite Hs.
Qed.

(** [last_block_in_one_turn] says what its name says: with at least two
    validators, block [b] is the last one of a turn exactly when another
    validator is in turn for block [b + 1]. *)
Theorem last_block_ends_turn {E} s b :
  snapshot_wf s → 2 <= zlen (validators s) → 0 <= b → b + 1 < 2 ^ 64 →
  ∃ v w, inturn_validator (E:=E) (at_parent_of b s) = Ret v
  ∧ inturn_validator (E:=E) (at_parent_of (b + 1) s) = Ret w
  ∧ (last_block_in_one_turn s b = true ↔ v ≠ w).
Proof.
  intros Hwf Hn Hb Hmax. pose proof (wf_turn s Hwf) as [Ht _].
  destruct (inturn_validator_at (E:=E) b s Hwf) as (v & Hv & Hi); [unfold is_u; lia|].
  destruct (inturn_validator_at (E:=E) (b + 1) s Hwf) as (w & Hw & Hj); [unfold is_u; lia|].
  exists v, w. split_and!; [done..|].
  pose proof (next_turn_index (zlen (validators s)) (turn_of s) b Hn Ht Hb) as Hnext.
  assert (Heq : v = w ↔ ((b + 1) / turn_of s) mod zlen (validators s) = (b / turn_of s) mod zlen (validators s)).
  { split; [|intros Heq; rewrite Heq in Hj; congruence]. intros ->.
    pose proof (validators_index_inj _ _ _ _ Hwf Hi Hj) as Hij.
    pose proof (Z.mod_pos_bound (b / turn_of s) (zlen (validators s)) ltac:(lia)).
    pose proof (Z.mod_pos_bound ((b + 1) / turn_of s) (zlen (validators s)) ltac:(lia)). lia. }
  unfold last_block_in_one_turn. rewrite Heq, Hnext.
  destruct (Z.leb_spec (turn_of s) 1) as [H1|H1].
  - assert (turn_of s = 1) as -> by lia. rewrite Z.mod_1_r. split; [|done]. intros _. tauto.
  - rewrite Z.eqb_eq. destruct (Z.eq_dec (b mod turn_of s) (turn_of s - 1)); tauto.
Qed.

End Turns.

(** ** Fast finality and the switch of the validator set *)

Section Finality.
Context `{FCA : ForkConditionApi} {CS : Type} `{!BscHardforks CS} `{SL : Sealable}.
Variable chain_spec : CS.
Implicit Types (s snap : Snapshot) (h : Header).

Definition attestation_ok (att : option VoteAttestation) : Prop :=
  ∀ a, att = Some a → is_u 64 (source_number (att_data a)) ∧ is_u 64 (target_number (att_data a)).

(** The justified block is older than the head, the finalized one older than
    the justified one (both are 0 at the start). *)
Definition votes_ordered s : Prop :=
  let d := vote_data s in
  0 <= source_number d ∧ (source_number d = 0 ∨ source_number d < target_number d)
  ∧ 0 <= target_number d <= Z.max 0 (block_number s - 1).

(** The four outcomes of [update_attestation]. *)
Lemma update_attestation_cases h att s :
  let d' := vote_data (update_attestation chain_spec h att s) in
  let fermi := is_fermi_active_at_timestamp chain_spec (number h) (timestamp h) in
  match att with
  | None => d' = vote_data s
  | Some a =>
      let d := att_data a in
      (fermi = false ∧ ¬ (add64 (target_number d) 1 = number h ∧ target_hash d = parent_hash h)
       ∧ d' = vote_data s)
      ∨ ((fermi = true ∨ add64 (target_number d) 1 = number h ∧ target_hash d = parent_hash h)
         ∧ target_number d' = target_number d ∧ target_hash d' = target_hash d
         ∧ if add64 (source_number d) 1 =? target_number d then d' = d
           else source_number d' = source_number (vote_data s) ∧ source_hash d' = source_hash (vote_data s))
  end.
Proof.
  cbv zeta. unfold update_attestation. destruct att as [a|]; [|done].
  destruct (is_fermi_active_at_timestamp _ _ _), (Z.eqb_spec (add64 (target_number (att_data a)) 1) (number h)),
    (Z.eqb_spec (target_hash (att_data a)) (parent_hash h));
  cbn [negb andb orb]; try (left; split_and!; [done|tauto|done]);
  right; destruct (add64 (source_number (att_data a)) 1 =? target_number (att_data a));
  cbn; tauto.
Qed.

(** C26. Fast finality before Fermi never goes back: applying a block keeps the
    order finalized < justified < head, never lowers the finalized number, and
    finalizes at most the grandparent of the block. *)
Theorem finalized_monotone {E} s v h nv va att tl s' :
  is_fermi_active_at_timestamp chain_spec (number h) (timestamp h) = false →
  0 < block_number s < U64_MAX → attestation_ok att → votes_ordered s →
  apply (E:=E) chain_spec s v h nv va att tl = Ret (Some s') →
  votes_ordered s'
  ∧ get_finalized_number s <= get_finalized_number s' <= Z.max 0 (number h - 2).
Proof.
  intros Hf Hb Hatt (Ho1 & Ho2 & Ho3) Ha.
  destruct (apply_block _ _ _ _ _ _ _ _ _ Ha) as (Hbn & _ & Hd).
  destruct (apply_Some_inv _ _ _ _ _ _ _ _ _ Ha) as (Hc%admissible_continuous & _ & _).
  rewrite add64_small in Hc by (unfold is_u, U64_MAX in *; lia).
  unfold votes_ordered, get_finalized_number. cbv zeta. rewrite Hbn, Hd. clear Ha Hd Hbn.
  pose proof (update_attestation_cases h att s) as Hcases. cbv zeta in Hcases.
  set (d' := vote_data (update_attestation chain_spec h att s)) in *. clearbody d'.
  assert (Hfin : ∀ x, 0 <= x → (if 0 <? x then x else 0) = x)
    by (intros x Hx; destruct (Z.ltb_spec 0 x); lia).
  assert (Hsame : d' = vote_data s ∨ target_number d' = block_number s ∧
    (source_number d' = source_number (vote_data s) ∨ source_number d' = block_number s - 1)).
  { destruct att as [a|]; [|by left]. destruct (Hatt a eq_refl) as [Hs Ht].
    destruct Hcases as [(_&_&->)|([?|[Htn _]]&Ht'&_&Hs')]; [by left|congruence|right].
    assert (Htb : target_number (att_data a) = block_number s).
    { destruct (Z.eq_dec (target_number (att_data a)) U64_MAX) as [He|He].
      - rewrite He in Htn. change (add64 U64_MAX 1) with 0 in Htn. lia.
      - rewrite add64_small in Htn by (unfold is_u, U64_MAX in *; lia). lia. }
    rewrite Htb in Ht'. split; [done|].
    destruct (Z.eqb_spec (add64 (source_number (att_data a)) 1) (target_number (att_data a))) as [He|He];
      [|left; tauto]. right. rewrite Hs'.
    destruct (Z.eq_dec (source_number (att_data a)) U64_MAX) as [Hm|Hm].
    - rewrite Hm in He. change (add64 U64_MAX 1) with 0 in He. lia.
    - rewrite add64_small in He by (unfold is_u, U64_MAX in *; lia). lia. }
  destruct Hsame as [->|[Ht [Hs|Hs]]]; rewrite ?Ht, ?Hs, !Hfin by lia; lia.
Qed.

(** The blocks of one epoch of the Bohr rules, with numbers in the range of a
    real chain. *)
Definition bohr_same_epoch (q : Z) (s : Snapshot) (h : Header) (nv : list Address) (tl : option Z)
    (s' : Snapshot) : Prop :=
  bohr_at chain_spec h = true ∧ number h / epoch_num s = q ∧ number h < 2 ^ 62
  ∧ get_finalized_number s' < 2 ^ 62.

Lemma bohr_same_epoch_step {E} q s v h nv va att tl s' :
  snapshot_wf s → 0 <= number h → bohr_same_epoch q s h nv tl s' →
  recent_proposers s !! (U64_MAX - q) = Some ZERO →
  apply (E:=E) chain_spec s v h nv va att tl = Ret (Some s') →
  validators s' = validators s ∧ validators_map s' = validators_map s
  ∧ turn_length s' = turn_length s ∧ recent_proposers s' !! (U64_MAX - q) = Some ZERO.
Proof.
  intros Hwf Hn (Hb & Hq & Hmax & Hfin) Hkey Ha.
  destruct (apply_Some_inv _ _ _ _ _ _ _ _ _ Ha) as (_ & _ & Hs). rewrite Hq in Hs.
  destruct (accepted_snap_fields chain_spec s v h att) as (_&_&Hv&Hm&Htl&Hvd).
  destruct (wf_epoch s Hwf) as [_ He].
  assert (Hqb : 0 <= q <= number h).
  { rewrite <- Hq. split; [apply Z.div_pos; lia|]. apply Z.div_le_upper_bound; nia. }
  rewrite sub64_small in Hs by (unfold is_u, U64_MAX; lia).
  assert (Hacc : recent_proposers (accepted_snap chain_spec s v h att) !! (U64_MAX - q) = Some ZERO).
  { rewrite accepted_snap_recent.
    assert (get_finalized_number (accepted_snap chain_spec s v h att) < 2 ^ 62).
    { revert Hfin. unfold get_finalized_number.
      by rewrite (proj2 (proj2 (apply_block _ _ _ _ _ _ _ _ _ Ha))), Hvd. }
    rewrite bool_decide_false by (unfold U64_MAX; lia).
    rewrite bool_decide_false by (unfold U64_MAX; lia). rewrite slide_window_lookup.
    destruct (miner_history_check_len_eq s Hwf) as [_ ->]. pose proof (turn_limit_bound s Hwf).
    rewrite bool_decide_false; [done|]. intros [? Hk].
    rewrite sub64_small in Hk by (unfold is_u; lia). unfold U64_MAX in Hk. lia. }
  apply switch_validators_inv in Hs as [->|(_&Hnone&_)]; [done|].
  rewrite Hnone in Hacc by done. done.
Qed.

(** From Bohr on the validator set is switched at most once per epoch: once
    a switch has left the marker of epoch [q] in the window, no block of that
    epoch changes the validators, their vote addresses or the turn length,
    whatever validator list its header carries. *)
Theorem bohr_switch_once q s0 tr s :
  run chain_spec (bohr_same_epoch q) s0 tr s → snapshot_wf s0 →
  recent_proposers s0 !! (U64_MAX - q) = Some ZERO →
  validators s = validators s0 ∧ validators_map s = validators_map s0
  ∧ turn_length s = turn_length s0 ∧ recent_proposers s !! (U64_MAX - q) = Some ZERO.
Proof.
  intros Hr Hwf Hk. induction Hr as [|tr s v h nv va att tl s' Hr (H1&H2&H3&H4) Hargs Hn Hok Ha]; [done|].
  destruct (bohr_same_epoch_step (E:=Empty_set) q s v h nv va att tl s') as (->&->&->&?); try done.
  - by eapply run_wf.
  - by destruct (ba_number _ _ _ _ Hargs).
Qed.

(** From Maxwell on (BEP-524) the window holds no block that is already
    finalized: after [apply] every remaining entry is the block itself or an
    entry of the old window, and is newer than the finalized block, except for
    the marker that a switch at that very block leaves. *)
Theorem maxwell_clears_finalized {E} s v h nv va att tl s' b :
  is_maxwell_active_at_timestamp chain_spec (number h) (timestamp h) = true →
  bohr_at chain_spec h = true → is_Some (recent_proposers s' !! b) →
  apply (E:=E) chain_spec s v h nv va att tl = Ret (Some s') →
  get_finalized_number s' < b ∧ (b = number h ∨ is_Some (recent_proposers s !! b))
  ∨ recent_proposers s' = {[ sub64 U64_MAX (number h / epoch_num s) := ZERO ]}.
Proof.
  intros Hx Hb Hin Ha. destruct (apply_Some_inv _ _ _ _ _ _ _ _ _ Ha) as (_ & _ & Hs).
  rewrite Hb in Hs.
  apply switch_validators_inv in Hs as [->|(_&_&l&m&_&_&_&_&_&_&_&_&Hrec&_)]; [left|by right].
  rewrite accepted_snap_recent, Hx in Hin. case_bool_decide as Hc; [by destruct Hin|].
  split; [lia|]. case_bool_decide; [by left|right].
  rewrite slide_window_lookup in Hin. by case_bool_decide; [destruct Hin|].
Qed.

End Finality.

(** ** Concrete inputs *)

Section Witnesses.
Import RefHardforks.

#[local] Instance ref_hash : Sealable := number.

(** Closed goals, decided by evaluation. *)
#[local] Ltac ev := vm_compute; first [reflexivity | discriminate].

(** Blocks of the test network before Luban and after Maxwell. *)
Definition old_block (n : Z) : Header := test_header n 1600000000 (n - 1).
Definition new_block (n : Z) : Header := test_header n 1768357800 (n - 1).

Definition three (bn : Z) : Snapshot :=
  match snapshot_new (E:=Empty_set) [30; 10; 20] bn bn 200 (Some [300; 100; 200]) with
  | Ret s => s
  | _ => {| epoch_num := 0; block_number := 0; block_hash := 0; validators := []; validators_map := ∅;
            recent_proposers := ∅; vote_data := VoteData_default; turn_length := None; block_interval := 0 |}
  end.

Definition next (mk : Z → Header) (v : Address) (s : Snapshot) : Snapshot :=
  match apply (E:=Empty_set) testnet_spec s v (mk (block_number s + 1)) [] None None None with
  | Ret (Some s') => s'
  | _ => s
  end.

Lemma no_list_ok : validator_list_ok [] None.
Proof. split; [constructor|done|done]. Qed.

Lemma args_ok h : is_u 64 (number h) → block_args_ok h [] None None.
Proof. intros. split; [done|apply no_list_ok|done]. Qed.

Lemma three_list_ok : validator_list_ok [30; 10; 20] (Some [300; 100; 200]).
Proof. split; [|done|done]. apply (bool_decide_unpack _). vm_compute. exact I. Qed.

Lemma three_wf bn : is_u 64 bn → snapshot_wf (three bn).
Proof.
  intros. apply (snapshot_new_preserves_wf (E:=Empty_set) [30; 10; 20] bn bn 200 (Some [300; 100; 200]));
    [apply three_list_ok|done|done|done|reflexivity].
Qed.

Lemma validators_map_keeps_votes_witness :
  ∃ s, snapshot_new (E:=Empty_set) [30; 10; 20] 7 7 200 (Some [300; 100; 200]) = Ret s
  ∧ validators_map s !! 30 = Some {| v_index := 3; vote_addr := 300 |}.
Proof.
  destruct (validators_map_keeps_votes (E:=Empty_set) [30; 10; 20] 7 7 200 (Some [300; 100; 200]))
    as (s & Hs & _ & _ & Hm & _); [apply three_list_ok|reflexivity|reflexivity|].
  exists s. split; [exact Hs|]. injection Hs as <-. reflexivity.
Defined.

Lemma snapshot_invariant_witness : snapshot_wf (next old_block 10 (three 100)).
Proof.
  apply (proj2 (snapshot_invariant testnet_spec (E:=Empty_set)) (three 100) 10 (old_block 101) [] None None None);
    [by apply three_wf|by apply args_ok|reflexivity|vm_compute; reflexivity].
Defined.

Lemma apply_accepts_iff_witness :
  ∃ r, apply (E:=Empty_set) testnet_spec (three 100) 10 (old_block 101) [] None None None = Ret r ∧ is_Some r.
Proof.
  destruct (apply_accepts_iff testnet_spec (E:=Empty_set) (three 100) 10 (old_block 101) [] None None None)
    as (r & Hr & Hiff); [by apply three_wf|exact I|vm_compute; discriminate|].
  exists r. split; [exact Hr|]. apply Hiff. split_and!.
  - reflexivity.
  - apply (bool_decide_unpack _). vm_compute. exact I.
  - intros [b Hb]. vm_compute in Hb. destruct b; discriminate.
Defined.

Lemma epoch_upgrade_at_boundary_witness :
  let s' := next new_block 10 (three 59999998) in
  epoch_num s' = 1000 ∧ (epoch_num s' = 200 ∨ (59999999 + 1) mod epoch_num s' = 0).
Proof.
  split; [reflexivity|].
  destruct (epoch_upgrade_at_boundary testnet_spec (E:=Empty_set) (three 59999998) 10 (new_block 59999999)
    [] None None None (next new_block 10 (three 59999998))) as [H|[H _]];
    [reflexivity|discriminate|vm_compute; reflexivity|left; exact H|right; exact H].
Defined.

Lemma next_apply mk v bn s :
  (∃ s', apply (E:=Empty_set) testnet_spec s v (mk (bn + 1)) [] None None None = Ret (Some s')) →
  block_number s = bn →
  apply (E:=Empty_set) testnet_spec s v (mk (bn + 1)) [] None None None = Ret (Some (next mk v s)).
Proof. intros [s' Hs'] <-. unfold next. rewrite Hs'. done. Qed.

Lemma pre_bohr_recency_witness :
  let s0 := three 100 in
  ∃ s, run testnet_spec (pre_bohr testnet_spec 3) s0 [(102, 20); (101, 10)] s
  ∧ ∀ b1 b2 v, (b1, v) ∈ [(102, 20); (101, 10)] → (b2, v) ∈ [(102, 20); (101, 10)] → b1 < b2 →
      3 / 2 + 1 <= b2 - b1.
Proof.
  intros s0. exists (next old_block 20 (next old_block 10 s0)).
  assert (Hr : run testnet_spec (pre_bohr testnet_spec 3) s0 [(102, 20); (101, 10)]
                 (next old_block 20 (next old_block 10 s0))).
  { apply (run_step _ _ _ [(101, 10)] (next old_block 10 s0) 20 (old_block 102) [] None None None);
      [|by apply args_ok|ev|split_and!; ev|ev].
    apply (run_step _ _ _ [] s0 10 (old_block 101) [] None None None);
      [constructor|by apply args_ok|ev|split_and!; ev|ev]. }
  split; [exact Hr|].
  apply (pre_bohr_recency testnet_spec 3 s0 _ _ Hr); [by apply three_wf|ev..].
Defined.

(** Validator 10 uses its turn of one block, then validator 20. *)
Lemma bohr_turn_limit_witness :
  let s0 := three 60000000 in
  ∃ s, run testnet_spec (bohr_epoch testnet_spec 0) s0 [(60000002, 20); (60000001, 10)] s
  ∧ proposed_after (Z.max 0 (block_number s - 1)) 20 [(60000002, 20); (60000001, 10)] <= 1.
Proof.
  intros s0. exists (next new_block 20 (next new_block 10 s0)).
  assert (Hr : run testnet_spec (bohr_epoch testnet_spec 0) s0 [(60000002, 20); (60000001, 10)]
                 (next new_block 20 (next new_block 10 s0))).
  { apply (run_step _ _ _ [(60000001, 10)] (next new_block 10 s0) 20 (new_block 60000002) [] None None None);
      [|by apply args_ok|ev|split_and!; ev|ev].
    apply (run_step _ _ _ [] s0 10 (new_block 60000001) [] None None None);
      [constructor|by apply args_ok|ev|split_and!; ev|ev]. }
  split; [exact Hr|].
  apply (bohr_turn_limit testnet_spec 0 s0 _ _ 20 Hr); [by apply three_wf|reflexivity|intros v _; vm_compute; discriminate|discriminate].
Defined.

Lemma inturn_fair_witness : is_inturn (E:=Empty_set) (at_parent_of 31 (three 100)) 20 = Ret true.
Proof.
  rewrite (inturn_fair (E:=Empty_set) (three 100) 10 1 20 31);
    [reflexivity|by apply three_wf|reflexivity|discriminate|discriminate|split; [discriminate|reflexivity]].
Defined.

Lemma last_block_ends_turn_witness :
  ∃ v w, inturn_validator (E:=Empty_set) (at_parent_of 31 (three 100)) = Ret v
  ∧ inturn_validator (E:=Empty_set) (at_parent_of (31 + 1) (three 100)) = Ret w
  ∧ (last_block_in_one_turn (three 100) 31 = true ↔ v ≠ w).
Proof. apply (last_block_ends_turn (E:=Empty_set) (three 100) 31); [by apply three_wf|discriminate|discriminate|reflexivity]. Defined.

(** An attestation of the parent with its own parent as source. *)
Definition parent_vote (n : Z) : VoteAttestation := new_with_vote_data
  {| source_number := n - 2; source_hash := n - 2; target_number := n - 1; target_hash := n - 1 |}.

Lemma finalized_monotone_witness :
  ∃ s', apply (E:=Empty_set) testnet_spec (three 100) 10 (old_block 101) [] None (Some (parent_vote 101)) None
        = Ret (Some s')
  ∧ get_finalized_number s' = 99 ∧ votes_ordered s' ∧ 0 <= get_finalized_number s'.
Proof.
  destruct (apply (E:=Empty_set) testnet_spec (three 100) 10 (old_block 101) [] None (Some (parent_vote 101)) None)
    as [[s'|]| | |] eqn:Ha; try (vm_compute in Ha; discriminate).
  exists s'. split; [reflexivity|].
  destruct (finalized_monotone testnet_spec (E:=Empty_set) (three 100) 10 (old_block 101) [] None
    (Some (parent_vote 101)) None s') as [Ho [Hf _]];
    [reflexivity|split; reflexivity| |split; [discriminate|split; [left; reflexivity|split; discriminate]]|exact Ha|].
  - intros a [= <-]. split; split; (discriminate || reflexivity).
  - split_and!; [|exact Ho|exact Hf]. vm_compute in Ha. injection Ha as <-. reflexivity.
Defined.

(** The validator set has just been switched in epoch 60000001 / 200. *)
Definition switched : Snapshot :=
  set_recent_proposers {[ U64_MAX - 300000 := ZERO ]} (three 60000000).

Lemma bohr_switch_once_witness :
  ∃ s, run testnet_spec (bohr_same_epoch testnet_spec 300000) switched [(60000001, 10)] s
  ∧ validators s = [10; 20; 30].
Proof.
  assert (Hwf : snapshot_wf switched).
  { destruct (three_wf 60000000 ltac:(done)). constructor; assumption. }
  destruct (apply (E:=Empty_set) testnet_spec switched 10 (new_block 60000001) [40; 50] (Some [400; 500]) None (Some 8))
    as [[s'|]| | |] eqn:Ha; try (vm_compute in Ha; discriminate).
  exists s'. assert (Hr : run testnet_spec (bohr_same_epoch testnet_spec 300000) switched [(60000001, 10)] s').
  { apply (run_step _ _ _ [] switched 10 (new_block 60000001) [40; 50] (Some [400; 500]) None (Some 8));
      [constructor| |reflexivity| |exact Ha].
    - split; [split; [discriminate|reflexivity]| |intros t [= <-]; lia].
      split; [apply (bool_decide_unpack _); vm_compute; exact I|reflexivity|reflexivity].
    - vm_compute in Ha. injection Ha as <-. split_and!; ev. }
  split; [exact Hr|].
  destruct (bohr_switch_once testnet_spec 300000 switched _ _ Hr Hwf) as [-> _]; reflexivity.
Defined.

Lemma maxwell_clears_finalized_witness :
  ∃ s', apply (E:=Empty_set) testnet_spec (next new_block 10 (three 60000000)) 20 (new_block 60000002) [] None
          (Some (parent_vote 60000004)) None = Ret (Some s')
  ∧ get_finalized_number s' = 60000002 ∧ recent_proposers s' !! 60000002 = None.
Proof.
  destruct (apply (E:=Empty_set) testnet_spec (next new_block 10 (three 60000000)) 20 (new_block 60000002) [] None
    (Some (parent_vote 60000004)) None) as [[s'|]| | |] eqn:Ha; try (vm_compute in Ha; discriminate).
  exists s'. split; [reflexivity|].
  assert (Hf : get_finalized_number s' = 60000002) by (vm_compute in Ha; injection Ha as <-; reflexivity).
  split; [exact Hf|]. destruct (recent_proposers s' !! 60000002) eqn:Hl; [exfalso|reflexivity].
  assert (Hr := maxwell_clears_finalized testnet_spec (E:=Empty_set) (next new_block 10 (three 60000000)) 20
    (new_block 60000002) [] None (Some (parent_vote 60000004)) None s' 60000002).
  destruct Hr as [[Hlt _]|Hs]; [ev|ev|rewrite Hl; eauto|exact Ha| |].
  - rewrite Hf in Hlt. lia.
  - vm_compute in Ha. injection Ha as <-. discriminate Hs.
Defined.

(** The tests of [src/consensus/parlia/snapshot.rs]. *)
Example sign_recently_detects_over_propose :
  let s := set_recent_proposers {[ 1 := 10 ]} (set_block 1 0 (three 0)) in
  (sign_recently s 10, sign_recently s 20) = (true, false).
Proof. reflexivity. Qed.

Example sign_recently_allows_within_limit : sign_recently (three 0) 10 = false.
Proof. reflexivity. Qed.

Example zero_epoch_num :
  (s ← snapshot_new (E:=Empty_set) [7] 0 1 0 None; Ret (epoch_num s)) = Ret 200.
Proof. reflexivity. Qed.

End Witnesses.
