(* ===== verification/Liveness.v ===== *)
(** * The chain goes on

    Two liveness properties of the snapshots of [src/consensus/parlia/snapshot.rs]:
    from Bohr on some validator may always propose the next block, and a
    supermajority that votes for every block finalizes each of them two blocks
    later. *)

From S2P Require Import Prelude Hardforks Types Snapshot.

Section Liveness.
Context `{FCA : ForkConditionApi} {CS : Type} `{!BscHardforks CS} `{SL : Sealable}.
Variable chain_spec : CS.
Implicit Types (s w : Snapshot) (h : Header) (v : Address).

(** ** Counting the window *)

(** All proposals of some validators. *)
Definition all_proposals w (l : list Address) : list Z := mjoin (window_blocks w <$> l).

Lemma elem_of_all_proposals w l b :
  b ∈ all_proposals w l → ∃ v, v ∈ l ∧ left_bound w < b ∧ recent_proposers w !! b = Some v.
Proof.
  unfold all_proposals. intros (bs & Hb & Hin)%list_elem_of_join.
  apply list_elem_of_fmap in Hin as (v & -> & Hv). apply window_blocks_elem in Hb. naive_solver.
Qed.

(** A block has one proposer. *)
Lemma NoDup_all_proposals w l : NoDup l → NoDup (all_proposals w l).
Proof.
  induction 1 as [|v l Hv _ IH]; [constructor|]. unfold all_proposals in *. cbn [fmap list_fmap].
  change (mjoin (window_blocks w v :: (window_blocks w <$> l))) with
    (window_blocks w v ++ mjoin (window_blocks w <$> l)).
  apply list.NoDup_app. split; [apply NoDup_window_blocks|]. split; [|done].
  intros b [_ Hb]%window_blocks_elem (u & Hu & _ & Hb')%elem_of_all_proposals. assert (u = v) by congruence. by subst u.
Qed.

Lemma all_proposals_ge w l t : (∀ v, v ∈ l → t <= proposals w v) → t * zlen l <= zlen (all_proposals w l).
Proof.
  induction l as [|v l IH]; intros Hl; [rewrite zlen_nil, Z.mul_0_r; apply zlen_nonneg|].
  unfold all_proposals. cbn [fmap list_fmap].
  change (mjoin (window_blocks w v :: (window_blocks w <$> l))) with (window_blocks w v ++ all_proposals w l).
  rewrite zlen_app, zlen_cons. pose proof (IH (λ u Hu, Hl u (list_elem_of_further _ _ _ Hu))).
  pose proof (Hl v (list_elem_of_here _ _)) as Hv. unfold proposals in Hv. lia.
Qed.

(** The proposers of the window are those of past blocks (and the epoch mark
    of Bohr, whose proposer is zero). *)
Definition recents_past s : Prop :=
  ∀ b v, recent_proposers s !! b = Some v → v = ZERO ∨ b <= block_number s.

(** Fewer blocks fit into the window than all turns together. *)
Lemma someone_below_turn s h :
  snapshot_wf s → recents_past s → number h = block_number s + 1 → number h < U64_MAX →
  ∃ v, v ∈ validators s ∧ (v = ZERO ∨ proposals (window_for s h) v < turn_of s).
Proof.
  intros Hwf Hpast Hnext Hmax. set (w := window_for s h).
  destruct (decide (Exists (λ v, v = ZERO ∨ proposals w v < turn_of s) (validators s))) as [He|Hne].
  { apply list.Exists_exists in He as (v & Hin & Hv). by exists v. }
  exfalso. assert (Hall : ∀ v, v ∈ validators s → v ≠ ZERO ∧ turn_of s <= proposals w v).
  { intros v Hv. split; [|apply Z.le_ngt]; intros Hbad; apply Hne, list.Exists_exists; exists v; tauto. }
  pose proof (all_proposals_ge w (validators s) (turn_of s) (λ v Hv, proj2 (Hall v Hv))) as Hge.
  assert (Hww : snapshot_wf w) by (apply window_for_wf; [done|done|destruct (wf_block s Hwf); lia]).
  pose proof (left_bound_eq w Hww) as Hlb. unfold w in Hlb. rewrite window_for_block, window_for_check_len in Hlb. fold w in Hlb.
  destruct (miner_history_check_len_eq s Hwf) as [Hlen _]. pose proof (turn_limit_bound s Hwf) as Hlim.
  assert (Hsub : zlen (all_proposals w (validators s)) <= zlen (zrange (left_bound w + 1) (Z.to_nat (number h - 1 - left_bound w)))).
  { apply NoDup_incl_zlen; [apply NoDup_all_proposals, wf_nodup, Hwf|].
    intros b (v & Hv & Hb1 & Hb2)%elem_of_all_proposals. apply window_for_recent in Hb2.
    destruct (Hpast b v Hb2) as [->|Hb3]; [by destruct (Hall ZERO Hv)|].
    unfold zrange. apply list_elem_of_fmap. exists (Z.to_nat (b - left_bound w - 1)). split; [lia|].
    apply elem_of_seq. lia. }
  rewrite zlen_zrange in Hsub.
  assert (Hm : 1 <= zlen (validators s)).
  { pose proof (wf_nonempty s Hwf). destruct (validators s); [done|]. rewrite zlen_cons. pose proof (zlen_nonneg l). lia. }
  destruct (wf_turn s Hwf) as [Ht _].
  assert (Hhalf : zlen (validators s) / 2 + 1 <= zlen (validators s) ∨ zlen (validators s) = 1).
  { destruct (Z.eq_dec (zlen (validators s)) 1) as [->|]; [by right|left].
    assert (zlen (validators s) / 2 <= zlen (validators s) - 1); [|lia]. apply Z.div_le_upper_bound; lia. }
  destruct Hhalf as [Hhalf|H1]; [nia|]. rewrite H1 in *. change (1 / 2) with 0 in *. nia.
Qed.

(** ** Runs *)

Lemma switch_window_recents is_bohr key bn nv s b v :
  recent_proposers (switch_window is_bohr key bn nv s) !! b = Some v → v = ZERO ∨ recent_proposers s !! b = Some v.
Proof.
  unfold switch_window. destruct is_bohr.
  - cbn. intros H. apply lookup_singleton_Some in H as [_ <-]. by left.
  - destruct (_ <? _); [|by right]. cbn [recent_proposers set_recent_proposers].
    rewrite (foldl_delete_lookup _ (λ i, sub64 (sub64 bn (zlen nv / 2 + 1)) i)). case_bool_decide; [done|by right].
Qed.

Lemma recents_past_apply s v h nv va att tl s' :
  recents_past s → block_number s <= number h →
  apply (E:=Empty_set) chain_spec s v h nv va att tl = Ret (Some s') → recents_past s'.
Proof.
  intros Hp Hle Ha b u Hb. rewrite (proj1 (apply_block _ _ _ _ _ _ _ _ _ Ha)).
  destruct (apply_Some_inv _ _ _ _ _ _ _ _ _ Ha) as (_ & _ & Hs).
  assert (Hacc : ∀ u, recent_proposers (accepted_snap chain_spec s v h att) !! b = Some u → u = ZERO ∨ b <= number h).
  { intros w Hw. rewrite accepted_snap_recent in Hw. case_bool_decide; [done|].
    case_bool_decide as Hn; [right; lia|]. rewrite slide_window_lookup in Hw. case_bool_decide; [done|].
    destruct (Hp b w Hw); [by left|right; lia]. }
  apply switch_validators_inv in Hs as [->|(_&_&l&m&_&_&_&_&_&_&_&_&Hr&_)]; [by apply Hacc|].
  rewrite Hr in Hb. apply switch_window_recents in Hb as [->|Hb]; [by left|by apply Hacc].
Qed.

Lemma recents_past_run ok s0 tr s :
  run chain_spec ok s0 tr s → snapshot_wf s0 → block_number s0 < U64_MAX → recents_past s0 → recents_past s.
Proof.
  intros Hr Hwf Hmax Hp. induction Hr as [|tr s v h nv va att tl s' Hr IH Hargs Hn Hok Ha]; [done|].
  apply (recents_past_apply _ _ _ _ _ _ _ _ IH) in Ha as Hp'; [done|].
  rewrite (run_next _ _ _ _ _ _ _ _ _ _ _ _ Hr Hwf Hmax Ha). lia.
Qed.

Lemma may_propose s v h :
  snapshot_wf s → v ∈ validators s → number h = block_number s + 1 → number h < U64_MAX →
  bohr_at chain_spec h = true → v = ZERO ∨ proposals (window_for s h) v < turn_of s →
  admissible chain_spec s v h = true.
Proof.
  intros Hwf Hv Hnext Hmax Hb Hturn. destruct (wf_turn s Hwf), (wf_block s Hwf). unfold admissible.
  rewrite add64_small, Hnext, Z.eqb_refl, bool_decide_eq_true_2 by (unfold is_u, U64_MAX in *; auto; lia).
  rewrite <- Hnext. unfold bohr_at in Hb. rewrite Hb. cbn [andb]. fold (window_for s h). apply negb_true_iff.
  unfold over_proposed. destruct Hturn as [->|Hturn].
  - unfold sign_recently, sign_recently_by_counts. by rewrite count_recent_proposers_zero.
  - rewrite sign_recently_spec by (rewrite ?window_for_turn; lia). rewrite window_for_turn.
    rewrite (proj2 (Z.leb_gt _ _) Hturn). apply andb_false_r.
Qed.

(** C6. The chain cannot get stuck: after any run of blocks from a new snapshot
    there is, from Bohr on, a validator that may propose the next block: [apply]
    accepts the block from it, whatever the block carries.  (The window is
    shorter than the turns of all validators together, so one of them has not
    used up its turn.) *)
Theorem chain_never_stuck ok s0 tr s h :
  run chain_spec ok s0 tr s → snapshot_wf s0 → block_number s0 < U64_MAX → recent_proposers s0 = ∅ →
  number h = block_number s + 1 → number h < U64_MAX → bohr_at chain_spec h = true →
  ∃ v, v ∈ validators s ∧ ∀ nv va att tl, votes_match nv va →
    ∃ s', apply (E:=Empty_set) chain_spec s v h nv va att tl = Ret (Some s').
Proof.
  intros Hr Hwf0 Hmax0 H0 Hnext Hmax Hb.
  pose proof (run_wf _ _ _ _ _ Hr Hwf0) as Hwf.
  assert (Hp : recents_past s).
  { eapply recents_past_run; [done..|]. intros b v Hv. by rewrite H0, lookup_empty in Hv. }
  destruct (someone_below_turn s h Hwf Hp Hnext Hmax) as (v & Hv & Hturn). exists v. split; [done|].
  intros nv va att tl Hvotes. destruct (apply_result (E:=Empty_set) chain_spec s v h nv va att tl Hwf Hvotes) as (r & Hr' & Hiff).
  enough (is_Some r) as [s' ->] by (by exists s').
  by apply Hiff, may_propose.
Qed.

(** ** Fast finality *)

(** The attestation of a block for its parent, on top of the justified block of
    the snapshot. *)
Definition attests_parent s h (att : VoteAttestation) : Prop :=
  att_data att = {| source_number := target_number (vote_data s); source_hash := target_hash (vote_data s);
                    target_number := block_number s; target_hash := parent_hash h |}.

Lemma step_justifies s v h nv va att tl s' :
  is_u 64 (block_number s) → block_number s < U64_MAX - 1 →
  apply (E:=Empty_set) chain_spec s v h nv va (Some att) tl = Ret (Some s') → attests_parent s h att →
  block_number s' = block_number s + 1 ∧ target_number (vote_data s') = block_number s
  ∧ target_hash (vote_data s') = parent_hash h
  ∧ (target_number (vote_data s) + 1 = block_number s →
     source_number (vote_data s') = target_number (vote_data s) ∧ source_hash (vote_data s') = target_hash (vote_data s)).
Proof.
  intros Hu Hmax Ha Eatt. destruct (apply_block _ _ _ _ _ _ _ _ _ Ha) as (Hb & _ & Hd).
  destruct (apply_Some_inv _ _ _ _ _ _ _ _ _ Ha) as (Hc%admissible_continuous & _ & _).
  rewrite add64_small in Hc by (unfold is_u, U64_MAX in *; lia).
  split; [lia|]. pose proof (update_attestation_cases chain_spec h (Some att) s) as Hcase. cbv zeta in Hcase.
  rewrite <- Hd, Eatt in Hcase. cbn [target_number target_hash source_number source_hash] in Hcase.
  destruct Hcase as [(_ & Hno & _)|(_ & -> & -> & Hsrc)].
  - exfalso. apply Hno. split; [|done]. rewrite add64_small by (unfold is_u, U64_MAX in *; lia). done.
  - split_and!; [done|done|]. intros Hj. destruct Hu. unfold add64 in Hsrc.
    rewrite Hj, wrapu_small, Z.eqb_refl in Hsrc by (unfold is_u, U64_MAX in *; lia). by rewrite Hsrc, Eatt.
Qed.

(** C7. Fast finality makes progress: if two consecutive blocks carry the
    attestation of the validators for their parents, the first of the parents is
    finalized and the second justified. *)
Theorem votes_finalize s0 v1 h1 nv1 va1 att1 tl1 s1 v2 h2 nv2 va2 att2 tl2 s2 :
  snapshot_wf s0 → 0 < block_number s0 → block_number s0 < U64_MAX - 2 →
  apply (E:=Empty_set) chain_spec s0 v1 h1 nv1 va1 (Some att1) tl1 = Ret (Some s1) → attests_parent s0 h1 att1 →
  apply (E:=Empty_set) chain_spec s1 v2 h2 nv2 va2 (Some att2) tl2 = Ret (Some s2) → attests_parent s1 h2 att2 →
  get_finalized_number s2 = block_number s0 ∧ source_hash (vote_data s2) = parent_hash h1
  ∧ target_number (vote_data s2) = block_number s1 ∧ target_hash (vote_data s2) = parent_hash h2.
Proof.
  intros Hwf Hpos Hmax H1 E1 H2 E2.
  pose proof (step_justifies s0 v1 h1 nv1 va1 att1 tl1 s1 (wf_block s0 Hwf) ltac:(lia) H1 E1) as (Hn1 & Ht1 & Hh1 & _).
  assert (Hb1 : block_number s1 = block_number s0 + 1) by lia.
  pose proof (step_justifies s1 v2 h2 nv2 va2 att2 tl2 s2) as Hstep.
  destruct Hstep as (_ & Ht2 & Hh2 & Hsrc); [rewrite Hb1; destruct (wf_block s0 Hwf); unfold is_u, U64_MAX in *; lia|lia|done|done|].
  destruct Hsrc as [Hs1 Hs2]; [lia|]. unfold get_finalized_number. rewrite Hs1, Hs2, Ht1, Hh1.
  rewrite (proj2 (Z.ltb_lt 0 (block_number s0))) by done. done.
Qed.

End Liveness.

(** * Witnesses *)

Import RefHardforks.
#[local] Existing Instance Snapshot.ref_hash.
#[local] Ltac ev := vm_compute; first [reflexivity | discriminate].

Definition after_one : Snapshot := next new_block 10 (three 60000000).

Lemma chain_never_stuck_witness :
  ∃ v, v ∈ validators after_one ∧ ∀ nv va att tl, votes_match nv va →
    ∃ s', apply (E:=Empty_set) testnet_spec after_one v (new_block 60000002) nv va att tl = Ret (Some s').
Proof.
  apply (chain_never_stuck testnet_spec (λ _ _ _ _ _, True) (three 60000000) [(60000001, 10)] after_one);
    [|by apply three_wf|reflexivity|reflexivity|reflexivity|reflexivity|reflexivity].
  apply (run_step _ _ _ [] (three 60000000) 10 (new_block 60000001) [] None None None);
    [constructor|by apply args_ok|ev|exact I|ev].
Defined.

(** Blocks 60000001 and 60000002 carry attestations for their parents. *)
Definition vote_for (s : Snapshot) (h : Header) : VoteAttestation := {|
  vote_address_set := 7; agg_signature := 0; extra := [];
  att_data := {| source_number := target_number (vote_data s); source_hash := target_hash (vote_data s);
                 target_number := block_number s; target_hash := parent_hash h |} |}.
Definition voted (s : Snapshot) (v : Address) (h : Header) : Snapshot :=
  match apply (E:=Empty_set) testnet_spec s v h [] None (Some (vote_for s h)) None with
  | Ret (Some s') => s'
  | _ => s
  end.
Definition voted_once : Snapshot := voted (three 60000000) 10 (new_block 60000001).
Definition voted_twice : Snapshot := voted voted_once 20 (new_block 60000002).

Lemma votes_finalize_witness :
  get_finalized_number voted_twice = 60000000 ∧ source_hash (vote_data voted_twice) = 60000000
  ∧ target_number (vote_data voted_twice) = 60000001 ∧ target_hash (vote_data voted_twice) = 60000001.
Proof.
  apply (votes_finalize testnet_spec (three 60000000) 10 (new_block 60000001) [] None
    (vote_for (three 60000000) (new_block 60000001)) None voted_once 20 (new_block 60000002) [] None
    (vote_for voted_once (new_block 60000002)) None voted_twice);
    [by apply three_wf|reflexivity|reflexivity|ev|reflexivity|ev|reflexivity].
Defined.
