(* ===== verification/HeaderExtra.v ===== *)
(** * The extra data of a header

    [src/consensus/parlia/{constants,error,util,consensus}.rs] and
    [src/node/miner/{util,signer}.rs]: how the validator list, the turn length,
    the vote attestation and the seal are laid out in [extra_data], written by
    the miner and read back by the verifier; the hash that is sealed and the
    recovery of the proposer from the seal. *)

From S2P Require Import Prelude Hardforks Types Snapshot.

Definition EXTRA_VANITY_LEN : Z := 32.
Definition EXTRA_SEAL_LEN : Z := 65.
Definition VALIDATOR_NUMBER_SIZE : Z := 1.
Definition VALIDATOR_BYTES_LEN_BEFORE_LUBAN : Z := 20.
Definition VALIDATOR_BYTES_LEN_AFTER_LUBAN : Z := 68.
Definition TURN_LENGTH_SIZE : Z := 1.
Definition ADDRESS_LENGTH : Z := 20.

Inductive ParliaConsensusError :=
| ExtraVanityMissing
| ExtraSignatureMissing
| InvalidHeaderExtraLen (header_extra_len : Z)
| InvalidHeaderExtraValidatorBytesLen (is_epoch : bool) (validator_bytes_len : Z)
| InvalidHeaderExtra
| HeaderNotFound (hash : B256)
| SnapshotNotFound (hash : B256)
| NotInEpoch (bn : Z)
| RecoverECDSAInnerError
| ExtraInvalidTurnLength
| ExtraInvalidAttestation
| FetchVoteError (address : VoteAddress)
| AggregateSignatureError
| InvalidAttestationVoteCount (got expected : Z)
| TurnLengthNotFound (hash : B256).

Record ValidatorsInfo := {
  consensus_addrs : list Address;
  vote_addrs : option (list VoteAddress);
}.

Record Parlia (CS : Type) := { spec : CS; epoch : Z }.
Arguments Build_Parlia {CS} _ _.
Arguments spec {CS} _.
Arguments epoch {CS} _.

Notation result := (comp ParliaConsensusError).

Section HeaderExtra.
Context `{FCA : ForkConditionApi} {CS : Type} `{!BscHardforks CS}.
Context `{SL : Sealable} `{AR : AttestationRlp} `{TL : !LruApi Z}.
Variable self : Parlia CS.
Implicit Types (header : Header).

Definition extra_len header : Z := zlen (extra_data header).

Definition get_epoch_length header : Z :=
  if is_maxwell_active_at_timestamp (spec self) (number header) (timestamp header)
  then MAXWELL_EPOCH_LENGTH
  else if is_lorentz_active_at_timestamp (spec self) (number header) (timestamp header)
  then LORENTZ_EPOCH_LENGTH
  else epoch self.

(** ** Reading *)

(** Sums of lengths of a header stay far below [2^64]; the differences that
    can be negative are [usize] subtractions. *)
Definition get_validator_bytes_from_header {E} header (epoch_length : Z) : comp E (option (list Z)) :=
  if extra_len header <=? EXTRA_VANITY_LEN + EXTRA_SEAL_LEN then Ret None
  else
    let is_epoch := is_multiple_of (number header) epoch_length in
    if is_luban_active_at_block (spec self) (number header) then
      if negb is_epoch then Ret None
      else
        count ← index (extra_data header) EXTRA_VANITY_LEN;
        let start := EXTRA_VANITY_LEN + VALIDATOR_NUMBER_SIZE in
        let fin := start + count * VALIDATOR_BYTES_LEN_AFTER_LUBAN in
        let extra_min_len := fin + EXTRA_SEAL_LEN in
        let extra_min_len :=
          if is_bohr_active_at_timestamp (spec self) (number header) (timestamp header)
          then extra_min_len + TURN_LENGTH_SIZE else extra_min_len in
        if (count =? 0) || (extra_len header <? extra_min_len) then Ret None
        else bytes ← slice (extra_data header) start fin; Ret (Some bytes)
    else if is_epoch && negb (is_multiple_of (sub64 (sub64 (extra_len header) EXTRA_VANITY_LEN) EXTRA_SEAL_LEN)
                                VALIDATOR_BYTES_LEN_BEFORE_LUBAN)
    then Ret None
    else
      bytes ← slice (extra_data header) EXTRA_VANITY_LEN (sub64 (extra_len header) EXTRA_SEAL_LEN);
      Ret (Some bytes).

Definition get_turn_length_from_header header (epoch_length : Z) : result (option Z) :=
  if negb (is_multiple_of (number header) epoch_length)
     || negb (is_bohr_active_at_timestamp (spec self) (number header) (timestamp header))
  then Ret None
  else if extra_len header <=? EXTRA_VANITY_LEN + EXTRA_SEAL_LEN
  then Err (InvalidHeaderExtraLen (extra_len header))
  else
    num ← index (extra_data header) EXTRA_VANITY_LEN;
    let pos := EXTRA_VANITY_LEN + 1 + num * VALIDATOR_BYTES_LEN_AFTER_LUBAN in
    if extra_len header <=? pos then Err ExtraInvalidTurnLength
    else turn ← index (extra_data header) pos; Ret (Some turn).

Definition decode_attestation (raw_attestation_data : list Z) : result (option VoteAttestation) :=
  if bool_decide (raw_attestation_data = []) then Ret None
  else a ← ok_or (rlp_decode_attestation raw_attestation_data) ExtraInvalidAttestation; Ret (Some a).

Definition get_vote_attestation_from_header header (epoch_length : Z) : result (option VoteAttestation) :=
  if extra_len header <=? EXTRA_VANITY_LEN + EXTRA_SEAL_LEN then Ret None
  else if negb (is_luban_active_at_block (spec self) (number header)) then Ret None
  else if negb (is_multiple_of (number header) epoch_length) then
    raw ← slice (extra_data header) EXTRA_VANITY_LEN (sub64 (extra_len header) EXTRA_SEAL_LEN);
    decode_attestation raw
  else
    validator_count ← index (extra_data header) (EXTRA_VANITY_LEN + VALIDATOR_NUMBER_SIZE - 1);
    let start := EXTRA_VANITY_LEN + VALIDATOR_NUMBER_SIZE
                 + validator_count * VALIDATOR_BYTES_LEN_AFTER_LUBAN in
    let start :=
      if is_bohr_active_at_timestamp (spec self) (number header) (timestamp header)
      then start + TURN_LENGTH_SIZE else start in
    let fin := sub64 (extra_len header) EXTRA_SEAL_LEN in
    if fin <=? start then Ret None
    else raw ← slice (extra_data header) start fin; decode_attestation raw.

(** ** Checking *)

Definition get_validator_len_from_header header : result Z :=
  if negb (is_multiple_of (number header) (get_epoch_length header)) then Ret 0
  else if negb (is_luban_active_at_block (spec self) (number header))
  then Ret (sub64 (sub64 (extra_len header) EXTRA_VANITY_LEN) EXTRA_SEAL_LEN)
  else
    count ← index (extra_data header) (EXTRA_VANITY_LEN + VALIDATOR_NUMBER_SIZE - 1);
    Ret (count * VALIDATOR_BYTES_LEN_AFTER_LUBAN).

Definition check_header_extra_len header : result unit :=
  if extra_len header <? EXTRA_VANITY_LEN then Err ExtraVanityMissing
  else if extra_len header <? EXTRA_VANITY_LEN + EXTRA_SEAL_LEN then Err ExtraSignatureMissing
  else if negb (is_multiple_of (number header) (get_epoch_length header)) then Ret tt
  else if is_luban_active_at_block (spec self) (number header) then
    count ← index (extra_data header) (EXTRA_VANITY_LEN + VALIDATOR_NUMBER_SIZE - 1);
    let expect := EXTRA_VANITY_LEN + VALIDATOR_NUMBER_SIZE + EXTRA_SEAL_LEN
                  + count * VALIDATOR_BYTES_LEN_AFTER_LUBAN in
    if (count =? 0) || (extra_len header <? expect)
    then Err (InvalidHeaderExtraLen (extra_len header)) else Ret tt
  else
    let validator_bytes_len := sub64 (sub64 (extra_len header) EXTRA_VANITY_LEN) EXTRA_SEAL_LEN in
    if (validator_bytes_len / VALIDATOR_BYTES_LEN_BEFORE_LUBAN =? 0)
       || negb (is_multiple_of validator_bytes_len VALIDATOR_BYTES_LEN_BEFORE_LUBAN)
    then Err (InvalidHeaderExtraLen (extra_len header)) else Ret tt.

Definition check_header_extra header : result unit :=
  _ ← check_header_extra_len header;
  let is_epoch := is_multiple_of (number header) (get_epoch_length header) in
  validator_bytes_len ← get_validator_len_from_header header;
  if (negb is_epoch && negb (validator_bytes_len =? 0)) || (is_epoch && (validator_bytes_len =? 0))
  then Err (InvalidHeaderExtraValidatorBytesLen is_epoch validator_bytes_len)
  else Ret tt.

(** ** Parsing the validator list *)

Definition parse_validator_after_luban {E} (validator_bytes : list Z) (i : Z)
    : comp E (Address * VoteAddress) :=
  let consensus_start := i * VALIDATOR_BYTES_LEN_AFTER_LUBAN in
  let consensus_end := consensus_start + ADDRESS_LENGTH in
  a ← slice validator_bytes consensus_start consensus_end;
  let vote_start := consensus_start + ADDRESS_LENGTH in
  let vote_end := consensus_start + VALIDATOR_BYTES_LEN_AFTER_LUBAN in
  v ← slice validator_bytes vote_start vote_end;
  Ret (be_decode a, be_decode v).

Definition parse_validators_after_luban (validator_bytes : list Z) : result ValidatorsInfo :=
  let count := zlen validator_bytes / VALIDATOR_BYTES_LEN_AFTER_LUBAN in
  l ← mapM (parse_validator_after_luban validator_bytes) (zrange 0 (Z.to_nat count));
  Ret {| consensus_addrs := l.*1; vote_addrs := Some l.*2 |}.

Definition parse_validator_before_luban {E} (validator_bytes : list Z) (i : Z) : comp E Address :=
  let start := i * VALIDATOR_BYTES_LEN_BEFORE_LUBAN in
  a ← slice validator_bytes start (start + VALIDATOR_BYTES_LEN_BEFORE_LUBAN);
  Ret (be_decode a).

Definition parse_validators_before_luban (validator_bytes : list Z) : result ValidatorsInfo :=
  let count := zlen validator_bytes / VALIDATOR_BYTES_LEN_BEFORE_LUBAN in
  l ← mapM (parse_validator_before_luban validator_bytes) (zrange 0 (Z.to_nat count));
  Ret {| consensus_addrs := l; vote_addrs := None |}.

Definition parse_validators_from_header header (epoch_length : Z) : result ValidatorsInfo :=
  o ← get_validator_bytes_from_header header epoch_length;
  val_bytes ← ok_or o (InvalidHeaderExtraLen (extra_len header));
  if bool_decide (val_bytes = []) then Err (InvalidHeaderExtraValidatorBytesLen true 0)
  else if is_luban_active_at_block (spec self) (number header)
  then parse_validators_after_luban val_bytes
  else parse_validators_before_luban val_bytes.

(** ** Writing *)

(** The vote address of each validator; missing ones are zero. *)
Definition insert_vote (vote_addresses : list VoteAddress) (m : gmap Address VoteAddress)
    (iv : Z * Address) : gmap Address VoteAddress :=
  <[iv.2 := default ZERO (vote_addresses !! Z.to_nat iv.1)]> m.

Definition vote_map (transition : bool) (new_validators : list Address)
    (vote_addresses : list VoteAddress) : gmap Address VoteAddress :=
  if transition then foldl (λ m v, <[v := ZERO]> m) ∅ new_validators
  else foldl (insert_vote vote_addresses) ∅ (enumerate 0 new_validators).

Definition validator_entry {E} (m : gmap Address VoteAddress) (v : Address) : comp E (list Z) :=
  a ← unwrap (m !! v); Ret (be_encode 20 v ++ be_encode 48 a).

Definition prepare_validators {E} (snap : Snapshot)
    (validators : option (list Address * list VoteAddress)) (new_header : Header) : comp E Header :=
  if negb (is_multiple_of (number new_header) (epoch_num snap)) then Ret new_header
  else
    match validators with
    | None => Ret new_header
    | Some (new_validators, vote_addresses) =>
        if negb (is_luban_active_at_block (spec self) (number new_header)) then
          let sorted := sort new_validators in
          Ret (set_extra_data (extra_data new_header ++ concat_map (be_encode 20) sorted) new_header)
        else
          let m := vote_map (is_luban_transition_at_block (spec self) (number new_header))
                     new_validators vote_addresses in
          entries ← mapM (validator_entry m) (sort new_validators);
          Ret (set_extra_data
                 (extra_data new_header ++ [wrapu 8 (zlen new_validators)] ++ mjoin entries) new_header)
    end.

(** [cache] is the global [TURN_LENGTH_CACHE]. *)
Definition prepare_turn_length (cache : LruMap Z) (parent_snap : Snapshot) (new_header : Header)
    : result (Header * LruMap Z) :=
  if negb (is_multiple_of (number new_header) (epoch_num parent_snap))
     || negb (is_bohr_active_at_timestamp (spec self) (number new_header) (timestamp new_header))
  then Ret (new_header, cache)
  else
    let '(o, cache) := lru_get cache (parent_hash new_header) in
    turn ← ok_or o (TurnLengthNotFound (parent_hash new_header));
    Ret (set_extra_data (extra_data new_header ++ [turn]) new_header, cache).

(** The end of [assemble_vote_attestation]. *)
Definition append_attestation (attestation : VoteAttestation) (current_header : Header) : Header :=
  set_extra_data (extra_data current_header ++ rlp_encode_attestation attestation) current_header.

End HeaderExtra.

(** ** The sealed hash ([src/consensus/parlia/util.rs]) *)

Section Sealing.
Context `{RL : Rlp} `{KE : Keccak} `{SE : Secp256k1}.
Implicit Types (header : Header).

(** [&header.extra_data[..header.extra_data.len() - EXTRA_SEAL_LEN]] *)
Definition signed_extra {E} header : comp E (list Z) :=
  slice (extra_data header) 0 (sub64 (extra_len header) EXTRA_SEAL_LEN).

Definition zero_beacon_root header : bool :=
  match parent_beacon_block_root header with Some r => r =? ZERO | None => false end.

Definition rlp_header {E} header (chain_id : Z) : comp E Z :=
  extra ← signed_extra header;
  let payload_length :=
    rlp_uint_length chain_id
    + rlp_bytes_length (be_encode 32 (parent_hash header))
    + rlp_bytes_length (be_encode 32 (ommers_hash header))
    + rlp_bytes_length (be_encode 20 (beneficiary header))
    + rlp_bytes_length (be_encode 32 (state_root header))
    + rlp_bytes_length (be_encode 32 (transactions_root header))
    + rlp_bytes_length (be_encode 32 (receipts_root header))
    + rlp_bytes_length (be_encode 256 (logs_bloom header))
    + rlp_uint_length (difficulty header)
    + rlp_uint_length (number header)
    + rlp_uint_length (gas_limit header)
    + rlp_uint_length (gas_used header)
    + rlp_uint_length (timestamp header)
    + rlp_bytes_length extra
    + rlp_bytes_length (be_encode 32 (mix_hash header))
    + rlp_bytes_length (be_encode 8 (nonce header)) in
  if zero_beacon_root header then
    base_fee ← unwrap (base_fee_per_gas header);
    withdrawals ← unwrap (withdrawals_root header);
    blob_gas ← unwrap (blob_gas_used header);
    excess ← unwrap (excess_blob_gas header);
    root ← unwrap (parent_beacon_block_root header);
    let payload_length :=
      payload_length + rlp_uint_length base_fee + rlp_bytes_length (be_encode 32 withdrawals)
      + rlp_uint_length blob_gas + rlp_uint_length excess + rlp_bytes_length (be_encode 32 root) in
    match requests_hash header with
    | Some r => Ret (payload_length + rlp_bytes_length (be_encode 32 r))
    | None => Ret payload_length
    end
  else Ret payload_length.

Definition encode_header_with_chain_id {E} header (chain_id : Z) : comp E (list Z) :=
  payload_length ← rlp_header header chain_id;
  extra ← signed_extra header;
  let out :=
    rlp_list_header payload_length
    ++ rlp_uint chain_id
    ++ rlp_bytes (be_encode 32 (parent_hash header))
    ++ rlp_bytes (be_encode 32 (ommers_hash header))
    ++ rlp_bytes (be_encode 20 (beneficiary header))
    ++ rlp_bytes (be_encode 32 (state_root header))
    ++ rlp_bytes (be_encode 32 (transactions_root header))
    ++ rlp_bytes (be_encode 32 (receipts_root header))
    ++ rlp_bytes (be_encode 256 (logs_bloom header))
    ++ rlp_uint (difficulty header)
    ++ rlp_uint (number header)
    ++ rlp_uint (gas_limit header)
    ++ rlp_uint (gas_used header)
    ++ rlp_uint (timestamp header)
    ++ rlp_bytes extra
    ++ rlp_bytes (be_encode 32 (mix_hash header))
    ++ rlp_bytes (be_encode 8 (nonce header)) in
  if zero_beacon_root header then
    base_fee ← unwrap (base_fee_per_gas header);
    withdrawals ← unwrap (withdrawals_root header);
    blob_gas ← unwrap (blob_gas_used header);
    excess ← unwrap (excess_blob_gas header);
    root ← unwrap (parent_beacon_block_root header);
    let out :=
      out ++ rlp_uint base_fee ++ rlp_bytes (be_encode 32 withdrawals)
      ++ rlp_uint blob_gas ++ rlp_uint excess ++ rlp_bytes (be_encode 32 root) in
    match requests_hash header with
    | Some r => Ret (out ++ rlp_bytes (be_encode 32 r))
    | None => Ret out
    end
  else Ret out.

Definition hash_with_chain_id {E} header (chain_id : Z) : comp E B256 :=
  out ← encode_header_with_chain_id header chain_id; Ret (keccak256 out).

(** ** Sealing ([src/node/miner/signer.rs]) *)

Inductive SignerError :=
| NotInitialized
| AlreadyInitialized
| SigningFailed (msg : string).

Definition seal_header (secret_bytes : list Z) header (chain_id : Z) : comp SignerError (list Z) :=
  hash_data ← hash_with_chain_id header chain_id;
  let message := from_digest (be_encode 32 hash_data) in
  sk ← ok_or (secret_from_slice secret_bytes) (SigningFailed "Invalid private key");
  let recoverable_sig := sign_ecdsa_recoverable message sk in
  let '(recovery_id, signature_bytes) := serialize_compact recoverable_sig in
  (* [copy_from_slice] into the first 64 bytes panics unless the lengths agree *)
  _ ← assert_that (zlen signature_bytes =? 64);
  Ret (signature_bytes ++ [wrapu 8 (recovery_id_to_i32 recovery_id)]).

Definition seal_header_with_global_signer (global_signer : option (list Z)) header (chain_id : Z)
    : comp SignerError (list Z) :=
  secret_bytes ← ok_or global_signer NotInitialized;
  seal_header secret_bytes header chain_id.

(** The last block of [finalize_new_header] ([src/node/miner/util.rs]). *)
Definition seal_new_header (global_signer : option (list Z)) header (chain_id : Z)
    : comp SignerError Header :=
  let header := set_extra_data (extra_data header ++ replicate 65 0) header in
  seal_data ← seal_header_with_global_signer global_signer header chain_id;
  let start := sub64 (extra_len header) EXTRA_SEAL_LEN in
  prefix ← slice (extra_data header) 0 start;
  _ ← assert_that (zlen seal_data =? sub64 (extra_len header) start);
  Ret (set_extra_data (prefix ++ seal_data) header).

(** ** Recovering the proposer *)

Definition recover_uncached header (chain_id : Z) : result Address :=
  if extra_len header <? EXTRA_VANITY_LEN + EXTRA_SEAL_LEN then Err ExtraSignatureMissing
  else
    let signature_offset := extra_len header - EXTRA_SEAL_LEN in
    recovery_byte ← index (extra_data header) (signature_offset + EXTRA_SEAL_LEN - 1);
    signature_bytes ← slice (extra_data header) signature_offset (signature_offset + EXTRA_SEAL_LEN - 1);
    recovery_id ← ok_or (recovery_id_try_from recovery_byte) RecoverECDSAInnerError;
    signature ← ok_or (from_compact signature_bytes recovery_id) RecoverECDSAInnerError;
    hash ← hash_with_chain_id header chain_id;
    message ← ok_or (from_digest_slice (be_encode 32 hash)) RecoverECDSAInnerError;
    public ← ok_or (recover_ecdsa message signature) RecoverECDSAInnerError;
    key ← slice_from (serialize_uncompressed public) 1;
    tail ← slice_from (be_encode 32 (keccak256 key)) 12;
    Ret (be_decode tail).

(** [RECOVERED_PROPOSER_CACHE] is looked up first and filled last. *)
Definition recover_proposer `{SL : Sealable} `{CA : !LruApi Z} (cache : LruMap Z) header (chain_id : Z)
    : result Address * LruMap Z :=
  let hash := hash_slow header in
  let '(cached, cache) := lru_get cache hash in
  match cached with
  | Some proposer => (Ret proposer, cache)
  | None =>
      match recover_uncached header chain_id with
      | Ret proposer => (Ret proposer, lru_insert cache hash proposer)
      | r => (r, cache)
      end
  end.

(** The address of a key, as [recover_proposer] computes it. *)
Definition address_of_key (k : PublicKey) : Address :=
  be_decode (drop 12 (be_encode 32 (keccak256 (drop 1 (serialize_uncompressed k))))).

End Sealing.

(** * Proofs *)

Section Layout.
Context `{FCA : ForkConditionApi} {CS : Type} `{!BscHardforks CS}.
Context `{AR : AttestationRlp} `{!AttestationRlpLaws AR} `{TL : !LruApi Z} `{!LruLaws Z TL}.
Variable self : Parlia CS.
Implicit Types (header : Header).

Definition luban_at header : bool := is_luban_active_at_block (spec self) (number header).
Definition bohr_at_header header : bool :=
  is_bohr_active_at_timestamp (spec self) (number header) (timestamp header).

(** The bytes of an epoch header from Luban on. *)
Record epoch_layout header (vanity : list Z) (count : Z) (entries turn att seal : list Z) : Prop := {
  el_extra : extra_data header = vanity ++ [count] ++ entries ++ turn ++ att ++ seal;
  el_vanity : zlen vanity = 32;
  el_count : 0 < count < 256;
  el_entries : zlen entries = count * 68;
  el_turn : zlen turn = if bohr_at_header header then 1 else 0;
  el_seal : zlen seal = 65;
  el_luban : luban_at header = true;
  el_small : extra_len header < 2 ^ 63;
}.

Section Fields.
Context header vanity count entries turn att seal
  (L : epoch_layout header vanity count entries turn att seal).

Lemma layout_len :
  extra_len header = 32 + 1 + count * 68 + (if bohr_at_header header then 1 else 0) + zlen att + 65.
Proof.
  destruct L. unfold extra_len. rewrite el_extra0. autorewrite with bsc. lia.
Qed.

Lemma layout_long : extra_len header <=? EXTRA_VANITY_LEN + EXTRA_SEAL_LEN = false.
Proof.
  rewrite layout_len. destruct L. pose proof (zlen_nonneg att).
  apply Z.leb_gt. unfold EXTRA_VANITY_LEN, EXTRA_SEAL_LEN. case_match; lia.
Qed.

Lemma layout_count {E} : index (E:=E) (extra_data header) 32 = Ret count.
Proof. destruct L. rewrite el_extra0. by apply index_app_middle. Qed.

Lemma layout_validator_bytes {E} ep :
  is_multiple_of (number header) ep = true →
  get_validator_bytes_from_header self (E:=E) header ep = Ret (Some entries).
Proof.
  intros Hep. unfold get_validator_bytes_from_header. rewrite layout_long.
  pose proof layout_len as Hlen. destruct L. unfold luban_at in *. rewrite el_luban0, Hep. cbn [negb].
  unfold EXTRA_VANITY_LEN, EXTRA_SEAL_LEN, VALIDATOR_NUMBER_SIZE, VALIDATOR_BYTES_LEN_AFTER_LUBAN,
    TURN_LENGTH_SIZE.
  rewrite layout_count. cbn [mbind comp_bind].
  fold (bohr_at_header header). pose proof (zlen_nonneg att).
  rewrite (proj2 (Z.eqb_neq count 0)) by lia. cbn [orb].
  rewrite (proj2 (Z.ltb_ge _ _)) by (rewrite Hlen; case_match; lia).
  rewrite el_extra0.
  rewrite (app_assoc vanity [count]), (slice_app (vanity ++ [count]) entries); [done|..];
    autorewrite with bsc; lia.
Qed.

Lemma layout_turn ep :
  is_multiple_of (number header) ep = true →
  get_turn_length_from_header self header ep = Ret (if bohr_at_header header then head turn else None).
Proof.
  intros Hep. unfold get_turn_length_from_header. rewrite Hep, layout_long. fold (bohr_at_header header).
  pose proof layout_len as Hlen. destruct L. destruct (bohr_at_header header); [|done]. cbn [negb orb].
  unfold EXTRA_VANITY_LEN, VALIDATOR_BYTES_LEN_AFTER_LUBAN.
  rewrite layout_count. cbn [mbind comp_bind]. pose proof (zlen_nonneg att).
  rewrite (proj2 (Z.leb_gt _ _)) by lia.
  destruct turn as [|t [|? ?]]; [done| |rewrite !zlen_cons in el_turn0; pose proof (zlen_nonneg l); lia].
  assert (He : extra_data header = (vanity ++ [count] ++ entries) ++ t :: (att ++ seal))
    by (rewrite el_extra0, <- !app_assoc; done).
  rewrite He, index_app_middle; [done|]. autorewrite with bsc. lia.
Qed.

Lemma layout_attestation ep :
  is_multiple_of (number header) ep = true →
  get_vote_attestation_from_header self header ep = decode_attestation att.
Proof.
  intros Hep. unfold get_vote_attestation_from_header. rewrite Hep, layout_long.
  pose proof layout_len as Hlen. destruct L. unfold luban_at in *. rewrite el_luban0. cbn [negb].
  unfold EXTRA_VANITY_LEN, VALIDATOR_NUMBER_SIZE, VALIDATOR_BYTES_LEN_AFTER_LUBAN, EXTRA_SEAL_LEN,
    TURN_LENGTH_SIZE.
  change (32 + 1 - 1) with 32. rewrite layout_count. cbn [mbind comp_bind].
  fold (bohr_at_header header). pose proof (zlen_nonneg att).
  rewrite sub64_small by (unfold is_u; split; [case_match; lia|lia]).
  destruct att as [|b l] eqn:Hatt.
  - change (zlen (@nil Z)) with 0 in Hlen. rewrite (proj2 (Z.leb_le _ _)) by (case_match; lia). done.
  - rewrite (proj2 (Z.leb_gt _ _)).
    2: { rewrite zlen_cons in Hlen. pose proof (zlen_nonneg l). case_match; lia. }
    rewrite <- Hatt in *.
    assert (He : extra_data header = (vanity ++ [count] ++ entries ++ turn) ++ att ++ seal)
      by (rewrite el_extra0, <- !app_assoc; done).
    assert (Hl : zlen (vanity ++ [count] ++ entries ++ turn) =
                 33 + count * 68 + if bohr_at_header header then 1 else 0)
      by (autorewrite with bsc; rewrite el_turn0; lia).
    rewrite He, slice_app; [done|rewrite Hl; case_match; lia|rewrite Hl; case_match; lia].
Qed.

End Fields.

(** ** Validator entries *)

Definition entry (av : Address * VoteAddress) : list Z := be_encode 20 av.1 ++ be_encode 48 av.2.

Lemma length_entry av : length (entry av) = 68%nat.
Proof. unfold entry. rewrite length_app, !length_be_encode. done. Qed.

Lemma zlen_entries l : zlen (concat_map entry l) = zlen l * 68.
Proof.
  unfold zlen. rewrite (length_concat_map_const entry 68) by (intros; apply length_entry). lia.
Qed.

Definition pair_ok (av : Address * VoteAddress) : Prop := is_u 160 av.1 ∧ is_u 384 av.2.

Lemma be_roundtrip n w z : 256 ^ Z.of_nat n = 2 ^ w → is_u w z → be_decode (be_encode n z) = z.
Proof. intros Hn Hz. rewrite be_decode_encode, Hn. unfold is_u in Hz. by rewrite Z.mod_small. Qed.

Lemma parse_entries l :
  Forall pair_ok l →
  parse_validators_after_luban (concat_map entry l)
  = Ret {| consensus_addrs := l.*1; vote_addrs := Some l.*2 |}.
Proof.
  intros Hok. unfold parse_validators_after_luban. rewrite zlen_entries.
  unfold VALIDATOR_BYTES_LEN_AFTER_LUBAN. rewrite Z.div_mul by done. unfold zlen. rewrite Nat2Z.id.
  rewrite (mapM_zrange _ _ l); [done|done|].
  intros i [a v] Hi. destruct (concat_map_split entry 68 l i (a, v)) as (p & s & Hs & Hp);
    [intros; apply length_entry|done|change (Z.of_nat 68) with 68 in Hp].
  pose proof (Forall_lookup_1 _ _ _ _ Hok Hi) as [Ha Hv]. cbn in Ha, Hv.
  unfold parse_validator_after_luban, VALIDATOR_BYTES_LEN_AFTER_LUBAN, ADDRESS_LENGTH.
  rewrite Hs. unfold entry. cbn [fst snd]. rewrite <- app_assoc.
  rewrite (slice_app p (be_encode 20 a) _ (Z.of_nat i * 68)); [|rewrite Hp; lia|rewrite zlen_be_encode, Hp; lia].
  cbn [mbind comp_bind]. rewrite (app_assoc p).
  rewrite (slice_app (p ++ be_encode 20 a) (be_encode 48 v));
    [|rewrite zlen_app, zlen_be_encode, Hp; lia|rewrite zlen_app, !zlen_be_encode, Hp; lia].
  cbn [mbind comp_bind].
  rewrite (be_roundtrip 20 160), (be_roundtrip 48 384) by done. done.
Qed.

Lemma parse_addresses l :
  Forall (is_u 160) l →
  parse_validators_before_luban (concat_map (be_encode 20) l)
  = Ret {| consensus_addrs := l; vote_addrs := None |}.
Proof.
  intros Hok. unfold parse_validators_before_luban.
  assert (Hz : zlen (concat_map (be_encode 20) l) = zlen l * 20).
  { unfold zlen. rewrite (length_concat_map_const _ 20) by (intros; apply length_be_encode). lia. }
  rewrite Hz. unfold VALIDATOR_BYTES_LEN_BEFORE_LUBAN. rewrite Z.div_mul by done.
  unfold zlen. rewrite Nat2Z.id. rewrite (mapM_zrange _ _ l); [done|done|].
  intros i a Hi. destruct (concat_map_split (be_encode 20) 20 l i a) as (p & s & Hs & Hp);
    [intros; apply length_be_encode|done|change (Z.of_nat 20) with 20 in Hp].
  pose proof (Forall_lookup_1 _ _ _ _ Hok Hi) as Ha. cbn in Ha.
  unfold parse_validator_before_luban, VALIDATOR_BYTES_LEN_BEFORE_LUBAN. rewrite Hs.
  rewrite (slice_app p (be_encode 20 a)); [|rewrite Hp; lia|rewrite zlen_be_encode, Hp; lia].
  cbn [mbind comp_bind]. rewrite (be_roundtrip 20 160) by done. done.
Qed.

End Layout.

(** ** Writing and reading back *)

Section RoundTrip.
Context `{FCA : ForkConditionApi} {CS : Type} `{!BscHardforks CS}.
Context `{AR : AttestationRlp} `{AL : !AttestationRlpLaws AR} `{TL : !LruApi Z} `{LL : !LruLaws Z TL}.
Variable self : Parlia CS.
Implicit Types (header h : Header).

Lemma foldl_insert_vote_lookup votes l k m :
  NoDup l → 0 <= k →
  (∀ j v, l !! j = Some v → foldl (insert_vote votes) m (enumerate k l) !! v
                            = Some (default ZERO (votes !! (Z.to_nat k + j)%nat)))
  ∧ (∀ v, v ∉ l → foldl (insert_vote votes) m (enumerate k l) !! v = m !! v).
Proof.
  revert k m. induction l as [|x l IH]; intros k m Hnd Hk.
  - split; [|done]. intros j v Hj. by rewrite lookup_nil in Hj.
  - apply list.NoDup_cons in Hnd as [Hx Hnd].
    destruct (IH (k + 1) (insert_vote votes m (k, x)) Hnd ltac:(lia)) as [H1 H2]. split.
    + intros [|j] v Hj; simpl in Hj; simplify_eq; simpl foldl.
      * rewrite H2 by done. unfold insert_vote. cbn [fst snd]. by rewrite lookup_insert_eq, Nat.add_0_r.
      * rewrite (H1 j v Hj). do 3 f_equal. lia.
    + intros v Hv. apply not_elem_of_cons in Hv as [Hvx Hvl]. simpl foldl.
      rewrite H2 by done. unfold insert_vote. cbn [fst snd]. by rewrite lookup_insert_ne.
Qed.

(** The validators in the order in which they are written, with their votes. *)
Definition written (m : gmap Address VoteAddress) (vals : list Address) : list (Address * VoteAddress) :=
  (λ v, (v, default ZERO (m !! v))) <$> sort vals.

Lemma written_fst m vals : (written m vals).*1 = sort vals.
Proof. unfold written. rewrite <- list_fmap_compose. by apply list_fmap_id. Qed.

Lemma written_zip vals votes :
  NoDup vals → length votes = length vals → written (vote_map false vals votes) vals ≡ₚ zip vals votes.
Proof.
  intros Hnd Hlen. unfold written. rewrite sort_perm.
  assert (Hq : (λ v, (v, default ZERO (vote_map false vals votes !! v))) <$> vals = zip vals votes); [|by rewrite Hq].
  apply list_eq. intros i. rewrite list_lookup_fmap, lookup_zip_with.
  destruct (vals !! i) as [v|] eqn:Hv; [|done]. cbn.
  destruct (lookup_lt_is_Some_2 votes i) as [a Ha]; [rewrite Hlen; by eapply lookup_lt_Some|].
  rewrite Ha. cbn. unfold vote_map.
  rewrite (proj1 (foldl_insert_vote_lookup votes vals 0 ∅ Hnd ltac:(lia)) i v Hv).
  change (Z.to_nat 0 + i)%nat with i. by rewrite Ha.
Qed.

Lemma mapM_entries {E} m vals :
  (∀ v, v ∈ vals → is_Some (m !! v)) →
  mapM (validator_entry (E:=E) m) (sort vals) = Ret (entry <$> written m vals).
Proof.
  intros Hm. apply mapM_Ret. unfold written. rewrite <- list_fmap_compose.
  apply Forall2_fmap_r, Forall_Forall2_diag, list.Forall_forall.
  intros v Hv. rewrite elem_of_sort in Hv. destruct (Hm v Hv) as [a Ha]. unfold validator_entry, entry. cbn.
  by rewrite Ha.
Qed.

Lemma vote_map_total tr vals votes v :
  NoDup vals → v ∈ vals → is_Some (vote_map tr vals votes !! v).
Proof.
  intros Hnd Hv. unfold vote_map. destruct tr.
  - assert (Hg : ∀ l (m : gmap Address VoteAddress), v ∈ l ∨ is_Some (m !! v) →
      is_Some (foldl (λ (m : gmap Address VoteAddress) v, <[v := ZERO]> m) m l !! v)).
    { induction l as [|x l IH]; intros m [Hin|Hin]; cbn [foldl]; [by apply elem_of_nil in Hin|done| |].
      - apply elem_of_cons in Hin as [->|Hin]; apply IH; [right|by left]. rewrite lookup_insert_eq. eauto.
      - apply IH. right. destruct (decide (v = x)) as [->|]; [rewrite lookup_insert_eq; eauto|by rewrite lookup_insert_ne]. }
    apply Hg. by left.
  - apply list_elem_of_lookup in Hv as [j Hj].
    rewrite (proj1 (foldl_insert_vote_lookup votes vals 0 ∅ Hnd ltac:(lia)) j v Hj). eauto.
Qed.

(** The bytes [prepare_validators] appends from Luban on. *)
Definition validator_section (transition : bool) (vals : list Address) (votes : list VoteAddress) : list Z :=
  [wrapu 8 (zlen vals)] ++ concat_map entry (written (vote_map transition vals votes) vals).

Lemma prepare_validators_luban {E} snap vals votes h :
  NoDup vals → luban_at self h = true → is_multiple_of (number h) (epoch_num snap) = true →
  prepare_validators (E:=E) self snap (Some (vals, votes)) h =
  Ret (set_extra_data (extra_data h ++
         validator_section (is_luban_transition_at_block (spec self) (number h)) vals votes) h).
Proof.
  intros Hnd Hl Hep. unfold prepare_validators, luban_at in *. rewrite Hep, Hl. cbn [negb].
  rewrite mapM_entries by (intros; by apply vote_map_total). done.
Qed.

(** An epoch block as the miner assembles it: the validators, the turn length,
    possibly an attestation, and the seal. *)
Definition assemble_epoch_block (cache : LruMap Z) (snap : Snapshot)
    (validators : option (list Address * list VoteAddress)) (att : option VoteAttestation)
    (seal : list Z) (h : Header) : result Header :=
  h ← prepare_validators self snap validators h;
  '(h, _) ← prepare_turn_length self cache snap h;
  let h := match att with Some a => append_attestation a h | None => h end in
  Ret (set_extra_data (extra_data h ++ seal) h).

Record epoch_input_ok (snap : Snapshot) (vals : list Address) (votes : list VoteAddress)
    (seal : list Z) (h : Header) : Prop := {
  ei_epoch : is_multiple_of (number h) (epoch_num snap) = true;
  ei_nodup : NoDup vals;
  ei_count : 0 < zlen vals < 256;
  ei_votes : length votes = length vals;
  ei_addrs : Forall (is_u 160) vals;
  ei_keys : Forall (is_u 384) votes;
  ei_vanity : zlen (extra_data h) = 32;
  ei_seal : zlen seal = 65;
}.

Lemma zip_pair_ok vals votes :
  Forall (is_u 160) vals → Forall (is_u 384) votes → Forall pair_ok (zip vals votes).
Proof.
  intros Ha Hv. apply list.Forall_forall. intros [a v] Hin.
  apply list_elem_of_lookup in Hin as [i Hi]. apply lookup_zip_Some in Hi as [H1 H2].
  split; cbn; [by apply (Forall_lookup_1 _ _ _ _ Ha H1)|by apply (Forall_lookup_1 _ _ _ _ Hv H2)].
Qed.

Lemma written_pair_ok vals votes :
  NoDup vals → length votes = length vals → Forall (is_u 160) vals → Forall (is_u 384) votes →
  Forall pair_ok (written (vote_map false vals votes) vals).
Proof.
  intros. rewrite written_zip by done. by apply zip_pair_ok.
Qed.

(** The assembled block and its layout. *)
Lemma assembled_layout cache snap vals votes att seal turn h :
  epoch_input_ok snap vals votes seal h → luban_at self h = true →
  lru_entries cache !! parent_hash h = Some turn →
  (∀ a, att = Some a → zlen (rlp_encode_attestation a) < 2 ^ 32) →
  let w := written (vote_map (is_luban_transition_at_block (spec self) (number h)) vals votes) vals in
  let tl := if bohr_at_header self h then [turn] else [] in
  let ab := match att with Some a => rlp_encode_attestation a | None => [] end in
  let h' := set_extra_data (extra_data h ++ [zlen vals] ++ concat_map entry w ++ tl ++ ab ++ seal) h in
  assemble_epoch_block cache snap (Some (vals, votes)) att seal h = Ret h'
  ∧ epoch_layout self h' (extra_data h) (zlen vals) (concat_map entry w) tl ab seal.
Proof.
  intros [Hep Hnd Hcnt Hlen Ha Hv Hvan Hseal] Hl Hc Hatt w tl ab h'. split.
  { unfold assemble_epoch_block. rewrite prepare_validators_luban by done.
    cbn [mbind comp_bind]. unfold validator_section. fold w.
    rewrite wrapu_small by (unfold is_u; change (2 ^ 8) with 256; lia).
    unfold prepare_turn_length. cbn [number timestamp parent_hash set_extra_data extra_data].
    rewrite Hep. fold (bohr_at_header self h). unfold h', tl, ab. cbn [negb orb].
    destruct (bohr_at_header self h); cbn [negb].
    - rewrite (surjective_pairing (lru_get cache (parent_hash h))), lru_get_value, Hc.
      cbn [ok_or mbind comp_bind]. destruct att as [a|]; cbn; f_equal; unfold set_extra_data; cbn; f_equal;
      rewrite <- !app_assoc; done.
    - cbn [mbind comp_bind]. destruct att as [a|]; cbn; f_equal; unfold set_extra_data; cbn; f_equal;
      rewrite <- !app_assoc; done. }
  assert (Hw : zlen w = zlen vals) by (unfold zlen, w, written; by rewrite length_fmap, length_sort).
  assert (Hab : zlen ab < 2 ^ 32) by (unfold ab; destruct att; [by apply Hatt|done]).
  assert (Htl : zlen tl = if bohr_at_header self h then 1 else 0) by (unfold tl; by case_match).
  constructor; try done; [by rewrite zlen_entries, Hw|].
  unfold extra_len, h'. cbn. autorewrite with bsc. rewrite Hvan, zlen_entries, Hw, Htl, Hseal.
  change (2 ^ 32) with 4294967296 in Hab. change (2 ^ 63) with 9223372036854775808.
  case_match; lia.
Qed.

(** C24. From Luban on, what the miner writes is what the verifier reads: an
    epoch block assembled from distinct validators (at most 255 of them, one
    vote address each), a cached turn length, an optional attestation and a
    seal parses back to the sorted validators, each with its own vote address,
    to the turn length (from Bohr on), and to the attestation. *)
Theorem epoch_header_roundtrip cache snap vals votes att seal turn h :
  epoch_input_ok snap vals votes seal h → luban_at self h = true →
  is_luban_transition_at_block (spec self) (number h) = false →
  lru_entries cache !! parent_hash h = Some turn →
  (∀ a, att = Some a → zlen (rlp_encode_attestation a) < 2 ^ 32) →
  ∃ h' vs, assemble_epoch_block cache snap (Some (vals, votes)) att seal h = Ret h'
  ∧ number h' = number h ∧ timestamp h' = timestamp h
  ∧ zip (sort vals) vs ≡ₚ zip vals votes
  ∧ parse_validators_from_header self h' (epoch_num snap)
    = Ret {| consensus_addrs := sort vals; vote_addrs := Some vs |}
  ∧ get_turn_length_from_header self h' (epoch_num snap)
    = Ret (if bohr_at_header self h then Some turn else None)
  ∧ get_vote_attestation_from_header self h' (epoch_num snap) = Ret att.
Proof.
  intros Hin Hl Htr Hc Hatt.
  destruct (assembled_layout cache snap vals votes att seal turn h Hin Hl Hc Hatt) as [Hasm L]. rewrite Htr in *.
  destruct Hin as [Hep Hnd Hcnt Hlen Ha Hv Hvan Hseal].
  set (w := written (vote_map false vals votes) vals) in *.
  set (tl := if bohr_at_header self h then [turn] else []) in *.
  set (ab := match att with Some a => rlp_encode_attestation a | None => [] end) in *.
  set (extra' := extra_data h ++ [zlen vals] ++ concat_map entry w ++ tl ++ ab ++ seal) in *.
  assert (Hw : zlen w = zlen vals) by (unfold zlen, w, written; by rewrite length_fmap, length_sort).
  exists (set_extra_data extra' h), w.*2. split_and!; [done|done|done| | | |].
  - rewrite <- (written_fst (vote_map false vals votes) vals). fold w.
    rewrite zip_fst_snd. by apply written_zip.
  - unfold parse_validators_from_header. rewrite (layout_validator_bytes self _ _ _ _ _ _ _ L) by done.
    cbn [mbind comp_bind ok_or]. rewrite bool_decide_false.
    2: { intros Hn. apply (f_equal zlen) in Hn. rewrite zlen_entries, Hw in Hn. unfold zlen at 2 in Hn. simpl in Hn. lia. }
    cbn [number set_extra_data]. unfold luban_at in Hl. rewrite Hl.
    rewrite parse_entries by (by apply written_pair_ok). unfold w. by rewrite written_fst.
  - rewrite (layout_turn self _ _ _ _ _ _ _ L) by done. f_equal.
    change (bohr_at_header self (set_extra_data extra' h)) with (bohr_at_header self h).
    unfold tl. by case_match.
  - rewrite (layout_attestation self _ _ _ _ _ _ _ L) by done. unfold decode_attestation, ab.
    destruct att as [a|]; [|done]. rewrite bool_decide_false by apply rlp_attestation_nonempty.
    rewrite <- (app_nil_r (rlp_encode_attestation a)), rlp_attestation_roundtrip. done.
Qed.

(** The same before Luban: an epoch block lists the plain addresses, and
    they parse back to the sorted validators without vote addresses. *)
Theorem pre_luban_roundtrip cache snap vals votes seal h :
  epoch_input_ok snap vals votes seal h → luban_at self h = false → bohr_at_header self h = false →
  ∃ h', assemble_epoch_block cache snap (Some (vals, votes)) None seal h = Ret h'
  ∧ parse_validators_from_header self h' (epoch_num snap)
    = Ret {| consensus_addrs := sort vals; vote_addrs := None |}.
Proof.
  intros [Hep Hnd Hcnt Hlen Ha Hv Hvan Hseal] Hl Hb.
  set (body := concat_map (be_encode 20) (sort vals)).
  assert (Hz : zlen body = zlen vals * 20).
  { unfold body, zlen. rewrite (length_concat_map_const _ 20), length_sort by (intros; apply length_be_encode). lia. }
  exists (set_extra_data (extra_data h ++ body ++ seal) h). split.
  - unfold assemble_epoch_block, prepare_validators, luban_at in *. rewrite Hep, Hl. cbn [negb mbind comp_bind].
    unfold prepare_turn_length. cbn [number timestamp set_extra_data]. unfold bohr_at_header in Hb.
    rewrite Hb. cbn [negb]. rewrite orb_true_r. cbn. unfold set_extra_data. cbn. by rewrite <- app_assoc.
  - unfold parse_validators_from_header, get_validator_bytes_from_header, extra_len.
    unfold luban_at in Hl. cbn [number timestamp extra_data set_extra_data]. rewrite Hl, Hep.
    unfold EXTRA_VANITY_LEN, EXTRA_SEAL_LEN, VALIDATOR_BYTES_LEN_BEFORE_LUBAN.
    assert (Hlx : zlen (extra_data h ++ body ++ seal) = 97 + zlen vals * 20)
      by (autorewrite with bsc; lia).
    rewrite Hlx, (proj2 (Z.leb_gt _ _)) by lia.
    change (2 ^ 64) with 18446744073709551616 in *.
    rewrite !sub64_small by (unfold is_u; change (2 ^ 64) with 18446744073709551616; rewrite ?sub64_small by (unfold is_u; change (2 ^ 64) with 18446744073709551616; lia); lia).
    replace (97 + zlen vals * 20 - 32 - 65) with (zlen vals * 20) by lia.
    rewrite is_multiple_of_mod, Z.mod_mul by done. cbn [Z.eqb negb andb].
    rewrite (slice_app (extra_data h) body) by lia. cbn [mbind comp_bind ok_or].
    rewrite bool_decide_false by (intros Hn; rewrite Hn in Hz; change (zlen (@nil Z)) with 0 in Hz; lia).
    apply parse_addresses. by rewrite sort_perm.
Qed.

End RoundTrip.

(** ** What the checks guarantee *)

Section Checked.
Context `{FCA : ForkConditionApi} {CS : Type} `{!BscHardforks CS}.
Context `{AR : AttestationRlp}.
Variable self : Parlia CS.
Implicit Types (header h : Header).

Definition bytes_small h : Prop := bytes_ok (extra_data h) ∧ extra_len h < 2 ^ 63.

Lemma index_byte {E} h i :
  bytes_ok (extra_data h) → 0 <= i < extra_len h →
  ∃ b, index (E:=E) (extra_data h) i = Ret b ∧ 0 <= b < 256.
Proof.
  intros Hb Hi. destruct (index_Ret (E:=E) (extra_data h) i Hi) as (b & Hr & Hl).
  exists b. split; [done|]. apply (Forall_lookup_1 _ _ _ _ Hb Hl).
Qed.

Lemma mapM_slices {E B} (f : Z → comp E B) n :
  (∀ i, 0 <= i < Z.of_nat n → ∃ x, f i = Ret x) → ∃ l, mapM f (zrange 0 n) = Ret l ∧ length l = n.
Proof.
  intros Hf. assert (Hg : ∀ l, (∀ i, i ∈ l → ∃ x, f i = Ret x) → ∃ k, mapM f l = Ret k ∧ length k = length l).
  { clear. induction l as [|i l IH]; intros Hf; [by exists []|].
    destruct (Hf i ltac:(by left)) as [x Hx]. destruct IH as (k & Hk & Hl).
    { intros j Hj. apply Hf. by right. }
    exists (x :: k). simpl. rewrite Hx. cbn [mbind comp_bind]. rewrite Hk. split; [done|by simpl; f_equal]. }
  destruct (Hg (zrange 0 n)) as (l & Hl & Hn).
  - intros i Hi. apply Hf. unfold zrange in Hi. apply list_elem_of_fmap in Hi as (k & -> & Hk).
    apply elem_of_seq in Hk. lia.
  - exists l. split; [done|]. by rewrite Hn; unfold zrange; rewrite length_fmap, length_seq.
Qed.

Lemma slice_total {E} (l : list Z) a b :
  0 <= a → a <= b → b <= zlen l → ∃ k, slice (E:=E) l a b = Ret k ∧ zlen k = b - a.
Proof.
  intros. rewrite slice_Ret by done. eexists. split; [done|].
  unfold zlen in *. rewrite length_take, length_drop. lia.
Qed.

Lemma div_slot a k i : 0 < k → 0 <= i < a / k → 0 <= i * k ∧ i * k + k <= a.
Proof. intros Hk Hi. pose proof (Z.mul_div_le a k Hk). nia. Qed.

Lemma parse_after_luban_total bytes :
  ∃ info, parse_validators_after_luban bytes = Ret info
  ∧ zlen (consensus_addrs info) = zlen bytes / 68.
Proof.
  unfold parse_validators_after_luban, VALIDATOR_BYTES_LEN_AFTER_LUBAN.
  assert (0 <= zlen bytes / 68) by (apply Z.div_pos; [apply zlen_nonneg|lia]).
  destruct (mapM_slices (E:=ParliaConsensusError) (parse_validator_after_luban bytes) (Z.to_nat (zlen bytes / 68)))
    as (l & Hl & Hn).
  - intros i Hi. destruct (div_slot (zlen bytes) 68 i) as [H1 H2]; [lia|lia|].
    unfold parse_validator_after_luban, VALIDATOR_BYTES_LEN_AFTER_LUBAN, ADDRESS_LENGTH.
    destruct (slice_total (E:=ParliaConsensusError) bytes (i * 68) (i * 68 + 20)) as (a & -> & _); [lia..|].
    destruct (slice_total (E:=ParliaConsensusError) bytes (i * 68 + 20) (i * 68 + 68)) as (b & Hb & _); [lia..|].
    cbn [mbind comp_bind]. rewrite Hb. eauto.
  - rewrite Hl. eexists. split; [done|]. cbn. unfold zlen in *. rewrite length_fmap, Hn. lia.
Qed.

Lemma parse_before_luban_total bytes :
  ∃ info, parse_validators_before_luban bytes = Ret info
  ∧ zlen (consensus_addrs info) = zlen bytes / 20.
Proof.
  unfold parse_validators_before_luban, VALIDATOR_BYTES_LEN_BEFORE_LUBAN.
  assert (0 <= zlen bytes / 20) by (apply Z.div_pos; [apply zlen_nonneg|lia]).
  destruct (mapM_slices (E:=ParliaConsensusError) (parse_validator_before_luban bytes) (Z.to_nat (zlen bytes / 20)))
    as (l & Hl & Hn).
  - intros i Hi. destruct (div_slot (zlen bytes) 20 i) as [H1 H2]; [lia|lia|].
    unfold parse_validator_before_luban, VALIDATOR_BYTES_LEN_BEFORE_LUBAN.
    destruct (slice_total (E:=ParliaConsensusError) bytes (i * 20) (i * 20 + 20)) as (a & -> & _); [lia..|].
    cbn [mbind comp_bind]. eauto.
  - rewrite Hl. eexists. split; [done|]. cbn. unfold zlen in *. rewrite Hn. lia.
Qed.

Lemma seal_offsets n :
  97 <= n < 2 ^ 63 → sub64 (sub64 n 32) 65 = n - 97 ∧ sub64 n 65 = n - 65.
Proof.
  intros Hn. rewrite (sub64_small n 32), (sub64_small n 65) by (unfold is_u; lia).
  rewrite sub64_small by (unfold is_u; lia). lia.
Qed.

(** The number of validators an epoch header announces. *)
Definition announced_validators h : Z :=
  if luban_at self h then default 0 (extra_data h !! 32%nat) else (extra_len h - 97) / 20.

(** The check, by cases on the length, the epoch and the fork. *)
Lemma check_header_extra_result h :
  bytes_small h →
  let announced := announced_validators h in
  check_header_extra self h ≠ Panic
  ∧ (check_header_extra self h = Ret tt ↔
     97 <= extra_len h
     ∧ (is_multiple_of (number h) (get_epoch_length self h) = true →
        0 < announced
        ∧ if luban_at self h then 98 + announced * 68 <= extra_len h
          else extra_len h = 97 + announced * 20)).
Proof.
  intros [Hb Hs]. cbv zeta. unfold check_header_extra, check_header_extra_len, get_validator_len_from_header, announced_validators.
  unfold EXTRA_VANITY_LEN, EXTRA_SEAL_LEN, VALIDATOR_NUMBER_SIZE, VALIDATOR_BYTES_LEN_AFTER_LUBAN,
    VALIDATOR_BYTES_LEN_BEFORE_LUBAN. fold (luban_at self h).
  change (32 + 1 - 1) with 32. change (32 + 65) with 97. change (32 + 1 + 65) with 98.
  destruct (Z.ltb_spec (extra_len h) 32). { split; [done|]. split; [done|lia]. }
  destruct (Z.ltb_spec (extra_len h) 97). { split; [done|]. split; [done|lia]. }
  destruct (is_multiple_of _ _); cbn [negb]; [|cbn; split; [done|]; split; [|done]; intros _; split; [done|done]].
  destruct (luban_at self h).
  - destruct (index_byte (E:=ParliaConsensusError) h 32 Hb ltac:(lia)) as (c & Hc & Hcb).
    rewrite Hc. cbn [mbind comp_bind]. pose proof (index_inv _ _ _ Hc) as [_ Hl].
    change (Z.to_nat 32) with 32%nat in Hl. rewrite Hl. cbn [default negb].
    change (id c) with c.
    destruct (Z.eqb_spec c 0) as [->|Hc0]; cbn [orb]. { split; [done|]. split; [done|]. intros [_ Hx]. destruct Hx; [done|lia]. }
    destruct (Z.ltb_spec (extra_len h) (98 + c * 68)). { split; [done|]. split; [done|]. intros [_ Hx]. destruct Hx; [done|lia]. }
    cbn [mbind comp_bind]. rewrite (proj2 (Z.eqb_neq (c * 68) 0)) by lia. cbn [andb orb].
    split; [done|]. split; [|done]. intros _. split; [done|]. intros _. lia.
  - rewrite (proj1 (seal_offsets (extra_len h) ltac:(lia))).
    rewrite is_multiple_of_mod by lia. set (n := extra_len h - 97) in *.
    pose proof (Z.div_mod n 20 ltac:(lia)) as Hdm. pose proof (Z.mod_pos_bound n 20 ltac:(lia)).
    destruct (Z.eqb_spec (n / 20) 0) as [Hz|Hz]; cbn [orb]. { split; [done|]. split; [done|]. intros [_ Hx]. destruct Hx; [done|lia]. }
    destruct (Z.eqb_spec (n mod 20) 0) as [Hm|Hm]; cbn [negb].
    2: { split; [done|]. split; [done|]. intros [_ Hx]. destruct Hx; [done|lia]. }
    cbn [mbind comp_bind]. rewrite (proj2 (Z.eqb_neq n 0)) by lia. cbn.
    split; [done|]. split; [|done]. intros _. split; [done|]. intros _.
    assert (0 <= n / 20) by (apply Z.div_pos; lia). lia.
Qed.

(** What [check_header_extra] accepts: a header with fewer than 97 bytes of
    extra data is rejected; any other non-epoch header is accepted; an epoch
    header is accepted exactly when it announces at least one validator and
    has room for them (before Luban: consists of whole addresses).  No header
    makes the check panic, however short or malformed its extra data is. *)
Theorem check_header_extra_iff h :
  bytes_small h →
  let announced := announced_validators h in
  check_header_extra self h ≠ Panic
  ∧ (check_header_extra self h = Ret tt ↔
     97 <= extra_len h
     ∧ (is_multiple_of (number h) (get_epoch_length self h) = true →
        0 < announced
        ∧ if luban_at self h then 98 + announced * 68 <= extra_len h
          else extra_len h = 97 + announced * 20)).
Proof. apply check_header_extra_result. Qed.

(** An epoch header that passed [check_header_extra] parses: its validator
    list is read without error and has the announced length, with one
    exception, which the check misses: from Bohr on, a header that ends right
    after its validators, without the byte of the turn length, passes the
    check and is then refused by the parser. *)
Theorem checked_epoch_header_parses h :
  bytes_small h → check_header_extra self h = Ret tt →
  is_multiple_of (number h) (get_epoch_length self h) = true →
  let announced := announced_validators h in
  if luban_at self h && bohr_at_header self h && (extra_len h =? 98 + announced * 68)
  then parse_validators_from_header self h (get_epoch_length self h)
       = Err (InvalidHeaderExtraLen (extra_len h))
  else ∃ info, parse_validators_from_header self h (get_epoch_length self h) = Ret info
       ∧ zlen (consensus_addrs info) = announced.
Proof.
  intros Hsm Hc Hep. pose proof Hsm as [Hb Hs].
  apply (proj2 (check_header_extra_result h Hsm)) in Hc as [Hlen Hx].
  destruct (Hx Hep) as [Ha Hroom]. clear Hx. cbv zeta.
  unfold parse_validators_from_header, get_validator_bytes_from_header. fold (luban_at self h) (bohr_at_header self h).
  unfold EXTRA_VANITY_LEN, EXTRA_SEAL_LEN, VALIDATOR_NUMBER_SIZE, VALIDATOR_BYTES_LEN_AFTER_LUBAN,
    VALIDATOR_BYTES_LEN_BEFORE_LUBAN, TURN_LENGTH_SIZE. rewrite Hep.
  rewrite (proj2 (Z.leb_gt _ _)).
  2: { destruct (luban_at self h); lia. }
  destruct (luban_at self h) eqn:Hl; cbn [andb].
  - destruct (index_byte (E:=ParliaConsensusError) h 32 Hb ltac:(lia)) as (c & Hc & Hcb).
    assert (Han : announced_validators h = c).
    { unfold announced_validators. rewrite Hl. pose proof (index_inv _ _ _ Hc) as [_ Hlk].
      change (Z.to_nat 32) with 32%nat in Hlk. by rewrite Hlk. }
    rewrite Han in *. rewrite Hc. cbn [negb mbind comp_bind].
    rewrite (proj2 (Z.eqb_neq c 0)) by lia. cbn [orb].
    destruct (bohr_at_header self h && (extra_len h =? 98 + c * 68)) eqn:Hgap.
    + apply andb_true_iff in Hgap as [-> Hgap%Z.eqb_eq].
      rewrite (proj2 (Z.ltb_lt _ _)) by lia. done.
    + rewrite (proj2 (Z.ltb_ge _ _)).
      2: { destruct (bohr_at_header self h); [|lia]. cbn in Hgap. apply Z.eqb_neq in Hgap. lia. }
      destruct (slice_total (E:=ParliaConsensusError) (extra_data h) (32 + 1) (32 + 1 + c * 68)) as (k & Hk & Hkl);
        [lia|lia|unfold extra_len in *; lia|].
      rewrite Hk. cbn [mbind comp_bind ok_or].
      rewrite bool_decide_false by (intros ->; change (zlen (@nil Z)) with 0 in Hkl; lia).
      destruct (parse_after_luban_total k) as (info & Hi & Hn). exists info. split; [done|].
      rewrite Hn, Hkl. replace (32 + 1 + c * 68 - (32 + 1)) with (c * 68) by lia. by apply Z.div_mul.
  - assert (Han : announced_validators h = (extra_len h - 97) / 20)
      by (unfold announced_validators; by rewrite Hl).
    destruct (seal_offsets (extra_len h) ltac:(lia)) as [-> ->].
    replace (extra_len h - 97) with (announced_validators h * 20) by lia.
    rewrite is_multiple_of_mod, Z.mod_mul by done. cbn [Z.eqb negb andb].
    destruct (slice_total (E:=ParliaConsensusError) (extra_data h) 32 (extra_len h - 65)) as (k & Hk & Hkl);
      [lia|lia|unfold extra_len in *; lia|].
    rewrite Hk. cbn [mbind comp_bind ok_or].
    rewrite bool_decide_false by (intros ->; change (zlen (@nil Z)) with 0 in Hkl; lia).
    destruct (parse_before_luban_total k) as (info & Hi & Hn). exists info. split; [done|].
    rewrite Hn, Hkl. replace (extra_len h - 65 - 32) with (announced_validators h * 20) by lia. by apply Z.div_mul.
Qed.

End Checked.

(** ** The sealed hash *)

Section SealProofs.
Context `{RL : Rlp} `{RLL : !RlpLaws RL} `{KE : Keccak} `{SE : Secp256k1} `{SEL : !Secp256k1Laws SE}.
Implicit Types (header h : Header).

(** The optional fields the encoding unwraps. *)
Definition beacon_fields_present h : Prop :=
  is_Some (base_fee_per_gas h) ∧ is_Some (withdrawals_root h)
  ∧ is_Some (blob_gas_used h) ∧ is_Some (excess_blob_gas h).

Definition encodable h : Prop :=
  65 <= extra_len h ∧ (zero_beacon_root h = true → beacon_fields_present h).

Lemma signed_extra_eq {E} h :
  65 <= extra_len h < 2 ^ 63 → signed_extra (E:=E) h = Ret (take (Z.to_nat (extra_len h - 65)) (extra_data h)).
Proof.
  intros Hl. unfold signed_extra, EXTRA_SEAL_LEN. rewrite sub64_small by (unfold is_u; lia).
  rewrite slice_Ret by (unfold extra_len in *; lia). by rewrite Z.sub_0_r.
Qed.

Lemma signed_extra_short {E} h :
  extra_len h < 65 → signed_extra (E:=E) h = Panic.
Proof.
  intros Hl. pose proof (zlen_nonneg (extra_data h)). unfold signed_extra, EXTRA_SEAL_LEN.
  fold (extra_len h) in *.
  assert (Hw : sub64 (extra_len h) 65 = extra_len h - 65 + 2 ^ 64).
  { unfold sub64, wrapu. symmetry. apply (Z.mod_unique_pos _ _ (-1)); lia. }
  rewrite Hw. unfold slice. fold (extra_len h). rewrite (proj2 (Z.leb_gt _ (extra_len h))) by lia.
  by rewrite andb_false_r.
Qed.

(** The encoding, by cases on the optional fields. *)
Lemma encode_header_result {E} h chain_id :
  extra_len h < 2 ^ 63 →
  (encodable h ∧ ∃ payload, encode_header_with_chain_id (E:=E) h chain_id
                            = Ret (rlp_list_header (zlen payload) ++ payload))
  ∨ (¬ encodable h ∧ encode_header_with_chain_id (E:=E) h chain_id = Panic).
Proof.
  intros Hs. unfold encodable, beacon_fields_present, encode_header_with_chain_id, rlp_header.
  destruct (Z.lt_ge_cases (extra_len h) 65) as [Hl|Hl].
  { right. rewrite signed_extra_short by done. split; [lia|done]. }
  rewrite signed_extra_eq by lia. cbn [mbind comp_bind].
  rewrite !rlp_uint_length_ok, !rlp_bytes_length_ok.
  destruct (zero_beacon_root h) eqn:Hz; cbn [mbind comp_bind].
  - destruct (parent_beacon_block_root h) as [root|] eqn:Hr;
      [|unfold zero_beacon_root in Hz; by rewrite Hr in Hz].
    destruct (base_fee_per_gas h), (withdrawals_root h), (blob_gas_used h), (excess_blob_gas h);
      cbn [unwrap mbind comp_bind];
      try (right; split; [|done]; intros (_ & Hx); destruct (Hx eq_refl) as (Ha&Hb&Hc&Hd);
           by (destruct Ha || destruct Hb || destruct Hc || destruct Hd)).
    left. split; [by eauto 10|].
    destruct (requests_hash h); cbn [mbind comp_bind];
      rewrite ?rlp_uint_length_ok, ?rlp_bytes_length_ok;
      rewrite <- !app_assoc; eexists; do 2 f_equal; f_equal; rewrite !zlen_app; lia.
  - left. split; [done|]. eexists. do 2 f_equal. f_equal. rewrite !zlen_app. lia.
Qed.

(** The encoding that is sealed is a well-formed RLP list: the payload
    length [rlp_header] announces is the number of bytes that follow, with and
    without the fields added by the beacon-root rule.  It exists exactly when
    the header has room for a seal and, if its beacon root is zero, carries
    the fields that are unwrapped. *)
Theorem encode_header_well_formed {E} h chain_id :
  extra_len h < 2 ^ 63 →
  (encodable h ∧ ∃ payload, encode_header_with_chain_id (E:=E) h chain_id
                            = Ret (rlp_list_header (zlen payload) ++ payload))
  ∨ (¬ encodable h ∧ encode_header_with_chain_id (E:=E) h chain_id = Panic).
Proof. apply encode_header_result. Qed.

(** The hash does not depend on the last 65 bytes. *)
Lemma hash_ignores_seal {E} h body seal1 seal2 chain_id :
  zlen seal1 = 65 → zlen seal2 = 65 → zlen body < 2 ^ 62 →
  hash_with_chain_id (E:=E) (set_extra_data (body ++ seal1) h) chain_id
  = hash_with_chain_id (E:=E) (set_extra_data (body ++ seal2) h) chain_id.
Proof.
  intros H1 H2 Hb. pose proof (zlen_nonneg body).
  assert (Hx : ∀ seal, zlen seal = 65 →
    signed_extra (E:=E) (set_extra_data (body ++ seal) h) = Ret body).
  { intros seal Hseal. rewrite signed_extra_eq by (unfold extra_len; cbn; rewrite zlen_app; lia).
    f_equal. unfold extra_len. cbn. rewrite zlen_app, Hseal.
    replace (Z.to_nat _) with (length body) by (unfold zlen; lia). apply take_app_length. }
  unfold hash_with_chain_id, encode_header_with_chain_id, rlp_header. rewrite !Hx by done. done.
Qed.

Lemma hash_total {E} h chain_id :
  extra_len h < 2 ^ 63 → encodable h → ∃ d, hash_with_chain_id (E:=E) h chain_id = Ret d.
Proof.
  intros Hs He. destruct (encode_header_result (E:=E) h chain_id Hs) as [[_ [p Hp]]|[Hn _]]; [|done].
  unfold hash_with_chain_id. rewrite Hp. eauto.
Qed.

(** A hash that is computed does not depend on the caller's error type. *)
Lemma hash_any_error {E1 E2} h chain_id d :
  hash_with_chain_id (E:=E1) h chain_id = Ret d → hash_with_chain_id (E:=E2) h chain_id = Ret d.
Proof.
  unfold hash_with_chain_id, encode_header_with_chain_id, rlp_header, signed_extra, slice.
  destruct (_ && _); cbn [mbind comp_bind]; [|discriminate].
  destruct (zero_beacon_root h); cbn [mbind comp_bind]; [|by intros [= <-]].
  destruct (base_fee_per_gas h), (withdrawals_root h), (blob_gas_used h), (excess_blob_gas h),
    (parent_beacon_block_root h); cbn [unwrap mbind comp_bind]; try discriminate.
  destruct (requests_hash h); cbn [mbind comp_bind]; by intros [= <-].
Qed.

Lemma seal_header_ok secret sk h chain_id d :
  secret_from_slice secret = Some sk → hash_with_chain_id (E:=SignerError) h chain_id = Ret d →
  let sig := sign_ecdsa_recoverable (from_digest (be_encode 32 d)) sk in
  seal_header secret h chain_id
  = Ret ((serialize_compact sig).2 ++ [recovery_id_to_i32 (serialize_compact sig).1]).
Proof.
  intros Hsk Hd. unfold seal_header. rewrite Hd. cbn [mbind comp_bind]. rewrite Hsk. cbn [ok_or mbind comp_bind].
  rewrite (surjective_pairing (serialize_compact _)). rewrite serialize_compact_length. cbn [Z.eqb assert_that].
  rewrite wrapu_small by apply recovery_id_byte. done.
Qed.

(** The bytes that recovery takes from a key are those of its address. *)
Lemma key_bytes_address {E} k :
  (key ← slice_from (serialize_uncompressed k) 1;
   tail ← slice_from (be_encode 32 (keccak256 key)) 12; Ret (be_decode tail)) = Ret (E:=E) (address_of_key k).
Proof.
  unfold slice_from, address_of_key. pose proof (serialize_uncompressed_length k) as Hk.
  rewrite slice_Ret by (rewrite ?Hk; lia). cbn [mbind comp_bind].
  rewrite slice_Ret by (rewrite ?zlen_be_encode; lia). cbn [mbind comp_bind].
  rewrite !take_ge; [done|rewrite length_drop..].
  - unfold zlen in *. lia.
  - rewrite zlen_be_encode, length_be_encode. lia.
Qed.

(** Sealing and recovering, through every step of the two. *)
Lemma seal_recovers secret sk h chain_id :
  32 <= extra_len h < 2 ^ 62 → (zero_beacon_root h = true → beacon_fields_present h) →
  secret_from_slice secret = Some sk →
  ∃ seal, zlen seal = 65
  ∧ seal_new_header (Some secret) h chain_id = Ret (set_extra_data (extra_data h ++ seal) h)
  ∧ recover_uncached (set_extra_data (extra_data h ++ seal) h) chain_id
    = Ret (address_of_key (public_key_of sk)).
Proof.
  intros Hlen Hb Hsk. set (zeros := replicate 65 0).
  assert (Hz : zlen zeros = 65) by done.
  assert (Hlz : ∀ s, zlen s = 65 → extra_len (set_extra_data (extra_data h ++ s) h) = extra_len h + 65).
  { intros s Hs. unfold extra_len. cbn. rewrite zlen_app. lia. }
  assert (Henc : ∀ s, zlen s = 65 → encodable (set_extra_data (extra_data h ++ s) h)).
  { intros s Hs. split; [rewrite Hlz by done; lia|done]. }
  destruct (hash_total (E:=SignerError) (set_extra_data (extra_data h ++ zeros) h) chain_id) as [d Hd];
    [rewrite Hlz by done; lia|by apply Henc|].
  set (sig := sign_ecdsa_recoverable (from_digest (be_encode 32 d)) sk).
  pose proof (serialize_compact_length sig) as Hsl.
  exists ((serialize_compact sig).2 ++ [recovery_id_to_i32 (serialize_compact sig).1]).
  assert (Hseal : zlen ((serialize_compact sig).2 ++ [recovery_id_to_i32 (serialize_compact sig).1]) = 65)
    by (rewrite zlen_snoc; lia).
  split_and!; [done| |].
  - unfold seal_new_header, seal_header_with_global_signer. cbn [ok_or mbind comp_bind]. fold zeros.
    rewrite (seal_header_ok _ _ _ _ _ Hsk Hd). fold sig. cbn [mbind comp_bind].
    rewrite Hlz by done. unfold EXTRA_SEAL_LEN.
    assert (Hoff : sub64 (extra_len h + 65) 65 = extra_len h)
      by (rewrite sub64_small by (unfold is_u; lia); lia).
    rewrite Hoff, (sub64_small _ (extra_len h)) by (unfold is_u; lia).
    cbn [extra_data set_extra_data].
    rewrite (slice_app [] (extra_data h) zeros); [|done|unfold extra_len; rewrite zlen_nil; lia].
    cbn [mbind comp_bind]. rewrite Hseal, (proj2 (Z.eqb_eq _ _)) by lia. done.
  - set (tail := _ ++ [_]) in *.
    unfold recover_uncached. rewrite Hlz by done. unfold EXTRA_VANITY_LEN, EXTRA_SEAL_LEN.
    rewrite (proj2 (Z.ltb_ge _ _)) by lia. cbn [extra_data set_extra_data].
    replace (extra_len h + 65 - 65 + 65 - 1) with (extra_len h + 64) by lia.
    replace (extra_len h + 65 - 65) with (extra_len h) by lia.
    assert (Hidx : index (E:=ParliaConsensusError) (extra_data h ++ tail) (extra_len h + 64)
                   = Ret (recovery_id_to_i32 (serialize_compact sig).1)).
    { unfold tail. rewrite app_assoc, index_app_middle; [done|]. rewrite zlen_app, Hsl. done. }
    assert (Hsli : slice (E:=ParliaConsensusError) (extra_data h ++ tail) (extra_len h) (extra_len h + 64)
                   = Ret (serialize_compact sig).2).
    { unfold tail. apply slice_app; [done|rewrite Hsl; done]. }
    rewrite Hidx. cbn [mbind comp_bind]. rewrite Hsli.
    cbn [mbind comp_bind]. rewrite recovery_id_roundtrip. cbn [ok_or mbind comp_bind].
    rewrite compact_roundtrip. cbn [ok_or mbind comp_bind].
    assert (Hd' : hash_with_chain_id (E:=ParliaConsensusError) (set_extra_data (extra_data h ++ tail) h) chain_id = Ret d).
    { rewrite (hash_ignores_seal h (extra_data h) tail zeros) by (done || (unfold extra_len in *; lia)).
      destruct (hash_total (E:=ParliaConsensusError) (set_extra_data (extra_data h ++ zeros) h) chain_id) as [d' Hd'];
        [rewrite Hlz by done; lia|by apply Henc|]. rewrite Hd'. f_equal.
      rewrite (hash_any_error _ _ _ Hd) in Hd'. by injection Hd'. }
    rewrite Hd'. cbn [mbind comp_bind].
    rewrite from_digest_slice_ok by apply zlen_be_encode. cbn [ok_or mbind comp_bind].
    unfold sig. rewrite recover_sign. cbn [ok_or mbind comp_bind].
    apply key_bytes_address.
Qed.

(** The proposer recovered from a sealed header is the signer: sealing any
    encodable header that carries its vanity with a valid key succeeds, only
    appends 65 bytes to the extra data, and [recover_proposer] on the result
    returns the address of that key. *)
Theorem sealed_header_recovers_signer secret sk h chain_id :
  32 <= extra_len h < 2 ^ 62 → (zero_beacon_root h = true → beacon_fields_present h) →
  secret_from_slice secret = Some sk →
  ∃ seal, zlen seal = 65
  ∧ seal_new_header (Some secret) h chain_id = Ret (set_extra_data (extra_data h ++ seal) h)
  ∧ recover_uncached (set_extra_data (extra_data h ++ seal) h) chain_id
    = Ret (address_of_key (public_key_of sk)).
Proof. apply seal_recovers. Qed.

(** ** The cache of recovered proposers *)

Section Cache.
Context `{SL : Sealable} `{CA : !LruApi Z} `{CL : !LruLaws Z CA}.

(** Recovering the proposers of a list of headers, one after the other. *)
Fixpoint recover_all (cache : LruMap Z) (hs : list Header) (chain_id : Z)
    : list (result Address) * LruMap Z :=
  match hs with
  | [] => ([], cache)
  | h :: hs =>
      let '(r, cache) := recover_proposer cache h chain_id in
      let '(rs, cache) := recover_all cache hs chain_id in (r :: rs, cache)
  end.

(** Every entry is the proposer of each header of [hs] with that hash. *)
Definition cache_sound (hs : list Header) (chain_id : Z) (cache : LruMap Z) : Prop :=
  ∀ h a, h ∈ hs → lru_entries cache !! hash_slow h = Some a → recover_uncached h chain_id = Ret a.

Lemma recover_proposer_sound hs chain_id cache h :
  (∀ h1 h2, h1 ∈ hs → h2 ∈ hs → hash_slow h1 = hash_slow h2 → h1 = h2) →
  h ∈ hs → cache_sound hs chain_id cache →
  (recover_proposer cache h chain_id).1 = recover_uncached h chain_id
  ∧ cache_sound hs chain_id (recover_proposer cache h chain_id).2.
Proof.
  intros Hinj Hh Hc. unfold recover_proposer.
  rewrite (surjective_pairing (lru_get cache (hash_slow h))), lru_get_value.
  assert (Hg : cache_sound hs chain_id (lru_get cache (hash_slow h)).2).
  { intros h' a. rewrite lru_get_entries. apply Hc. }
  destruct (lru_entries cache !! hash_slow h) as [a|] eqn:Ha.
  { split; [|done]. symmetry. by apply Hc. }
  destruct (recover_uncached h chain_id) as [a|e| |] eqn:Hr; split; try done.
  intros h' b Hh' Hb. cbn [snd] in Hb.
  pose proof (lookup_weaken _ _ _ _ Hb (lru_insert_entries _ _ _)) as Hw.
  destruct (decide (hash_slow h' = hash_slow h)) as [He|Hne].
  - rewrite He, lookup_insert_eq in Hw. injection Hw as <-. by rewrite (Hinj h' h).
  - rewrite lookup_insert_ne in Hw by done. apply Hc; [done|]. by rewrite lru_get_entries in Hw.
Qed.

(** The cache is transparent: starting from an empty cache, any sequence of
    [recover_proposer] calls returns what recovering each header without the
    cache returns, whatever the cache evicts, as long as the hashes of the
    headers do not collide. *)
Theorem recover_cache_transparent hs chain_id cache :
  (∀ h1 h2, h1 ∈ hs → h2 ∈ hs → hash_slow h1 = hash_slow h2 → h1 = h2) →
  lru_entries cache = ∅ →
  (recover_all cache hs chain_id).1 = (λ h, recover_uncached h chain_id) <$> hs.
Proof.
  intros Hinj He.
  assert (Hg : ∀ l cache, (∀ h, h ∈ l → h ∈ hs) → cache_sound hs chain_id cache →
    (recover_all cache l chain_id).1 = (λ h, recover_uncached h chain_id) <$> l).
  { induction l as [|h l IH]; intros c Hl Hc; [done|]. cbn [recover_all].
    destruct (recover_proposer_sound hs chain_id c h Hinj (Hl h ltac:(by left)) Hc) as [H1 H2].
    rewrite (surjective_pairing (recover_proposer c h chain_id)).
    specialize (IH _ ltac:(intros h2 Hh2; apply Hl; by right) H2).
    rewrite (surjective_pairing (recover_all _ l chain_id)). cbn [fst]. rewrite fmap_cons. by f_equal. }
  apply Hg; [done|]. intros h a _ Ha. by rewrite He, lookup_empty in Ha.
Qed.

End Cache.
End SealProofs.

(** ** Concrete inputs *)

Section Witnesses.
Import RefHardforks RefLibraries.

#[local] Instance ref_hash : Sealable := λ h, number h * 2 ^ 64 + extra_len h.
#[local] Ltac ev := vm_compute; first [reflexivity | discriminate].

Definition testnet_parlia : Parlia BscChainSpec := Build_Parlia testnet_spec 200.

(** An epoch of 1000 blocks on the test network after Bohr, and one of 200
    blocks before Luban, with the vanity in place. *)
Definition vanity : list Z := replicate 32 0.
Definition epoch_header : Header := set_extra_data vanity (test_header 60000000 1768357800 7).
Definition old_epoch_header : Header := set_extra_data vanity (test_header 20000 1600000000 7).

Definition epoch_snap (n : Z) : Snapshot :=
  {| epoch_num := n; block_number := 59999999; block_hash := 7; validators := []; validators_map := ∅;
     recent_proposers := ∅; vote_data := VoteData_default; turn_length := None; block_interval := 0 |}.

Definition some_attestation : VoteAttestation :=
  {| vote_address_set := 7; agg_signature := 9; att_data := VoteData_default; extra := [] |}.

Definition turn_cache : LruMap Z := {[ 7 := 16 ]}.

Lemma epoch_header_roundtrip_witness :
  ∃ h' vs, assemble_epoch_block testnet_parlia turn_cache (epoch_snap 1000)
             (Some ([30; 10; 20], [300; 100; 200])) (Some some_attestation) (replicate 65 1) epoch_header = Ret h'
  ∧ number h' = 60000000 ∧ timestamp h' = 1768357800
  ∧ zip [10; 20; 30] vs ≡ₚ [(30, 300); (10, 100); (20, 200)]
  ∧ parse_validators_from_header testnet_parlia h' 1000
    = Ret {| consensus_addrs := [10; 20; 30]; vote_addrs := Some vs |}
  ∧ get_turn_length_from_header testnet_parlia h' 1000 = Ret (Some 16)
  ∧ get_vote_attestation_from_header testnet_parlia h' 1000 = Ret (Some some_attestation).
Proof.
  assert (Hs : sort [30; 10; 20] = [10; 20; 30]) by ev.
  assert (Hb : bohr_at_header testnet_parlia epoch_header = true) by ev.
  rewrite <- Hs. pose proof (epoch_header_roundtrip testnet_parlia turn_cache (epoch_snap 1000) [30; 10; 20]
    [300; 100; 200] (Some some_attestation) (replicate 65 1) 16 epoch_header) as H.
  rewrite Hb in H. apply H.
  - split; [ev|apply (bool_decide_unpack _); vm_compute; exact I|split; ev|reflexivity| | |ev|ev];
      apply (bool_decide_unpack _); vm_compute; exact I.
  - ev.
  - ev.
  - reflexivity.
  - intros a [= <-]. ev.
Defined.

Lemma pre_luban_roundtrip_witness :
  ∃ h', assemble_epoch_block testnet_parlia turn_cache (epoch_snap 200)
          (Some ([30; 10; 20], [300; 100; 200])) None (replicate 65 1) old_epoch_header = Ret h'
  ∧ parse_validators_from_header testnet_parlia h' 200
    = Ret {| consensus_addrs := [10; 20; 30]; vote_addrs := None |}.
Proof.
  assert (Hs : sort [30; 10; 20] = [10; 20; 30]) by ev. rewrite <- Hs.
  apply (pre_luban_roundtrip testnet_parlia turn_cache (epoch_snap 200) [30; 10; 20] [300; 100; 200]
    (replicate 65 1) old_epoch_header).
  - split; [ev|apply (bool_decide_unpack _); vm_compute; exact I|split; ev|reflexivity| | |ev|ev];
      apply (bool_decide_unpack _); vm_compute; exact I.
  - ev.
  - ev.
Defined.

Lemma zeros_small (n : nat) h : Z.of_nat n < 2 ^ 63 → bytes_small (set_extra_data (replicate n 0) h).
Proof.
  intros Hn. split; cbn.
  - apply list.Forall_forall. intros x Hx. apply elem_of_replicate in Hx as [-> _]. done.
  - unfold extra_len, zlen. cbn. by rewrite length_replicate.
Qed.

Lemma check_header_extra_iff_witness :
  check_header_extra testnet_parlia (set_extra_data (replicate 10 0) (test_header 5 1600000000 7)) ≠ Panic.
Proof.
  apply (check_header_extra_iff testnet_parlia (set_extra_data (replicate 10 0) (test_header 5 1600000000 7))).
  by apply (zeros_small 10).
Defined.

(** One validator, no turn length: accepted by the check, refused by the
    parser. *)
Definition gap_header : Header :=
  set_extra_data (vanity ++ [1] ++ replicate 133 0) (test_header 60000000 1768357800 7).

Lemma checked_epoch_header_parses_witness :
  parse_validators_from_header testnet_parlia gap_header (get_epoch_length testnet_parlia gap_header)
  = Err (InvalidHeaderExtraLen 166).
Proof.
  pose proof (checked_epoch_header_parses testnet_parlia gap_header) as H. cbv zeta in H.
  assert (Hg : luban_at testnet_parlia gap_header && bohr_at_header testnet_parlia gap_header
    && (extra_len gap_header =? 98 + announced_validators testnet_parlia gap_header * 68) = true) by ev.
  rewrite Hg in H. apply H.
  - split; [|ev]. unfold gap_header, bytes_ok. cbn [extra_data set_extra_data].
    apply (bool_decide_unpack (Forall (λ b, 0 <= b < 256) _)). vm_compute. exact I.
  - ev.
  - ev.
Defined.

Lemma encode_header_well_formed_witness :
  (encodable gap_header ∧ ∃ payload, encode_header_with_chain_id (E:=Empty_set) gap_header 97
                            = Ret (rlp_list_header (zlen payload) ++ payload))
  ∨ (¬ encodable gap_header ∧ encode_header_with_chain_id (E:=Empty_set) gap_header 97 = Panic).
Proof. apply (encode_header_well_formed (E:=Empty_set) gap_header 97). reflexivity. Defined.

Lemma sealed_header_recovers_signer_witness :
  ∃ seal, zlen seal = 65
  ∧ seal_new_header (Some (be_encode 32 1234)) epoch_header 97
    = Ret (set_extra_data (vanity ++ seal) epoch_header)
  ∧ recover_uncached (set_extra_data (vanity ++ seal) epoch_header) 97 = Ret (address_of_key (SE:=ref_secp) (1234 : Z)).
Proof.
  apply (sealed_header_recovers_signer (SE:=ref_secp) (be_encode 32 1234) (1234 : Z) epoch_header 97);
    [split; ev|intros H; discriminate H|ev].
Defined.

Lemma recover_cache_transparent_witness :
  (recover_all (∅ : LruMap Z) [gap_header; epoch_header; gap_header] 97).1
  = (λ h, recover_uncached h 97) <$> [gap_header; epoch_header; gap_header].
Proof.
  apply (recover_cache_transparent [gap_header; epoch_header; gap_header] 97 ∅); [|reflexivity].
  intros h1 h2 H1 H2 He.
  repeat (apply elem_of_cons in H1 as [->|H1]); repeat (apply elem_of_cons in H2 as [->|H2]);
    try reflexivity; try (vm_compute in He; discriminate He);
    try (by apply elem_of_nil in H1); by apply elem_of_nil in H2.
Defined.

End Witnesses.
