(* ===== verification/Errors.v ===== *)
(** * Errors of block execution ([src/node/evm/error.rs])

    [GotExpected] pairs are two arguments, the value found and the value
    expected. *)

From S2P Require Import Prelude Types HeaderExtra.

Inductive BscBlockValidationError :=
| FutureBlock (block_number : Z) (hash : B256)
| UnexpectedSystemTx
| UnexpectedNormalTx
| InvalidValidators
| TooLargeAttestationExtraLen (extra_len : Z)
| InvalidAttestationTarget (got_number expected_number : Z) (got_hash expected_hash : B256)
| InvalidAttestationSource (got_number expected_number : Z) (got_hash expected_hash : B256)
| InvalidAttestationVoteCount_ (got expected : Z)
| InvalidAttestationSignature
| WrongHeaderSigner (block_number : Z) (got expected : Address)
| SignerUnauthorized (block_number : Z) (proposer : Address)
| SignerOverLimit (proposer : Address)
| InvalidDifficulty (difficulty : Z)
| InvalidCurrentValidatorsData
| InvalidValidatorsElectionInfoData
| MismatchingEpochTurnLengthError
| ParliaConsensusError_ (error : ParliaConsensusError).

Inductive BscBlockExecutionError :=
| Validation (error : BscBlockValidationError)
| SnapshotNotFound_
| EthCallFailed
| GetTopValidatorsFailed
| ParentUnknown (hash : B256)
| ApplySnapshotFailed
| UnknownHeader (block_hash : B256)
| VoteAddrNotFoundInSnap (address : Address)
| BLSTInnerError
| ProviderInnerError
| SystemContractUpgradeError
| FailedToSignSystemTransaction (error : string)
| GlobalSignerNotInitializedForMiningMode
(** [BlockExecutionError::msg], the untyped errors of the same functions. *)
| Msg (msg : string).

(** [From<BscBlockExecutionError> for BlockExecutionError]: a validation error
    makes the block invalid, any other one stops the node. *)
Inductive BlockExecutionError :=
| InvalidBlock (error : BscBlockValidationError)
| Internal (error : BscBlockExecutionError).

Definition into_block_execution_error (err : BscBlockExecutionError) : BlockExecutionError :=
  match err with
  | Validation e => InvalidBlock e
  | e => Internal e
  end.

Notation exec := (comp BscBlockExecutionError).
