(* ===== verification/Timing.v ===== *)
(** * Block times ([src/consensus/parlia/{util,consensus,ramanujan_fork}.rs])

    The millisecond timestamps of headers, the back-off of validators that are
    not in turn, the time a prepared block gets and the check of the time of a
    received one, and the delays of the miner.

    The clock ([SystemTime::now]), the random wiggle and the environment
    variable [BREATHE_BLOCK_INTERVAL] are arguments. *)

From S2P Require Import Prelude Hardforks GoRng Types Snapshot HeaderExtra Errors.

Definition DIFF_INTURN : Z := 2.
Definition DIFF_NOTURN : Z := 1.
Definition BACKOFF_TIME_OF_INITIAL : Z := 1000.
Definition LORENTZ_BACKOFF_TIME_OF_INITIAL : Z := 2000.
Definition BACKOFF_TIME_OF_WIGGLE : Z := 1000.
Definition SYSTEM_TXS_GAS_HARD_LIMIT : Z := 20000000.
Definition SYSTEM_TXS_GAS_SOFT_LIMIT : Z := 1000000.
Definition FIXED_BACKOFF_TIME_BEFORE_FORK_MILLIS : Z := 200.
Definition WIGGLE_TIME_BEFORE_FORK_MILLIS : Z := 500.
Definition MILLISECONDS_UNIT : Z := 50.
Definition SECONDS_PER_DAY : Z := 86400.

(** ** Timestamps *)

(** [env]: the value of [BREATHE_BLOCK_INTERVAL], if it is set and parses. *)
Definition is_same_day_in_utc {E} (env : option Z) (first second : Z) : comp E bool :=
  let interval := default SECONDS_PER_DAY env in
  a ← div_u first interval;
  b ← div_u second interval;
  Ret (a =? b).

Definition is_breathe_block {E} (env : option Z) (last_block_time block_time : Z) : comp E bool :=
  if last_block_time =? 0 then Ret false
  else same ← is_same_day_in_utc env last_block_time block_time; Ret (negb same).

Definition calculate_millisecond_timestamp (header : Header) : Z :=
  let ms_part :=
    if negb (mix_hash header =? ZERO) then
      fold_left (λ result byte, Z.lor (wrapu 64 (Z.shiftl result 8)) byte)
        (take 8 (drop 24 (be_encode 32 (mix_hash header)))) 0
    else 0 in
  add64 (mul64 (timestamp header) 1000) ms_part.

Definition set_millisecond_part_of_timestamp (timestamp_ms : Z) (header : Header) : Header :=
  let milliseconds_part := timestamp_ms mod 1000 in
  set_mix_hash (be_decode (replicate 24 0 ++ be_encode 8 milliseconds_part)) header.

Definition calculate_difficulty {E} (snap : Snapshot) (signer : Address) : comp E Z :=
  inturn ← is_inturn snap signer;
  Ret (if (inturn : bool) then DIFF_INTURN else DIFF_NOTURN).

Section Timing.
Context `{FCA : ForkConditionApi} {CS : Type} `{!BscHardforks CS} `{SL : Sealable}.
Variable self : Parlia CS.

(** ** Back-off *)

(** [validators.retain(..)]: without those that signed recently and, from Bohr
    on, without the validator in turn. *)
Definition eligible (snap : Snapshot) (counts : gmap Address Z) (is_bohr : bool)
    (inturn_addr : Address) (vals : list Address) : list Address :=
  filter (λ addr, Is_true (negb (sign_recently_by_counts snap addr counts
                                 || is_bohr && (addr =? inturn_addr)))) vals.

Definition rng_for {E} (is_bohr : bool) (snap : Snapshot) (header : Header) : comp E RngSource :=
  if is_bohr then
    let turn := turn_of snap in
    seed ← (if turn =? 0 then Panic else Ret (wraps 64 (Z.quot (wraps 64 (number header)) turn)));
    rng_new seed
  else rng_new (wraps 64 (Snapshot.block_number snap)).

(** The step of the validator becomes its delay. *)
Definition back_off_of_step (delay : Z) (is_parent_lorentz : bool) (step : Z) : Z :=
  if (delay =? 0) && is_parent_lorentz then
    if step =? 0 then 0
    else add64 LORENTZ_BACKOFF_TIME_OF_INITIAL (mul64 (sub64 step 1) BACKOFF_TIME_OF_WIGGLE)
  else add64 delay (mul64 step BACKOFF_TIME_OF_WIGGLE).

(** [fuel] bounds the draws of each rejection loop of the shuffle. *)
Definition back_off_time {E} (fuel : nat) (snap : Snapshot) (parent header : Header) : comp E Z :=
  let validator := beneficiary header in
  inturn ← is_inturn snap validator;
  if (inturn : bool) then Ret 0
  else
    let is_parent_lorentz := is_lorentz_active_at_timestamp (spec self) (number parent) (timestamp parent) in
    let delay := if is_parent_lorentz then LORENTZ_BACKOFF_TIME_OF_INITIAL else BACKOFF_TIME_OF_INITIAL in
    let is_bohr := is_bohr_active_at_timestamp (spec self) (number header) (timestamp header) in
    let counts := count_recent_proposers snap in
    if is_planck_active_at_block (spec self) (number header)
       && sign_recently_by_counts snap validator counts
    then Ret 0
    else
      '(delay, vals) ←
        (if is_planck_active_at_block (spec self) (number header) then
           inturn_addr ← inturn_validator snap;
           let delay := if sign_recently_by_counts snap inturn_addr counts then 0 else delay in
           Ret (delay, eligible snap counts is_bohr inturn_addr (validators snap))
         else Ret (delay, validators snap));
      rng ← rng_for is_bohr snap header;
      '(back_off_steps, _) ← shuffle fuel (zrange 0 (length vals)) rng;
      match list_find (λ val, val = validator) vals with
      | Some (idx, _) =>
          step ← index back_off_steps (Z.of_nat idx);
          Ret (back_off_of_step delay is_parent_lorentz step)
      | None => Ret 0
      end.

(** ** The time of a block *)

Definition block_time_for_ramanujan_fork {E} (fuel : nat) (now : Z) (snap : Snapshot)
    (parent header : Header) : comp E Z :=
  let parent_ts := calculate_millisecond_timestamp parent in
  let new_block_ts := add64 parent_ts (block_interval snap) in
  new_block_ts ←
    (if is_ramanujan_active_at_block (spec self) (number header) then
       back_off ← back_off_time fuel snap parent header; Ret (add64 new_block_ts back_off)
     else Ret new_block_ts);
  Ret (if new_block_ts <? now then mul64 (div_ceil now MILLISECONDS_UNIT) MILLISECONDS_UNIT
       else new_block_ts).

Definition prepare_timestamp {E} (fuel : nat) (now : Z) (parent_snap : Snapshot)
    (parent_header new_header : Header) : comp E Header :=
  millisecond_timestamp ← block_time_for_ramanujan_fork fuel now parent_snap parent_header new_header;
  let new_header := set_timestamp (millisecond_timestamp / 1000) new_header in
  Ret (if is_lorentz_active_at_timestamp (spec self) (number new_header) (timestamp new_header)
       then set_millisecond_part_of_timestamp millisecond_timestamp new_header
       else set_mix_hash ZERO new_header).

Definition block_time_verify_for_ramanujan_fork (fuel : nat) (snap : Snapshot)
    (header parent : Header) : exec unit :=
  if is_ramanujan_active_at_block (spec self) (number header) then
    let current_ts := calculate_millisecond_timestamp header in
    let parent_ts := calculate_millisecond_timestamp parent in
    back_off ← back_off_time fuel snap parent header;
    if current_ts <? add64 (add64 parent_ts (block_interval snap)) back_off
    then Err (Validation (FutureBlock (number header) (hash_slow header)))
    else Ret tt
  else Ret tt.

(** ** Delays of the miner *)

(** [wiggle_draw] is the value of [random_range(0..wiggle)]. *)
Definition delay_for_ramanujan_fork (present_timestamp wiggle_draw : Z) (parent_snap : Snapshot)
    (header : Header) : Z :=
  let header_timestamp := calculate_millisecond_timestamp header in
  let delay_ms :=
    if present_timestamp <? header_timestamp then sub64 header_timestamp present_timestamp else 0 in
  if is_ramanujan_active_at_block (spec self) (number header) then delay_ms
  else if difficulty header =? DIFF_NOTURN
  then add64 delay_ms (add64 FIXED_BACKOFF_TIME_BEFORE_FORK_MILLIS wiggle_draw)
  else delay_ms.

(** The range of the draw. *)
Definition wiggle (parent_snap : Snapshot) : Z :=
  mul64 (zlen (validators parent_snap) / 2 + 1) WIGGLE_TIME_BEFORE_FORK_MILLIS.

Definition delay_for_mining (present_timestamp wiggle_draw : Z) (snap : Snapshot) (header : Header)
    (left_over_ms : Z) : Z :=
  let period_ms := block_interval snap in
  let delay_ms := delay_for_ramanujan_fork present_timestamp wiggle_draw snap header in
  let delay_ms :=
    if period_ms <=? left_over_ms then delay_ms
    else if delay_ms <=? left_over_ms then 0
    else sub64 delay_ms left_over_ms in
  let time_for_mining_ms :=
    if negb (last_block_in_one_turn snap (number header)) then period_ms else period_ms / 2 in
  if time_for_mining_ms <? delay_ms then time_for_mining_ms else delay_ms.

Definition estimate_gas_reserved_for_system_txs {E} (env : option Z) (parent_timestamp : option Z)
    (current_number current_timestamp : Z) : comp E Z :=
  match parent_timestamp with
  | Some parent_timestamp =>
      if is_feynman_active_at_timestamp (spec self) current_number current_timestamp
         && negb (is_feynman_transition_at_timestamp (spec self) current_number current_timestamp
                    parent_timestamp)
      then
        breathe ← is_breathe_block env parent_timestamp current_timestamp;
        Ret (if (breathe : bool) then SYSTEM_TXS_GAS_HARD_LIMIT else SYSTEM_TXS_GAS_SOFT_LIMIT)
      else Ret SYSTEM_TXS_GAS_HARD_LIMIT
  | None => Ret SYSTEM_TXS_GAS_HARD_LIMIT
  end.

End Timing.

(** * Proofs *)

(** ** Millisecond timestamps *)

Lemma fold_bytes l :
  bytes_ok l → zlen l <= 8 →
  fold_left (λ result byte, Z.lor (wrapu 64 (Z.shiftl result 8)) byte) l 0 = be_decode l.
Proof.
  induction l as [|b l IH] using rev_ind; intros Hb Hl; [done|].
  rewrite zlen_snoc in Hl. apply Forall_app in Hb as [Hbl Hb]. rewrite Forall_singleton in Hb.
  unfold is_u in Hb. change (2 ^ 8) with 256 in Hb.
  rewrite fold_left_app, be_decode_snoc. cbn [fold_left]. rewrite IH by (done || lia).
  pose proof (be_decode_bound l Hbl).
  assert (256 ^ zlen l <= 256 ^ 7) by (apply Z.pow_le_mono_r; lia).
  rewrite wrapu_small.
  - by apply lor_shift_byte.
  - rewrite Z.shiftl_mul_pow2 by lia. change (2 ^ 8) with 256. unfold is_u.
    change (256 ^ 7) with 72057594037927936 in *. change (2 ^ 64) with 18446744073709551616. lia.
Qed.

Lemma calculate_millisecond_timestamp_eq h :
  calculate_millisecond_timestamp h = wrapu 64 (timestamp h * 1000 + mix_hash h mod 2 ^ 64).
Proof.
  unfold calculate_millisecond_timestamp.
  assert (Hms : (if negb (mix_hash h =? ZERO) then
      fold_left (λ result byte, Z.lor (wrapu 64 (Z.shiftl result 8)) byte)
        (take 8 (drop 24 (be_encode 32 (mix_hash h)))) 0 else 0) = mix_hash h mod 2 ^ 64).
  { destruct (Z.eqb_spec (mix_hash h) ZERO) as [->|Hne]; [done|]. cbn [negb].
    rewrite (be_encode_drop 24 8), take_ge by (rewrite length_be_encode; lia).
    rewrite fold_bytes, be_decode_encode; [done|apply be_encode_bytes_ok|by rewrite zlen_be_encode]. }
  rewrite Hms. unfold add64, mul64, wrapu. by rewrite Zplus_mod_idemp_l.
Qed.

Lemma set_millisecond_mix ts h :
  mix_hash (set_millisecond_part_of_timestamp ts h) = ts mod 1000.
Proof.
  unfold set_millisecond_part_of_timestamp. cbn [mix_hash set_mix_hash].
  rewrite be_decode_app. change (be_decode (replicate 24 0)) with 0. rewrite Z.mul_0_l, Z.add_0_l.
  rewrite be_decode_encode. apply Z.mod_small.
  pose proof (Z.mod_pos_bound ts 1000). change (256 ^ Z.of_nat 8) with 18446744073709551616. lia.
Qed.

Lemma millisecond_parts ts h :
  is_u 64 ts →
  calculate_millisecond_timestamp
    (set_millisecond_part_of_timestamp ts (set_timestamp (ts / 1000) h)) = ts.
Proof.
  intros Hts. rewrite calculate_millisecond_timestamp_eq, set_millisecond_mix.
  change (timestamp (set_millisecond_part_of_timestamp ts (set_timestamp (ts / 1000) h))) with (ts / 1000).
  pose proof (Z.mod_pos_bound ts 1000). rewrite (Z.mod_small (ts mod 1000)) by lia.
  pose proof (Z.div_mod ts 1000). rewrite wrapu_small; [lia|]. unfold is_u in *. lia.
Qed.

(** Millisecond timestamps: writing the seconds to [timestamp] and the rest
    to [mix_hash] and reading them back gives every 64-bit number of
    milliseconds. *)
Theorem millisecond_roundtrip ts h :
  is_u 64 ts →
  calculate_millisecond_timestamp
    (set_millisecond_part_of_timestamp ts (set_timestamp (ts / 1000) h)) = ts
  ∧ timestamp (set_millisecond_part_of_timestamp ts (set_timestamp (ts / 1000) h)) = ts / 1000.
Proof. intros. split; [by apply millisecond_parts|done]. Qed.

(** The millisecond part of a header is not checked to be below 1000: for
    any value of [timestamp], however far in the future, some [mix_hash] makes
    [calculate_millisecond_timestamp] wrap around to any wanted instant, so the
    comparisons with the present and with the parent's time, which only see
    that instant, do not bound [timestamp]. *)
Theorem millisecond_part_forgeable seconds wanted h :
  is_u 64 wanted →
  ∃ mix, is_u 256 mix
  ∧ timestamp (set_mix_hash mix (set_timestamp seconds h)) = seconds
  ∧ calculate_millisecond_timestamp (set_mix_hash mix (set_timestamp seconds h)) = wanted.
Proof.
  intros Hw. exists ((wanted - seconds * 1000) mod 2 ^ 64).
  pose proof (Z.mod_pos_bound (wanted - seconds * 1000) (2 ^ 64) ltac:(lia)).
  assert (2 ^ 64 < 2 ^ 256) by done. split; [unfold is_u; lia|]. split; [done|].
  rewrite calculate_millisecond_timestamp_eq. cbn [mix_hash timestamp set_mix_hash set_timestamp].
  rewrite Z.mod_mod by done. unfold wrapu. rewrite Zplus_mod_idemp_r.
  replace (seconds * 1000 + (wanted - seconds * 1000)) with wanted by lia. by rewrite Z.mod_small.
Qed.

(** ** Back-off *)

Section BackOff.
Context `{FCA : ForkConditionApi} {CS : Type} `{!BscHardforks CS} `{SL : Sealable}.
Variable self : Parlia CS.
Implicit Types (snap : Snapshot) (h parent : Header).

Definition planck_at h : bool := is_planck_active_at_block (spec self) (number h).
Definition bohr_block h : bool := is_bohr_active_at_timestamp (spec self) (number h) (timestamp h).
Definition parent_lorentz parent : bool :=
  is_lorentz_active_at_timestamp (spec self) (number parent) (timestamp parent).

(** The validators that compete for an out-of-turn block, their common initial
    delay and their shuffled steps: everything in [back_off_time] that does not
    depend on who asks. *)
Definition back_off_plan {E} (fuel : nat) snap parent h : comp E (Z * list Address * list Z) :=
  let delay := if parent_lorentz parent then LORENTZ_BACKOFF_TIME_OF_INITIAL else BACKOFF_TIME_OF_INITIAL in
  let counts := count_recent_proposers snap in
  '(delay, vals) ←
    (if planck_at h then
       inturn_addr ← inturn_validator snap;
       let delay := if sign_recently_by_counts snap inturn_addr counts then 0 else delay in
       Ret (delay, eligible snap counts (bohr_block h) inturn_addr (validators snap))
     else Ret (delay, validators snap));
  rng ← rng_for (bohr_block h) snap h;
  '(steps, _) ← shuffle fuel (zrange 0 (length vals)) rng;
  Ret (delay, vals, steps).

Lemma back_off_time_plan {E} fuel snap parent h :
  back_off_time self (E:=E) fuel snap parent h =
  (inturn ← is_inturn snap (beneficiary h);
   if (inturn : bool) then Ret 0
   else if planck_at h && sign_recently snap (beneficiary h) then Ret 0
   else
     '(delay, vals, steps) ← back_off_plan fuel snap parent h;
     match list_find (λ val, val = beneficiary h) vals with
     | Some (idx, _) =>
         step ← index steps (Z.of_nat idx);
         Ret (back_off_of_step delay (parent_lorentz parent) step)
     | None => Ret 0
     end).
Proof.
  unfold back_off_time, back_off_plan, sign_recently. fold (planck_at h) (bohr_block h) (parent_lorentz parent).
  destruct (is_inturn snap (beneficiary h)) as [[]| | |]; try done. cbn [mbind comp_bind].
  destruct (planck_at h && _); [done|].
  match goal with |- context [(if planck_at h then ?a else ?b) ≫= _] => destruct (if planck_at h then a else b) as [[d v]| | |] end;
    try done. cbn [mbind comp_bind].
  destruct (rng_for (bohr_block h) snap h) as [rng| | |]; try done. cbn [mbind comp_bind].
  by destruct (shuffle fuel (zrange 0 (length v)) rng) as [[st ?]| | |].
Qed.

Lemma inturn_validator_Ret {E} snap :
  snapshot_wf snap → ∃ v, inturn_validator (E:=E) snap = Ret v.
Proof.
  intros Hwf. pose proof (wf_turn snap Hwf) as [Ht _].
  assert (0 < zlen (validators snap)).
  { pose proof (wf_nonempty snap Hwf). unfold zlen. destruct (validators snap); [done|simpl; lia]. }
  unfold inturn_validator, div_u, rem_u.
  rewrite (proj2 (Z.eqb_neq (turn_of snap) 0)) by lia. cbn [mbind comp_bind].
  rewrite (proj2 (Z.eqb_neq (zlen _) 0)) by lia. cbn [mbind comp_bind].
  set (q := add64 _ _ / _).
  destruct (index_Ret (E:=E) (validators snap) (q mod zlen (validators snap))) as (v & Hv & _);
    [by apply Z.mod_pos_bound|eauto].
Qed.

Lemma is_inturn_Ret {E} snap v :
  snapshot_wf snap → ∃ w, inturn_validator (E:=E) snap = Ret w ∧ is_inturn (E:=E) snap v = Ret (w =? v).
Proof.
  intros Hwf. destruct (inturn_validator_Ret (E:=E) snap Hwf) as [w Hw].
  exists w. unfold is_inturn. by rewrite Hw.
Qed.

Lemma rng_for_Ret {E} b snap h : snapshot_wf snap → ∃ r, rng_for (E:=E) b snap h = Ret r ∧ rng_ok r.
Proof.
  intros Hwf. pose proof (wf_turn snap Hwf) as [Ht _]. unfold rng_for. destruct b.
  - rewrite (proj2 (Z.eqb_neq (turn_of snap) 0)) by lia. cbn [mbind comp_bind].
    apply rng_new_Ret. by apply wraps_is_s.
  - apply rng_new_Ret. by apply wraps_is_s.
Qed.

(** What the plan looks like. *)
Record plan_ok snap parent h (delay : Z) (vals : list Address) (steps : list Z) : Prop := {
  po_delay : ∀ w, inturn_validator (E:=Empty_set) snap = Ret w →
    delay = if planck_at h && sign_recently snap w then 0
            else if parent_lorentz parent then 2000 else 1000;
  po_vals : vals = validators snap ∧ planck_at h = false
            ∨ ∃ inturn, inturn_validator (E:=Empty_set) snap = Ret inturn ∧ planck_at h = true
              ∧ vals = eligible snap (count_recent_proposers snap) (bohr_block h) inturn (validators snap);
  po_steps : steps ≡ₚ zrange 0 (length vals);
}.

Lemma inturn_validator_any {E1 E2} snap v :
  inturn_validator (E:=E1) snap = Ret v → inturn_validator (E:=E2) snap = Ret v.
Proof.
  unfold inturn_validator, div_u, rem_u, index.
  destruct (turn_of snap =? 0); [done|]. cbn [mbind comp_bind].
  destruct (zlen (validators snap) =? 0); [done|]. cbn [mbind comp_bind].
  destruct (_ <? 0); [done|]. rewrite !unwrap_Ret. done.
Qed.

Lemma length_eligible snap counts b inturn l : (length (eligible snap counts b inturn l) <= length l)%nat.
Proof. apply length_filter. Qed.

Lemma back_off_plan_ok {E} fuel snap parent h :
  snapshot_wf snap → zlen (validators snap) < 2 ^ 31 →
  back_off_plan (E:=E) fuel snap parent h = OutOfFuel
  ∨ ∃ delay vals steps, back_off_plan (E:=E) fuel snap parent h = Ret (delay, vals, steps)
    ∧ plan_ok snap parent h delay vals steps.
Proof.
  intros Hwf Hn. destruct (inturn_validator_Ret (E:=E) snap Hwf) as [w Hw].
  destruct (rng_for_Ret (E:=E) (bohr_block h) snap h Hwf) as (r & Hr & Hok).
  assert (Hsh : ∀ delay vals, (length vals <= length (validators snap))%nat →
    (delay = if planck_at h && sign_recently snap w then 0
             else if parent_lorentz parent then 2000 else 1000) →
    (vals = validators snap ∧ planck_at h = false
     ∨ ∃ inturn, inturn_validator (E:=Empty_set) snap = Ret inturn ∧ planck_at h = true
       ∧ vals = eligible snap (count_recent_proposers snap) (bohr_block h) inturn (validators snap)) →
    ('(steps, _) ← shuffle (E:=E) fuel (zrange 0 (length vals)) r; Ret (delay, vals, steps)) = OutOfFuel
    ∨ ∃ d v st, ('(steps, _) ← shuffle (E:=E) fuel (zrange 0 (length vals)) r; Ret (delay, vals, steps))
                = Ret (d, v, st) ∧ plan_ok snap parent h d v st).
  { intros delay vals Hl Hd Hv.
    destruct (shuffle_result (E:=E) fuel (zrange 0 (length vals)) r Hok) as [->|(st & r' & -> & Hp & _)].
    - rewrite zlen_zrange. unfold zlen in Hn. lia.
    - by left.
    - right. exists delay, vals, st. split; [done|]. constructor; [|done|done].
      intros w' Hw'. apply (inturn_validator_any (E2:=E)) in Hw'. assert (w' = w) as -> by congruence. done. }
  unfold back_off_plan. destruct (planck_at h) eqn:Hp.
  - rewrite Hw. cbn [mbind comp_bind]. rewrite Hr. cbn [mbind comp_bind]. apply Hsh.
    + apply length_eligible.
    + done.
    + right. exists w. split_and!; [by eapply inturn_validator_any|done|done].
  - cbn [mbind comp_bind]. rewrite Hr. cbn [mbind comp_bind]. apply Hsh; [done|done|by left].
Qed.

Lemma plan_vals_sub snap parent h delay vals steps v :
  plan_ok snap parent h delay vals steps → v ∈ vals → v ∈ validators snap.
Proof.
  intros [_ Hv _] Hin. destruct Hv as [[-> _]|(w & _ & _ & ->)]; [done|].
  by apply list_elem_of_filter in Hin as [_ ?].
Qed.

Lemma plan_vals_length snap parent h delay vals steps :
  plan_ok snap parent h delay vals steps → (length vals <= length (validators snap))%nat.
Proof. intros [_ Hv _]. destruct Hv as [[-> _]|(w & _ & _ & ->)]; [done|apply length_eligible]. Qed.

(** A validator that is neither in turn nor a recent signer takes part. *)
Lemma plan_vals_in snap parent h delay vals steps v w :
  plan_ok snap parent h delay vals steps → inturn_validator (E:=Empty_set) snap = Ret w →
  v ∈ validators snap → v ≠ w → planck_at h && sign_recently snap v = false → v ∈ vals.
Proof.
  intros [_ Hv _] Hw Hin Hne Hs. destruct Hv as [[-> _]|(w' & Hw' & Hp & ->)]; [done|].
  assert (w' = w) as -> by congruence. apply list_elem_of_filter. split; [|done].
  rewrite Hp in Hs. cbn in Hs. unfold sign_recently in Hs. rewrite Hs.
  rewrite (proj2 (Z.eqb_neq v w)) by done. by rewrite andb_false_r.
Qed.

Lemma list_find_eq (v : Z) l :
  (v ∈ l ∧ ∃ i, list_find (λ x, x = v) l = Some (i, v) ∧ l !! i = Some v)
  ∨ (v ∉ l ∧ list_find (λ x, x = v) l = None).
Proof.
  destruct (list_find (λ x, x = v) l) as [[i x]|] eqn:Hf.
  - left. apply list_find_Some in Hf as (Hi & -> & _). split; [by eapply list_elem_of_lookup_2|eauto].
  - right. apply list_find_None in Hf. split; [|done]. intros Hin.
    rewrite list.Forall_forall in Hf. by apply (Hf v Hin).
Qed.

Lemma steps_lookup {E} steps n i :
  steps ≡ₚ zrange 0 n → (i < n)%nat →
  ∃ k, index (E:=E) steps (Z.of_nat i) = Ret k ∧ steps !! i = Some k ∧ 0 <= k < Z.of_nat n.
Proof.
  intros Hp Hi. assert (Hl : zlen steps = Z.of_nat n).
  { unfold zlen. rewrite Hp. unfold zrange. by rewrite length_fmap, length_seq. }
  destruct (index_Ret (E:=E) steps (Z.of_nat i)) as (k & Hk & Hlk); [lia|].
  rewrite Nat2Z.id in Hlk. exists k. split_and!; try done;
  apply list_elem_of_lookup_2 in Hlk; rewrite Hp in Hlk; unfold zrange in Hlk;
  apply list_elem_of_fmap in Hlk as (j & -> & Hj); apply elem_of_seq in Hj; lia.
Qed.

Lemma NoDup_steps steps n : steps ≡ₚ zrange 0 n → NoDup steps.
Proof. intros ->. unfold zrange. apply NoDup_fmap_2; [intros x y; lia|apply NoDup_seq]. Qed.

(** Without wrap-around. *)
Lemma back_off_of_step_eq delay pl k :
  0 <= delay <= 2000 → 0 <= k < 2 ^ 32 →
  back_off_of_step delay pl k =
    if (delay =? 0) && pl then (if k =? 0 then 0 else 1000 + k * 1000) else delay + k * 1000.
Proof.
  intros Hd Hk. unfold back_off_of_step, LORENTZ_BACKOFF_TIME_OF_INITIAL, BACKOFF_TIME_OF_WIGGLE.
  change (2 ^ 32) with 4294967296 in Hk.
  destruct ((delay =? 0) && pl); [destruct (Z.eqb_spec k 0); [done|]|].
  - rewrite (sub64_small k 1), mul64_small by (unfold is_u; change (2 ^ 64) with 18446744073709551616; lia).
    rewrite add64_small by (unfold is_u; change (2 ^ 64) with 18446744073709551616; lia). lia.
  - rewrite mul64_small by (unfold is_u; change (2 ^ 64) with 18446744073709551616; lia).
    rewrite add64_small by (unfold is_u; change (2 ^ 64) with 18446744073709551616; lia). lia.
Qed.

Lemma plan_delay_bound snap parent h delay vals steps :
  snapshot_wf snap → plan_ok snap parent h delay vals steps → 0 <= delay <= 2000 ∧ delay mod 1000 = 0.
Proof.
  intros Hwf [Hd _ _]. destruct (inturn_validator_Ret (E:=Empty_set) snap Hwf) as [w Hw].
  rewrite (Hd w Hw). destruct (_ && _), (parent_lorentz parent); done.
Qed.

(** The time of one validator, given the plan. *)
Lemma back_off_time_cases {E} fuel snap parent h w :
  snapshot_wf snap → zlen (validators snap) < 2 ^ 31 →
  inturn_validator (E:=Empty_set) snap = Ret w →
  (beneficiary h = w ∨ planck_at h && sign_recently snap (beneficiary h) = true)
   ∧ back_off_time self (E:=E) fuel snap parent h = Ret 0
  ∨ beneficiary h ≠ w ∧ planck_at h && sign_recently snap (beneficiary h) = false
    ∧ (back_off_plan (E:=E) fuel snap parent h = OutOfFuel
       ∧ back_off_time self (E:=E) fuel snap parent h = OutOfFuel
       ∨ ∃ delay vals steps, back_off_plan (E:=E) fuel snap parent h = Ret (delay, vals, steps)
         ∧ plan_ok snap parent h delay vals steps
         ∧ (beneficiary h ∉ validators snap ∧ back_off_time self (E:=E) fuel snap parent h = Ret 0
            ∨ ∃ i k, vals !! i = Some (beneficiary h) ∧ steps !! i = Some k ∧ 0 <= k < zlen (validators snap)
              ∧ back_off_time self (E:=E) fuel snap parent h
                = Ret (back_off_of_step delay (parent_lorentz parent) k))).
Proof.
  intros Hwf Hn Hw. rewrite back_off_time_plan.
  destruct (is_inturn_Ret (E:=E) snap (beneficiary h) Hwf) as (w' & Hw' & ->). cbn [mbind comp_bind].
  apply (inturn_validator_any (E2:=Empty_set)) in Hw'. assert (w' = w) as -> by congruence.
  destruct (Z.eqb_spec w (beneficiary h)) as [Heq|Hne]; [left; auto|].
  destruct (planck_at h && sign_recently snap (beneficiary h)) eqn:Hs; [left; auto|].
  right. split_and!; [congruence|done|].
  destruct (back_off_plan_ok (E:=E) fuel snap parent h Hwf Hn) as [->|(delay & vals & steps & -> & Hok)];
    [by left|right]. exists delay, vals, steps. split_and!; [done|done|]. cbn [mbind comp_bind].
  destruct (list_find_eq (beneficiary h) vals) as [(Hin & i & -> & Hi)|(Hnin & ->)].
  - right. pose proof (plan_vals_length _ _ _ _ _ _ Hok). pose proof (lookup_lt_Some _ _ _ Hi).
    destruct (steps_lookup (E:=E) steps (length vals) i (po_steps _ _ _ _ _ _ Hok)) as (k & Hk & Hlk & Hb); [done|].
    exists i, k. rewrite Hk. cbn [mbind comp_bind]. split_and!; try done; [lia|unfold zlen; lia].
  - left. split; [|done]. intros Hin. apply Hnin. eapply plan_vals_in; eauto.
Qed.

(** The result of [back_off_time], by the cases of the code. *)
Lemma back_off_time_result {E} fuel snap parent h w :
  snapshot_wf snap → zlen (validators snap) < 2 ^ 31 →
  inturn_validator (E:=Empty_set) snap = Ret w →
  back_off_time self (E:=E) fuel snap parent h = OutOfFuel
  ∨ ∃ t, back_off_time self (E:=E) fuel snap parent h = Ret t
    ∧ t mod 1000 = 0 ∧ 0 <= t <= 2000 + 1000 * zlen (validators snap)
    ∧ (beneficiary h = w → t = 0)
    ∧ (beneficiary h ≠ w → beneficiary h ∈ validators snap →
       planck_at h && sign_recently snap (beneficiary h) = false →
       planck_at h && sign_recently snap w = false →
       (if parent_lorentz parent then 2000 else 1000) <= t).
Proof.
  intros Hwf Hn Hw. pose proof (zlen_nonneg (validators snap)).
  destruct (back_off_time_cases (E:=E) fuel snap parent h w Hwf Hn Hw)
    as [[Hc ->]|(Hne & Hs & [[_ ->]|(d & vals & steps & _ & Hok & [[Hnin ->]|(i & k & _ & _ & Hk & ->)])])].
  - right. exists 0. split_and!; try done; [lia|]. intros Hne _ Hs _. destruct Hc; [done|congruence].
  - by left.
  - right. exists 0. split_and!; try done; lia.
  - right. destruct (plan_delay_bound _ _ _ _ _ _ Hwf Hok) as [Hd Hm].
    change (2 ^ 31) with 2147483648 in Hn.
    rewrite back_off_of_step_eq by (change (2 ^ 32) with 4294967296; lia). eexists. split; [done|].
    assert (Hmod : ∀ x, (x + k * 1000) mod 1000 = x mod 1000) by (intros; by rewrite Z.mod_add).
    split_and!; [| | |congruence|].
    + destruct ((d =? 0) && parent_lorentz parent), (k =? 0); rewrite ?Hmod; done.
    + destruct ((d =? 0) && parent_lorentz parent), (k =? 0); lia.
    + destruct ((d =? 0) && parent_lorentz parent), (k =? 0); lia.
    + intros _ _ _ Hw'. rewrite (po_delay _ _ _ _ _ _ Hok w Hw), Hw'.
      destruct (parent_lorentz parent); cbn [Z.eqb andb]; lia.
Qed.

(** The back-off of a block never panics on a well-formed snapshot; it is 0
    for the validator in turn, and for a validator that takes part out of turn
    it is a whole number of seconds of at most [2000 + 1000 * n] ms, and at
    least one second (two after Lorentz) unless the validator in turn has
    itself signed recently. *)
Theorem back_off_schedule {E} fuel snap parent h w :
  snapshot_wf snap → zlen (validators snap) < 2 ^ 31 →
  inturn_validator (E:=Empty_set) snap = Ret w →
  back_off_time self (E:=E) fuel snap parent h = OutOfFuel
  ∨ ∃ t, back_off_time self (E:=E) fuel snap parent h = Ret t
    ∧ t mod 1000 = 0 ∧ 0 <= t <= 2000 + 1000 * zlen (validators snap)
    ∧ (beneficiary h = w → t = 0)
    ∧ (beneficiary h ≠ w → beneficiary h ∈ validators snap →
       planck_at h && sign_recently snap (beneficiary h) = false →
       planck_at h && sign_recently snap w = false →
       (if parent_lorentz parent then 2000 else 1000) <= t).
Proof. apply back_off_time_result. Qed.

(** No two validators get the same slot: for the same block, two different
    validators that are both out of turn and both allowed to sign get
    different back-off times, before and after Planck, Bohr and Lorentz. *)
Theorem back_off_distinct {E} fuel snap parent h1 h2 w :
  snapshot_wf snap → zlen (validators snap) < 2 ^ 31 →
  inturn_validator (E:=Empty_set) snap = Ret w →
  number h1 = number h2 → timestamp h1 = timestamp h2 → beneficiary h1 ≠ beneficiary h2 →
  (∀ h, h ∈ [h1; h2] → beneficiary h ∈ validators snap ∧ beneficiary h ≠ w
        ∧ planck_at h && sign_recently snap (beneficiary h) = false) →
  (back_off_time self (E:=E) fuel snap parent h1 = OutOfFuel
   ∧ back_off_time self (E:=E) fuel snap parent h2 = OutOfFuel)
  ∨ ∃ t1 t2, back_off_time self (E:=E) fuel snap parent h1 = Ret t1
    ∧ back_off_time self (E:=E) fuel snap parent h2 = Ret t2 ∧ t1 ≠ t2.
Proof.
  intros Hwf Hn Hw Hnum Hts Hne Hall.
  assert (Hplan : back_off_plan (E:=E) fuel snap parent h1 = back_off_plan (E:=E) fuel snap parent h2).
  { unfold back_off_plan, planck_at, bohr_block, rng_for. by rewrite Hnum, Hts. }
  destruct (Hall h1 ltac:(by left)) as (Hin1 & Hw1 & Hs1).
  destruct (Hall h2 ltac:(right; by left)) as (Hin2 & Hw2 & Hs2).
  destruct (back_off_time_cases (E:=E) fuel snap parent h1 w Hwf Hn Hw)
    as [[[?|?] _]|(_ & _ & [[Hp1 ->]|(d & vals & steps & Hp1 & Hok & [[? _]|(i1 & k1 & Hi1 & Hk1 & Hb1 & ->)])])];
    try congruence;
  destruct (back_off_time_cases (E:=E) fuel snap parent h2 w Hwf Hn Hw)
    as [[[?|?] _]|(_ & _ & [[Hp2 ->]|(d' & vals' & steps' & Hp2 & Hok' & [[? _]|(i2 & k2 & Hi2 & Hk2 & Hb2 & ->)])])];
    try congruence.
  - by left.
  - right. rewrite Hplan, Hp2 in Hp1. injection Hp1 as <- <- <-.
    eexists _, _. split_and!; [done|done|].
    destruct (plan_delay_bound _ _ _ _ _ _ Hwf Hok) as [Hd _]. change (2 ^ 31) with 2147483648 in Hn.
    rewrite !back_off_of_step_eq by (change (2 ^ 32) with 4294967296; lia).
    assert (Hk : k1 ≠ k2).
    { intros ->. assert (i1 = i2) as ->; [|congruence].
      eapply NoDup_lookup; [|exact Hk1|exact Hk2]. eapply NoDup_steps, po_steps, Hok. }
    destruct ((d' =? 0) && parent_lorentz parent), (Z.eqb_spec k1 0), (Z.eqb_spec k2 0); lia.
Qed.

Lemma back_off_time_same {E} fuel snap parent h h' :
  number h' = number h → beneficiary h' = beneficiary h → bohr_block h' = bohr_block h →
  back_off_time self (E:=E) fuel snap parent h' = back_off_time self (E:=E) fuel snap parent h.
Proof.
  intros Hn Hb Hbohr. unfold back_off_time, rng_for. unfold bohr_block in Hbohr.
  by rewrite Hn, Hb, Hbohr in *.
Qed.

Lemma block_time_bounds {E} fuel now snap parent h ms :
  snapshot_wf snap → zlen (validators snap) < 2 ^ 31 →
  is_u 62 (calculate_millisecond_timestamp parent + block_interval snap) → is_u 62 now →
  block_time_for_ramanujan_fork self (E:=E) fuel now snap parent h = Ret ms →
  is_u 63 ms ∧ now <= ms
  ∧ calculate_millisecond_timestamp parent + block_interval snap <= ms
  ∧ (is_ramanujan_active_at_block (spec self) (number h) = true →
     ∃ t, back_off_time self (E:=E) fuel snap parent h = Ret t ∧ t mod 1000 = 0 ∧ 0 <= t < 2 ^ 42
     ∧ calculate_millisecond_timestamp parent + block_interval snap + t <= ms).
Proof.
  intros Hwf Hn Hp Hnow Hms. unfold block_time_for_ramanujan_fork in Hms.
  set (base := calculate_millisecond_timestamp parent + block_interval snap) in *.
  change (2 ^ 31) with 2147483648 in Hn. change (2 ^ 42) with 4398046511104.
  assert (Hbase : add64 (calculate_millisecond_timestamp parent) (block_interval snap) = base)
    by (apply add64_small; unfold is_u in *; fold base; lia).
  rewrite Hbase in Hms.
  assert (Halign : ∀ x, is_u 63 x → x <= (if x <? now then mul64 (div_ceil now MILLISECONDS_UNIT) MILLISECONDS_UNIT else x)
    ∧ now <= (if x <? now then mul64 (div_ceil now MILLISECONDS_UNIT) MILLISECONDS_UNIT else x)
    ∧ is_u 63 (if x <? now then mul64 (div_ceil now MILLISECONDS_UNIT) MILLISECONDS_UNIT else x)).
  { intros x Hx. destruct (Z.ltb_spec x now); [|unfold is_u in *; lia].
    pose proof (div_ceil_bounds now MILLISECONDS_UNIT ltac:(done)) as Hd.
    change MILLISECONDS_UNIT with 50 in *.
    rewrite mul64_small by (unfold is_u in *; lia). unfold is_u in *. lia. }
  destruct (is_ramanujan_active_at_block (spec self) (number h)).
  - apply bind_Ret_inv in Hms as (x & Hx & [= <-]). apply bind_Ret_inv in Hx as (t & Ht & [= <-]).
    destruct (inturn_validator_Ret (E:=Empty_set) snap Hwf) as [w Hw].
    destruct (back_off_time_result (E:=E) fuel snap parent h w Hwf Hn Hw) as [Ho|(t' & Ht' & Hm & Hb & _)];
      [congruence|]. assert (t' = t) as -> by congruence.
    assert (Hsum : add64 base t = base + t) by (apply add64_small; unfold is_u in *; lia).
    rewrite Hsum. destruct (Halign (base + t)) as (H1 & H2 & H3); [unfold is_u in *; lia|].
    split; [done|split; [done|split; [lia|]]]. intros _. exists t. split_and!; try done; lia.
  - injection Hms as <-. destruct (Halign base) as (H1 & H2 & H3); [unfold is_u in *; lia|].
    split; [done|split; [done|split; [lia|done]]].
Qed.

(** The prepared time is late enough, also after rounding to seconds before Lorentz. *)
Lemma prepared_block_time fuel now snap parent h h' :
  snapshot_wf snap → zlen (validators snap) < 2 ^ 31 →
  is_u 62 (calculate_millisecond_timestamp parent + block_interval snap) → is_u 62 now →
  prepare_timestamp self (E:=BscBlockExecutionError) fuel now snap parent h = Ret h' →
  bohr_block h' = bohr_block h →
  (is_lorentz_active_at_timestamp (spec self) (number h') (timestamp h') = false →
   calculate_millisecond_timestamp parent mod 1000 = 0 ∧ block_interval snap mod 1000 = 0) →
  block_time_verify_for_ramanujan_fork self fuel snap h' parent = Ret tt
  ∧ number h' = number h ∧ beneficiary h' = beneficiary h
  ∧ (is_lorentz_active_at_timestamp (spec self) (number h') (timestamp h') = true →
     now <= calculate_millisecond_timestamp h').
Proof.
  intros Hwf Hn Hp Hnow Hprep Hbohr Hal. unfold prepare_timestamp in Hprep.
  apply bind_Ret_inv in Hprep as (ms & Hms & Hh').
  destruct (block_time_bounds fuel now snap parent h ms Hwf Hn Hp Hnow Hms) as (H63 & Hlow & Hbase & Hram).
  set (base := calculate_millisecond_timestamp parent + block_interval snap) in *.
  assert (Hfields : number h' = number h ∧ beneficiary h' = beneficiary h ∧ timestamp h' = ms / 1000).
  { injection Hh' as <-. by case_match. }
  destruct Hfields as (Hnum & Hben & Hts).
  assert (Hcalc : calculate_millisecond_timestamp h' =
    if is_lorentz_active_at_timestamp (spec self) (number h') (timestamp h') then ms else ms / 1000 * 1000).
  { rewrite Hnum, Hts. injection Hh' as <-. cbn [number timestamp set_timestamp].
    pose proof (Z.div_mod ms 1000 ltac:(lia)). pose proof (Z.mod_pos_bound ms 1000 ltac:(lia)).
    destruct (is_lorentz_active_at_timestamp (spec self) (number h) (ms / 1000)).
    - apply millisecond_parts. unfold is_u in *. lia.
    - rewrite calculate_millisecond_timestamp_eq. cbn [mix_hash timestamp set_mix_hash set_timestamp].
      change (ZERO mod 2 ^ 64) with 0. rewrite Z.add_0_r. apply wrapu_small. unfold is_u in *. lia. }
  assert (Hge : ∀ x, 0 <= x → x mod 1000 = 0 → base + x <= ms → base + x <= calculate_millisecond_timestamp h').
  { intros x Hx0 Hx Hle. rewrite Hcalc.
    destruct (is_lorentz_active_at_timestamp (spec self) (number h') (timestamp h')) eqn:Hl; [done|].
    destruct (Hal eq_refl) as [Ha Hb].
    pose proof (Z.div_mod (calculate_millisecond_timestamp parent) 1000 ltac:(lia)).
    pose proof (Z.div_mod (block_interval snap) 1000 ltac:(lia)). pose proof (Z.div_mod x 1000 ltac:(lia)).
    pose proof (Z.div_mod ms 1000 ltac:(lia)). pose proof (Z.mod_pos_bound ms 1000 ltac:(lia)). lia. }
  split_and!; [|done|done|].
  - unfold block_time_verify_for_ramanujan_fork. rewrite Hnum.
    destruct (is_ramanujan_active_at_block (spec self) (number h)); [|done].
    destruct (Hram eq_refl) as (t & Ht & Hm & Hb & Hle).
    rewrite (back_off_time_same fuel snap parent h h') by done. rewrite Ht. cbn [mbind comp_bind].
    change (2 ^ 42) with 4398046511104 in Hb.
    rewrite (add64_small (calculate_millisecond_timestamp parent)) by (unfold is_u in *; fold base; lia).
    fold base. rewrite add64_small by (unfold is_u in *; lia).
    specialize (Hge t ltac:(lia) Hm Hle). by rewrite (proj2 (Z.ltb_ge _ _)).
  - intros Hl. rewrite Hcalc, Hl. done.
Qed.

(** A block prepared by the miner passes the time check of the verifier:
    if the header's provisional and final times lie on the same side of the
    Bohr fork (both see the same back-off), and before Lorentz the parent's
    time and the block interval are whole seconds, then the header
    [prepare_timestamp] produces is accepted by
    [block_time_verify_for_ramanujan_fork], and after Lorentz its time is not
    before the present. *)
Theorem prepared_block_passes_verify fuel now snap parent h h' :
  snapshot_wf snap → zlen (validators snap) < 2 ^ 31 →
  is_u 62 (calculate_millisecond_timestamp parent + block_interval snap) → is_u 62 now →
  prepare_timestamp self (E:=BscBlockExecutionError) fuel now snap parent h = Ret h' →
  bohr_block h' = bohr_block h →
  (is_lorentz_active_at_timestamp (spec self) (number h') (timestamp h') = false →
   calculate_millisecond_timestamp parent mod 1000 = 0 ∧ block_interval snap mod 1000 = 0) →
  block_time_verify_for_ramanujan_fork self fuel snap h' parent = Ret tt
  ∧ number h' = number h ∧ beneficiary h' = beneficiary h
  ∧ (is_lorentz_active_at_timestamp (spec self) (number h') (timestamp h') = true →
     now <= calculate_millisecond_timestamp h').
Proof. apply prepared_block_time. Qed.

(** The delay before mining: with a reserve below the period it is the time
    left until the block's timestamp, less the reserve, capped by half the
    period on the last block of a turn and by the whole period otherwise. *)
Theorem delay_for_mining_spec now draw snap h left :
  is_ramanujan_active_at_block (spec self) (number h) = true →
  0 <= left < block_interval snap → is_u 64 (block_interval snap) → is_u 64 now →
  let cap := if last_block_in_one_turn snap (number h) then block_interval snap / 2 else block_interval snap in
  delay_for_mining self now draw snap h left
  = Z.min cap (Z.max 0 (calculate_millisecond_timestamp h - now - left)).
Proof.
  intros Hr Hleft Hi Hnow. unfold delay_for_mining, delay_for_ramanujan_fork. rewrite Hr.
  assert (Hts : is_u 64 (calculate_millisecond_timestamp h))
    by (rewrite calculate_millisecond_timestamp_eq; by apply wrapu_is_u).
  set (ts := calculate_millisecond_timestamp h) in *. cbv zeta.
  rewrite (proj2 (Z.leb_gt _ _)) by lia.
  assert (Hc : (if negb (last_block_in_one_turn snap (number h)) then block_interval snap else block_interval snap / 2)
    = if last_block_in_one_turn snap (number h) then block_interval snap / 2 else block_interval snap)
    by by destruct (last_block_in_one_turn _ _).
  rewrite Hc. set (cap := if last_block_in_one_turn _ _ then _ else _).
  assert (0 <= cap) by (unfold cap; destruct (last_block_in_one_turn _ _); [apply Z.div_pos; lia|lia]).
  destruct (Z.ltb_spec now ts).
  - rewrite (sub64_small ts now) by (unfold is_u in *; lia). destruct (Z.leb_spec (ts - now) left).
    + rewrite (proj2 (Z.ltb_ge _ _)) by lia. lia.
    + rewrite sub64_small by (unfold is_u in *; lia). destruct (Z.ltb_spec cap (ts - now - left)); lia.
  - rewrite (proj2 (Z.leb_le 0 left)) by lia. rewrite (proj2 (Z.ltb_ge _ _)) by lia. lia.
Qed.

End BackOff.

(** ** Concrete inputs *)

Section Witnesses.
Import RefHardforks.
#[local] Existing Instance HeaderExtra.ref_hash.
#[local] Ltac ev := vm_compute; first [reflexivity | discriminate].

(** Three validators at block 60000002 of the test network; 20 is in turn for
    the next block. *)
Definition snap3 : Snapshot := three 60000000.
Definition parent3 : Header := test_header 60000000 1768357800 7.
Definition block_by (v : Address) : Header := set_beneficiary v (test_header 60000001 1768357801 7).

Lemma snap3_inturn : inturn_validator (E:=Empty_set) snap3 = Ret 20.
Proof. reflexivity. Qed.

Lemma millisecond_roundtrip_witness :
  calculate_millisecond_timestamp
    (set_millisecond_part_of_timestamp 1768357800750 (set_timestamp (1768357800750 / 1000) parent3)) = 1768357800750.
Proof. apply (millisecond_roundtrip 1768357800750 parent3). split; ev. Defined.

(** A header of the year 2526 that passes for one of January 2026. *)
Lemma millisecond_part_forgeable_witness :
  ∃ mix, is_u 256 mix
  ∧ timestamp (set_mix_hash mix (set_timestamp 17546000000 parent3)) = 17546000000
  ∧ calculate_millisecond_timestamp (set_mix_hash mix (set_timestamp 17546000000 parent3)) = 1768357800750.
Proof. apply (millisecond_part_forgeable 17546000000 1768357800750 parent3). split; ev. Defined.

Lemma back_off_schedule_witness :
  back_off_time testnet_parlia (E:=Empty_set) 10 snap3 parent3 (block_by 10) = OutOfFuel
  ∨ ∃ t, back_off_time testnet_parlia (E:=Empty_set) 10 snap3 parent3 (block_by 10) = Ret t
    ∧ 2000 <= t <= 5000.
Proof.
  destruct (back_off_schedule testnet_parlia (E:=Empty_set) 10 snap3 parent3 (block_by 10) 20)
    as [H|(t & H & _ & [_ Hb] & _ & Hlow)]; [by apply three_wf|ev|reflexivity|left; exact H|right].
  exists t. split; [exact H|]. split; [|exact Hb]. apply Hlow; [ev| |ev|ev].
  apply (bool_decide_unpack _). vm_compute. exact I.
Defined.

Example back_off_times :
  (λ v, back_off_time testnet_parlia (E:=Empty_set) 10 snap3 parent3 (block_by v)) <$> [20; 10; 30]
  = [Ret 0; Ret 3000; Ret 2000].
Proof. vm_compute. reflexivity. Qed.

Lemma back_off_distinct_witness :
  ∃ t1 t2, back_off_time testnet_parlia (E:=Empty_set) 10 snap3 parent3 (block_by 10) = Ret t1
  ∧ back_off_time testnet_parlia (E:=Empty_set) 10 snap3 parent3 (block_by 30) = Ret t2 ∧ t1 ≠ t2.
Proof.
  destruct (back_off_distinct testnet_parlia (E:=Empty_set) 10 snap3 parent3 (block_by 10) (block_by 30) 20)
    as [[H _]|H]; [by apply three_wf|ev|reflexivity|reflexivity|reflexivity|discriminate| | |exact H].
  - intros h Hh. apply elem_of_cons in Hh as [->|Hh]; [|apply list_elem_of_singleton in Hh as ->];
      (split_and!; [apply (bool_decide_unpack _); vm_compute; exact I|discriminate|ev]).
  - exfalso. vm_compute in H. discriminate H.
Defined.

Lemma prepared_block_passes_verify_witness :
  ∃ h', prepare_timestamp testnet_parlia (E:=BscBlockExecutionError) 10 1768357803000 snap3 parent3 (block_by 10) = Ret h'
  ∧ block_time_verify_for_ramanujan_fork testnet_parlia 10 snap3 h' parent3 = Ret tt.
Proof.
  assert (Hwf : snapshot_wf snap3) by by apply three_wf.
  destruct (prepare_timestamp testnet_parlia (E:=BscBlockExecutionError) 10 1768357803000 snap3 parent3 (block_by 10))
    as [h'| | |] eqn:Hp; try (vm_compute in Hp; discriminate Hp).
  exists h'. split; [reflexivity|].
  destruct (prepared_block_passes_verify testnet_parlia 10 1768357803000 snap3 parent3 (block_by 10) h') as [Hv _];
    [exact Hwf|ev|split; ev|split; ev|exact Hp| | |exact Hv].
  - vm_compute in Hp. injection Hp as <-. ev.
  - intros Hl. exfalso. vm_compute in Hp. injection Hp as <-. vm_compute in Hl. discriminate Hl.
Defined.

Lemma delay_for_mining_spec_witness :
  delay_for_mining testnet_parlia 1768357800100 0 snap3 (block_by 10) 50 = 850.
Proof.
  rewrite (delay_for_mining_spec testnet_parlia 1768357800100 0 snap3 (block_by 10) 50);
    [ev|ev|split; ev|split; ev|split; ev].
Defined.

End Witnesses.
