(* ===== verification/VotePool.v ===== *)
(** * The vote pool ([src/consensus/parlia/{vote,vote_pool}.rs],
      [src/node/network/votes.rs])

    The global pool of votes for fast finality: votes are de-duplicated by
    hash, grouped by the block they vote for, and pruned by the target number
    of the group's first vote, in the order of a priority queue. *)

From S2P Require Import Prelude Types.

Definition LOWER_LIMIT_OF_VOTE_BLOCK_NUMBER : Z := 256.

(** [BinaryHeap<Reverse<VoteData>>]: a min-heap on the target number.  The list
    is kept sorted; the heap may break ties differently, which [prune], the
    only reader, does not observe (it pops every entry below its bound).
    [peek] is the head of the list and [pop] takes it off. *)
Definition VotesPriorityQueue : Type := list VoteData.

Fixpoint pq_push (vote_data : VoteData) (heap : VotesPriorityQueue) : VotesPriorityQueue :=
  match heap with
  | [] => [vote_data]
  | d :: heap' =>
      if target_number vote_data <? target_number d then vote_data :: heap
      else d :: pq_push vote_data heap'
  end.

Record VotePool := {
  received_votes : gset B256;
  cur_votes : gmap B256 (list VoteEnvelope);
  cur_votes_pq : VotesPriorityQueue;
}.

Definition pool_new : VotePool :=
  {| received_votes := ∅; cur_votes := ∅; cur_votes_pq := [] |}.

Section VotePool.
Context `{KE : Keccak} `{VR : VoteRlp}.

Definition vote_data_hash (d : VoteData) : B256 := keccak256 (rlp_encode_vote_data d).
Definition vote_hash (v : VoteEnvelope) : B256 := keccak256 (rlp_encode_vote_envelope v).

Definition pool_insert (vote : VoteEnvelope) (self : VotePool) : VotePool :=
  let h := vote_hash vote in
  if bool_decide (h ∈ received_votes self) then self
  else
    let block_hash := target_hash (data vote) in
    {| received_votes := {[ h ]} ∪ received_votes self;
       cur_votes_pq :=
         if bool_decide (is_Some (cur_votes self !! block_hash)) then cur_votes_pq self
         else pq_push (data vote) (cur_votes_pq self);
       cur_votes :=
         <[block_hash := default [] (cur_votes self !! block_hash) ++ [vote]]> (cur_votes self) |}.

(** The votes of all blocks; a [HashMap] yields them in an arbitrary order. *)
Definition pool_drain (self : VotePool) : list VoteEnvelope * VotePool :=
  (mjoin (map_to_list (cur_votes self)).*2, pool_new).

Definition pool_len (self : VotePool) : Z :=
  map_fold (λ _ votes n, zlen votes + n) 0 (cur_votes self).

Definition fetch_vote_by_block_hash (block_hash : B256) (self : VotePool) : list VoteEnvelope :=
  default [] (cur_votes self !! block_hash).

(** One iteration of the loop of [prune], for the popped entry. *)
Definition prune_block (vote_data : VoteData) (self : VotePool) : VotePool :=
  let block_hash := target_hash vote_data in
  match cur_votes self !! block_hash with
  | Some votes =>
      {| received_votes := foldl (λ s v, s ∖ {[ vote_hash v ]}) (received_votes self) votes;
         cur_votes := delete block_hash (cur_votes self);
         cur_votes_pq := cur_votes_pq self |}
  | None => self
  end.

(** The condition of the loop, with the wrap-around of [u64]. *)
Definition expired (latest_block_number : Z) (d : VoteData) : bool :=
  sub64 (add64 (target_number d) LOWER_LIMIT_OF_VOTE_BLOCK_NUMBER) 1 <? latest_block_number.

Fixpoint prune_loop (latest_block_number : Z) (heap : VotesPriorityQueue) (self : VotePool) : VotePool :=
  match heap with
  | [] => {| received_votes := received_votes self; cur_votes := cur_votes self; cur_votes_pq := [] |}
  | d :: rest =>
      if expired latest_block_number d then prune_loop latest_block_number rest (prune_block d self)
      else {| received_votes := received_votes self; cur_votes := cur_votes self; cur_votes_pq := heap |}
  end.

Definition pool_prune (latest_block_number : Z) (self : VotePool) : VotePool :=
  prune_loop latest_block_number (cur_votes_pq self) self.

(** [handle_votes_broadcast] of [src/node/network/votes.rs]: a packet of a peer
    puts its first vote into the pool, whatever its signature. *)
Definition handle_votes_broadcast (packet : list VoteEnvelope) (self : VotePool) : VotePool :=
  match packet with
  | first :: _ => pool_insert first self
  | [] => self
  end.

(** * Proofs *)

(** The votes held by the pool. *)
Definition pooled (p : VotePool) (v : VoteEnvelope) : Prop :=
  ∃ k votes, cur_votes p !! k = Some votes ∧ v ∈ votes.

Record pool_ok (p : VotePool) : Prop := {
  pool_received : ∀ h, h ∈ received_votes p ↔ ∃ v, pooled p v ∧ vote_hash v = h;
  pool_unique : ∀ v w, pooled p v → pooled p w → vote_hash v = vote_hash w →
    target_hash (data v) = target_hash (data w);
  pool_keys : ∀ k votes v, cur_votes p !! k = Some votes → v ∈ votes → target_hash (data v) = k;
  pool_nodup : ∀ k votes, cur_votes p !! k = Some votes → NoDup (vote_hash <$> votes);
  pool_queue : ∀ k, is_Some (cur_votes p !! k) ↔ k ∈ target_hash <$> cur_votes_pq p;
  pool_first : ∀ k votes, cur_votes p !! k = Some votes →
    ∃ v votes', votes = v :: votes' ∧ data v ∈ cur_votes_pq p;
  pool_queue_nodup : NoDup (target_hash <$> cur_votes_pq p);
  pool_queue_sorted : Sorted (λ a b, target_number a <= target_number b) (cur_votes_pq p);
}.

Lemma pq_push_perm d h : pq_push d h ≡ₚ d :: h.
Proof.
  induction h as [|x h IH]; cbn [pq_push]; [done|]. destruct (_ <? _); [done|].
  rewrite IH. apply Permutation_swap.
Qed.

Lemma pq_push_sorted d h :
  Sorted (λ a b, target_number a <= target_number b) h →
  Sorted (λ a b, target_number a <= target_number b) (pq_push d h).
Proof.
  induction 1 as [|x h Hs IH Hh]; cbn [pq_push]; [by repeat constructor|].
  destruct (Z.ltb_spec (target_number d) (target_number x)).
  - constructor; [by constructor|]. constructor. lia.
  - constructor; [done|]. destruct h as [|y h]; cbn [pq_push]; [by repeat constructor|].
    destruct (_ <? _); constructor; [lia|]. by inversion Hh.
Qed.

Lemma pool_new_ok : pool_ok pool_new.
Proof.
  assert (Hno : ∀ v, ¬ pooled pool_new v).
  { intros v (k & votes & Hk & _). cbn in Hk. by rewrite lookup_empty in Hk. }
  split; cbn.
  - intros h. split; [by intros ?%elem_of_empty|]. intros (v & Hv & _). by destruct (Hno v).
  - intros v w Hv. by destruct (Hno v).
  - intros k votes v Hk. by rewrite lookup_empty in Hk.
  - intros k votes Hk. by rewrite lookup_empty in Hk.
  - intros k. rewrite lookup_empty. split; [by intros []|by intros ?%elem_of_nil].
  - intros k votes Hk. by rewrite lookup_empty in Hk.
  - constructor.
  - constructor.
Qed.

Lemma pool_insert_known vote p :
  vote_hash vote ∈ received_votes p → pool_insert vote p = p.
Proof. intros. unfold pool_insert. by rewrite bool_decide_true. Qed.

Lemma pool_insert_lookup vote p k :
  vote_hash vote ∉ received_votes p →
  cur_votes (pool_insert vote p) !! k =
  if bool_decide (k = target_hash (data vote))
  then Some (default [] (cur_votes p !! k) ++ [vote]) else cur_votes p !! k.
Proof.
  intros Hn. unfold pool_insert. rewrite bool_decide_false by done. cbn [cur_votes].
  case_bool_decide as Hk; [subst; by rewrite lookup_insert_eq|by rewrite lookup_insert_ne].
Qed.

Lemma pooled_insert vote p v :
  vote_hash vote ∉ received_votes p → pooled (pool_insert vote p) v ↔ v = vote ∨ pooled p v.
Proof.
  intros Hn. unfold pooled. split.
  - intros (k & votes & Hk & Hv). rewrite pool_insert_lookup in Hk by done.
    case_bool_decide; [|right; eauto]. subst. injection Hk as <-.
    apply elem_of_app in Hv as [Hv|Hv]; [right|left; by apply list_elem_of_singleton in Hv].
    destruct (cur_votes p !! target_hash (data vote)) eqn:He; [eauto|by apply elem_of_nil in Hv].
  - setoid_rewrite pool_insert_lookup; [|done..]. intros [->|(k & votes & Hk & Hv)].
    + exists (target_hash (data vote)). rewrite bool_decide_true by done. eexists. split; [done|].
      apply elem_of_app. right. by left.
    + exists k. case_bool_decide; [|eauto]. eexists. split; [done|].
      apply elem_of_app. left. by rewrite Hk.
Qed.

Lemma pool_insert_ok vote p : pool_ok p → pool_ok (pool_insert vote p).
Proof.
  intros Hok. destruct (decide (vote_hash vote ∈ received_votes p)) as [Hr|Hr].
  { by rewrite pool_insert_known. }
  assert (Hfresh : ∀ v, pooled p v → vote_hash v ≠ vote_hash vote).
  { intros v Hv He. apply Hr, (pool_received p Hok). eauto. }
  split.
  - intros h. setoid_rewrite pooled_insert; [|done]. unfold pool_insert.
    rewrite bool_decide_false by done. cbn [received_votes].
    rewrite elem_of_union, elem_of_singleton, (pool_received p Hok). naive_solver.
  - intros v w. rewrite !pooled_insert by done. intros [->|Hv] [->|Hw] He; [done| | |].
    + by destruct (Hfresh w Hw).
    + by destruct (Hfresh v Hv).
    + by apply (pool_unique p Hok).
  - intros k votes v Hk Hv. rewrite pool_insert_lookup in Hk by done. case_bool_decide.
    + subst. injection Hk as <-. apply elem_of_app in Hv as [Hv|Hv%list_elem_of_singleton]; [|by subst].
      destruct (cur_votes p !! target_hash (data vote)) eqn:He; [|by apply elem_of_nil in Hv].
      by apply (pool_keys p Hok _ _ _ He).
    + by apply (pool_keys p Hok _ _ _ Hk).
  - intros k votes Hk. rewrite pool_insert_lookup in Hk by done.
    case_bool_decide; [|by apply (pool_nodup p Hok _ _ Hk)]. subst. injection Hk as <-.
    rewrite fmap_app. apply list.NoDup_app. split_and!; [| |apply NoDup_singleton].
    + destruct (cur_votes p !! target_hash (data vote)) eqn:He; [by apply (pool_nodup p Hok _ _ He)|constructor].
    + intros h Hh Hh'. apply list_elem_of_singleton in Hh' as ->.
      apply list_elem_of_fmap in Hh as (v & Hv & Hin). apply (Hfresh v); [|done].
      destruct (cur_votes p !! target_hash (data vote)) eqn:He; [by eexists _, _|by apply elem_of_nil in Hin].
  - intros k. rewrite pool_insert_lookup by done. unfold pool_insert.
    rewrite (bool_decide_false (vote_hash vote ∈ received_votes p)) by done. cbn [cur_votes_pq].
    destruct (cur_votes p !! target_hash (data vote)) as [l|] eqn:He.
    + rewrite (bool_decide_true (is_Some _)) by eauto. rewrite <- (pool_queue p Hok k).
      case_bool_decide as Hkt; [|done]. rewrite Hkt, He. split; eauto.
    + rewrite (bool_decide_false (is_Some _)) by (by intros []). rewrite pq_push_perm, fmap_cons, elem_of_cons.
      rewrite <- (pool_queue p Hok k). case_bool_decide; [|tauto]. split; eauto.
  - intros k votes Hk. rewrite pool_insert_lookup in Hk by done. unfold pool_insert.
    rewrite (bool_decide_false (vote_hash vote ∈ received_votes p)) by done. cbn [cur_votes_pq]. case_bool_decide as Hkt.
    + subst. injection Hk as <-. destruct (cur_votes p !! target_hash (data vote)) as [l|] eqn:He.
      * destruct (pool_first p Hok _ _ He) as (v & l' & -> & Hv). rewrite bool_decide_true by eauto.
        by exists v, (l' ++ [vote]).
      * exists vote, []. rewrite (bool_decide_false (is_Some _)) by (by intros []).
        rewrite pq_push_perm. split; [done|by left].
    + destruct (pool_first p Hok _ _ Hk) as (v & l' & -> & Hv). exists v, l'. split; [done|].
      case_bool_decide; [done|]. rewrite pq_push_perm. by right.
  - unfold pool_insert. rewrite (bool_decide_false (vote_hash vote ∈ received_votes p)) by done. cbn [cur_votes_pq].
    case_bool_decide as Hk; [apply (pool_queue_nodup p Hok)|].
    rewrite pq_push_perm, fmap_cons. apply list.NoDup_cons. split; [|apply (pool_queue_nodup p Hok)].
    by rewrite <- (pool_queue p Hok).
  - unfold pool_insert. rewrite (bool_decide_false (vote_hash vote ∈ received_votes p)) by done. cbn [cur_votes_pq].
    case_bool_decide; [apply (pool_queue_sorted p Hok)|]. apply pq_push_sorted, (pool_queue_sorted p Hok).
Qed.

(** Setting the queue, as the loop leaves it. *)
Definition with_pq (q : VotesPriorityQueue) (p : VotePool) : VotePool :=
  {| received_votes := received_votes p; cur_votes := cur_votes p; cur_votes_pq := q |}.

Lemma foldl_difference (s : gset B256) (l : list VoteEnvelope) h :
  h ∈ foldl (λ s v, s ∖ {[ vote_hash v ]}) s l ↔ h ∈ s ∧ h ∉ vote_hash <$> l.
Proof.
  revert s. induction l as [|v l IH]; intros s; cbn [foldl].
  - split; [intros; split; [done|by intros ?%elem_of_nil]|by intros []].
  - rewrite IH, fmap_cons, elem_of_cons, elem_of_difference, elem_of_singleton. tauto.
Qed.

(** Removing the votes of the popped block. *)
Lemma prune_block_lookup d rest p k :
  pool_ok (with_pq (d :: rest) p) →
  cur_votes (prune_block d p) !! k = if bool_decide (k = target_hash d) then None else cur_votes p !! k.
Proof.
  intros Hok. unfold prune_block. destruct (cur_votes p !! target_hash d) as [votes|] eqn:He; cbn [cur_votes].
  - case_bool_decide; [subst; by rewrite lookup_delete_eq|by rewrite lookup_delete_ne].
  - case_bool_decide; [by subst|done].
Qed.

Lemma prune_block_ok d rest p :
  pool_ok (with_pq (d :: rest) p) → pool_ok (with_pq rest (prune_block d p)).
Proof.
  intros Hok. pose proof (λ k, prune_block_lookup d rest p k Hok) as Hlk.
  assert (Hpooled : ∀ v, pooled (with_pq rest (prune_block d p)) v ↔ pooled p v ∧ target_hash (data v) ≠ target_hash d).
  { intros v. unfold pooled. cbn [with_pq cur_votes]. setoid_rewrite Hlk. split.
    - intros (k & votes & Hk & Hv). case_bool_decide as Hkd; [done|]. split; [eauto|].
      by rewrite (pool_keys _ Hok k votes v Hk Hv).
    - intros [(k & votes & Hk & Hv) Hne]. exists k, votes.
      rewrite (pool_keys _ Hok k votes v Hk Hv) in Hne. by rewrite bool_decide_false. }
  pose proof (pool_queue_nodup _ Hok) as Hnd. cbn [with_pq cur_votes_pq] in Hnd.
  rewrite fmap_cons in Hnd. apply list.NoDup_cons in Hnd as [Hd Hnd].
  split; cbn [with_pq cur_votes_pq].
  - intros h. setoid_rewrite Hpooled. cbn [received_votes]. unfold prune_block.
    destruct (cur_votes p !! target_hash d) as [votes|] eqn:He; cbn [with_pq received_votes].
    + rewrite foldl_difference, (pool_received _ Hok h). split.
      * intros [(v & Hv & Hh) Hnot]. exists v. split; [|done]. split; [done|]. intros Hk. apply Hnot.
        destruct Hv as (k & vs & Hkv & Hin). cbn in Hkv. rewrite <- (pool_keys _ Hok k vs v Hkv Hin) in Hkv.
        rewrite Hk, He in Hkv. injection Hkv as <-. apply list_elem_of_fmap. eauto.
      * intros (v & [Hv Hne] & Hh). split; [eauto|]. intros (w & Hw & Hin)%list_elem_of_fmap.
        apply Hne. rewrite <- (pool_keys _ Hok (target_hash d) votes w He Hin).
        apply (pool_unique _ Hok); [done|by eexists _, _|congruence].
    + rewrite (pool_received _ Hok h). split; [|naive_solver].
      intros (v & Hv & Hh). exists v. split; [|done]. split; [done|]. intros Hk.
      destruct Hv as (k & vs & Hkv & Hin). cbn in Hkv. rewrite <- (pool_keys _ Hok k vs v Hkv Hin), Hk in Hkv. congruence.
  - intros v w [Hv _]%Hpooled [Hw _]%Hpooled. by apply (pool_unique _ Hok).
  - intros k votes v Hk Hv. rewrite Hlk in Hk. case_bool_decide; [done|]. by apply (pool_keys _ Hok _ _ _ Hk).
  - intros k votes Hk. rewrite Hlk in Hk. case_bool_decide; [done|]. by apply (pool_nodup _ Hok _ _ Hk).
  - intros k. rewrite Hlk. pose proof (pool_queue _ Hok k) as Hq. cbn [with_pq cur_votes cur_votes_pq] in Hq.
    rewrite fmap_cons, elem_of_cons in Hq. case_bool_decide as Hk.
    + subst. split; [by intros []|done].
    + rewrite Hq. tauto.
  - intros k votes Hk. rewrite Hlk in Hk. case_bool_decide as Hkd; [done|].
    destruct (pool_first _ Hok k votes Hk) as (v & l' & -> & Hv). exists v, l'. split; [done|].
    apply elem_of_cons in Hv as [Hv|Hv]; [|done]. exfalso. apply Hkd. rewrite <- Hv.
    symmetry. apply (pool_keys _ Hok k (v :: l') v Hk). by left.
  - done.
  - pose proof (pool_queue_sorted _ Hok) as Hs. cbn in Hs. by inversion Hs.
Qed.

(** The queue after pruning, and the blocks it keeps. *)
Lemma prune_loop_spec n heap p :
  pool_ok (with_pq heap p) →
  pool_ok (prune_loop n heap p)
  ∧ ∃ gone, heap = gone ++ cur_votes_pq (prune_loop n heap p)
    ∧ Forall (λ d, expired n d = true) gone
    ∧ (∀ d, head (cur_votes_pq (prune_loop n heap p)) = Some d → expired n d = false)
    ∧ ∀ k, cur_votes (prune_loop n heap p) !! k =
           if bool_decide (k ∈ target_hash <$> gone) then None else cur_votes p !! k.
Proof.
  revert p. induction heap as [|d rest IH]; intros p Hok; cbn [prune_loop].
  - split; [done|]. exists []. split_and!; [done|constructor|done|]. intros k.
    by case_bool_decide as H; [apply elem_of_nil in H|].
  - destruct (expired n d) eqn:He.
    + destruct (IH (prune_block d p) (prune_block_ok d rest p Hok)) as (Hok' & gone & Hg & Hexp & Hhead & Hlk).
      split; [done|]. exists (d :: gone). split_and!; [by rewrite Hg at 1|by constructor|done|].
      intros k. rewrite Hlk, (prune_block_lookup d rest p k Hok), fmap_cons.
      destruct (decide (k ∈ target_hash <$> gone)) as [Hk|Hk].
      * by rewrite !bool_decide_true by (try apply elem_of_cons; auto).
      * rewrite (bool_decide_false (k ∈ _ <$> gone)) by done.
        case_bool_decide as Hkd; case_bool_decide as Hc; [done| | |done].
        -- exfalso. apply Hc, elem_of_cons. by left.
        -- apply elem_of_cons in Hc as [?|?]; done.
    + split; [done|]. exists []. split_and!; [done|constructor|by intros d' [= <-]|]. intros k.
      by case_bool_decide as H; [apply elem_of_nil in H|].
Qed.

(** All the votes of the pool, in the order [drain] returns them. *)
Lemma elem_of_drain p v : v ∈ (pool_drain p).1 ↔ pooled p v.
Proof.
  cbn. rewrite list_elem_of_join. unfold pooled. split.
  - intros (votes & Hv & Hin). apply list_elem_of_fmap in Hin as ([k votes'] & -> & Hk%elem_of_map_to_list).
    eauto.
  - intros (k & votes & Hk & Hv). exists votes. split; [done|]. apply list_elem_of_fmap.
    exists (k, votes). by rewrite elem_of_map_to_list.
Qed.

Lemma pool_len_drain p : pool_len p = zlen (pool_drain p).1.
Proof.
  unfold pool_len. rewrite map_fold_foldr. cbn [pool_drain fst].
  induction (map_to_list (cur_votes p)) as [|[k votes] l IH]; [done|].
  cbn [foldr uncurry]. rewrite fmap_cons.
  change (mjoin ((k, votes).2 :: l.*2)) with (votes ++ mjoin l.*2).
  rewrite zlen_app. by rewrite <- IH.
Qed.

Lemma drain_nodup p : pool_ok p → NoDup (vote_hash <$> (pool_drain p).1).
Proof.
  intros Hok. cbn.
  assert (Hsub : ∀ kv, kv ∈ map_to_list (cur_votes p) → cur_votes p !! kv.1 = Some kv.2)
    by (intros [k vs]; by rewrite elem_of_map_to_list).
  pose proof (NoDup_fst_map_to_list (cur_votes p)) as Hnd.
  induction (map_to_list (cur_votes p)) as [|[k votes] l IH]; [constructor|].
  rewrite fmap_cons in *. apply list.NoDup_cons in Hnd as [Hk Hnd].
  change (mjoin ((k, votes).2 :: l.*2)) with (votes ++ mjoin l.*2).
  assert (Hkv : cur_votes p !! k = Some votes) by (apply (Hsub (k, votes)); by left).
  rewrite fmap_app. apply list.NoDup_app.
  split; [by apply (pool_nodup p Hok _ _ Hkv)|split; [|apply IH; [|done]; intros; apply Hsub; by right]].
  intros h (v & -> & Hv)%list_elem_of_fmap (w & Hh & Hw)%list_elem_of_fmap.
  apply list_elem_of_join in Hw as (vs & Hw & Hin). apply list_elem_of_fmap in Hin as ([k' vs'] & -> & Hin).
  assert (Hkv' : cur_votes p !! k' = Some vs') by (apply (Hsub (k', vs')); by right).
  apply Hk. assert (k = k') as ->.
  { rewrite <- (pool_keys p Hok k votes v Hkv Hv), <- (pool_keys p Hok k' vs' w Hkv' Hw).
    apply (pool_unique p Hok); [by exists k, votes|by exists k', vs'|done]. }
  apply list_elem_of_fmap. by exists (k', vs').
Qed.

Lemma pool_len_received p : pool_ok p → pool_len p = Z.of_nat (size (received_votes p)).
Proof.
  intros Hok. rewrite pool_len_drain.
  assert (received_votes p = list_to_set (vote_hash <$> (pool_drain p).1)) as ->.
  { apply set_eq. intros h. rewrite elem_of_list_to_set, (pool_received p Hok), list_elem_of_fmap.
    setoid_rewrite elem_of_drain. naive_solver. }
  rewrite size_list_to_set by by apply drain_nodup. by rewrite length_fmap.
Qed.

(** The operations of the pool's public functions. *)
Inductive pool_op := PutVote (vote : VoteEnvelope) | Prune (latest_block_number : Z) | Drain.

Definition pool_step (p : VotePool) (op : pool_op) : VotePool :=
  match op with
  | PutVote vote => pool_insert vote p
  | Prune n => pool_prune n p
  | Drain => (pool_drain p).2
  end.

Definition pool_run (ops : list pool_op) : VotePool := foldl pool_step pool_new ops.

Lemma with_pq_id p : with_pq (cur_votes_pq p) p = p.
Proof. by destruct p. Qed.

Lemma pool_prune_ok n p : pool_ok p → pool_ok (pool_prune n p).
Proof. intros Hok. apply prune_loop_spec. by rewrite with_pq_id. Qed.

Lemma pool_run_ok ops : pool_ok (pool_run ops).
Proof.
  unfold pool_run. generalize pool_new, pool_new_ok. induction ops as [|op ops IH]; intros p Hp; [done|].
  cbn [foldl]. apply IH. destruct op; cbn [pool_step pool_drain snd].
  - by apply pool_insert_ok.
  - by apply pool_prune_ok.
  - apply pool_new_ok.
Qed.

(** ** Pruning *)

Definition small_target (d : VoteData) : Prop := 0 <= target_number d < 2 ^ 64 - 256.

Lemma expired_small n d : small_target d → expired n d = (target_number d + 255 <? n).
Proof.
  unfold small_target, expired, LOWER_LIMIT_OF_VOTE_BLOCK_NUMBER. intros H.
  rewrite add64_small by (unfold is_u; lia). rewrite sub64_small by (unfold is_u; lia). f_equal. lia.
Qed.

Lemma sorted_head_le (q : VotesPriorityQueue) d d' :
  Sorted (λ a b, target_number a <= target_number b) q → head q = Some d → d' ∈ q →
  target_number d <= target_number d'.
Proof.
  intros Hs Hh Hin. destruct q as [|x q]; [done|]. injection Hh as ->.
  apply Sorted_StronglySorted in Hs; [|intros ???; lia]. apply StronglySorted_inv in Hs as [_ Hall].
  apply elem_of_cons in Hin as [->|Hin]; [lia|]. rewrite list.Forall_forall in Hall. exact (Hall d' Hin).
Qed.

Lemma pool_prune_fetch n p k :
  pool_ok p → Forall small_target (cur_votes_pq p) →
  Forall small_target (cur_votes_pq (pool_prune n p))
  ∧ cur_votes (pool_prune n p) !! k =
    match cur_votes p !! k with
    | Some (v :: votes) => if target_number (data v) + 255 <? n then None else Some (v :: votes)
    | o => o
    end.
Proof.
  intros Hok Hsmall. unfold pool_prune. pose proof Hok as Hok'. rewrite <- (with_pq_id p) in Hok'.
  destruct (prune_loop_spec n (cur_votes_pq p) p Hok') as (Hok2 & gone & Hq & Hexp & Hhead & Hlk).
  set (p2 := prune_loop _ _ _) in *. rewrite Hq in Hsmall. apply Forall_app in Hsmall as [Hsg Hsk].
  split; [done|]. rewrite Hlk. destruct (cur_votes p !! k) as [votes|] eqn:He; [|by case_bool_decide].
  destruct (pool_first p Hok k votes He) as (v & l & -> & Hv).
  assert (Hk : target_hash (data v) = k) by (apply (pool_keys p Hok k (v :: l)); [done|by left]).
  rewrite list.Forall_forall in Hexp, Hsg, Hsk. rewrite Hq in Hv.
  pose proof (pool_queue_nodup p Hok) as Hnd. rewrite Hq, fmap_app in Hnd.
  apply list.NoDup_app in Hnd as (_ & Hdisj & _). apply elem_of_app in Hv as [Hv|Hv].
  - rewrite bool_decide_true by (apply list_elem_of_fmap; eauto).
    pose proof (Hexp _ Hv) as H. rewrite expired_small in H by auto. by rewrite H.
  - rewrite bool_decide_false; [|intros Hin; apply (Hdisj k Hin), list_elem_of_fmap; eauto].
    destruct (cur_votes_pq p2) as [|d q] eqn:Hq2; [by apply elem_of_nil in Hv|].
    pose proof (Hhead d eq_refl) as Hd. rewrite expired_small in Hd by (apply Hsk; by left).
    pose proof (pool_queue_sorted _ Hok2) as Hs. rewrite Hq2 in Hs.
    pose proof (sorted_head_le (d :: q) d (data v) Hs eq_refl Hv).
    destruct (Z.ltb_spec (target_number (data v) + 255) n); [lia|done].
Qed.

Definition small_op (op : pool_op) : Prop :=
  match op with PutVote v => small_target (data v) | _ => True end.

Lemma pool_run_small ops :
  Forall small_op ops → pool_ok (pool_run ops) ∧ Forall small_target (cur_votes_pq (pool_run ops)).
Proof.
  unfold pool_run. assert (Hnew : Forall small_target (cur_votes_pq pool_new)) by constructor.
  pose proof pool_new_ok as Hok. revert Hnew Hok. generalize pool_new.
  induction ops as [|op ops IH]; intros p Hp Hok Hops; [done|]. cbn [foldl].
  apply list.Forall_cons in Hops as [Hop Hops]. apply IH; [| |done]; destruct op as [vote|n|]; cbn [pool_step].
  - unfold pool_insert. case_bool_decide; [done|]. cbn [cur_votes_pq].
    case_bool_decide; [done|]. rewrite pq_push_perm. by constructor.
  - by apply (pool_prune_fetch n p ZERO).
  - constructor.
  - by apply pool_insert_ok.
  - by apply pool_prune_ok.
  - apply pool_new_ok.
Qed.

(** C27. The pool never holds a vote twice and never forgets one silently: after
    any sequence of insertions, prunings and drains, the votes fetched for a
    block all have that block as their target, no two of them (nor of the votes
    [drain] returns) have the same hash, the set of received hashes is exactly
    the set of the hashes of the votes held, and [len] is the size of that set. *)
Theorem pool_consistent ops :
  let p := pool_run ops in
  (∀ k v, v ∈ fetch_vote_by_block_hash k p → target_hash (data v) = k)
  ∧ NoDup (vote_hash <$> (pool_drain p).1)
  ∧ (∀ h, h ∈ received_votes p ↔
       ∃ v, v ∈ fetch_vote_by_block_hash (target_hash (data v)) p ∧ vote_hash v = h)
  ∧ (∀ v, v ∈ (pool_drain p).1 ↔ v ∈ fetch_vote_by_block_hash (target_hash (data v)) p)
  ∧ pool_len p = Z.of_nat (size (received_votes p)).
Proof.
  intros p. pose proof (pool_run_ok ops) as Hok. fold p in Hok.
  assert (Hf : ∀ k v, v ∈ fetch_vote_by_block_hash k p ↔ pooled p v ∧ target_hash (data v) = k).
  { intros k v. unfold fetch_vote_by_block_hash, pooled. split.
    - destruct (cur_votes p !! k) as [l|] eqn:He; [|by intros ?%elem_of_nil]. intros Hv.
      split; [by eauto|]. by apply (pool_keys p Hok k l).
    - intros [(k' & l & He & Hv) <-]. by rewrite (pool_keys p Hok k' l v), He. }
  split; [|split; [by apply drain_nodup|split; [|split; [|by apply pool_len_received]]]].
  - intros k v Hv. by apply Hf.
  - intros h. rewrite (pool_received p Hok). setoid_rewrite Hf. naive_solver.
  - intros v. rewrite elem_of_drain, Hf. tauto.
Qed.

(** [prune] keeps recent votes and only those: as long as no vote names a
    target number within 256 of [u64::MAX], pruning at [n] removes all the votes
    of a block whose first vote has a target number below [n - 255], leaves the
    votes of every other block as they are, and a removed vote's hash is forgotten
    (the same vote can be inserted again) exactly when its block was removed. *)
Theorem prune_spec ops n :
  Forall small_op ops →
  let p := pool_run ops in
  (∀ k, fetch_vote_by_block_hash k (pool_prune n p) =
     match fetch_vote_by_block_hash k p with
     | v :: votes => if target_number (data v) + 255 <? n then [] else v :: votes
     | [] => []
     end)
  ∧ (∀ v, v ∈ fetch_vote_by_block_hash (target_hash (data v)) p →
       (vote_hash v ∈ received_votes (pool_prune n p) ↔
        fetch_vote_by_block_hash (target_hash (data v)) (pool_prune n p) ≠ [])).
Proof.
  intros Hops p. destruct (pool_run_small ops Hops) as [Hok Hsmall]. fold p in Hok, Hsmall.
  assert (Hf : ∀ k, fetch_vote_by_block_hash k (pool_prune n p) =
     match fetch_vote_by_block_hash k p with
     | v :: votes => if target_number (data v) + 255 <? n then [] else v :: votes
     | [] => []
     end).
  { intros k. destruct (pool_prune_fetch n p k Hok Hsmall) as [_ Hk]. unfold fetch_vote_by_block_hash.
    rewrite Hk. destruct (cur_votes p !! k) as [[|v l]|]; cbn; [done| |done]. by destruct (_ <? _). }
  split; [done|]. intros v Hv. pose proof (pool_prune_ok n p Hok) as Hok2.
  assert (Hpv : pooled p v).
  { unfold fetch_vote_by_block_hash in Hv. destruct (cur_votes p !! _) as [l|] eqn:He; [|by apply elem_of_nil in Hv].
    by exists (target_hash (data v)), l. }
  rewrite (pool_received _ Hok2). split.
  - intros (w & (k & l & Hk & Hw) & Hh). assert (Hpw : pooled p w).
    { destruct (pool_prune_fetch n p k Hok Hsmall) as [_ Hk']. rewrite Hk' in Hk. exists k.
      destruct (cur_votes p !! k) as [[|x xs]|]; [|destruct (_ <? _)|]; naive_solver. }
    rewrite <- (pool_unique p Hok w v Hpw Hpv Hh), (pool_keys _ Hok2 k l w Hk Hw).
    unfold fetch_vote_by_block_hash. rewrite Hk. cbn. intros ->. by apply elem_of_nil in Hw.
  - intros Hne. exists v. split; [|done]. exists (target_hash (data v)).
    rewrite Hf in Hne. destruct (fetch_vote_by_block_hash _ p) as [|x xs] eqn:Hfp; [done|].
    destruct (_ <? _) eqn:Hx in Hne; [done|]. exists (x :: xs). split; [|done].
    destruct (pool_prune_fetch n p (target_hash (data v)) Hok Hsmall) as [_ ->].
    unfold fetch_vote_by_block_hash in Hfp. destruct (cur_votes p !! _) as [l|]; [|done].
    cbn in Hfp. subst. by rewrite Hx.
Qed.

End VotePool.

(** ** Witness *)

Module PoolExample.

Import RefLibraries.

Definition vote (target : Z) (address : Z) : VoteEnvelope :=
  {| vote_address := address; signature := 0;
     data := {| source_number := 1; source_hash := 1; target_number := target; target_hash := 1000 + target |} |}.

Definition example_ops : list pool_op := [PutVote (vote 10 1); PutVote (vote 300 1); PutVote (vote 10 2); PutVote (vote 10 1)].

Lemma prune_spec_witness :
  fetch_vote_by_block_hash 1010 (pool_run example_ops) = [vote 10 1; vote 10 2]
  ∧ fetch_vote_by_block_hash 1010 (pool_prune 266 (pool_run example_ops)) = []
  ∧ fetch_vote_by_block_hash 1300 (pool_prune 266 (pool_run example_ops)) = [vote 300 1].
Proof.
  assert (Hs : Forall small_op example_ops)
    by (repeat constructor; vm_compute; first [discriminate|reflexivity]).
  destruct (prune_spec example_ops 266 Hs) as [H _].
  split; [vm_compute; reflexivity|]. split; rewrite H; vm_compute; reflexivity.
Defined.

End PoolExample.
