(* ===== verification/Attestation.v ===== *)
(** * Vote attestations

    [assemble_vote_attestation] of [src/consensus/parlia/consensus.rs], which
    the miner runs on the votes of the pool, and the checks of a received
    header in [src/node/evm/pre_execution.rs]: its vote attestation, its seal,
    and both with the check of its time.

    Blocks and snapshots are read through the header cache of
    [src/node/evm/util.rs], the canonical header provider and the snapshot
    provider; the last two are arguments. *)

From S2P Require Import Prelude Hardforks Types Snapshot HeaderExtra Errors Timing VotePool.

Definition K_ANCESTOR_GENERATION_DEPTH : Z := 3.

(** ** The header cache ([src/node/evm/util.rs]) *)

Section HeaderCache.
Context `{HL : !LruApi Header} `{SL : Sealable}.

Record HeaderCacheReader := {
  blocknumber_to_header : LruMap Header;
  blockhash_to_header : LruMap Header;
}.

(** The canonical headers of the node. *)
Variable header_by_hash_from_provider : B256 → option Header.
Variable header_by_number_from_provider : Z → option Header.

Definition get_header_by_number (self : HeaderCacheReader) (block_number : Z)
    : option Header * HeaderCacheReader :=
  let '(o, c) := lru_get (blocknumber_to_header self) block_number in
  let self := {| blocknumber_to_header := c; blockhash_to_header := blockhash_to_header self |} in
  match o with
  | Some header => (Some header, self)
  | None => (header_by_number_from_provider block_number, self)
  end.

Definition get_header_by_hash (self : HeaderCacheReader) (block_hash : B256)
    : option Header * HeaderCacheReader :=
  let '(o, c) := lru_get (blockhash_to_header self) block_hash in
  let self := {| blocknumber_to_header := blocknumber_to_header self; blockhash_to_header := c |} in
  match o with
  | Some header => (Some header, self)
  | None => (header_by_hash_from_provider block_hash, self)
  end.

Definition insert_header_to_cache (header : Header) (self : HeaderCacheReader) : HeaderCacheReader :=
  {| blocknumber_to_header := lru_insert (blocknumber_to_header self) (number header) header;
     blockhash_to_header := lru_insert (blockhash_to_header self) (hash_slow header) header |}.

End HeaderCache.

(** ** Assembling ([src/consensus/parlia/consensus.rs]) *)

(** [count_ones] of a [u64], and the positions of its ones. *)
Definition ones (x : Z) : list Z := filter (λ i, Z.testbit x i = true) (zrange 0 64).
Definition count_ones (x : Z) : Z := zlen (ones x).

(** [1 << n] on [u64]: the shift distance is taken modulo 64. *)
Definition shl64 (a n : Z) : Z := wrapu 64 (Z.shiftl a (n mod 64)).

(** Two thirds of the validators, rounded up. *)
Definition quorum_of (snap : Snapshot) : Z := div_ceil (zlen (validators snap) * 2) 3.

Section Assemble.
Context `{FCA : ForkConditionApi} {CS : Type} `{!BscHardforks CS}.
Context `{SL : Sealable} `{AR : AttestationRlp} `{KE : Keccak} `{VR : VoteRlp} `{BL : Bls}.
Variable self : Parlia CS.
Variable snapshot_by_hash : B256 → option Snapshot.
Variable canonical_header_by_hash : B256 → option Header.
Variable pool : VotePool.

(** The loop over the candidates for the target: the parent and, from Fermi on,
    two of its ancestors. *)
Fixpoint find_votes (times : nat) (justified_number : Z) (target_header : Header)
    : result (option (Header * list VoteEnvelope * Snapshot)) :=
  match times with
  | O => Ret None
  | S times =>
      snap ← ok_or (snapshot_by_hash (parent_hash target_header)) (SnapshotNotFound (parent_hash target_header));
      let votes := fetch_vote_by_block_hash (hash_slow target_header) pool in
      if quorum_of snap <=? zlen votes then Ret (Some (target_header, votes, snap))
      else
        target_header ← ok_or (canonical_header_by_hash (parent_hash target_header))
                              (HeaderNotFound (parent_hash target_header));
        if number target_header <=? justified_number then Ret None
        else find_votes times justified_number target_header
  end.

(** The vote data of every vote has the hash of the attestation's. *)
Fixpoint check_vote_data (d : VoteData) (votes : list VoteEnvelope) : result unit :=
  match votes with
  | [] => Ret tt
  | vote :: votes =>
      if negb (vote_data_hash (data vote) =? vote_data_hash d)
      then Err (FetchVoteError (vote_address vote)) else check_vote_data d votes
  end.

Definition in_snapshot (snap : Snapshot) (a : VoteAddress) : bool :=
  existsb (λ kv, vote_addr kv.2 =? a) (map_to_list (validators_map snap)).

(** The first signature of each address of the snapshot. *)
Definition unique_by_addr (snap : Snapshot) (votes : list VoteEnvelope) : gmap VoteAddress VoteSignature :=
  foldl (λ m vote,
    if in_snapshot snap (vote_address vote) then
      match m !! vote_address vote with Some _ => m | None => <[vote_address vote := signature vote]> m end
    else m) ∅ votes.

(** In the (arbitrary) order of the validator map. *)
Definition ordered_unique (snap : Snapshot) (unique : gmap VoteAddress VoteSignature)
    : list (Z * VoteAddress * VoteSignature) :=
  omap (λ kv : Address * ValidatorInfo,
    match unique !! vote_addr kv.2 with
    | Some sig => Some (v_index kv.2, vote_addr kv.2, sig)
    | None => None
    end) (map_to_list (validators_map snap)).

Definition vote_bitset (l : list (Z * VoteAddress * VoteSignature)) : Z :=
  foldl (λ set e, Z.lor set (shl64 1 (sub64 e.1.1 1))) 0 l.

Definition assemble_attestation (parent_snap : Snapshot) (target_header : Header)
    (votes : list VoteEnvelope) (target_snap : Snapshot) : result (option VoteAttestation) :=
  let d := {| source_number := target_number (vote_data parent_snap);
              source_hash := target_hash (vote_data parent_snap);
              target_number := number target_header; target_hash := hash_slow target_header |} in
  _ ← check_vote_data d votes;
  let l := ordered_unique target_snap (unique_by_addr target_snap votes) in
  if zlen l <? quorum_of target_snap then Ret None
  else
    sigs ← mapM (λ e, unwrap (bls_sig_from_bytes e.2)) l;
    aggregate ← ok_or (bls_aggregate sigs) AggregateSignatureError;
    let set := vote_bitset l in
    if negb (count_ones set =? zlen l)
    then Err (InvalidAttestationVoteCount (wrapu 32 (count_ones set)) (wrapu 32 (zlen l)))
    else Ret (Some {| vote_address_set := set; agg_signature := bls_sig_to_bytes aggregate;
                      att_data := d; extra := [] |}).

Definition assemble_times (header : Header) : nat :=
  if is_fermi_active_at_timestamp (spec self) (number header) (timestamp header)
  then Z.to_nat K_ANCESTOR_GENERATION_DEPTH else 1.

Definition assemble_vote_attestation (parent_snap : Snapshot) (parent_header current_header : Header)
    : result Header :=
  if negb (is_luban_active_at_block (spec self) (number current_header)) || (number current_header <? 3)
  then Ret current_header
  else
    found ← find_votes (assemble_times current_header) (target_number (vote_data parent_snap)) parent_header;
    match found with
    | None => Ret current_header
    | Some (target_header, votes, target_snap) =>
        o ← assemble_attestation parent_snap target_header votes target_snap;
        match o with
        | None => Ret current_header
        | Some attestation => Ret (append_attestation attestation current_header)
        end
    end.

End Assemble.

(** ** Verifying ([src/node/evm/pre_execution.rs]) *)

Section Verify.
Context `{FCA : ForkConditionApi} {CS : Type} `{!BscHardforks CS}.
Context `{SL : Sealable} `{AR : AttestationRlp} `{KE : Keccak} `{VR : VoteRlp} `{BL : Bls}.
Context `{HL : !LruApi Header} `{PL : !LruApi Address} `{RL : Rlp} `{SE : Secp256k1}.
Variable self : Parlia CS.
Variable chain_id : Z.
Variable snapshot_by_hash : B256 → option Snapshot.
Variable header_by_hash_from_provider : B256 → option Header.
Variable header_by_number_from_provider : Z → option Header.
Variable reader : HeaderCacheReader.

(** The lookups only change the recency of cache entries. *)
Definition cached_header_by_hash (block_hash : B256) : option Header :=
  (get_header_by_hash header_by_hash_from_provider reader block_hash).1.
Definition cached_header_by_number (block_number : Z) : option Header :=
  (get_header_by_number header_by_number_from_provider reader block_number).1.

Definition get_justified_header (snap : Snapshot) : exec Header :=
  if (source_hash (vote_data snap) =? ZERO) && (target_hash (vote_data snap) =? ZERO)
  then ok_or (cached_header_by_number 0) (UnknownHeader ZERO)
  else ok_or (cached_header_by_hash (target_hash (vote_data snap)))
             (UnknownHeader (target_hash (vote_data snap))).

(** The target among the parent and its ancestors; the last header looked at. *)
Fixpoint find_target (depth : nat) (target_block : Z) (target : B256) (ancestor : Header)
    : exec (bool * Header) :=
  match depth with
  | O => Ret (false, ancestor)
  | S depth =>
      if (number ancestor =? target_block) && (hash_slow ancestor =? target) then Ret (true, ancestor)
      else
        ancestor ← ok_or (cached_header_by_hash (parent_hash ancestor)) (UnknownHeader (parent_hash ancestor));
        find_target depth target_block target ancestor
  end.

(** The vote addresses of the validators whose bit is set. *)
Fixpoint voted_addresses (set : Z) (snap : Snapshot) (l : list (Z * Address)) : exec (list VoteAddress) :=
  match l with
  | [] => Ret []
  | (i, val) :: l =>
      if bool_decide (i ∈ ones set) then
        val_info ← ok_or (validators_map snap !! val) (VoteAddrNotFoundInSnap val);
        addrs ← voted_addresses set snap l;
        Ret (vote_addr val_info :: addrs)
      else voted_addresses set snap l
  end.

Definition check_attestation_votes (attestation : VoteAttestation) (pre_snap : Snapshot) : exec unit :=
  let validators_count := zlen (validators pre_snap) in
  let bit_set_count := count_ones (vote_address_set attestation) in
  if validators_count <? bit_set_count
  then Err (Validation (InvalidAttestationVoteCount_ bit_set_count validators_count))
  else
    vote_addrs ← voted_addresses (vote_address_set attestation) pre_snap (enumerate 0 (validators pre_snap));
    let at_least_votes := quorum_of pre_snap in
    if zlen vote_addrs <? at_least_votes
    then Err (Validation (InvalidAttestationVoteCount_ (zlen vote_addrs) at_least_votes))
    else
      pubkeys ← mapM (λ addr, ok_or (bls_pk_from_bytes addr) (Validation InvalidAttestationSignature)) vote_addrs;
      sig ← ok_or (bls_sig_from_bytes (agg_signature attestation)) (Validation InvalidAttestationSignature);
      if fast_aggregate_verify sig (vote_data_hash (att_data attestation)) pubkeys then Ret tt
      else Err (Validation InvalidAttestationSignature).

Definition verify_depth (header : Header) : nat :=
  if is_fermi_active_at_timestamp (spec self) (number header) (timestamp header)
  then Z.to_nat K_ANCESTOR_GENERATION_DEPTH else 1.

Definition verify_vote_attestation (snap : Snapshot) (header parent : Header) : exec unit :=
  if negb (is_plato_active_at_block (spec self) (number header)) then Ret tt
  else
    o ← map_err (λ err, Validation (ParliaConsensusError_ err))
                (get_vote_attestation_from_header self header (epoch_num snap));
    match o with
    | None => Ret tt
    | Some attestation =>
        if MAX_ATTESTATION_EXTRA_LENGTH <? zlen (extra attestation)
        then Err (Validation (TooLargeAttestationExtraLen MAX_ATTESTATION_EXTRA_LENGTH))
        else
          let d := att_data attestation in
          '(is_match, ancestor) ← find_target (verify_depth header) (target_number d) (target_hash d) parent;
          if negb (is_match : bool)
          then Err (Validation (InvalidAttestationTarget (target_number d) (number ancestor)
                                  (target_hash d) (hash_slow ancestor)))
          else
            justified ← get_justified_header snap;
            if negb (source_number d =? number justified) || negb (source_hash d =? hash_slow justified)
            then Err (Validation (InvalidAttestationSource (source_number d) (number justified)
                                    (source_hash d) (hash_slow justified)))
            else
              pre_snap ← ok_or (snapshot_by_hash (parent_hash ancestor))
                               (Msg "Failed to get pre snapshot from snapshot provider");
              check_attestation_votes attestation pre_snap
    end.

(** [recovered] is what [recover_proposer] returns on the header. *)
Definition verify_seal (recovered : result Address) (snap : Snapshot) (header : Header) : exec unit :=
  proposer ← map_err (λ err, Validation (ParliaConsensusError_ err)) recovered;
  if negb (proposer =? beneficiary header)
  then Err (Validation (WrongHeaderSigner (number header) proposer (beneficiary header)))
  else if negb (bool_decide (proposer ∈ validators snap))
  then Err (Validation (SignerUnauthorized (number header) proposer))
  else if sign_recently snap proposer
  then Err (Validation (SignerOverLimit proposer))
  else
    inturn ← is_inturn snap proposer;
    if ((inturn : bool) && negb (difficulty header =? DIFF_INTURN))
       || (negb inturn && negb (difficulty header =? DIFF_NOTURN))
    then Err (Validation (InvalidDifficulty (difficulty header)))
    else Ret tt.

(** [proposers] is the cache of recovered proposers. *)
Definition verify_cascading_fields (fuel : nat) (proposers : LruMap Address)
    (header parent : Header) (snap : Snapshot) : exec unit :=
  _ ← block_time_verify_for_ramanujan_fork self fuel snap header parent;
  _ ← verify_vote_attestation snap header parent;
  verify_seal (recover_proposer proposers header chain_id).1 snap header.

End Verify.

(** * Proofs *)

Section Votes.
Context `{SL : Sealable} `{KE : Keccak} `{VR : VoteRlp} `{BL : Bls} `{!BlsLaws BL}.
Implicit Types (snap : Snapshot) (votes : list VoteEnvelope).

Lemma elem_of_ones x i : i ∈ ones x ↔ 0 <= i < 64 ∧ Z.testbit x i = true.
Proof.
  unfold ones. rewrite list_elem_of_filter. unfold zrange. rewrite list_elem_of_fmap. split.
  - intros [Ht (k & -> & Hk%elem_of_seq)]. split; [lia|done].
  - intros [Hi Ht]. split; [done|]. exists (Z.to_nat i). rewrite elem_of_seq. split; lia.
Qed.

Lemma shl64_pow i : 1 <= i <= 64 → shl64 1 (sub64 i 1) = 2 ^ (i - 1).
Proof.
  intros Hi. unfold shl64. rewrite sub64_small by (unfold is_u; lia).
  rewrite Z.mod_small by lia. rewrite Z.shiftl_1_l. apply wrapu_small.
  split; [apply Z.pow_nonneg; lia|apply Z.pow_lt_mono_r; lia].
Qed.

Definition index_ok (e : Z * VoteAddress * VoteSignature) : Prop := 1 <= e.1.1 <= 64.

Lemma vote_bitset_bits l i :
  Forall index_ok l → i ∈ ones (vote_bitset l) ↔ 0 <= i < 64 ∧ ∃ e, e ∈ l ∧ e.1.1 = i + 1.
Proof.
  intros Hl. rewrite elem_of_ones. unfold vote_bitset.
  assert (Hgen : ∀ acc, 0 <= i → Z.testbit (foldl (λ set e, Z.lor set (shl64 1 (sub64 e.1.1 1))) acc l) i = true
    ↔ Z.testbit acc i = true ∨ ∃ e, e ∈ l ∧ e.1.1 = i + 1).
  { intros acc Hi. revert acc. induction Hl as [|e l He Hl IH]; intros acc; cbn [foldl].
    - split; [by left|]. intros [?|(e & He%elem_of_nil & _)]; done.
    - rewrite IH, shl64_pow by apply He. rewrite Z.lor_spec, orb_true_iff, Z.pow2_bits_eqb by (red in He; lia).
      rewrite Z.eqb_eq. setoid_rewrite elem_of_cons. split.
      + intros [[?|?]|(e' & ? & ?)]; [by left|right; exists e; split; [by left|lia]|right; exists e'; tauto].
      + intros [?|(e' & [->|?] & ?)]; [by left; left|left; right; lia|right; eauto]. }
  split; intros [Hi H]; (split; [done|]).
  - apply Hgen in H as [H|H]; [by rewrite Z.bits_0 in H|done|lia].
  - apply Hgen; [lia|by right].
Qed.

(** The first signature of an address is that of one of its votes. *)
Lemma unique_by_addr_from snap votes a sig :
  unique_by_addr snap votes !! a = Some sig →
  ∃ v, v ∈ votes ∧ vote_address v = a ∧ signature v = sig.
Proof.
  unfold unique_by_addr. assert (Hgen : ∀ m : gmap VoteAddress VoteSignature,
    foldl (λ m vote, if in_snapshot snap (vote_address vote) then
      match m !! vote_address vote with Some _ => m | None => <[vote_address vote := signature vote]> m end
      else m) m votes !! a = Some sig →
    m !! a = Some sig ∨ ∃ v, v ∈ votes ∧ vote_address v = a ∧ signature v = sig).
  { induction votes as [|v votes IH]; intros m H; [by left|]. cbn [foldl] in H.
    apply IH in H as [H|(w & Hw & H)]; [|right; exists w; split; [by right|done]].
    destruct (in_snapshot snap (vote_address v)); [|by left].
    destruct (m !! vote_address v) eqn:Hm; [by left|].
    destruct (decide (vote_address v = a)) as [<-|Hne].
    - rewrite lookup_insert_eq in H. injection H as <-. right. exists v. split; [by left|done].
    - rewrite lookup_insert_ne in H by done. by left. }
  intros H. apply Hgen in H as [H|H]; [by rewrite lookup_empty in H|done].
Qed.

(** The validator map of a well-formed snapshot, in the order of the list. *)
Lemma validators_map_perm snap :
  snapshot_wf snap →
  map_to_list (validators_map snap)
  ≡ₚ omap (λ v, pair v <$> validators_map snap !! v) (validators snap).
Proof.
  intros Hwf. apply NoDup_Permutation.
  - apply NoDup_map_to_list.
  - pose proof (wf_nodup snap Hwf) as Hnd. induction Hnd as [|v l Hv Hnd IH]; [constructor|].
    cbn. destruct (validators_map snap !! v) as [info|]; cbn; [|done].
    constructor; [|done]. intros (w & Hw & Hinfo)%list_elem_of_omap.
    destruct (validators_map snap !! w); [|done]. cbn in Hinfo. congruence.
  - intros [v info]. rewrite elem_of_map_to_list, list_elem_of_omap. split.
    + intros Hv. exists v. split; [|by rewrite Hv].
      destruct (decide (v ∈ validators snap)) as [|Hn]; [done|]. by rewrite (wf_dom snap Hwf v Hn) in Hv.
    + intros (w & Hw & Hinfo). destruct (validators_map snap !! w) eqn:He; [|done]. cbn in Hinfo. congruence.
Qed.

(** What [ordered_unique] takes from a validator. *)
Definition unique_entry snap (unique : gmap VoteAddress VoteSignature) (v : Address)
    : option (Z * VoteAddress * VoteSignature) :=
  info ← validators_map snap !! v;
  sig ← unique !! vote_addr info;
  Some (v_index info, vote_addr info, sig).

Lemma ordered_unique_perm snap unique :
  snapshot_wf snap → ordered_unique snap unique ≡ₚ omap (unique_entry snap unique) (validators snap).
Proof.
  intros Hwf. unfold ordered_unique. rewrite (validators_map_perm snap Hwf).
  match goal with |- ?a ≡ₚ ?b => cut (a = b); [by intros ->|] end.
  induction (validators snap) as [|v l IH]; [done|].
  cbn. unfold unique_entry at 1. destruct (validators_map snap !! v) as [info|]; cbn; [|done].
  destruct (unique !! vote_addr info); cbn; by rewrite IH.
Qed.

Lemma ordered_unique_index snap unique :
  snapshot_wf snap → zlen (validators snap) <= 64 → Forall index_ok (ordered_unique snap unique).
Proof.
  intros Hwf Hn. rewrite ordered_unique_perm by done. apply list.Forall_forall.
  intros e (v & Hv & He)%list_elem_of_omap. apply list_elem_of_lookup in Hv as [i Hi].
  destruct (wf_index snap Hwf i v Hi) as [a Ha]. unfold unique_entry in He. rewrite Ha in He. cbn in He.
  destruct (unique !! a); [|done]. cbn in He. injection He as <-.
  pose proof (lookup_lt_Some _ _ _ Hi). unfold zlen in Hn. red. cbn. lia.
Qed.

(** The verifier reads back the addresses whose votes were aggregated. *)
Lemma voted_addresses_spec set snap unique (l : list (Z * Address)) :
  (∀ i v, (i, v) ∈ l → ∃ info, validators_map snap !! v = Some info
     ∧ (i ∈ ones set ↔ is_Some (unique !! vote_addr info))) →
  voted_addresses set snap l = Ret ((λ e, e.1.2) <$> omap (unique_entry snap unique) l.*2).
Proof.
  induction l as [|[i v] l IH]; intros Hl; [done|]. cbn [voted_addresses fmap list_fmap].
  destruct (Hl i v ltac:(by left)) as (info & Hinfo & Hi).
  rewrite IH by (intros j w Hj; apply Hl; by right). cbn [snd].
  change (omap (unique_entry snap unique) (v :: l.*2)) with
    (match unique_entry snap unique v with
     | Some y => y :: omap (unique_entry snap unique) l.*2
     | None => omap (unique_entry snap unique) l.*2
     end).
  assert (Hu : unique_entry snap unique v
    = sig ← unique !! vote_addr info; Some (v_index info, vote_addr info, sig))
    by (unfold unique_entry; by rewrite Hinfo).
  rewrite Hu, Hinfo. destruct (unique !! vote_addr info) as [sig|] eqn:Hs.
  - by rewrite bool_decide_true by (apply Hi; eauto).
  - by rewrite bool_decide_false by (rewrite Hi; by intros []).
Qed.

Lemma voted_addresses_bitset snap unique :
  snapshot_wf snap → zlen (validators snap) <= 64 →
  voted_addresses (vote_bitset (ordered_unique snap unique)) snap (enumerate 0 (validators snap))
  = Ret ((λ e, e.1.2) <$> omap (unique_entry snap unique) (validators snap)).
Proof.
  intros Hwf Hn. rewrite (voted_addresses_spec _ _ unique); [by rewrite enumerate_snd|].
  intros i v Hiv. apply enumerate_elem in Hiv as (k & -> & Hk).
  destruct (wf_index snap Hwf k v Hk) as [a Ha]. eexists. split; [exact Ha|]. cbn [vote_addr].
  rewrite vote_bitset_bits by by apply ordered_unique_index.
  pose proof (lookup_lt_Some _ _ _ Hk) as Hlt. unfold zlen in Hn. split.
  - intros (_ & e & He & Hidx). rewrite ordered_unique_perm in He by done.
    apply list_elem_of_omap in He as (w & Hw & He). unfold unique_entry in He.
    apply list_elem_of_lookup in Hw as [j Hj]. destruct (wf_index snap Hwf j w Hj) as [b Hb].
    rewrite Hb in He. cbn in He. destruct (unique !! b) eqn:Hu; [|done]. cbn in He. injection He as <-.
    cbn in Hidx. assert (j = k) as -> by lia. rewrite Hj in Hk. injection Hk as ->.
    rewrite Hb in Ha. injection Ha as ->. eauto.
  - intros [sig Hsig]. split; [lia|]. exists (Z.of_nat k + 1, a, sig). split; [|cbn; lia].
    rewrite ordered_unique_perm by done. apply list_elem_of_omap. exists v.
    split; [by eapply list_elem_of_lookup_2|]. unfold unique_entry. rewrite Ha. cbn. by rewrite Hsig.
Qed.

(** A vote whose signature verifies under its address, as the votes of honest
    validators do. *)
Definition valid_vote (v : VoteEnvelope) : Prop :=
  ∃ pk sig, bls_pk_from_bytes (vote_address v) = Some pk ∧ bls_sig_from_bytes (signature v) = Some sig
  ∧ bls_verify pk (vote_data_hash (data v)) sig = true.

Lemma check_vote_data_ok d votes :
  check_vote_data d votes = Ret tt → ∀ v, v ∈ votes → vote_data_hash (data v) = vote_data_hash d.
Proof.
  induction votes as [|w votes IH]; intros H v Hv; [by apply elem_of_nil in Hv|].
  cbn [check_vote_data] in H. destruct (Z.eqb_spec (vote_data_hash (data w)) (vote_data_hash d)) as [He|]; [|done].
  apply elem_of_cons in Hv as [->|Hv]; [done|]. by apply IH.
Qed.

(** The keys and signatures of the selected votes. *)
Lemma aggregated_pairs m (l : list (Z * VoteAddress * VoteSignature)) sigs :
  (∀ e, e ∈ l → ∃ pk sig, bls_pk_from_bytes e.1.2 = Some pk ∧ bls_sig_from_bytes e.2 = Some sig
     ∧ bls_verify pk m sig = true) →
  mapM (λ e, unwrap (E:=ParliaConsensusError) (bls_sig_from_bytes e.2)) l = Ret sigs →
  Forall2 (λ pk s, bls_verify pk m s = true) (omap bls_pk_from_bytes ((λ e, e.1.2) <$> l)) sigs.
Proof.
  revert sigs. induction l as [|e l IH]; intros sigs Hl Hs.
  - injection Hs as <-. constructor.
  - cbn [mapM] in Hs. apply bind_Ret_inv in Hs as (s & Hse & Hs).
    apply bind_Ret_inv in Hs as (ss & Hss & Hs). injection Hs as <-. apply unwrap_Ret in Hse.
    destruct (Hl e ltac:(by left)) as (pk & sig & Hpk & Hsig & Hv). cbn. rewrite Hpk.
    constructor; [congruence|]. apply IH; [|done]. intros e' He'. apply Hl. by right.
Qed.

Lemma mapM_pubkeys {E} (e : E) (l : list VoteAddress) :
  (∀ a, a ∈ l → is_Some (bls_pk_from_bytes a)) →
  mapM (λ addr, ok_or (bls_pk_from_bytes addr) e) l = Ret (omap bls_pk_from_bytes l).
Proof.
  induction l as [|a l IH]; intros Hl; [done|]. cbn [mapM]. destruct (Hl a ltac:(by left)) as [pk Hpk].
  rewrite Hpk. cbn [ok_or mbind comp_bind]. rewrite IH by (intros b Hb; apply Hl; by right). cbn. by rewrite Hpk.
Qed.

(** What an assembled attestation contains. *)
Lemma assemble_attestation_inv parent_snap target votes snap a :
  assemble_attestation parent_snap target votes snap = Ret (Some a) →
  let l := ordered_unique snap (unique_by_addr snap votes) in
  ∃ sigs aggregate,
    att_data a = {| source_number := target_number (vote_data parent_snap);
                    source_hash := target_hash (vote_data parent_snap);
                    target_number := number target; target_hash := hash_slow target |}
    ∧ vote_address_set a = vote_bitset l ∧ agg_signature a = bls_sig_to_bytes aggregate ∧ extra a = []
    ∧ (∀ v, v ∈ votes → vote_data_hash (data v) = vote_data_hash (att_data a))
    ∧ quorum_of snap <= zlen l ∧ count_ones (vote_bitset l) = zlen l
    ∧ mapM (λ e, unwrap (E:=ParliaConsensusError) (bls_sig_from_bytes e.2)) l = Ret sigs
    ∧ bls_aggregate sigs = Some aggregate.
Proof.
  cbv zeta. unfold assemble_attestation. set (l := ordered_unique _ _). intros H.
  apply bind_Ret_inv in H as ([] & Hc & H). destruct (Z.ltb_spec (zlen l) (quorum_of snap)); [done|].
  apply bind_Ret_inv in H as (sigs & Hs & H). apply bind_Ret_inv in H as (agg & Hagg%ok_or_Ret & H).
  destruct (Z.eqb_spec (count_ones (vote_bitset l)) (zlen l)); cbn [negb] in H; [|done].
  injection H as <-. exists sigs, agg. cbn [att_data vote_address_set agg_signature extra].
  split_and!; try done. by apply check_vote_data_ok.
Qed.

Lemma check_attestation_votes_ok parent_snap target votes snap a :
  assemble_attestation parent_snap target votes snap = Ret (Some a) →
  snapshot_wf snap → zlen (validators snap) <= 64 → (∀ v, v ∈ votes → valid_vote v) →
  check_attestation_votes a snap = Ret tt.
Proof.
  intros Ha Hwf Hn Hv. destruct (assemble_attestation_inv _ _ _ _ _ Ha)
    as (sigs & agg & Hd & Hset & Hagg & Hext & Hdata & Hq & Hones & Hs & Hag).
  set (u := unique_by_addr snap votes) in *. set (l := ordered_unique snap u) in *.
  set (k := omap (unique_entry snap u) (validators snap)).
  assert (Hperm : l ≡ₚ k) by by apply ordered_unique_perm.
  assert (Hvalid : ∀ e, e ∈ l → ∃ pk sig, bls_pk_from_bytes e.1.2 = Some pk
    ∧ bls_sig_from_bytes e.2 = Some sig ∧ bls_verify pk (vote_data_hash (att_data a)) sig = true).
  { intros e He. rewrite Hperm in He. apply list_elem_of_omap in He as (w & _ & He). unfold unique_entry in He.
    destruct (validators_map snap !! w) as [info|]; cbn in He; [|done].
    destruct (u !! vote_addr info) as [sg|] eqn:Hu; cbn in He; [|done]. injection He as <-. cbn [fst snd].
    destruct (unique_by_addr_from snap votes _ _ Hu) as (v & Hin & <- & <-). rewrite <- (Hdata v Hin). by apply Hv. }
  assert (Hlen : zlen k = zlen l) by (unfold zlen; by rewrite Hperm).
  unfold check_attestation_votes. rewrite Hset, Hones.
  assert (Hle : zlen k <= zlen (validators snap)) by apply zlen_omap_le.
  rewrite (proj2 (Z.ltb_ge _ _)) by lia. unfold l at 1, u at 1.
  rewrite voted_addresses_bitset by done. fold u. fold k. cbn [mbind comp_bind].
  assert (Hkl : zlen ((λ e : Z * VoteAddress * VoteSignature, e.1.2) <$> k) = zlen l)
    by (unfold zlen in *; by rewrite length_fmap).
  rewrite Hkl, (proj2 (Z.ltb_ge _ _)) by lia.
  rewrite mapM_pubkeys.
  2: { intros a' (e & -> & He)%list_elem_of_fmap. rewrite <- Hperm in He.
       destruct (Hvalid e He) as (pk & _ & Hpk & _). eauto. }
  cbn [mbind comp_bind]. rewrite Hagg, bls_sig_roundtrip. cbn [ok_or mbind comp_bind].
  rewrite (bls_aggregate_ok _ (omap bls_pk_from_bytes ((λ e, e.1.2) <$> l)) sigs); [done| |done|].
  - by apply aggregated_pairs.
  - by rewrite Hperm.
Qed.

End Votes.

(** ** Assembling and verifying *)

Section Roundtrip.
Context `{FCA : ForkConditionApi} {CS : Type} `{!BscHardforks CS}.
Context `{SL : Sealable} `{AR : AttestationRlp} `{KE : Keccak} `{VR : VoteRlp} `{BL : Bls} `{!BlsLaws BL}.
Context `{HL : !LruApi Header}.
Variable self : Parlia CS.
Variable snapshot_by_hash : B256 → option Snapshot.
Variable canonical_header_by_hash : B256 → option Header.
Variable canonical_header_by_number : Z → option Header.
Variable reader : HeaderCacheReader.
Implicit Types (h parent : Header) (pool : VotePool).

#[local] Notation cached_by_hash := (cached_header_by_hash canonical_header_by_hash reader).
#[local] Notation cached_by_number := (cached_header_by_number canonical_header_by_number reader).

(** The header cache agrees with the canonical chain. *)
Definition cache_agrees : Prop :=
  ∀ k h, canonical_header_by_hash k = Some h → cached_by_hash k = Some h.

(** A header and its canonical ancestors, [n] in all. *)
Fixpoint ancestry (n : nat) (h : Header) : list Header :=
  match n with
  | O => []
  | S n => h :: match canonical_header_by_hash (parent_hash h) with Some p => ancestry n p | None => [] end
  end.

(** No two of the candidates for the target have the same hash. *)
Definition collision_free (l : list Header) : Prop :=
  ∀ x y, x ∈ l → y ∈ l → hash_slow x = hash_slow y → x = y.

Lemma find_votes_inv pool times justified parent t votes snap :
  find_votes snapshot_by_hash canonical_header_by_hash pool times justified parent = Ret (Some (t, votes, snap)) →
  t ∈ ancestry times parent ∧ snapshot_by_hash (parent_hash t) = Some snap
  ∧ votes = fetch_vote_by_block_hash (hash_slow t) pool ∧ quorum_of snap <= zlen votes.
Proof.
  revert parent. induction times as [|times IH]; intros parent H; [done|]. cbn [find_votes ancestry] in *.
  apply bind_Ret_inv in H as (sn & Hsn%ok_or_Ret & H).
  destruct (Z.leb_spec (quorum_of sn) (zlen (fetch_vote_by_block_hash (hash_slow parent) pool))).
  - injection H as <- <- <-. split; [by left|done].
  - apply bind_Ret_inv in H as (p & Hp%ok_or_Ret & H). rewrite Hp. case_match; [done|].
    apply IH in H as (? & ?). split; [by right|done].
Qed.

Lemma find_target_ok times parent t :
  cache_agrees → collision_free (ancestry times parent) → t ∈ ancestry times parent →
  find_target canonical_header_by_hash reader times (number t) (hash_slow t) parent = Ret (true, t).
Proof.
  intros Hc. revert parent. induction times as [|times IH]; intros parent Hf Ht; [by apply elem_of_nil in Ht|].
  cbn [find_target ancestry] in *.
  destruct ((number parent =? number t) && (hash_slow parent =? hash_slow t)) eqn:He.
  - reflect_bools. do 2 f_equal. apply Hf; [by left|done|done].
  - apply elem_of_cons in Ht as [->|Ht]; [by rewrite !Z.eqb_refl in He|].
    destruct (canonical_header_by_hash (parent_hash parent)) as [p|] eqn:Hp; [|by apply elem_of_nil in Ht].
    rewrite (Hc _ _ Hp). cbn [ok_or mbind comp_bind]. apply IH; [|done].
    intros x y Hx Hy. apply Hf; by right.
Qed.

Lemma assemble_times_ancestry h parent x :
  x ∈ ancestry (assemble_times self h) parent → x ∈ ancestry 3 parent.
Proof.
  unfold assemble_times. case_match; [done|]. cbn [ancestry].
  intros [->|Hx]%elem_of_cons; [by left|]. by destruct (canonical_header_by_hash _); apply elem_of_nil in Hx.
Qed.

(** The result of [assemble_vote_attestation]. *)
Lemma assemble_inv pool parent_snap parent h h' :
  assemble_vote_attestation self snapshot_by_hash canonical_header_by_hash pool parent_snap parent h = Ret h' →
  h' = h ∨ ∃ t votes snap a,
    find_votes snapshot_by_hash canonical_header_by_hash pool (assemble_times self h)
      (target_number (vote_data parent_snap)) parent = Ret (Some (t, votes, snap))
    ∧ assemble_attestation parent_snap t votes snap = Ret (Some a)
    ∧ h' = append_attestation a h ∧ is_luban_active_at_block (spec self) (number h) = true.
Proof.
  unfold assemble_vote_attestation. destruct (is_luban_active_at_block _ _) eqn:Hl; cbn [negb orb];
    [|intros [= <-]; by left]. destruct (number h <? 3); [intros [= <-]; by left|]. intros H.
  apply bind_Ret_inv in H as ([[[t votes] snap]|] & Hf & H); [|injection H as <-; by left].
  apply bind_Ret_inv in H as ([a|] & Ha & H); injection H as <-; [|by left].
  right. by exists t, votes, snap, a.
Qed.

(** The justified block of a snapshot that has one. *)
Lemma justified_ok snap j :
  target_hash (vote_data snap) ≠ ZERO → cached_by_hash (target_hash (vote_data snap)) = Some j →
  get_justified_header canonical_header_by_hash canonical_header_by_number reader snap = Ret j.
Proof.
  intros Hz Hj. unfold get_justified_header. rewrite (proj2 (Z.eqb_neq _ _) Hz), andb_false_r.
  by rewrite Hj.
Qed.

(** The same verdict for a header with this number, timestamp and attestation. *)
Lemma verify_vote_attestation_ok snap h a t justified pre_snap parent :
  get_vote_attestation_from_header self h (epoch_num snap) = Ret (Some a) → extra a = [] →
  find_target canonical_header_by_hash reader (verify_depth self h) (target_number (att_data a))
    (target_hash (att_data a)) parent = Ret (true, t) →
  get_justified_header canonical_header_by_hash canonical_header_by_number reader snap = Ret justified →
  source_number (att_data a) = number justified → source_hash (att_data a) = hash_slow justified →
  snapshot_by_hash (parent_hash t) = Some pre_snap → check_attestation_votes a pre_snap = Ret tt →
  verify_vote_attestation self snapshot_by_hash canonical_header_by_hash canonical_header_by_number reader
    snap h parent = Ret tt.
Proof.
  intros Ha Hext Ht Hj Hsn Hsh Hp Hc. unfold verify_vote_attestation. case_match; [done|].
  rewrite Ha. cbn [map_err mbind comp_bind]. rewrite Hext.
  change (MAX_ATTESTATION_EXTRA_LENGTH <? zlen []) with false. cbn iota zeta.
  rewrite Ht. cbn [mbind comp_bind negb]. rewrite Hj. cbn [mbind comp_bind].
  rewrite Hsn, Hsh, !Z.eqb_refl. cbn [negb orb]. by rewrite Hp.
Qed.

(** Assembling and then verifying. *)
Lemma assembled_verifies pool parent_snap parent h h' justified :
  cache_agrees → collision_free (ancestry 3 parent) →
  target_hash (vote_data parent_snap) ≠ ZERO →
  cached_by_hash (target_hash (vote_data parent_snap)) = Some justified →
  number justified = target_number (vote_data parent_snap) →
  hash_slow justified = target_hash (vote_data parent_snap) →
  (∀ t snap, t ∈ ancestry 3 parent → snapshot_by_hash (parent_hash t) = Some snap →
     snapshot_wf snap ∧ zlen (validators snap) <= 64) →
  (∀ t v, t ∈ ancestry 3 parent → v ∈ fetch_vote_by_block_hash (hash_slow t) pool → valid_vote v) →
  assemble_vote_attestation self snapshot_by_hash canonical_header_by_hash pool parent_snap parent h = Ret h' →
  h' = h ∨ ∃ a t snap,
    h' = append_attestation a h ∧ t ∈ ancestry 3 parent
    ∧ snapshot_by_hash (parent_hash t) = Some snap
    ∧ target_number (att_data a) = number t ∧ target_hash (att_data a) = hash_slow t
    ∧ zlen (validators snap) * 2 <= count_ones (vote_address_set a) * 3
    ∧ extra a = []
    ∧ ∀ h2, number h2 = number h → timestamp h2 = timestamp h →
        get_vote_attestation_from_header self h2 (epoch_num parent_snap) = Ret (Some a) →
        verify_vote_attestation self snapshot_by_hash canonical_header_by_hash canonical_header_by_number
          reader parent_snap h2 parent = Ret tt.
Proof.
  intros Hc Hf Hz Hj Hjn Hjh Hsn Hvotes H.
  apply assemble_inv in H as [->|(t & votes & snap & a & Hfv & Ha & -> & Hl)]; [by left|right].
  destruct (find_votes_inv _ _ _ _ _ _ _ Hfv) as (Ht & Hs & -> & _).
  pose proof (assemble_times_ancestry h parent) as Hsub.
  destruct (Hsn t snap (Hsub _ Ht) Hs) as [Hwf H64].
  destruct (assemble_attestation_inv _ _ _ _ _ Ha)
    as (sigs & agg & Hd & Hset & _ & Hext & _ & Hq & Hones & _ & _).
  exists a, t, snap. rewrite Hd. cbn [target_number target_hash]. split_and!; try done; [by apply Hsub| |].
  - rewrite Hset, Hones. unfold quorum_of in Hq.
    pose proof (div_ceil_bounds (zlen (validators snap) * 2) 3 ltac:(lia)). lia.
  - intros h2 Hn Htm Hget.
    eapply (verify_vote_attestation_ok parent_snap h2 a t justified snap parent); try done.
    + rewrite Hd. cbn [target_number target_hash].
      assert (verify_depth self h2 = assemble_times self h) as -> by (unfold verify_depth, assemble_times; by rewrite Hn, Htm).
      apply find_target_ok; [done| |done]. intros x y Hx Hy. apply Hf; auto.
    + by apply justified_ok.
    + rewrite Hd. by rewrite Hjn.
    + rewrite Hd. by rewrite Hjh.
    + eapply check_attestation_votes_ok; [exact Ha|done|done|]. intros v Hv. by apply (Hvotes t v); [apply Hsub|].
Qed.

(** C18. What the miner assembles, the verifier accepts: if
    [assemble_vote_attestation] returns, the header is unchanged or has an
    attestation appended by at least two thirds of the validators of the
    target's snapshot, and any header of the same number and time that carries
    this attestation passes [verify_vote_attestation], provided the votes of
    the pool are genuine, the snapshot of the target is well formed with at most
    64 validators, the latest justified block is known, and the header cache
    agrees with the canonical chain. *)
Theorem assembled_attestation_verifies pool parent_snap parent h h' justified :
  cache_agrees → collision_free (ancestry 3 parent) →
  target_hash (vote_data parent_snap) ≠ ZERO →
  cached_by_hash (target_hash (vote_data parent_snap)) = Some justified →
  number justified = target_number (vote_data parent_snap) →
  hash_slow justified = target_hash (vote_data parent_snap) →
  (∀ t snap, t ∈ ancestry 3 parent → snapshot_by_hash (parent_hash t) = Some snap →
     snapshot_wf snap ∧ zlen (validators snap) <= 64) →
  (∀ t v, t ∈ ancestry 3 parent → v ∈ fetch_vote_by_block_hash (hash_slow t) pool → valid_vote v) →
  assemble_vote_attestation self snapshot_by_hash canonical_header_by_hash pool parent_snap parent h = Ret h' →
  h' = h ∨ ∃ a t snap,
    h' = append_attestation a h ∧ t ∈ ancestry 3 parent
    ∧ snapshot_by_hash (parent_hash t) = Some snap
    ∧ target_number (att_data a) = number t ∧ target_hash (att_data a) = hash_slow t
    ∧ zlen (validators snap) * 2 <= count_ones (vote_address_set a) * 3
    ∧ extra a = []
    ∧ ∀ h2, number h2 = number h → timestamp h2 = timestamp h →
        get_vote_attestation_from_header self h2 (epoch_num parent_snap) = Ret (Some a) →
        verify_vote_attestation self snapshot_by_hash canonical_header_by_hash canonical_header_by_number
          reader parent_snap h2 parent = Ret tt.
Proof. apply assembled_verifies. Qed.

(** The first attestation of a chain cannot be assembled: while the parent's
    snapshot has no attestation yet, the miner expects votes whose source is
    block 0 with the zero hash, whereas the validators vote (and the verifier
    insists) on the hash of the genesis block.  So with genuine votes
    [assemble_vote_attestation] never changes the header, and an attestation
    with the zero source it asks for would be refused. *)
Theorem no_first_attestation pool parent_snap parent h genesis :
  vote_data parent_snap = VoteData_default →
  cached_by_number 0 = Some genesis → hash_slow genesis ≠ ZERO →
  (∀ d1 d2 : VoteData, vote_data_hash d1 = vote_data_hash d2 → d1 = d2) →
  (∀ t snap, t ∈ ancestry 3 parent → snapshot_by_hash (parent_hash t) = Some snap → validators snap ≠ []) →
  (∀ t v, t ∈ ancestry 3 parent → v ∈ fetch_vote_by_block_hash (hash_slow t) pool →
     source_hash (data v) = hash_slow genesis) →
  (∀ h', assemble_vote_attestation self snapshot_by_hash canonical_header_by_hash pool parent_snap parent h
         = Ret h' → h' = h)
  ∧ (∀ a h2, source_hash (att_data a) = ZERO →
      is_plato_active_at_block (spec self) (number h2) = true →
      get_vote_attestation_from_header self h2 (epoch_num parent_snap) = Ret (Some a) →
      verify_vote_attestation self snapshot_by_hash canonical_header_by_hash canonical_header_by_number
        reader parent_snap h2 parent ≠ Ret tt).
Proof.
  intros Hvd Hgen Hz Hinj Hne Hsrc. split.
  - intros h' H. apply assemble_inv in H as [->|(t & votes & snap & a & Hfv & Ha & -> & Hl)]; [done|].
    destruct (find_votes_inv _ _ _ _ _ _ _ Hfv) as (Ht & Hs & Hv & Hq). exfalso.
    pose proof (assemble_times_ancestry h parent t Ht) as Ht3.
    destruct (assemble_attestation_inv _ _ _ _ _ Ha) as (_ & _ & Hd & _ & _ & _ & Hdata & _).
    assert (Hpos : 0 < quorum_of snap).
    { unfold quorum_of. pose proof (div_ceil_bounds (zlen (validators snap) * 2) 3 ltac:(lia)) as Hb.
      specialize (Hne t snap Ht3 Hs). destruct (validators snap) as [|x l]; [done|].
      rewrite zlen_cons in *. pose proof (zlen_nonneg l). lia. }
    destruct votes as [|v votes]; [change (zlen (@nil VoteEnvelope)) with 0 in Hq; lia|].
    assert (Hvin : v ∈ fetch_vote_by_block_hash (hash_slow t) pool) by (rewrite <- Hv; by left).
    specialize (Hdata v ltac:(by left)). apply Hinj in Hdata. specialize (Hsrc t v Ht3 Hvin).
    rewrite Hdata, Hd, Hvd in Hsrc. cbn in Hsrc. by apply Hz.
  - intros a h2 Ha Hp Hget. unfold verify_vote_attestation. rewrite Hp, Hget. cbn [negb map_err mbind comp_bind].
    destruct (_ <? _); [done|]. destruct (find_target _ _ _ _ _ _) as [[[|] anc]|?| |]; cbn [mbind comp_bind negb]; try done.
    unfold get_justified_header. rewrite Hvd. cbn [VoteData_default source_hash target_hash].
    rewrite !Z.eqb_refl, Hgen. cbn [andb ok_or mbind comp_bind].
    rewrite Ha, (proj2 (Z.eqb_neq ZERO (hash_slow genesis))) by congruence. by rewrite orb_true_r.
Qed.

Lemma check_vote_data_err d votes v :
  v ∈ votes → vote_data_hash (data v) ≠ vote_data_hash d → ∃ a, check_vote_data d votes = Err (FetchVoteError a).
Proof.
  intros Hv Hd. induction votes as [|w votes IH]; [by apply elem_of_nil in Hv|]. cbn [check_vote_data].
  destruct (Z.eqb_spec (vote_data_hash (data w)) (vote_data_hash d)) as [He|]; cbn [negb]; [|eauto].
  apply elem_of_cons in Hv as [->|Hv]; [done|]. by apply IH.
Qed.

Lemma mapM_unwrap_panic {A B} (f : A → option B) (l : list A) x :
  x ∈ l → f x = None → mapM (λ e, unwrap (E:=ParliaConsensusError) (f e)) l = Panic.
Proof.
  intros Hx Hf. induction l as [|y l IH]; [by apply elem_of_nil in Hx|]. cbn [mapM].
  apply elem_of_cons in Hx as [<-|Hx]; [by rewrite Hf|]. rewrite IH by done. by destruct (f y).
Qed.

Lemma zlen_omap_mono {A B} (f g : A → option B) (l : list A) :
  (∀ x, is_Some (f x) → is_Some (g x)) → zlen (omap f l) <= zlen (omap g l).
Proof.
  intros Hfg. induction l as [|x l IH]; [done|]. cbn. pose proof (Hfg x).
  destruct (f x); [destruct (g x) eqn:Hg; [rewrite !zlen_cons; cbn in IH; lia|destruct H; [eauto|done]]|].
  cbn in IH. destruct (g x); [rewrite zlen_cons|]; lia.
Qed.

Lemma fetch_broadcast v rest pool :
  vote_hash v ∉ received_votes pool →
  fetch_vote_by_block_hash (target_hash (data v)) (handle_votes_broadcast (v :: rest) pool)
  = fetch_vote_by_block_hash (target_hash (data v)) pool ++ [v].
Proof.
  intros Hv. unfold fetch_vote_by_block_hash, handle_votes_broadcast. rewrite pool_insert_lookup by done.
  by rewrite bool_decide_true.
Qed.

Lemma unique_by_addr_snoc snap votes v :
  in_snapshot snap (vote_address v) = true → (∀ w, w ∈ votes → vote_address w ≠ vote_address v) →
  unique_by_addr snap (votes ++ [v]) = <[vote_address v := signature v]> (unique_by_addr snap votes).
Proof.
  intros Hin Hnew. unfold unique_by_addr at 1. rewrite foldl_app. cbn [foldl]. fold (unique_by_addr snap votes).
  rewrite Hin. destruct (unique_by_addr snap votes !! vote_address v) eqn:Hu; [|done].
  destruct (unique_by_addr_from _ _ _ _ Hu) as (w & Hw & He & _). by destruct (Hnew w Hw).
Qed.

(** One malformed signature among the selected ones makes the miner panic. *)
Lemma assemble_malformed parent_snap target votes snap a v :
  assemble_attestation parent_snap target votes snap = Ret (Some a) →
  vote_data_hash (data v) = vote_data_hash (att_data a) → in_snapshot snap (vote_address v) = true →
  (∀ w, w ∈ votes → vote_address w ≠ vote_address v) → bls_sig_from_bytes (signature v) = None →
  assemble_attestation parent_snap target (votes ++ [v]) snap = Panic.
Proof.
  intros Ha Hd Hin Hnew Hsig. destruct (assemble_attestation_inv _ _ _ _ _ Ha)
    as (sigs & agg & Hda & _ & _ & _ & Hdata & Hq & _).
  unfold assemble_attestation. rewrite <- Hda.
  assert (Hc : check_vote_data (att_data a) (votes ++ [v]) = Ret tt).
  { assert (Hall : ∀ w, w ∈ votes ++ [v] → vote_data_hash (data w) = vote_data_hash (att_data a)).
    { intros w [Hw|Hw]%elem_of_app; [by apply Hdata|]. by apply list_elem_of_singleton in Hw as ->. }
    clear -Hall. induction (votes ++ [v]) as [|w l IH]; [done|]. cbn [check_vote_data].
    rewrite (Hall w), Z.eqb_refl by (by left). apply IH. intros x Hx. apply Hall. by right. }
  rewrite Hc. cbn [mbind comp_bind]. rewrite unique_by_addr_snoc by done.
  set (u := unique_by_addr snap votes) in *. set (u' := <[vote_address v := signature v]> u).
  assert (Hle : zlen (ordered_unique snap u) <= zlen (ordered_unique snap u')).
  { unfold ordered_unique. apply zlen_omap_mono. intros [k info]. cbn [snd].
    destruct (decide (vote_addr info = vote_address v)) as [He|He].
    - rewrite He. unfold u'. rewrite lookup_insert_eq. eauto.
    - unfold u'. by rewrite lookup_insert_ne. }
  rewrite (proj2 (Z.ltb_ge _ _)) by lia.
  unfold in_snapshot in Hin. apply existsb_exists in Hin as ([k info] & Hk & He). cbn [snd] in He. apply Z.eqb_eq in He.
  rewrite (mapM_unwrap_panic (λ e, bls_sig_from_bytes e.2) _ (v_index info, vote_address v, signature v)); [done| |done].
  unfold ordered_unique. apply list_elem_of_omap. exists (k, info). split; [by apply list_elem_of_In|].
  cbn [snd]. rewrite He. unfold u'. by rewrite lookup_insert_eq.
Qed.

(** C19. Votes of peers are not checked, and one bad vote undoes the work of all
    the others: suppose the pool has a quorum of votes for the parent.  After any
    peer has sent a vote for the parent that the pool did not know, assembling
    fails with [FetchVoteError] if the vote names another source (or target
    number) than the miner expects; and if the votes so far would have given an
    attestation and the peer's vote claims to be from a validator that has not
    voted yet and carries a malformed signature, assembling panics. *)
Theorem unchecked_votes_poison pool parent_snap parent h snap v rest :
  is_luban_active_at_block (spec self) (number h) = true → 3 <= number h →
  snapshot_by_hash (parent_hash parent) = Some snap →
  quorum_of snap <= zlen (fetch_vote_by_block_hash (hash_slow parent) pool) →
  target_hash (data v) = hash_slow parent → vote_hash v ∉ received_votes pool →
  let expected := {| source_number := target_number (vote_data parent_snap);
                     source_hash := target_hash (vote_data parent_snap);
                     target_number := number parent; target_hash := hash_slow parent |} in
  let r := assemble_vote_attestation self snapshot_by_hash canonical_header_by_hash
             (handle_votes_broadcast (v :: rest) pool) parent_snap parent h in
  (vote_data_hash (data v) ≠ vote_data_hash expected → ∃ address, r = Err (FetchVoteError address))
  ∧ (∀ a, assemble_vote_attestation self snapshot_by_hash canonical_header_by_hash pool parent_snap parent h
          = Ret (append_attestation a h) → append_attestation a h ≠ h →
      vote_data_hash (data v) = vote_data_hash expected → in_snapshot snap (vote_address v) = true →
      (∀ w, w ∈ fetch_vote_by_block_hash (hash_slow parent) pool → vote_address w ≠ vote_address v) →
      bls_sig_from_bytes (signature v) = None → r = Panic).
Proof.
  intros Hl Hn Hs Hq Ht Hv expected r.
  set (votes := fetch_vote_by_block_hash (hash_slow parent) pool) in *.
  assert (Hfind : ∀ k p, fetch_vote_by_block_hash (hash_slow parent) p = votes ++ k →
    find_votes snapshot_by_hash canonical_header_by_hash p (assemble_times self h)
      (target_number (vote_data parent_snap)) parent = Ret (Some (parent, votes ++ k, snap))).
  { intros k p Hp. assert (∃ n, assemble_times self h = S n) as [n ->]
      by (unfold assemble_times; case_match; eexists; reflexivity).
    cbn [find_votes]. rewrite Hs, Hp. cbn [ok_or mbind comp_bind].
    rewrite (proj2 (Z.leb_le _ _)) by (rewrite zlen_app; pose proof (zlen_nonneg k); lia). done. }
  assert (Hgate : negb (is_luban_active_at_block (spec self) (number h)) || (number h <? 3) = false).
  { rewrite Hl. cbn. apply Z.ltb_ge. lia. }
  assert (Hr : r = o ← assemble_attestation parent_snap parent (votes ++ [v]) snap;
                   match o with None => Ret h | Some attestation => Ret (append_attestation attestation h) end).
  { unfold r, assemble_vote_attestation. rewrite Hgate, (Hfind [v]); [done|].
    rewrite <- Ht. rewrite fetch_broadcast by done. unfold votes. by rewrite Ht. }
  split.
  - intros Hd. unfold assemble_attestation in Hr. fold expected in Hr.
    destruct (check_vote_data_err expected (votes ++ [v]) v) as [a Ha]; [|done|].
    { apply elem_of_app. right. by left. }
    exists a. rewrite Hr, Ha. done.
  - intros a Ha Hne Hd Hin Hnew Hsig. rewrite Hr.
    unfold assemble_vote_attestation in Ha. rewrite Hgate, (Hfind []) in Ha by by rewrite app_nil_r.
    cbn [mbind comp_bind] in Ha. rewrite app_nil_r in Ha.
    apply bind_Ret_inv in Ha as ([a'|] & Ha & Ha'); [|by injection Ha' as Ha'; rewrite <- Ha' in Hne].
    destruct (assemble_attestation_inv _ _ _ _ _ Ha) as (_ & _ & Hda & _).
    rewrite (assemble_malformed parent_snap parent votes snap a' v); try done. by rewrite Hda.
Qed.

Lemma find_votes_completes pool times justified parent :
  completes (find_votes snapshot_by_hash canonical_header_by_hash pool times justified parent).
Proof.
  revert parent. induction times as [|times IH]; intros parent; [done|]. cbn [find_votes].
  apply completes_bind; [apply completes_ok_or|]. intros snap _. destruct (_ <=? _); [done|].
  apply completes_bind; [apply completes_ok_or|]. intros p _. destruct (_ <=? _); [done|apply IH].
Qed.

Lemma check_vote_data_completes d votes : completes (check_vote_data d votes).
Proof. induction votes as [|v votes IH]; [done|]. cbn [check_vote_data]. by destruct (negb _). Qed.

(** Genuine votes never make the miner panic. *)
Lemma assemble_completes pool parent_snap parent h :
  (∀ t v, t ∈ ancestry 3 parent → v ∈ fetch_vote_by_block_hash (hash_slow t) pool → valid_vote v) →
  completes (assemble_vote_attestation self snapshot_by_hash canonical_header_by_hash pool parent_snap parent h).
Proof.
  intros Hvotes. unfold assemble_vote_attestation. destruct (negb _ || _); [done|].
  apply completes_bind; [apply find_votes_completes|]. intros [[[t votes] snap]|] Hf; [|done].
  destruct (find_votes_inv _ _ _ _ _ _ _ Hf) as (Ht & Hs & -> & _). apply assemble_times_ancestry in Ht.
  apply completes_bind; [|by intros [a|] _]. unfold assemble_attestation.
  set (votes := fetch_vote_by_block_hash _ _) in *.
  apply completes_bind; [apply check_vote_data_completes|]. intros _ _.
  set (l := ordered_unique snap (unique_by_addr snap votes)). destruct (_ <? _); [done|].
  assert (Hl : ∀ e, e ∈ l → is_Some (bls_sig_from_bytes e.2)).
  { intros e He. unfold l, ordered_unique in He. apply list_elem_of_omap in He as ([k info] & _ & He).
    cbn [snd] in He. destruct (unique_by_addr snap votes !! vote_addr info) as [sg|] eqn:Hu; [|done].
    injection He as <-. cbn [snd]. destruct (unique_by_addr_from snap votes _ _ Hu) as (v & Hin & _ & <-).
    destruct (Hvotes t v Ht Hin) as (_ & sig & _ & Hsig & _). eauto. }
  apply completes_bind.
  - clearbody l. clear -Hl. induction l as [|e l IH]; [done|]. cbn [mapM].
    destruct (Hl e ltac:(by left)) as [sg Hsg]. rewrite Hsg. cbn [unwrap mbind comp_bind].
    apply completes_bind; [apply IH; intros e' He'; apply Hl; by right|done].
  - intros sigs _. apply completes_bind; [apply completes_ok_or|]. intros agg _. by destruct (negb _).
Qed.

End Roundtrip.

(** ** Witnesses *)

Section Witnesses.
Import RefHardforks RefLibraries.
#[local] Existing Instance HeaderExtra.ref_hash.
#[local] Ltac ev := vm_compute; first [reflexivity | discriminate].

(** Block 60000000 of the test network, its justified ancestor, three
    validators with the keys 100, 200 and 300, and two votes for the block. *)
Definition parent_header : Header := test_header 60000000 1768357800 59999999.
Definition justified_header : Header := test_header 59999990 1768357790 59999989.
Definition mined_header : Header :=
  set_extra_data vanity (test_header 60000001 1768357801 (hash_slow parent_header)).

Definition genesis_header : Header := set_extra_data [1] (test_header 0 0 0).

Definition expected_vote : VoteData :=
  {| source_number := 59999990; source_hash := hash_slow justified_header;
     target_number := 60000000; target_hash := hash_slow parent_header |}.
Definition vote_of (key : Z) : VoteEnvelope :=
  {| vote_address := key; signature := key * vote_data_hash expected_vote; data := expected_vote |}.

Definition snap_with (d : VoteData) : Snapshot :=
  {| epoch_num := 1000; block_number := 60000000; block_hash := hash_slow parent_header;
     validators := validators (three 60000000); validators_map := validators_map (three 60000000);
     recent_proposers := ∅; vote_data := d; turn_length := Some 1; block_interval := 750 |}.
Definition parent_snapshot : Snapshot :=
  snap_with {| source_number := 59999989; source_hash := 1; target_number := 59999990;
               target_hash := hash_slow justified_header |}.

Definition snapshots (k : B256) : option Snapshot := if k =? 59999999 then Some (three 59999999) else None.
Definition no_headers {K} (k : K) : option Header := None.
Definition example_reader : HeaderCacheReader := {|
  blocknumber_to_header := (<[0 := genesis_header]> ∅ : gmap Z Header);
  blockhash_to_header := (<[hash_slow justified_header := justified_header]> ∅ : gmap Z Header) |}.
Definition example_pool : VotePool := pool_run [PutVote (vote_of 200); PutVote (vote_of 300)].

Definition assembled (p : VotePool) (s : Snapshot) : result Header :=
  assemble_vote_attestation testnet_parlia snapshots no_headers p s parent_header mined_header.

Lemma in_ancestry x : x ∈ ancestry no_headers 3 parent_header → x = parent_header.
Proof. intros Hx. apply elem_of_cons in Hx as [->|Hx]; [done|by apply elem_of_nil in Hx]. Qed.

Definition example_attestation : VoteAttestation :=
  {| vote_address_set := 6; agg_signature := 500 * vote_data_hash expected_vote; att_data := expected_vote; extra := [] |}.

Lemma append_attestation_inj a1 a2 h : append_attestation a1 h = append_attestation a2 h → a1 = a2.
Proof.
  intros H. apply (f_equal extra_data) in H. cbn [append_attestation set_extra_data extra_data] in H.
  apply app_inv_head in H. pose proof (rlp_attestation_roundtrip a1 []) as H1.
  rewrite H, rlp_attestation_roundtrip in H1. congruence.
Qed.

Lemma example_assembled : assembled example_pool parent_snapshot = Ret (append_attestation example_attestation mined_header).
Proof. vm_compute. reflexivity. Qed.

Lemma assembled_attestation_verifies_witness :
  verify_vote_attestation testnet_parlia snapshots no_headers no_headers example_reader parent_snapshot
    (set_extra_data (extra_data (append_attestation example_attestation mined_header) ++ replicate 65 0) mined_header)
    parent_header = Ret tt.
Proof.
  destruct (assembled_attestation_verifies testnet_parlia snapshots no_headers no_headers example_reader
    example_pool parent_snapshot parent_header mined_header
    (append_attestation example_attestation mined_header) justified_header)
    as [He|(a & t & snap & He & _ & _ & _ & _ & _ & _ & Hver)].
  - intros k h Hk. discriminate Hk.
  - intros x y Hx Hy _. exact (eq_trans (in_ancestry x Hx) (eq_sym (in_ancestry y Hy))).
  - ev.
  - reflexivity.
  - reflexivity.
  - reflexivity.
  - intros t snap Ht Hs. rewrite (in_ancestry t Ht) in Hs. vm_compute in Hs. injection Hs as <-.
    split; [exact (three_wf 59999999 ltac:(by split))|ev].
  - intros t v Ht Hv. rewrite (in_ancestry t Ht) in Hv.
    assert (Hl : fetch_vote_by_block_hash (hash_slow parent_header) example_pool = [vote_of 200; vote_of 300]) by ev.
    rewrite Hl in Hv. apply elem_of_cons in Hv as [->|Hv]; [|apply list_elem_of_singleton in Hv as ->];
      eexists _, _; (split; [vm_compute; reflexivity|split; [vm_compute; reflexivity|vm_compute; reflexivity]]).
  - exact example_assembled.
  - exfalso. apply (f_equal (λ h, zlen (extra_data h))) in He. vm_compute in He. discriminate He.
  - apply append_attestation_inj in He. subst a. apply Hver; [reflexivity|reflexivity|vm_compute; reflexivity].
Defined.

(** The vote a validator casts before there is an attestation. *)
Definition first_vote_of (key : Z) : VoteEnvelope :=
  let d := {| source_number := 0; source_hash := hash_slow genesis_header;
              target_number := 60000000; target_hash := hash_slow parent_header |} in
  {| vote_address := key; signature := key * vote_data_hash d; data := d |}.
Definition zero_source_attestation : VoteAttestation :=
  {| vote_address_set := 6; agg_signature := 0;
     att_data := {| source_number := 0; source_hash := ZERO; target_number := 60000000;
                    target_hash := hash_slow parent_header |}; extra := [] |}.

(** A hash without collisions. *)
Definition inj_keccak : Keccak := λ l, Z.pos (encode l).

Lemma inj_vote_hash (d1 d2 : VoteData) :
  vote_data_hash (KE:=inj_keccak) d1 = vote_data_hash (KE:=inj_keccak) d2 → d1 = d2.
Proof.
  unfold vote_data_hash, keccak256, inj_keccak. intros [= H%(inj encode)].
  destruct d1, d2. cbn in *. congruence.
Qed.

Lemma no_first_attestation_witness :
  (∀ h', assemble_vote_attestation (KE:=inj_keccak) testnet_parlia snapshots no_headers
           (pool_run (KE:=inj_keccak) [PutVote (first_vote_of 200); PutVote (first_vote_of 300)])
           (snap_with VoteData_default) parent_header mined_header = Ret h' → h' = mined_header)
  ∧ verify_vote_attestation (KE:=inj_keccak) testnet_parlia snapshots no_headers no_headers example_reader
      (snap_with VoteData_default)
      (set_extra_data (vanity ++ rlp_encode_attestation zero_source_attestation ++ replicate 65 0) mined_header)
      parent_header ≠ Ret tt.
Proof.
  destruct (no_first_attestation (KE:=inj_keccak) testnet_parlia snapshots no_headers no_headers example_reader
    (pool_run (KE:=inj_keccak) [PutVote (first_vote_of 200); PutVote (first_vote_of 300)])
    (snap_with VoteData_default) parent_header mined_header genesis_header) as [H1 H2].
  - reflexivity.
  - reflexivity.
  - discriminate.
  - exact inj_vote_hash.
  - intros t snap Ht Hs. rewrite (in_ancestry t Ht) in Hs. vm_compute in Hs. injection Hs as <-. discriminate.
  - intros t v Ht Hv. rewrite (in_ancestry t Ht) in Hv.
    assert (Hl : fetch_vote_by_block_hash (hash_slow parent_header)
      (pool_run (KE:=inj_keccak) [PutVote (first_vote_of 200); PutVote (first_vote_of 300)])
      = [first_vote_of 200; first_vote_of 300]) by ev.
    rewrite Hl in Hv. apply elem_of_cons in Hv as [->|Hv]; [reflexivity|].
    apply list_elem_of_singleton in Hv as ->. reflexivity.
  - split; [exact H1|]. apply (H2 zero_source_attestation); [reflexivity|ev|vm_compute; reflexivity].
Defined.

(** A peer's vote for the parent with another source, and one in the name of
    validator 100 with a signature that does not parse. *)
Definition foreign_vote : VoteEnvelope :=
  {| vote_address := 555; signature := 0;
     data := {| source_number := 1; source_hash := 1; target_number := 1; target_hash := hash_slow parent_header |} |}.
Definition malformed_vote : VoteEnvelope :=
  {| vote_address := 100; signature := -1; data := expected_vote |}.

Lemma unchecked_votes_poison_witness :
  (∃ address, assembled (handle_votes_broadcast [foreign_vote] example_pool) parent_snapshot
              = Err (FetchVoteError address))
  ∧ assembled (handle_votes_broadcast [malformed_vote] example_pool) parent_snapshot = Panic.
Proof.
  assert (Hl : fetch_vote_by_block_hash (hash_slow parent_header) example_pool = [vote_of 200; vote_of 300]) by ev.
  destruct (unchecked_votes_poison testnet_parlia snapshots no_headers example_pool parent_snapshot parent_header
    mined_header (three 59999999) foreign_vote []) as [H1 _];
    [ev|ev|reflexivity|ev|reflexivity|apply (bool_decide_unpack _); vm_compute; exact I|].
  destruct (unchecked_votes_poison testnet_parlia snapshots no_headers example_pool parent_snapshot parent_header
    mined_header (three 59999999) malformed_vote []) as [_ H2];
    [ev|ev|reflexivity|ev|reflexivity|apply (bool_decide_unpack _); vm_compute; exact I|].
  split; [apply H1; ev|]. apply (H2 example_attestation); [exact example_assembled| |reflexivity|ev| |reflexivity].
  - intros He. apply (f_equal (λ h, zlen (extra_data h))) in He. vm_compute in He. discriminate He.
  - intros w Hw. rewrite Hl in Hw. apply elem_of_cons in Hw as [->|Hw]; [discriminate|].
    apply list_elem_of_singleton in Hw as ->. discriminate.
Defined.

End Witnesses.
