(* ===== verification/Provider.v ===== *)
(** * The snapshot provider ([src/consensus/parlia/provider.rs])

    Snapshots are kept in a database (checkpoints only) and in a bounded cache;
    a missing one is rebuilt by walking back to the nearest stored ancestor and
    applying the headers in between.  The theorem of this file says that the
    stores are invisible: the provider returns the snapshot that applying all
    headers since genesis gives. *)

From S2P Require Import Prelude Hardforks Types Snapshot HeaderExtra Timing VotePool Attestation.

(** The CBOR blobs of the database ([Compress] and [Decompress] of [Snapshot],
    by [serde_cbor]). *)
Class SnapshotCodec := {
  compress : Snapshot → list Z;
  decompress : list Z → option Snapshot;
}.
Class SnapshotCodecLaws `(SnapshotCodec) : Prop := {
  decompress_compress s : decompress (compress s) = Some s;
}.

Section Provider.
Context `{FCA : ForkConditionApi} {CS : Type} `{!BscHardforks CS}.
Context `{SL : Sealable} `{AR : AttestationRlp} `{SC : SnapshotCodec}.
Context `{HL : !LruApi Header} `{SP : !LruApi Snapshot}.

(** [DbSnapshotProvider]: the table [ParliaSnapshotsByHash] and the cache. *)
Record DbSnapshotProvider := {
  db : gmap B256 (list Z);
  cache_by_hash : LruMap Snapshot;
}.

(** Whether transactions on the database succeed. *)
Variables db_reads db_writes : bool.

Definition query_db_by_hash (block_hash : B256) (self : DbSnapshotProvider) : option Snapshot :=
  if db_reads then
    match db self !! block_hash with
    | Some raw => decompress raw
    | None => None
    end
  else None.

Definition persist_to_db (snap : Snapshot) (self : DbSnapshotProvider) : option DbSnapshotProvider :=
  if db_writes
  then Some {| db := <[block_hash snap := compress snap]> (db self); cache_by_hash := cache_by_hash self |}
  else None.

Definition insert_cache_only (snap : Snapshot) (self : DbSnapshotProvider) : DbSnapshotProvider :=
  {| db := db self; cache_by_hash := lru_insert (cache_by_hash self) (block_hash snap) snap |}.

(** [snapshot_by_hash] and [insert] of [DbSnapshotProvider]. *)
Definition base_snapshot_by_hash (hash : B256) (self : DbSnapshotProvider)
    : option Snapshot * DbSnapshotProvider :=
  let '(o, c) := lru_get (cache_by_hash self) hash in
  let self := {| db := db self; cache_by_hash := c |} in
  match o with
  | Some snap => (Some snap, self)
  | None =>
      match query_db_by_hash hash self with
      | None => (None, self)
      | Some snap => (Some snap, {| db := db self; cache_by_hash := lru_insert c hash snap |})
      end
  end.

Definition base_insert (snap : Snapshot) (self : DbSnapshotProvider) : DbSnapshotProvider :=
  let self := insert_cache_only snap self in
  if is_multiple_of (block_number snap) CHECKPOINT_INTERVAL
  then default self (persist_to_db snap self) else self.

(** ** [EnhancedDbSnapshotProvider] *)

Variable parlia : Parlia CS.
Variable header_by_hash_from_provider : B256 → option Header.
Variable header_by_number_from_provider : Z → option Header.
Variable reader : HeaderCacheReader.

#[local] Notation header_by_hash := (cached_header_by_hash header_by_hash_from_provider reader).
#[local] Notation header_by_number := (cached_header_by_number header_by_number_from_provider reader).

(** Nothing but a panic leaves the provider other than by [None]. *)
#[local] Notation total := (comp Empty_set).

(** The snapshot of the genesis block. *)
Definition genesis_snapshot (genesis_header : Header) : total (option Snapshot) :=
  o ← ok (parse_validators_from_header parlia genesis_header (epoch parlia));
  match o with
  | None => Ret None
  | Some info =>
      snap ← snapshot_new (consensus_addrs info) 0 (hash_slow genesis_header) (epoch parlia) (vote_addrs info);
      Ret (Some snap)
  end.

Definition init_genesis_snapshot (genesis_header : Header) (self : DbSnapshotProvider)
    : total (option Snapshot * DbSnapshotProvider) :=
  o ← genesis_snapshot genesis_header;
  match o with
  | None => Ret (None, self)
  | Some snap => Ret (Some snap, base_insert snap self)
  end.

(** The validators and the turn length that take effect at a header. *)
Definition boundary_validators (working_snapshot : Snapshot) (header : Header)
    : total (option (ValidatorsInfo * option Z)) :=
  epoch_remainder ← rem_u (number header) (epoch_num working_snapshot);
  let miner_check_len := miner_history_check_len working_snapshot in
  if (0 <? number header) && (epoch_remainder =? miner_check_len) then
    match header_by_number (sub64 (number header) miner_check_len) with
    | None => Ret None
    | Some checkpoint_header =>
        parsed ← ok (parse_validators_from_header parlia checkpoint_header (epoch_num working_snapshot));
        turn_length ← ok (get_turn_length_from_header parlia checkpoint_header (epoch_num working_snapshot));
        Ret (turn_length ← turn_length; info ← parsed; Some (info, turn_length))
    end
  else Ret (Some ({| consensus_addrs := []; vote_addrs := None |}, None)).

(** One iteration of the loop of [try_rebuild], up to the new snapshot. *)
Definition apply_header (working_snapshot : Snapshot) (header : Header) : total (option Snapshot) :=
  o ← boundary_validators working_snapshot header;
  match o with
  | None => Ret None
  | Some (info, turn_length) =>
      o ← ok (get_vote_attestation_from_header parlia header (epoch_num working_snapshot));
      match o with
      | None => Ret None
      | Some attestation =>
          apply (spec parlia) working_snapshot (beneficiary header) header (consensus_addrs info)
            (vote_addrs info) attestation turn_length
      end
  end.

Fixpoint rebuild (hashes : list B256) (working_snapshot : Snapshot) (self : DbSnapshotProvider)
    : total (option Snapshot * DbSnapshotProvider) :=
  match hashes with
  | [] => Ret (Some working_snapshot, self)
  | hash :: hashes =>
      match header_by_hash hash with
      | None => Ret (None, self)
      | Some header =>
          o ← apply_header working_snapshot header;
          match o with
          | None => Ret (None, self)
          | Some snap =>
              let self := insert_cache_only snap self in
              if is_multiple_of (block_number snap) CHECKPOINT_INTERVAL then
                match persist_to_db snap self with
                | None => Ret (None, self)
                | Some self => rebuild hashes snap self
                end
              else rebuild hashes snap self
          end
      end
  end.

(** The walk back to a stored snapshot; the hashes come out in the order in
    which their headers are applied. *)
Fixpoint walk_back (fuel : nat) (parent_block_hash : B256) (hashes : list B256) (self : DbSnapshotProvider)
    : total (option (Snapshot * list B256) * DbSnapshotProvider) :=
  match fuel with
  | O => OutOfFuel
  | S fuel =>
      match header_by_hash parent_block_hash with
      | None => Ret (None, self)
      | Some parent_header =>
          '(_, self) ← if number parent_header =? 0 then init_genesis_snapshot parent_header self
                       else Ret (None, self);
          let '(o, self) := base_snapshot_by_hash parent_block_hash self in
          match o with
          | Some snap => Ret (Some (snap, hashes), self)
          | None => walk_back fuel (parent_hash parent_header) (parent_block_hash :: hashes) self
          end
      end
  end.

Definition try_rebuild (fuel : nat) (target_header : Header) (self : DbSnapshotProvider)
    : total (option Snapshot * DbSnapshotProvider) :=
  '(o, self) ← walk_back fuel (parent_hash target_header) [hash_slow target_header] self;
  match o with
  | None => Ret (None, self)
  | Some (base_snapshot, hashes) => rebuild hashes base_snapshot self
  end.

Definition snapshot_by_hash (fuel : nat) (hash : B256) (self : DbSnapshotProvider)
    : total (option Snapshot * DbSnapshotProvider) :=
  let '(o, self) := base_snapshot_by_hash hash self in
  match o with
  | Some snap => Ret (Some snap, self)
  | None =>
      match header_by_hash hash with
      | None => Ret (None, self)
      | Some target_header =>
          if number target_header =? 0 then init_genesis_snapshot target_header self
          else
            '(snap, self) ← try_rebuild fuel target_header self;
            match snap with
            | None => Ret (None, self)
            | Some s => Ret (Some s, base_insert s self)
            end
      end
  end.

End Provider.

(** * Proofs *)

Section Transparent.
Context `{FCA : ForkConditionApi} {CS : Type} `{!BscHardforks CS}.
Context `{SL : Sealable} `{AR : AttestationRlp} `{SC : SnapshotCodec} `{!SnapshotCodecLaws SC}.
Context `{HL : !LruApi Header} `{SP : !LruApi Snapshot} `{LL : !LruLaws Snapshot SP}.
Variable parlia : Parlia CS.
Variable header_by_hash_from_provider : B256 → option Header.
Variable header_by_number_from_provider : Z → option Header.
Variable reader : HeaderCacheReader.

#[local] Notation header_by_hash := (cached_header_by_hash header_by_hash_from_provider reader).
#[local] Notation apply_header := (apply_header parlia header_by_number_from_provider reader).
#[local] Notation walk_back := (walk_back true true parlia header_by_hash_from_provider reader).
#[local] Notation rebuild := (rebuild true parlia header_by_hash_from_provider header_by_number_from_provider reader).
Implicit Types (P : DbSnapshotProvider) (k : B256) (h : Header) (s : Snapshot).

(** What the provider stands for: the snapshot after a block is the genesis
    snapshot, with every header since applied. *)
Inductive true_snapshot : B256 → Snapshot → Prop :=
| true_genesis k h s :
    header_by_hash k = Some h → number h = 0 → genesis_snapshot parlia h = Ret (Some s) → true_snapshot k s
| true_block k h s0 s :
    header_by_hash k = Some h → number h ≠ 0 → true_snapshot (parent_hash h) s0 →
    apply_header s0 h = Ret (Some s) → true_snapshot k s.

(** Headers are found under their hashes, and numbers do not reach the last
    [u64]. *)
Record headers_ok : Prop := {
  ho_hash k h : header_by_hash k = Some h → hash_slow h = k;
  ho_number k h : header_by_hash k = Some h → 0 <= number h < U64_MAX;
}.
Hypothesis Hok : headers_ok.

Record coherent P : Prop := {
  co_cache k s : lru_entries (cache_by_hash P) !! k = Some s → true_snapshot k s;
  co_db k raw s : db P !! k = Some raw → decompress raw = Some s → true_snapshot k s;
}.

Lemma genesis_snapshot_inv h s :
  genesis_snapshot parlia h = Ret (Some s) → block_number s = 0 ∧ block_hash s = hash_slow h.
Proof.
  unfold genesis_snapshot. intros H. apply bind_Ret_inv in H as ([info|] & _ & H); [|done].
  apply bind_Ret_inv in H as (s' & Hs & [= <-]). unfold snapshot_new in Hs.
  apply bind_Ret_inv in Hs as ([l m] & _ & [= <-]). done.
Qed.

Lemma apply_header_inv s0 h s :
  apply_header s0 h = Ret (Some s) →
  add64 (block_number s0) 1 = number h ∧ block_number s = number h ∧ block_hash s = hash_slow h.
Proof.
  unfold Provider.apply_header. intros H. apply bind_Ret_inv in H as ([[info t]|] & _ & H); [|done].
  apply bind_Ret_inv in H as ([att|] & _ & H); [|done]. 
  destruct (apply_block _ _ _ _ _ _ _ _ _ H) as (E1 & E2 & _).
  by destruct (apply_Some_inv _ _ _ _ _ _ _ _ _ H) as (Ha%admissible_continuous & _ & _).
Qed.

Lemma true_block_id k s :
  true_snapshot k s → block_hash s = k ∧ ∃ h, header_by_hash k = Some h ∧ block_number s = number h.
Proof.
  intros [k' h s' Hk H0 Hg|k' h s0 s' Hk _ _ Ha].
  - destruct (genesis_snapshot_inv _ _ Hg) as [E1 E2].
    split; [rewrite E2; by apply (ho_hash Hok)|]. exists h. split; [done|]. lia.
  - destruct (apply_header_inv _ _ _ Ha) as (_ & E1 & E2).
    split; [rewrite E2; by apply (ho_hash Hok)|]. by exists h.
Qed.

Lemma true_unique k s s' : true_snapshot k s → true_snapshot k s' → s = s'.
Proof.
  intros H. revert s'. induction H as [k h s Hk H0 Hg|k h s0 s Hk Hn _ IH Ha]; intros s' H';
    destruct H' as [k' h' s' Hk' H0' Hg'|k' h' s0' s' Hk' Hn' Hp' Ha']; simplify_eq; try done.
  - congruence.
  - apply IH in Hp' as <-. congruence.
Qed.

(** ** The stores *)

Lemma insert_cache_only_coherent P s :
  coherent P → true_snapshot (block_hash s) s → coherent (insert_cache_only s P).
Proof.
  intros [Hc Hd] Hs. split; [|exact Hd]. intros k s' Hk. cbn in Hk.
  pose proof (lookup_weaken _ _ _ _ Hk (lru_insert_entries _ _ _)) as Hw.
  destruct (decide (k = block_hash s)) as [->|Hne].
  - rewrite lookup_insert_eq in Hw. by injection Hw as <-.
  - rewrite lookup_insert_ne in Hw by done. by apply Hc.
Qed.

Lemma persist_coherent P s P' :
  coherent P → true_snapshot (block_hash s) s → persist_to_db true s P = Some P' → coherent P'.
Proof.
  intros [Hc Hd] Hs [= <-]. split; [exact Hc|]. intros k raw s' Hk Hraw. cbn in Hk.
  destruct (decide (k = block_hash s)) as [->|Hne].
  - rewrite lookup_insert_eq in Hk. injection Hk as <-. rewrite decompress_compress in Hraw. by injection Hraw as <-.
  - rewrite lookup_insert_ne in Hk by done. by eapply Hd.
Qed.

Lemma base_insert_coherent P s : coherent P → true_snapshot (block_hash s) s → coherent (base_insert true s P).
Proof.
  intros HP Hs. unfold base_insert. pose proof (insert_cache_only_coherent _ _ HP Hs) as Hc.
  destruct (is_multiple_of _ _); [|done]. cbn. by eapply persist_coherent.
Qed.

Lemma base_snapshot_coherent P k o P' :
  coherent P → base_snapshot_by_hash true k P = (o, P') → coherent P' ∧ ∀ s, o = Some s → true_snapshot k s.
Proof.
  intros [Hc Hd] H. unfold base_snapshot_by_hash in H.
  rewrite (surjective_pairing (lru_get _ _)), lru_get_value in H.
  assert (Hg : coherent {| db := db P; cache_by_hash := (lru_get (cache_by_hash P) k).2 |}).
  { split; [|exact Hd]. intros k' s'. cbn. rewrite lru_get_entries. apply Hc. }
  destruct (lru_entries (cache_by_hash P) !! k) as [s|] eqn:Hs.
  { injection H as <- <-. split; [done|]. intros s' [= <-]. by apply Hc. }
  unfold query_db_by_hash in H. cbn in H.
  destruct (db P !! k) as [raw|] eqn:Hraw; [|by injection H as <- <-].
  destruct (decompress raw) as [s|] eqn:Hdec; [|by injection H as <- <-].
  injection H as <- <-. pose proof (Hd _ _ _ Hraw Hdec) as Hof.
  destruct (true_block_id _ _ Hof) as [Eid _].
  split; [|by intros s' [= <-]].
  pose proof (insert_cache_only_coherent _ s Hg) as Hi. unfold insert_cache_only in Hi.
  rewrite Eid in Hi. by apply Hi.
Qed.

(** A snapshot that was just persisted is found. *)
Lemma base_snapshot_persisted P k s :
  db P !! k = Some (compress s) → ∃ s' P', base_snapshot_by_hash true k P = (Some s', P').
Proof.
  intros Hk. unfold base_snapshot_by_hash. rewrite (surjective_pairing (lru_get _ _)).
  destruct (lru_get _ _).1 as [s'|]; [by eauto|]. unfold query_db_by_hash. cbn. rewrite Hk, decompress_compress. by eauto.
Qed.

Lemma base_insert_genesis P s :
  block_number s = 0 → db (base_insert true s P) !! block_hash s = Some (compress s).
Proof. intros E. unfold base_insert. rewrite E. apply lookup_insert_eq. Qed.

Lemma genesis_snapshot_of k h s :
  header_by_hash k = Some h → number h = 0 → genesis_snapshot parlia h = Ret (Some s) → true_snapshot (block_hash s) s.
Proof.
  intros Hk H0 Hg. pose proof (true_genesis _ _ _ Hk H0 Hg) as Hs.
  by rewrite (proj1 (true_block_id _ _ Hs)).
Qed.

Lemma init_genesis_coherent P k h o P' :
  header_by_hash k = Some h → number h = 0 → coherent P →
  init_genesis_snapshot true parlia h P = Ret (o, P') → coherent P' ∧ genesis_snapshot parlia h = Ret o
  ∧ ∀ s, o = Some s → db P' !! k = Some (compress s).
Proof.
  intros Hk H0 HP H. unfold init_genesis_snapshot in H. apply bind_Ret_inv in H as ([s|] & Hg & [= <- <-]); [|done].
  pose proof (genesis_snapshot_of _ _ _ Hk H0 Hg) as Hs. split; [by apply base_insert_coherent|]. split; [done|].
  intros s' [= <-]. destruct (genesis_snapshot_inv _ _ Hg) as [E1 E2].
  rewrite <- (ho_hash Hok _ _ Hk), <- E2. by apply base_insert_genesis.
Qed.

(** ** The walk and the rebuild *)

(** The headers of [hashes] lead from the block [k0] to the block [k]. *)
Inductive linked : B256 → list B256 → B256 → Prop :=
| linked_nil k : linked k [] k
| linked_cons k0 k1 h l k :
    header_by_hash k1 = Some h → parent_hash h = k0 → linked k1 l k → linked k0 (k1 :: l) k.

Lemma linked_snoc k0 l k h k' :
  linked k0 l k → header_by_hash k' = Some h → parent_hash h = k → linked k0 (l ++ [k']) k'.
Proof.
  intros Hl Hk <-. remember (parent_hash h) as p eqn:Hp. revert Hp.
  induction Hl as [k|k0 k1 h1 l k H1 H2 _ IH]; intros ->; [|by eapply linked_cons; eauto].
  eapply linked_cons; [done|done|constructor].
Qed.

Lemma walk_back_sound fuel k hashes P o P' :
  coherent P → walk_back fuel k hashes P = Ret (o, P') →
  coherent P' ∧ ∀ s l, o = Some (s, l) → ∃ k0 pre, l = pre ++ hashes ∧ true_snapshot k0 s ∧ linked k0 pre k.
Proof.
  revert k hashes P. induction fuel as [|fuel IH]; intros k hashes P HP H; [done|]. cbn in H.
  destruct (header_by_hash k) as [h|] eqn:Hk; [|by injection H as <- <-].
  apply bind_Ret_inv in H as ([o1 P1] & H1 & H).
  assert (HP1 : coherent P1).
  { destruct (Z.eqb_spec (number h) 0) as [H0|_]; [|by injection H1 as _ <-].
    by destruct (init_genesis_coherent _ _ _ _ _ Hk H0 HP H1) as (? & _). }
  destruct (base_snapshot_by_hash true k P1) as [o2 P2] eqn:H2.
  destruct (base_snapshot_coherent _ _ _ _ HP1 H2) as [HP2 Hs].
  destruct o2 as [s|].
  - injection H as <- <-. split; [done|]. intros s' l [= <- <-].
    exists k, []. split; [done|]. split; [by apply Hs|constructor].
  - destruct (IH _ _ _ HP2 H) as [HP' Hw]. split; [done|]. intros s l Hl.
    destruct (Hw s l Hl) as (k0 & pre & -> & H3 & H4). exists k0, (pre ++ [k]).
    split; [by rewrite <- app_assoc|]. split; [done|]. by eapply linked_snoc.
Qed.

(** A header of number 0 extends no snapshot. *)
Lemma apply_header_of k0 k s0 h s :
  true_snapshot k0 s0 → header_by_hash k = Some h → parent_hash h = k0 → apply_header s0 h = Ret (Some s) →
  true_snapshot k s.
Proof.
  intros H0 Hk <- Ha. eapply true_block; [done| |done|done]. intros Hn.
  destruct (apply_header_inv _ _ _ Ha) as (E & _ & _).
  destruct (true_block_id _ _ H0) as (_ & h0 & Hh0 & E0).
  pose proof (ho_number Hok _ _ Hh0) as Hr. rewrite E0, Hn in E. unfold U64_MAX in Hr.
  rewrite add64_small in E by (unfold is_u; lia). lia.
Qed.

Lemma rebuild_sound k0 hashes k s0 P o P' :
  coherent P → true_snapshot k0 s0 → linked k0 hashes k → rebuild hashes s0 P = Ret (o, P') →
  coherent P' ∧ ∀ s, o = Some s → true_snapshot k s.
Proof.
  intros HP Hs0 Hl. revert s0 P HP Hs0. induction Hl as [k|k0 k1 h l k Hk Hp _ IH]; intros s0 P HP Hs0 H; cbn [Provider.rebuild] in H.
  { injection H as <- <-. split; [done|]. by intros s [= <-]. }
  rewrite Hk in H. apply bind_Ret_inv in H as ([s|] & Ha & H); [|by injection H as <- <-].
  pose proof (apply_header_of _ _ _ _ _ Hs0 Hk Hp Ha) as Hs.
  assert (Hid : true_snapshot (block_hash s) s) by (by rewrite (proj1 (true_block_id _ _ Hs))).
  pose proof (insert_cache_only_coherent _ _ HP Hid) as HP1.
  destruct (is_multiple_of _ _); [|by apply (IH s _ HP1 Hs)].
  destruct (persist_to_db true s _) as [P2|] eqn:H2; [|done].
  apply (IH s P2 (persist_coherent _ _ _ HP1 Hid H2) Hs H).
Qed.

(** Conversely the walk and the rebuild succeed where a snapshot exists. *)
Inductive applies : Snapshot → list B256 → Snapshot → Prop :=
| applies_nil s : applies s [] s
| applies_cons s0 k h s1 l s :
    header_by_hash k = Some h → apply_header s0 h = Ret (Some s1) → applies s1 l s → applies s0 (k :: l) s.

Lemma applies_snoc s0 l s k h s' :
  applies s0 l s → header_by_hash k = Some h → apply_header s h = Ret (Some s') → applies s0 (l ++ [k]) s'.
Proof.
  intros Hl Hk Ha. revert Ha. induction Hl as [s|s0 k1 h1 s1 l s H1 H2 _ IH]; intros Ha.
  - eapply applies_cons; [done|done|constructor].
  - eapply applies_cons; [done|done|by apply IH].
Qed.

Lemma walk_back_complete k s hashes fuel P h :
  true_snapshot k s → header_by_hash k = Some h → number h < Z.of_nat fuel → coherent P →
  ∃ s0 pre P', walk_back fuel k hashes P = Ret (Some (s0, pre ++ hashes), P') ∧ applies s0 pre s.
Proof.
  intros Hs. revert hashes fuel P h. induction Hs as [k h s Hk H0 Hg|k h s0 s Hk Hn Hp IH Ha];
    intros hashes [|fuel] P h' Hk' Hf HP; [pose proof (ho_number Hok _ _ Hk'); lia| |
      pose proof (ho_number Hok _ _ Hk'); lia|]; rewrite Hk in Hk'; injection Hk' as <-; cbn; rewrite Hk.
  - rewrite H0. cbn.
    destruct (init_genesis_snapshot true parlia h P) as [[o P1]| | |] eqn:Hi;
      [|exfalso; revert Hi; unfold init_genesis_snapshot; by rewrite Hg..].
    destruct (init_genesis_coherent _ _ _ _ _ Hk H0 HP Hi) as (HP1 & Hg' & Hdb).
    assert (Eo : o = Some s) by congruence. cbn.
    destruct (base_snapshot_persisted P1 k s (Hdb _ Eo)) as (s' & P2 & H2). rewrite H2.
    destruct (base_snapshot_coherent _ _ _ _ HP1 H2) as [_ Hs'].
    rewrite (true_unique _ _ _ (Hs' s' eq_refl) (true_genesis _ _ _ Hk H0 Hg)).
    exists s, [], P2. split; [done|constructor].
  - rewrite (proj2 (Z.eqb_neq _ _) Hn). cbn.
    destruct (base_snapshot_by_hash true k P) as [[s'|] P1] eqn:H1;
      destruct (base_snapshot_coherent _ _ _ _ HP H1) as [HP1 Hs'].
    + rewrite (true_unique _ _ _ (Hs' s' eq_refl) (true_block _ _ _ _ Hk Hn Hp Ha)).
      exists s, [], P1. split; [done|constructor].
    + destruct (true_block_id _ _ Hp) as (_ & hp & Hhp & Ep).
      destruct (apply_header_inv _ _ _ Ha) as (E & _ & _).
      pose proof (ho_number Hok _ _ Hhp) as Hr. unfold U64_MAX in Hr.
      rewrite Ep, add64_small in E by (unfold is_u; lia).
      destruct (IH (k :: hashes) fuel P1 hp Hhp ltac:(lia) HP1) as (sb & pre & P' & Hw & Hap).
      exists sb, (pre ++ [k]), P'. split; [by rewrite <- app_assoc|]. by eapply applies_snoc.
Qed.

Lemma rebuild_complete s0 hashes s P : applies s0 hashes s → ∃ P', rebuild hashes s0 P = Ret (Some s, P').
Proof.
  intros Ha. revert P. induction Ha as [s|s0 k h s1 l s Hk H1 _ IH]; intros P; cbn [Provider.rebuild]; [by eauto|].
  rewrite Hk, H1. cbn [mbind comp_bind]. destruct (is_multiple_of _ _); apply IH.
Qed.

Section ByHash.
#[local] Notation by_hash :=
  (snapshot_by_hash true true parlia header_by_hash_from_provider header_by_number_from_provider reader).

Lemma by_hash_sound fuel k h P :
  header_by_hash k = Some h → coherent P →
  (∀ o P', by_hash fuel k P = Ret (o, P') → coherent P')
  ∧ ∀ s P', by_hash fuel k P = Ret (Some s, P') → true_snapshot k s.
Proof.
  intros Hk HP.
  enough (H : ∀ o P', by_hash fuel k P = Ret (o, P') → coherent P' ∧ ∀ s, o = Some s → true_snapshot k s).
  { split; [intros o P' Hr; by apply H in Hr as []|intros s P' Hr; apply H in Hr as [_ Hr]; by apply Hr]. }
  intros o P' H. unfold snapshot_by_hash in H.
  destruct (base_snapshot_by_hash true k P) as [[s|] P1] eqn:H1;
    destruct (base_snapshot_coherent _ _ _ _ HP H1) as [HP1 Hs1].
  { injection H as <- <-. split; [done|]. by intros s' [= <-]; apply Hs1. }
  rewrite Hk in H. destruct (Z.eqb_spec (number h) 0) as [H0|Hn].
  - destruct (init_genesis_coherent _ _ _ _ _ Hk H0 HP1 H) as (? & Hg & _). split; [done|].
    intros s ->. by eapply true_genesis.
  - apply bind_Ret_inv in H as ([o2 P2] & H2 & H).
    unfold try_rebuild in H2. apply bind_Ret_inv in H2 as ([o3 P3] & H3 & H2).
    destruct (walk_back_sound _ _ _ _ _ _ HP1 H3) as [HP3 Hw].
    assert (Hr : coherent P2 ∧ ∀ s, o2 = Some s → true_snapshot k s).
    { destruct o3 as [[s0 l]|]; [|by injection H2 as <- <-].
      destruct (Hw s0 l eq_refl) as (k0 & pre & -> & Hs0 & Hl). rewrite (ho_hash Hok _ _ Hk) in H2.
      exact (rebuild_sound _ _ _ _ _ _ _ HP3 Hs0 (linked_snoc _ _ _ _ _ Hl Hk eq_refl) H2). }
    destruct Hr as [HP2 Hs2], o2 as [s|]; injection H as <- <-; [|done].
    pose proof (Hs2 s eq_refl) as Hs. split; [|by intros s' [= <-]].
    apply base_insert_coherent; [done|]. by rewrite (proj1 (true_block_id _ _ Hs)).
Qed.

Lemma by_hash_complete fuel k h s P :
  header_by_hash k = Some h → number h <= Z.of_nat fuel → coherent P → true_snapshot k s →
  ∃ P', by_hash fuel k P = Ret (Some s, P').
Proof.
  intros Hk Hf HP Hs. unfold snapshot_by_hash.
  destruct (base_snapshot_by_hash true k P) as [[s'|] P1] eqn:H1;
    destruct (base_snapshot_coherent _ _ _ _ HP H1) as [HP1 Hs1].
  { rewrite (true_unique _ _ _ (Hs1 s' eq_refl) Hs). by eauto. }
  rewrite Hk. destruct Hs as [k h' s Hk' H0 Hg|k h' s0 s Hk' Hn Hp Ha]; rewrite Hk in Hk'; injection Hk' as <-.
  - rewrite H0. cbn. unfold init_genesis_snapshot. rewrite Hg. cbn. by eauto.
  - rewrite (proj2 (Z.eqb_neq _ _) Hn). unfold try_rebuild.
    destruct (true_block_id _ _ Hp) as (_ & hp & Hhp & Ep).
    destruct (apply_header_inv _ _ _ Ha) as (E & _ & _).
    pose proof (ho_number Hok _ _ Hhp) as Hr. unfold U64_MAX in Hr.
    rewrite Ep, add64_small in E by (unfold is_u; lia).
    destruct (walk_back_complete (parent_hash h) s0 [hash_slow h] fuel P1 hp Hp Hhp ltac:(lia) HP1)
      as (sb & pre & P2 & Hw & Hap).
    rewrite Hw. cbn [mbind comp_bind]. rewrite (ho_hash Hok _ _ Hk).
    destruct (rebuild_complete sb (pre ++ [k]) s P2 (applies_snoc _ _ _ _ _ _ Hap Hk Ha)) as [P3 H3].
    rewrite H3. cbn [mbind comp_bind]. by eauto.
Qed.

End ByHash.

(** C20. The stores are invisible: whatever the database and the cache hold,
    as long as they are coherent with the headers of the chain (what the provider
    stores is), [snapshot_by_hash] returns a
    snapshot for a block exactly when the chain from genesis to the block gives
    one, and it returns that one; fuel for one step per ancestor is enough.  What
    the call leaves in the stores is again right. *)
Theorem provider_transparent fuel k h P :
  header_by_hash k = Some h → number h <= Z.of_nat fuel → coherent P →
  (∀ s, true_snapshot k s ↔
     ∃ P', snapshot_by_hash true true parlia header_by_hash_from_provider header_by_number_from_provider reader
             fuel k P = Ret (Some s, P'))
  ∧ ∀ o P', snapshot_by_hash true true parlia header_by_hash_from_provider header_by_number_from_provider reader
              fuel k P = Ret (o, P') → coherent P'.
Proof.
  intros Hk Hf HP.
  destruct (by_hash_sound fuel k h P Hk HP) as [Hco Hs]. split; [|exact Hco].
  intros s. split; [|by intros [P' H]; eauto]. intros Hof. by apply by_hash_complete with h.
Qed.

End Transparent.

(** ** Checkpoints are looked up by number *)

Section Checkpoint.
Context `{FCA : ForkConditionApi} {CS : Type} `{!BscHardforks CS}.
Context `{SL : Sealable} `{AR : AttestationRlp} `{HL : !LruApi Header}.
Variable parlia : Parlia CS.
Variable header_by_number_from_provider : Z → option Header.
Variable reader : HeaderCacheReader.

(** Where new validators take effect they are those of the canonical
    header with the number of the checkpoint, not those of the checkpoint among
    the ancestors of the block: for a block on another branch two nodes with
    different canonical chains compute snapshots with different validators. *)
Theorem side_fork_validators s0 h cp info s :
  0 < number h → number h mod epoch_num s0 = miner_history_check_len s0 →
  cached_header_by_number header_by_number_from_provider reader (sub64 (number h) (miner_history_check_len s0)) = Some cp →
  parse_validators_from_header parlia cp (epoch_num s0) = Ret info → consensus_addrs info ≠ [] →
  bohr_at (spec parlia) h = false →
  apply_header parlia header_by_number_from_provider reader s0 h = Ret (Some s) →
  validators s = sort (consensus_addrs info).
Proof.
  intros Hpos Hm Hcp Hparse Hne Hbohr H. unfold apply_header, boundary_validators in H.
  apply bind_Ret_inv in H as (o & Ho & H). apply bind_Ret_inv in Ho as (q & Hq & Ho).
  unfold rem_u in Hq. destruct (Z.eqb_spec (epoch_num s0) 0); [done|]. injection Hq as <-.
  rewrite (proj2 (Z.ltb_lt _ _) Hpos), Hm, Z.eqb_refl, Hcp, Hparse in Ho. cbn [andb ok mbind comp_bind] in Ho.
  apply bind_Ret_inv in Ho as (t & _ & Ho). destruct t as [t|]; injection Ho as <-; [|done].
  apply bind_Ret_inv in H as ([att|] & _ & H); [|done].
  destruct (apply_Some_inv _ _ _ _ _ _ _ _ _ H) as (_ & _ & Hs). rewrite Hbohr in Hs.
  unfold switch_validators in Hs. rewrite bool_decide_eq_false_2 in Hs by done. cbn [negb orb andb] in Hs.
  apply bind_Ret_inv in Hs as ([l m] & Hi & [= <-]). cbn.
  unfold index_validators in Hi. destruct (vote_addrs info) as [votes|].
  - apply bind_Ret_inv in Hi as (? & _ & Hi). by apply bind_Ret_inv in Hi as (? & _ & [= <- _]).
  - by injection Hi as <- _.
Qed.

End Checkpoint.

(** * Witnesses *)

Import RefHardforks RefLibraries.
#[local] Ltac ev := vm_compute; first [reflexivity | discriminate].

(** Blobs that hold the snapshot itself, and headers identified by their time. *)
#[local] Instance time_hash : Sealable := timestamp.

#[local] Instance info_eq_dec : EqDecision ValidatorInfo.
Proof. solve_decision. Defined.
#[local] Instance info_countable : Countable ValidatorInfo.
Proof.
  refine (inj_countable' (λ i, (v_index i, vote_addr i)) (λ p, {| v_index := p.1; vote_addr := p.2 |}) _).
  by intros [].
Defined.
#[local] Instance vote_data_eq_dec : EqDecision VoteData.
Proof. solve_decision. Defined.
#[local] Instance vote_data_countable : Countable VoteData.
Proof.
  refine (inj_countable' (λ d, (source_number d, source_hash d, target_number d, target_hash d))
    (λ p, {| source_number := p.1.1.1; source_hash := p.1.1.2; target_number := p.1.2; target_hash := p.2 |}) _).
  by intros [].
Defined.

Definition snapshot_fields (s : Snapshot) :=
  (epoch_num s, block_number s, block_hash s, validators s, validators_map s, recent_proposers s, vote_data s,
   turn_length s, block_interval s).
Definition snapshot_from p : Snapshot :=
  let '(e, n, h, v, m, r, d, t, i) := p in
  {| epoch_num := e; block_number := n; block_hash := h; validators := v; validators_map := m;
     recent_proposers := r; vote_data := d; turn_length := t; block_interval := i |}.

#[local] Instance ref_codec : SnapshotCodec := {|
  compress s := [Zpos (encode (snapshot_fields s))];
  decompress l := match l with [Zpos p] => snapshot_from <$> decode p | _ => None end;
|}.
#[local] Instance ref_codec_laws : SnapshotCodecLaws ref_codec.
Proof. constructor. intros s. cbn. rewrite decode_encode. by destruct s. Qed.

(** A chain with an epoch of two blocks and one validator; a second block 2
    names another validator. *)
Definition two_block_epoch : Parlia BscChainSpec := Build_Parlia mainnet_spec 2.
Definition listing (vals : list Address) (h : Header) : Header :=
  set_beneficiary 10 (set_extra_data (replicate 32 0 ++ mjoin (be_encode 20 <$> vals) ++ replicate 65 0) h).
Definition chain : list Header :=
  [listing [10] (test_header 0 100 0); listing [] (test_header 1 101 100);
   listing [20] (test_header 2 102 101); listing [30] (test_header 2 103 101)].
Definition by_hash (k : B256) : option Header := List.find (λ h, timestamp h =? k) chain.
Definition by_number (branch : nat) (n : Z) : option Header := if n =? 2 then chain !! branch else chain !! Z.to_nat n.
Definition no_cache : HeaderCacheReader :=
  {| blocknumber_to_header := (∅ : gmap Z Header); blockhash_to_header := (∅ : gmap Z Header) |}.
Definition no_snapshots : DbSnapshotProvider := {| db := ∅; cache_by_hash := (∅ : gmap B256 Snapshot) |}.

Definition the {A} (d : A) (c : comp Empty_set (option A)) : A := match c with Ret (Some a) => a | _ => d end.
Definition snap_0 : Snapshot :=
  the (three 0) (genesis_snapshot two_block_epoch (default (test_header 0 0 0) (by_hash 100))).
Definition snap_1 : Snapshot :=
  the (three 0) (apply_header two_block_epoch (by_number 2) no_cache snap_0 (default (test_header 0 0 0) (by_hash 101))).
Definition snap_2 (branch : nat) : Snapshot :=
  the (three 0)
    (apply_header two_block_epoch (by_number branch) no_cache snap_1 (default (test_header 0 0 0) (by_hash 103))).

Lemma chain_ok : headers_ok by_hash no_cache.
Proof.
  assert (E : ∀ k, cached_header_by_hash by_hash no_cache k = by_hash k).
  { intros k. unfold cached_header_by_hash, get_header_by_hash. cbn [no_cache lru_get ref_lru blockhash_to_header].
    by rewrite lookup_empty. }
  split; intros k h; rewrite E; unfold by_hash; intros H.
  - apply find_some in H as [_ H%Z.eqb_eq]. exact H.
  - apply find_some in H as [H _]. cbn in H. unfold U64_MAX. repeat destruct H as [<-|H]; try done; cbn; lia.
Qed.

Lemma no_snapshots_coherent : coherent two_block_epoch by_hash (by_number 2) no_cache no_snapshots.
Proof. split; cbn; intros *; rewrite lookup_empty; discriminate. Qed.

(** Block 1 is rebuilt from nothing, and from the stores that this left. *)
Lemma provider_transparent_witness :
  ∃ P' P'', snapshot_by_hash true true two_block_epoch by_hash (by_number 2) no_cache 1 101 no_snapshots
            = Ret (Some snap_1, P')
  ∧ snapshot_by_hash true true two_block_epoch by_hash (by_number 2) no_cache 1 101 P' = Ret (Some snap_1, P'').
Proof.
  assert (Hs : true_snapshot two_block_epoch by_hash (by_number 2) no_cache 101 snap_1).
  { apply (true_block _ _ _ _ 101 (listing [] (test_header 1 101 100)) snap_0 snap_1); [ev|ev| |ev].
    apply (true_genesis _ _ _ _ 100 (listing [10] (test_header 0 100 0)) snap_0); ev. }
  destruct (provider_transparent two_block_epoch by_hash (by_number 2) no_cache chain_ok 1 101
    (default (test_header 0 0 0) (by_hash 101)) no_snapshots) as [H1 H2]; [ev|ev|exact no_snapshots_coherent|].
  destruct (proj1 (H1 snap_1) Hs) as [P' HP'].
  destruct (provider_transparent two_block_epoch by_hash (by_number 2) no_cache chain_ok 1 101
    (default (test_header 0 0 0) (by_hash 101)) P') as [H3 _]; [ev|ev|exact (H2 _ _ HP')|].
  destruct (proj1 (H3 snap_1) Hs) as [P'' HP'']. by exists P', P''.
Defined.

(** The block of time 103 names validator 30; a node on the branch of 102
    computes a snapshot with validator 20 for it. *)
Lemma side_fork_validators_witness : validators (snap_2 2) = [20] ∧ validators (snap_2 3) = [30].
Proof.
  split.
  - apply (side_fork_validators two_block_epoch (by_number 2) no_cache snap_1 (listing [30] (test_header 2 103 101))
      (listing [20] (test_header 2 102 101)) {| consensus_addrs := [20]; vote_addrs := None |}); ev.
  - apply (side_fork_validators two_block_epoch (by_number 3) no_cache snap_1 (listing [30] (test_header 2 103 101))
      (listing [30] (test_header 2 103 101)) {| consensus_addrs := [30]; vote_addrs := None |}); ev.
Defined.
