(* ===== verification/Precompiles.v ===== *)
(** * The precompiled contracts of BSC ([src/evm/precompiles])

    The contracts at the addresses 100 to 105 and the table of contracts of
    each fork: Tendermint headers and IAVL proofs (whose verification is a
    library), BLS signatures, CometBFT light blocks, double-sign evidence and
    Tendermint secp256k1 signatures.  Byte strings are lists of bytes. *)

From S2P Require Import Prelude Hardforks Types Snapshot HeaderExtra.

(** ** Results ([revm::precompile], [error.rs]) *)

Inductive PrecompileError :=
| OutOfGas
| Other (msg : string).

Record PrecompileOutput := {
  out_gas_used : Z;
  out_bytes : list Z;
  reverted : bool;
}.
Definition new_output (gas : Z) (bytes : list Z) : PrecompileOutput :=
  {| out_gas_used := gas; out_bytes := bytes; reverted := false |}.
Definition new_reverted (gas : Z) (bytes : list Z) : PrecompileOutput :=
  {| out_gas_used := gas; out_bytes := bytes; reverted := true |}.

Notation PrecompileResult := (comp PrecompileError PrecompileOutput).

Inductive BscPrecompileError :=
| InvalidInput
| CometBftApplyBlockFailed
| CometBftEncodeConsensusStateFailed
| DoubleSignInvalidEvidence.

Definition precompile_error (e : BscPrecompileError) : PrecompileError :=
  match e with
  | InvalidInput => Other "invalid input"
  | CometBftApplyBlockFailed => Other "apply block failed"
  | CometBftEncodeConsensusStateFailed => Other "encode consensus state failed"
  | DoubleSignInvalidEvidence => Other "double sign invalid evidence"
  end.

(** ** Tendermint headers and IAVL proofs ([tendermint.rs], [iavl.rs]) *)

(** The library [tendermint::lite]: what it leaves in the output buffer, or the
    reason of a failure. *)
Class TendermintLite := {
  tm_header_verifier_execute : list Z → list Z + string;
  iavl_proof_execute : list Z → bool → bool → bool → list Z + string;
}.

Section Lite.
Context `{TM : TendermintLite}.

Definition TENDERMINT_HEADER_VALIDATION_BASE : Z := 3000.

Definition tendermint_header_validation_run_nano (input : list Z) (gas_limit : Z) : PrecompileResult :=
  Err (Other "suspended").

Definition tendermint_header_validation_run (input : list Z) (gas_limit : Z) : PrecompileResult :=
  if gas_limit <? TENDERMINT_HEADER_VALIDATION_BASE then Err OutOfGas
  else match tm_header_verifier_execute input with
       | inl output => Ret (new_output TENDERMINT_HEADER_VALIDATION_BASE output)
       | inr str => Err (Other str)
       end.

Definition IAVL_PROOF_VALIDATION_BASE : Z := 3000.

Definition iavl_proof_validation_run_inner (input : list Z) (gas_limit : Z) (is_moran is_planck is_plato : bool)
    : PrecompileResult :=
  if gas_limit <? IAVL_PROOF_VALIDATION_BASE then Err OutOfGas
  else match iavl_proof_execute input is_moran is_planck is_plato with
       | inl output => Ret (new_output IAVL_PROOF_VALIDATION_BASE output)
       | inr str => Err (Other str)
       end.

Definition iavl_proof_validation_run (input : list Z) (gas_limit : Z) : PrecompileResult :=
  iavl_proof_validation_run_inner input gas_limit false false false.
Definition iavl_proof_validation_run_nano (input : list Z) (gas_limit : Z) : PrecompileResult :=
  Err (Other "suspended").
Definition iavl_proof_validation_run_moran (input : list Z) (gas_limit : Z) : PrecompileResult :=
  iavl_proof_validation_run_inner input gas_limit true false false.
Definition iavl_proof_validation_run_planck (input : list Z) (gas_limit : Z) : PrecompileResult :=
  iavl_proof_validation_run_inner input gas_limit false true false.
Definition iavl_proof_validation_run_plato (input : list Z) (gas_limit : Z) : PrecompileResult :=
  iavl_proof_validation_run_inner input gas_limit false false true.

End Lite.

(** ** BLS signatures ([bls.rs]) *)

Definition BLS_MSG_HASH_LENGTH : Z := 32.
Definition BLS_SIGNATURE_LENGTH : Z := 96.
Definition BLS_SINGLE_PUBKEY_LENGTH : Z := 48.
Definition BLS_SIGNATURE_VALIDATION_BASE : Z := 1000.
Definition BLS_SIGNATURE_VALIDATION_PER_KER : Z := 3500.

(** The library [bls_on_arkworks], under the domain separation tag
    [DST_ETHEREUM]. *)
Class BlsArkworks := {
  signature_to_point : list Z → bool;
  key_validate : list Z → bool;
  ark_verify : list Z → list Z → list Z → bool;
  ark_aggregate_verify : list (list Z) → list (list Z) → list Z → bool;
}.

(** Whether the input holds a hash, a signature and whole public keys. *)
Definition bls_input_malformed (input : list Z) : bool :=
  let msg_length := BLS_MSG_HASH_LENGTH + BLS_SIGNATURE_LENGTH in
  (zlen input <=? msg_length)
  || negb (is_multiple_of (zlen input - msg_length) BLS_SINGLE_PUBKEY_LENGTH).

Definition calc_gas_cost (input : list Z) : Z :=
  if bls_input_malformed input then BLS_SIGNATURE_VALIDATION_BASE
  else
    let pub_key_number :=
      (zlen input - (BLS_MSG_HASH_LENGTH + BLS_SIGNATURE_LENGTH)) / BLS_SINGLE_PUBKEY_LENGTH in
    BLS_SIGNATURE_VALIDATION_BASE + BLS_SIGNATURE_VALIDATION_PER_KER * pub_key_number.

(** The loop over the public keys, stopped by the first invalid one. *)
Fixpoint read_keys `{BA : BlsArkworks} (count : nat) (i : Z) (pub_keys_data : list Z)
    : comp PrecompileError (option (list (list Z))) :=
  match count with
  | O => Ret (Some [])
  | S count =>
      pub_key ← slice pub_keys_data (i * BLS_SINGLE_PUBKEY_LENGTH) ((i + 1) * BLS_SINGLE_PUBKEY_LENGTH);
      if negb (key_validate pub_key) then Ret None
      else
        o ← read_keys count (i + 1) pub_keys_data;
        match o with Some keys => Ret (Some (pub_key :: keys)) | None => Ret None end
  end.

Definition bls_signature_validation_run `{BA : BlsArkworks} (input : list Z) (gas_limit : Z) : PrecompileResult :=
  let cost := calc_gas_cost input in
  if gas_limit <? cost then Err OutOfGas
  else
    let revert := Ret (new_reverted cost []) in
    let msg_and_sig_length := BLS_MSG_HASH_LENGTH + BLS_SIGNATURE_LENGTH in
    if bls_input_malformed input then revert
    else
      msg_hash ← slice input 0 BLS_MSG_HASH_LENGTH;
      signature ← slice input BLS_MSG_HASH_LENGTH msg_and_sig_length;
      pub_keys_data ← slice input msg_and_sig_length (zlen input);
      if negb (signature_to_point signature) then revert
      else
        let pub_key_count := (zlen input - msg_and_sig_length) / BLS_SINGLE_PUBKEY_LENGTH in
        o ← read_keys (Z.to_nat pub_key_count) 0 pub_keys_data;
        match o with
        | None => revert
        | Some [] => revert
        | Some (key :: keys as pub_keys) =>
            let invalid :=
              (match keys with [] => negb (ark_verify key msg_hash signature) | _ => false end)
              || negb (ark_aggregate_verify pub_keys ((λ _, msg_hash) <$> pub_keys) signature) in
            Ret (new_output cost (if invalid then [] else [1]))
        end.

(** ** Tendermint secp256k1 signatures ([tm_secp256k1.rs]) *)

Definition SECP256K1_PUBKEY_LENGTH : Z := 33.
Definition SECP256K1_SIGNATURE_LENGTH : Z := 64.
Definition SECP256K1_SIGNATURE_MSGHASH_LENGTH : Z := 32.
Definition TM_SECP256K1_SIGNATURE_RECOVER_BASE : Z := 3000.

(** The libraries [secp256k1] and [tendermint]: reading a compressed key and a
    signature, verification, and the account of a key. *)
Class TmSecp := {
  TmKey : Type;
  TmSignature : Type;
  tm_key_from_slice : list Z → option TmKey;
  tm_signature_from_compact : list Z → option TmSignature;
  tm_verify : TmSignature → list Z → TmKey → bool;
  tm_account_id : list Z → option (list Z);
}.

Definition tm_secp256k1_signature_recover_run `{TS : TmSecp} (input : list Z) (gas_limit : Z) : PrecompileResult :=
  if gas_limit <? TM_SECP256K1_SIGNATURE_RECOVER_BASE then Err OutOfGas
  else if negb (zlen input =? SECP256K1_PUBKEY_LENGTH + SECP256K1_SIGNATURE_LENGTH
                             + SECP256K1_SIGNATURE_MSGHASH_LENGTH)
  then Err (Other "invalid input")
  else
    key_bytes ← slice input 0 SECP256K1_PUBKEY_LENGTH;
    public_key ← ok_or (tm_key_from_slice key_bytes) (Other "invalid pubkey");
    message ← slice input (SECP256K1_PUBKEY_LENGTH + SECP256K1_SIGNATURE_LENGTH) (zlen input);
    sig_bytes ← slice input SECP256K1_PUBKEY_LENGTH (SECP256K1_PUBKEY_LENGTH + SECP256K1_SIGNATURE_LENGTH);
    sig ← ok_or (tm_signature_from_compact sig_bytes) (Other "invalid signature");
    if negb (tm_verify sig message public_key) then Err (Other "invalid signature")
    else
      account ← ok_or (tm_account_id key_bytes) (Other "invalid pubkey");
      Ret (new_output TM_SECP256K1_SIGNATURE_RECOVER_BASE account).

(** ** Double-sign evidence ([double_sign.rs]) *)

Definition DOUBLE_SIGN_EVIDENCE_VALIDATION_BASE : Z := 10000.
Definition EXTRA_SEAL_LENGTH : Z := 65.

Record DoubleSignEvidence := {
  ev_chain_id : Z;
  header_bytes1 : list Z;
  header_bytes2 : list Z;
}.

(** [Header] of [double_sign.rs]: the fifteen fields of a header before
    London. *)
Record EvidenceHeader := {
  ev_parent_hash : B256;
  ev_uncle_hash : B256;
  ev_coinbase : Address;
  ev_root : B256;
  ev_tx_hash : B256;
  ev_receipt_hash : B256;
  ev_bloom : Z;
  ev_difficulty : Z;
  ev_number : Z;
  ev_gas_limit : Z;
  ev_gas_used : Z;
  ev_time : Z;
  ev_extra : list Z;
  ev_mix_digest : B256;
  ev_nonce : Z;
}.

(** The derived [Decodable] of the two records, and [ecrecover] of
    [revm::precompile::secp256k1], whose result is a word of 32 bytes. *)
Class EvidenceApi := {
  decode_evidence : list Z → option DoubleSignEvidence;
  decode_evidence_header : list Z → option EvidenceHeader;
  ecrecover : list Z → Z → B256 → option (list Z);
}.
Class EvidenceLaws `(EvidenceApi) : Prop := {
  ecrecover_length sig recid msg w : ecrecover sig recid msg = Some w → zlen w = 32;
}.

Section DoubleSign.
Context `{RL : Rlp} `{KE : Keccak} `{EA : EvidenceApi}.

(** [alloy_rlp::encode] of [SealContent]: the list of its fields. *)
Definition encode_seal_content (chain_id : Z) (header : EvidenceHeader) (extra : list Z) : list Z :=
  let payload :=
    rlp_uint chain_id
    ++ rlp_bytes (be_encode 32 (ev_parent_hash header))
    ++ rlp_bytes (be_encode 32 (ev_uncle_hash header))
    ++ rlp_bytes (be_encode 20 (ev_coinbase header))
    ++ rlp_bytes (be_encode 32 (ev_root header))
    ++ rlp_bytes (be_encode 32 (ev_tx_hash header))
    ++ rlp_bytes (be_encode 32 (ev_receipt_hash header))
    ++ rlp_bytes (be_encode 256 (ev_bloom header))
    ++ rlp_uint (ev_difficulty header)
    ++ rlp_uint (ev_number header)
    ++ rlp_uint (ev_gas_limit header)
    ++ rlp_uint (ev_gas_used header)
    ++ rlp_uint (ev_time header)
    ++ rlp_bytes extra
    ++ rlp_bytes (be_encode 32 (ev_mix_digest header))
    ++ rlp_bytes (be_encode 8 (ev_nonce header)) in
  rlp_list_header (zlen payload) ++ payload.

Definition seal_hash {E} (header : EvidenceHeader) (chain_id : Z) : comp E B256 :=
  extra ← slice (ev_extra header) 0 (sub64 (zlen (ev_extra header)) EXTRA_SEAL_LENGTH);
  Ret (keccak256 (encode_seal_content chain_id header extra)).

Definition invalid_evidence {A} : comp PrecompileError A := Err (precompile_error DoubleSignInvalidEvidence).

(** The checks on two decoded headers, and the signers recovered from them;
    [None] reverts. *)
Definition check_evidence (chain_id : Z) (header1 header2 : EvidenceHeader)
    : comp PrecompileError (option (list Z * list Z)) :=
  if negb (ev_number header1 =? ev_number header2) then invalid_evidence
  else if negb (ev_parent_hash header1 =? ev_parent_hash header2) then invalid_evidence
  else if (zlen (ev_extra header1) <? EXTRA_SEAL_LENGTH) || (zlen (ev_extra header2) <? EXTRA_SEAL_LENGTH)
  then invalid_evidence
  else
    let len1 := zlen (ev_extra header1) in
    let len2 := zlen (ev_extra header2) in
    sig1 ← slice (ev_extra header1) (len1 - EXTRA_SEAL_LENGTH) len1;
    sig2 ← slice (ev_extra header2) (len2 - EXTRA_SEAL_LENGTH) len2;
    if bool_decide (sig1 = sig2) then invalid_evidence
    else
      msg_hash1 ← seal_hash header1 chain_id;
      msg_hash2 ← seal_hash header2 chain_id;
      if msg_hash1 =? msg_hash2 then invalid_evidence
      else
        recid1 ← index sig1 64; s1 ← slice sig1 0 64;
        match ecrecover s1 recid1 msg_hash1 with
        | None => Ret None
        | Some addr1 =>
            recid2 ← index sig2 64; s2 ← slice sig2 0 64;
            match ecrecover s2 recid2 msg_hash2 with
            | None => Ret None
            | Some addr2 => Ret (Some (addr1, addr2))
            end
        end.

Definition double_sign_evidence_validation_run (input : list Z) (gas_limit : Z) : PrecompileResult :=
  if gas_limit <? DOUBLE_SIGN_EVIDENCE_VALIDATION_BASE then Err OutOfGas
  else
    let revert := Ret (new_reverted DOUBLE_SIGN_EVIDENCE_VALIDATION_BASE []) in
    match decode_evidence input with
    | None => revert
    | Some evidence =>
        match decode_evidence_header (header_bytes1 evidence), decode_evidence_header (header_bytes2 evidence) with
        | Some header1, Some header2 =>
            o ← check_evidence (ev_chain_id evidence) header1 header2;
            match o with
            | None => revert
            | Some (addr1, addr2) =>
                if negb (bool_decide (addr1 = addr2)) then invalid_evidence
                else
                  signer ← slice addr1 12 (zlen addr1);
                  let res := signer ++ replicate 24 0 ++ be_encode 8 (ev_number header1) in
                  Ret (new_output DOUBLE_SIGN_EVIDENCE_VALIDATION_BASE res)
            end
        | _, _ => revert
        end
    end.

End DoubleSign.

(** ** CometBFT light blocks ([cometbft.rs]) *)

Definition UINT64_TYPE_LENGTH : Z := 8.
Definition CONSENSUS_STATE_LENGTH_BYTES_LENGTH : Z := 32.
Definition VALIDATE_RESULT_METADATA_LENGTH : Z := 32.
Definition CHAIN_ID_LENGTH : Z := 32.
Definition HEIGHT_LENGTH : Z := 8.
Definition VALIDATOR_SET_HASH_LENGTH : Z := 32.
Definition VALIDATOR_PUBKEY_LENGTH : Z := 32.
Definition VALIDATOR_VOTING_POWER_LENGTH : Z := 8.
Definition RELAYER_ADDRESS_LENGTH : Z := 20.
Definition RELAYER_BLS_KEY_LENGTH : Z := 48.
Definition SINGLE_VALIDATOR_BYTES_LENGTH : Z :=
  VALIDATOR_PUBKEY_LENGTH + VALIDATOR_VOTING_POWER_LENGTH + RELAYER_ADDRESS_LENGTH + RELAYER_BLS_KEY_LENGTH.
Definition MAX_CONSENSUS_STATE_LENGTH : Z :=
  CHAIN_ID_LENGTH + HEIGHT_LENGTH + VALIDATOR_SET_HASH_LENGTH + 99 * SINGLE_VALIDATOR_BYTES_LENGTH.
Definition COMETBFT_LIGHT_BLOCK_VALIDATION_BASE : Z := 3000.

(** [String::from_utf8_lossy] on bytes: each maximal ill-formed part becomes
    the replacement character. *)
Definition REPLACEMENT : list Z := [239; 191; 189].
Definition continuation (b : Z) : bool := (128 <=? b) && (b <=? 191).

(** The width a first byte announces, and the range of the second byte. *)
Definition utf8_width (b : Z) : nat :=
  if (194 <=? b) && (b <=? 223) then 2%nat
  else if (224 <=? b) && (b <=? 239) then 3%nat
  else if (240 <=? b) && (b <=? 244) then 4%nat else O.
Definition second_ok (first b : Z) : bool :=
  if first =? 224 then (160 <=? b) && (b <=? 191)
  else if first =? 237 then (128 <=? b) && (b <=? 159)
  else if first =? 240 then (144 <=? b) && (b <=? 191)
  else if first =? 244 then (128 <=? b) && (b <=? 143)
  else continuation b.

(** The bytes after the first of a character of the given width that are well
    formed. *)
Fixpoint good_tail (n : nat) (l : list Z) : nat :=
  match n, l with
  | S n, b :: l => if continuation b then S (good_tail n l) else O
  | _, _ => O
  end.
Definition good_part (first : Z) (l : list Z) : nat :=
  match utf8_width first, l with
  | S (S n), b :: l => if second_ok first b then S (good_tail n l) else O
  | _, _ => O
  end.

Fixpoint utf8_lossy (fuel : nat) (l : list Z) : list Z :=
  match fuel, l with
  | S fuel, b :: l =>
      if b <? 128 then b :: utf8_lossy fuel l
      else
        let k := good_part b l in
        if bool_decide (utf8_width b = S k ∧ k ≠ O)
        then b :: take k l ++ utf8_lossy fuel (drop k l)
        else REPLACEMENT ++ utf8_lossy fuel (drop k l)
  | _, _ => []
  end.
Definition from_utf8_lossy (l : list Z) : list Z := utf8_lossy (length l) l.

(** [trim_end_matches('\0')]. *)
Fixpoint drop_zeros (l : list Z) : list Z :=
  match l with b :: l' => if b =? 0 then drop_zeros l' else l | [] => [] end.
Definition trim_end_zeros (l : list Z) : list Z := reverse (drop_zeros (reverse l)).

(** The library [cometbft]: keys, validator sets (kept in an order of their
    own), the wire format and the predicates on signed headers. *)
Class CometKeys := {
  EdKey : Type;
  from_raw_ed25519 : list Z → option EdKey;
  key_to_bytes : EdKey → list Z;
}.
Class CometKeysLaws `(CometKeys) : Prop := {
  ed25519_roundtrip k : from_raw_ed25519 (key_to_bytes k) = Some k;
  ed25519_length k : zlen (key_to_bytes k) = 32;
}.

Record CometValidator `{CK : CometKeys} := {
  pub_key : EdKey;
  power : Z;
  bls_key : list Z;
  relayer_address : list Z;
}.

Class CometApi `{CK : CometKeys} := {
  without_proposer : list CometValidator → list CometValidator;
  set_hash : list CometValidator → list Z;
  TmLightBlock : Type;
  TmSignedHeader : Type;
  TmValidatorSet : Type;
  SignedHeader : Type;
  merge_light_block : list Z → option TmLightBlock;
  pb_signed_header : TmLightBlock → option TmSignedHeader;
  pb_validator_set : TmLightBlock → option TmValidatorSet;
  signed_header_try_from : TmSignedHeader → option SignedHeader;
  set_try_from : TmValidatorSet → option (list CometValidator);
  sh_height : SignedHeader → Z;
  sh_chain_id : SignedHeader → list Z;
  sh_validators_hash : SignedHeader → list Z;
  sh_next_validators_hash : SignedHeader → list Z;
  sufficient_overlap : SignedHeader → list CometValidator → Z * Z → bool;
}.
(** An empty message of the wire format has no fields. *)
Class CometLaws `{CK : CometKeys} `(!CometApi) : Prop := {
  merge_empty : ∃ pb, merge_light_block [] = Some pb ∧ pb_signed_header pb = None;
}.

Section Comet.
Context `{CK : CometKeys} `{CA : !CometApi}.

Record ConsensusState := {
  cs_chain_id : list Z;
  cs_height : Z;
  next_validator_set_hash : list Z;
  cs_validators : list CometValidator;
}.

Record LightBlock := {
  lb_signed_header : SignedHeader;
  lb_validators : list CometValidator;
}.

#[local] Notation fails e := (Err (precompile_error e)).

Definition convert_light_block_from_proto (light_block_proto : TmLightBlock) : comp PrecompileError LightBlock :=
  pb ← unwrap (pb_signed_header light_block_proto);
  signed_header ← ok_or (signed_header_try_from pb) (precompile_error InvalidInput);
  pb ← unwrap (pb_validator_set light_block_proto);
  validator_set ← ok_or (set_try_from pb) (precompile_error InvalidInput);
  Ret {| lb_signed_header := signed_header; lb_validators := validator_set |}.

Definition TWO_THIRDS : Z * Z := (2, 3).
Definition ONE_THIRD : Z * Z := (1, 3).

Definition apply_light_block (self : ConsensusState) (light_block : LightBlock)
    : comp PrecompileError (bool * ConsensusState) :=
  let sh := lb_signed_header light_block in
  if sh_height sh <=? cs_height self then fails InvalidInput
  else if negb (bool_decide (sh_chain_id sh = cs_chain_id self)) then fails InvalidInput
  else
    _ ← (if add64 (cs_height self) 1 =? sh_height sh then
           if negb (bool_decide (next_validator_set_hash self = sh_validators_hash sh))
           then fails CometBftApplyBlockFailed
           else if negb (sufficient_overlap sh (lb_validators light_block) TWO_THIRDS)
           then fails CometBftApplyBlockFailed else Ret tt
         else if negb (sufficient_overlap sh (cs_validators self) ONE_THIRD) then fails CometBftApplyBlockFailed
         else if negb (sufficient_overlap sh (lb_validators light_block) TWO_THIRDS)
         then fails CometBftApplyBlockFailed else Ret tt);
    let validator_set_changed := negb (bool_decide (set_hash (cs_validators self) = sh_validators_hash sh)) in
    Ret (validator_set_changed,
         {| cs_chain_id := cs_chain_id self; cs_height := sh_height sh;
            next_validator_set_hash := sh_next_validators_hash sh; cs_validators := lb_validators light_block |}).

(** [output[pos..pos + n].copy_from_slice(bytes)] panics on another length. *)
Definition copy_exact {E} (n : Z) (bytes : list Z) : comp E (list Z) :=
  if zlen bytes =? n then Ret bytes else Panic.

Definition encode_validator {E} (validator : CometValidator) : comp E (list Z) :=
  key ← copy_exact VALIDATOR_PUBKEY_LENGTH (key_to_bytes (pub_key validator));
  address ← copy_exact RELAYER_ADDRESS_LENGTH (relayer_address validator);
  bls ← copy_exact RELAYER_BLS_KEY_LENGTH (bls_key validator);
  Ret (key ++ be_encode 8 (power validator) ++ address ++ bls).

Definition encode (self : ConsensusState) : comp PrecompileError (list Z) :=
  let serialize_length :=
    CHAIN_ID_LENGTH + HEIGHT_LENGTH + VALIDATOR_SET_HASH_LENGTH
    + zlen (cs_validators self) * SINGLE_VALIDATOR_BYTES_LENGTH in
  if MAX_CONSENSUS_STATE_LENGTH <? serialize_length then fails CometBftEncodeConsensusStateFailed
  else if CHAIN_ID_LENGTH <? zlen (cs_chain_id self) then fails CometBftEncodeConsensusStateFailed
  else
    let filled_chain_id := cs_chain_id self ++ replicate (32 - length (cs_chain_id self)) 0 in
    hash ← copy_exact VALIDATOR_SET_HASH_LENGTH (next_validator_set_hash self);
    validators ← mapM encode_validator (cs_validators self);
    Ret (filled_chain_id ++ be_encode 8 (cs_height self) ++ hash ++ mjoin validators).

Definition decode_validator (validator : list Z) : comp PrecompileError CometValidator :=
  power_bytes ← slice validator VALIDATOR_PUBKEY_LENGTH (VALIDATOR_PUBKEY_LENGTH + VALIDATOR_VOTING_POWER_LENGTH);
  let voting_power := be_decode power_bytes in
  let pos := VALIDATOR_PUBKEY_LENGTH + VALIDATOR_VOTING_POWER_LENGTH in
  address ← slice validator pos (pos + RELAYER_ADDRESS_LENGTH);
  bls ← slice validator (pos + RELAYER_ADDRESS_LENGTH) (zlen validator);
  key_bytes ← slice validator 0 VALIDATOR_PUBKEY_LENGTH;
  pk ← ok_or (from_raw_ed25519 key_bytes) (precompile_error InvalidInput);
  Ret {| pub_key := pk; power := wrapu 32 voting_power; bls_key := bls; relayer_address := address |}.

Definition decode_consensus_state (input : list Z) : comp PrecompileError ConsensusState :=
  let minimum_length := CHAIN_ID_LENGTH + HEIGHT_LENGTH + VALIDATOR_SET_HASH_LENGTH in
  if (zlen input <=? minimum_length)
     || negb (is_multiple_of (zlen input - minimum_length) SINGLE_VALIDATOR_BYTES_LENGTH)
  then fails InvalidInput
  else
    chain_id ← slice input 0 CHAIN_ID_LENGTH;
    let chain_id := trim_end_zeros (from_utf8_lossy chain_id) in
    height ← slice input CHAIN_ID_LENGTH (CHAIN_ID_LENGTH + HEIGHT_LENGTH);
    hash ← slice input (CHAIN_ID_LENGTH + HEIGHT_LENGTH) minimum_length;
    validator_set_bytes ← slice input minimum_length (zlen input);
    let validator_set_length := (zlen input - minimum_length) / SINGLE_VALIDATOR_BYTES_LENGTH in
    validator_set ← mapM (λ i,
      validator ← slice validator_set_bytes (i * SINGLE_VALIDATOR_BYTES_LENGTH)
                    ((i + 1) * SINGLE_VALIDATOR_BYTES_LENGTH);
      decode_validator validator) (zrange 0 (Z.to_nat validator_set_length));
    Ret {| cs_chain_id := chain_id; cs_height := be_decode height; next_validator_set_hash := hash;
           cs_validators := without_proposer validator_set |}.

Definition decode_light_block_validation_input (input : list Z)
    : comp PrecompileError (ConsensusState * TmLightBlock) :=
  if zlen input <? CONSENSUS_STATE_LENGTH_BYTES_LENGTH then fails InvalidInput
  else
    length_bytes ← slice input (CONSENSUS_STATE_LENGTH_BYTES_LENGTH - UINT64_TYPE_LENGTH)
                     CONSENSUS_STATE_LENGTH_BYTES_LENGTH;
    let cs_length := be_decode length_bytes in
    if 2 ^ 64 <=? CONSENSUS_STATE_LENGTH_BYTES_LENGTH + cs_length then fails InvalidInput
    else if zlen input <? CONSENSUS_STATE_LENGTH_BYTES_LENGTH + cs_length then fails InvalidInput
    else
      decode_input ← slice input CONSENSUS_STATE_LENGTH_BYTES_LENGTH (CONSENSUS_STATE_LENGTH_BYTES_LENGTH + cs_length);
      consensus_state ← decode_consensus_state decode_input;
      rest ← slice input (CONSENSUS_STATE_LENGTH_BYTES_LENGTH + cs_length) (zlen input);
      light_block_pb ← ok_or (merge_light_block rest) (precompile_error InvalidInput);
      Ret (consensus_state, light_block_pb).

Definition encode_light_block_validation_result (validator_set_changed : bool) (consensus_state_bytes : list Z)
    : list Z :=
  (if validator_set_changed then 1 else 0) :: replicate 23 0
  ++ be_encode 8 (zlen consensus_state_bytes) ++ consensus_state_bytes.

Definition cometbft_light_block_validation_run_inner (input : list Z) (gas_limit : Z) (is_hertz : bool)
    : PrecompileResult :=
  if gas_limit <? COMETBFT_LIGHT_BLOCK_VALIDATION_BASE then Err OutOfGas
  else
    '(consensus_state, tm_light_block) ← decode_light_block_validation_input input;
    light_block ← convert_light_block_from_proto tm_light_block;
    '(validator_set_changed, consensus_state) ← apply_light_block consensus_state light_block;
    let validator_set_changed := if is_hertz then validator_set_changed else false in
    consensus_state_bytes ← encode consensus_state;
    Ret (new_output COMETBFT_LIGHT_BLOCK_VALIDATION_BASE
           (encode_light_block_validation_result validator_set_changed consensus_state_bytes)).

Definition cometbft_light_block_validation_run (input : list Z) (gas_limit : Z) : PrecompileResult :=
  cometbft_light_block_validation_run_inner input gas_limit true.
Definition cometbft_light_block_validation_run_before_hertz (input : list Z) (gas_limit : Z) : PrecompileResult :=
  cometbft_light_block_validation_run_inner input gas_limit false.

End Comet.

(** ** The contracts of each fork ([mod.rs]) *)

(** The precompiles of Ethereum in [revm]. *)
Class RevmPrecompiles := {
  EthPrecompile : Type;
  eth_address : EthPrecompile → Z;
  eth_istanbul : list EthPrecompile;
  eth_modexp_berlin : EthPrecompile;
  eth_point_evaluation : EthPrecompile;
  eth_p256verify : EthPrecompile;
  eth_bls12_381 : list EthPrecompile;
}.
(** They leave the addresses from 100 to 105 to BSC. *)
Class RevmPrecompilesLaws `(RevmPrecompiles) : Prop := {
  eth_address_range p : eth_address p < 100 ∨ 105 < eth_address p;
}.

Section Table.
Context `{RP : RevmPrecompiles}.

Inductive Precompile :=
| TENDERMINT_HEADER_VALIDATION
| TENDERMINT_HEADER_VALIDATION_NANO
| IAVL_PROOF_VALIDATION
| IAVL_PROOF_VALIDATION_NANO
| IAVL_PROOF_VALIDATION_MORAN
| IAVL_PROOF_VALIDATION_PLANCK
| IAVL_PROOF_VALIDATION_PLATO
| BLS_SIGNATURE_VALIDATION
| COMETBFT_LIGHT_BLOCK_VALIDATION_BEFORE_HERTZ
| COMETBFT_LIGHT_BLOCK_VALIDATION
| DOUBLE_SIGN_EVIDENCE_VALIDATION
| TM_SECP256K1_SIGNATURE_RECOVER
| Ethereum (p : EthPrecompile).

Definition precompile_address (p : Precompile) : Z :=
  match p with
  | TENDERMINT_HEADER_VALIDATION | TENDERMINT_HEADER_VALIDATION_NANO => 100
  | IAVL_PROOF_VALIDATION | IAVL_PROOF_VALIDATION_NANO | IAVL_PROOF_VALIDATION_MORAN
  | IAVL_PROOF_VALIDATION_PLANCK | IAVL_PROOF_VALIDATION_PLATO => 101
  | BLS_SIGNATURE_VALIDATION => 102
  | COMETBFT_LIGHT_BLOCK_VALIDATION_BEFORE_HERTZ | COMETBFT_LIGHT_BLOCK_VALIDATION => 103
  | DOUBLE_SIGN_EVIDENCE_VALIDATION => 104
  | TM_SECP256K1_SIGNATURE_RECOVER => 105
  | Ethereum p => eth_address p
  end.

(** [Precompiles::extend]: a later contract replaces an earlier one at its
    address. *)
Definition extend (m : gmap Z Precompile) (l : list Precompile) : gmap Z Precompile :=
  foldl (λ m p, <[precompile_address p := p]> m) m l.

Definition istanbul : gmap Z Precompile :=
  extend (extend ∅ (Ethereum <$> eth_istanbul)) [TENDERMINT_HEADER_VALIDATION; IAVL_PROOF_VALIDATION].
Definition nano : gmap Z Precompile :=
  extend istanbul [TENDERMINT_HEADER_VALIDATION_NANO; IAVL_PROOF_VALIDATION_NANO].
Definition moran : gmap Z Precompile :=
  extend istanbul [TENDERMINT_HEADER_VALIDATION; IAVL_PROOF_VALIDATION_MORAN].
Definition planck : gmap Z Precompile :=
  extend istanbul [TENDERMINT_HEADER_VALIDATION; IAVL_PROOF_VALIDATION_PLANCK].
Definition luban : gmap Z Precompile :=
  extend planck [BLS_SIGNATURE_VALIDATION; COMETBFT_LIGHT_BLOCK_VALIDATION_BEFORE_HERTZ].
Definition plato : gmap Z Precompile := extend luban [IAVL_PROOF_VALIDATION_PLATO].
Definition hertz : gmap Z Precompile :=
  extend plato [COMETBFT_LIGHT_BLOCK_VALIDATION; Ethereum eth_modexp_berlin].
Definition feynman : gmap Z Precompile :=
  extend hertz [DOUBLE_SIGN_EVIDENCE_VALIDATION; TM_SECP256K1_SIGNATURE_RECOVER].
Definition cancun : gmap Z Precompile := extend feynman [Ethereum eth_point_evaluation].
Definition haber : gmap Z Precompile := extend cancun [Ethereum eth_p256verify].
Definition pascal : gmap Z Precompile := extend haber (Ethereum <$> eth_bls12_381).

Definition precompiles_new (spec : BscHardfork) : gmap Z Precompile :=
  let since f := hf_index f <=? hf_index spec in
  if since Pascal then pascal
  else if since Haber then haber
  else if since Cancun then cancun
  else if since Feynman then feynman
  else if since Hertz then hertz
  else if since Plato then plato
  else if since Luban then luban
  else if since Planck then planck
  else if since Moran then moran
  else if since Nano then nano
  else istanbul.

(** The function each contract of BSC runs. *)
Definition run_precompile `{TM : TendermintLite} `{BA : BlsArkworks} `{TS : TmSecp} `{RL : Rlp} `{KE : Keccak}
    `{EA : EvidenceApi} `{CK : CometKeys} `{CA : !CometApi} (p : Precompile)
    : option (list Z → Z → PrecompileResult) :=
  match p with
  | TENDERMINT_HEADER_VALIDATION => Some tendermint_header_validation_run
  | TENDERMINT_HEADER_VALIDATION_NANO => Some tendermint_header_validation_run_nano
  | IAVL_PROOF_VALIDATION => Some iavl_proof_validation_run
  | IAVL_PROOF_VALIDATION_NANO => Some iavl_proof_validation_run_nano
  | IAVL_PROOF_VALIDATION_MORAN => Some iavl_proof_validation_run_moran
  | IAVL_PROOF_VALIDATION_PLANCK => Some iavl_proof_validation_run_planck
  | IAVL_PROOF_VALIDATION_PLATO => Some iavl_proof_validation_run_plato
  | BLS_SIGNATURE_VALIDATION => Some bls_signature_validation_run
  | COMETBFT_LIGHT_BLOCK_VALIDATION_BEFORE_HERTZ => Some cometbft_light_block_validation_run_before_hertz
  | COMETBFT_LIGHT_BLOCK_VALIDATION => Some cometbft_light_block_validation_run
  | DOUBLE_SIGN_EVIDENCE_VALIDATION => Some double_sign_evidence_validation_run
  | TM_SECP256K1_SIGNATURE_RECOVER => Some tm_secp256k1_signature_recover_run
  | Ethereum _ => None
  end.

End Table.

(** * Proofs *)

(** ** Gas *)

Section Gas.
Context `{TM : TendermintLite} `{BA : BlsArkworks} `{TS : TmSecp} `{RL : Rlp} `{KE : Keccak} `{EA : EvidenceApi}.
Context `{CK : CometKeys} `{CA : !CometApi} `{RP : RevmPrecompiles}.

(** The price of a call; the contracts suspended in Nano have none. *)
Definition price (p : Precompile) (input : list Z) : option Z :=
  match p with
  | TENDERMINT_HEADER_VALIDATION_NANO | IAVL_PROOF_VALIDATION_NANO | Ethereum _ => None
  | BLS_SIGNATURE_VALIDATION =>
      Some (1000 + 3500 * (if bls_input_malformed input then 0 else (zlen input - 128) / 48))
  | DOUBLE_SIGN_EVIDENCE_VALIDATION => Some 10000
  | _ => Some 3000
  end.

(** A run that starts with the comparison of the gas and charges its cost. *)
Definition charges (cost : Z) (f : Z → PrecompileResult) : Prop :=
  ∀ gas, (gas < cost → f gas = Err OutOfGas) ∧ ∀ out, f gas = Ret out → out_gas_used out = cost ∧ cost <= gas.

Lemma charges_guard cost f :
  (∀ gas out, f gas = Ret out → out_gas_used out = cost) →
  charges cost (λ gas, if gas <? cost then Err OutOfGas else f gas).
Proof.
  intros H gas. destruct (Z.ltb_spec gas cost); split; intros; [done|done|lia|]. split; [by eapply H|done].
Qed.

#[local] Ltac outputs :=
  repeat match goal with
  | H : context [let _ := _ in _] |- _ => progress cbv zeta in H
  | H : mbind _ _ = Ret _ |- _ => apply bind_Ret_inv in H as (? & _ & H)
  | H : (if ?b then _ else _) = Ret _ |- _ => destruct b
  | H : match ?x with _ => _ end = Ret _ |- _ => destruct x
  end; try discriminate; simplify_eq/=; try done.

Lemma calc_gas_cost_eq input :
  calc_gas_cost input = 1000 + 3500 * (if bls_input_malformed input then 0 else (zlen input - 128) / 48).
Proof. unfold calc_gas_cost. by destruct (bls_input_malformed input). Qed.

Lemma bls_charges input : charges (calc_gas_cost input) (bls_signature_validation_run input).
Proof.
  apply charges_guard. intros gas out H. outputs.
Qed.


Lemma double_sign_charges input : charges 10000 (double_sign_evidence_validation_run input).
Proof. apply charges_guard. intros gas out H. unfold invalid_evidence in H. outputs. Qed.

(** Every contract of BSC refuses a call whose gas does not cover its
    price, and a call that succeeds or reverts is charged exactly the price:
    10,000 for double-sign evidence, 1,000 and 3,500 for each public key for a
    BLS signature, 3,000 for the others. *)
Theorem precompiles_charge_price p input cost f :
  price p input = Some cost → run_precompile p = Some f → charges cost (f input).
Proof.
  intros Hp Hf. destruct p; try discriminate; injection Hf as <-; cbn in Hp; injection Hp as <-.
  all: try (rewrite <- calc_gas_cost_eq; apply bls_charges).
  all: try apply double_sign_charges.
  all: apply charges_guard; intros gas out H; outputs.
Qed.

End Gas.

(** ** The table of contracts *)

Section TableSpec.
Context `{RP : RevmPrecompiles} `{!RevmPrecompilesLaws RP}.

Definition bsc_address (a : Z) : Prop := 100 <= a <= 105.

Lemma extend_ethereum m l a : bsc_address a → extend m (Ethereum <$> l) !! a = m !! a.
Proof.
  intros Ha. unfold extend. revert m. induction l as [|p l IH]; intros m; [done|].
  cbn [fmap list_fmap foldl]. rewrite IH, lookup_insert_ne; [done|]. cbn.
  destruct (eth_address_range p), Ha; lia.
Qed.

Lemma extend_cons m p l a :
  extend m (p :: l) !! a = extend (<[precompile_address p := p]> m) l !! a.
Proof. done. Qed.

Lemma extend_nil m a : extend m [] !! a = m !! a.
Proof. done. Qed.

(** The contracts of BSC that are in force from a fork on, latest first. *)
Definition schedule (a : Z) : list (BscHardfork * Precompile) :=
  if a =? 100 then
    [(Moran, TENDERMINT_HEADER_VALIDATION); (Nano, TENDERMINT_HEADER_VALIDATION_NANO);
     (Frontier, TENDERMINT_HEADER_VALIDATION)]
  else if a =? 101 then
    [(Plato, IAVL_PROOF_VALIDATION_PLATO); (Planck, IAVL_PROOF_VALIDATION_PLANCK);
     (Moran, IAVL_PROOF_VALIDATION_MORAN); (Nano, IAVL_PROOF_VALIDATION_NANO); (Frontier, IAVL_PROOF_VALIDATION)]
  else if a =? 102 then [(Luban, BLS_SIGNATURE_VALIDATION)]
  else if a =? 103 then
    [(Hertz, COMETBFT_LIGHT_BLOCK_VALIDATION); (Luban, COMETBFT_LIGHT_BLOCK_VALIDATION_BEFORE_HERTZ)]
  else if a =? 104 then [(Feynman, DOUBLE_SIGN_EVIDENCE_VALIDATION)]
  else [(Feynman, TM_SECP256K1_SIGNATURE_RECOVER)].

Definition scheduled (a : Z) (spec : BscHardfork) : option Precompile :=
  snd <$> List.find (λ e, hf_index e.1 <=? hf_index spec) (schedule a).

Lemma extend_two m p q a :
  extend m [p; q] !! a =
  if precompile_address q =? a then Some q else if precompile_address p =? a then Some p else m !! a.
Proof.
  unfold extend. cbn [foldl]. destruct (Z.eqb_spec (precompile_address q) a) as [<-|Hq].
  - apply lookup_insert_eq.
  - rewrite lookup_insert_ne by done. destruct (Z.eqb_spec (precompile_address p) a) as [<-|Hp].
    + apply lookup_insert_eq.
    + by rewrite lookup_insert_ne.
Qed.

Lemma extend_one m p a : extend m [p] !! a = if precompile_address p =? a then Some p else m !! a.
Proof.
  unfold extend. cbn [foldl]. destruct (Z.eqb_spec (precompile_address p) a) as [<-|Hp].
  - apply lookup_insert_eq.
  - by rewrite lookup_insert_ne.
Qed.

Lemma ethereum_elsewhere p a : bsc_address a → (eth_address p =? a) = false.
Proof. intros Ha. apply Z.eqb_neq. destruct (eth_address_range p), Ha; lia. Qed.

(** At the addresses of BSC a fork runs the contract that was scheduled last
    at or before it (in the order of the enumeration): the suspension of Nano
    ends with Moran, and nothing of revm ever takes one of these addresses. *)
Theorem contracts_follow_schedule spec a :
  bsc_address a → precompiles_new spec !! a = scheduled a spec.
Proof.
  intros Ha.
  assert (Hi : istanbul !! a = if 101 =? a then Some IAVL_PROOF_VALIDATION
                               else if 100 =? a then Some TENDERMINT_HEADER_VALIDATION else None).
  { unfold istanbul. rewrite extend_two, extend_ethereum by done. by rewrite lookup_empty. }
  assert (Hcases : a = 100 ∨ a = 101 ∨ a = 102 ∨ a = 103 ∨ a = 104 ∨ a = 105) by (destruct Ha; lia).
  unfold precompiles_new. repeat destruct Hcases as [->|Hcases]; try subst a;
    destruct spec; cbn -[istanbul nano moran planck luban plato hertz feynman cancun haber pascal];
    unfold pascal, haber, cancun, feynman, hertz, plato, luban, planck, moran, nano;
    rewrite ?extend_ethereum by done;
    repeat (rewrite ?extend_one, ?extend_two; cbn [precompile_address];
            rewrite ?(ethereum_elsewhere _ _ Ha)); rewrite Hi; reflexivity.
Qed.

End TableSpec.

Section Chapel.
Context `{HL : HardforksLaws} {FL : ForkConditionLaws H}.
Context `{RP : RevmPrecompiles} `{!RevmPrecompilesLaws RP}.

(** On the test network Gibbs (22,800,220) comes before Nano (23,482,428) and
    Moran (23,603,940), but the enumeration has it after them: in between, the
    contract of Moran checks IAVL proofs although Moran is not active. *)
Theorem chapel_moran_proofs_early n t :
  22800220 <= n < 23482428 →
  precompiles_new (revm_spec_by_timestamp_and_block_number testnet_spec t n) !! 101
  = Some IAVL_PROOF_VALIDATION_MORAN
  ∧ is_moran_active_at_block testnet_spec n = false.
Proof.
  intros Hn. destruct chains_of_tables as (_ & -> & _).
  assert (Hnd : NoDup (bsc_testnet (FCA:=RefHardforks.fc_api)).*1) by (apply (bool_decide_unpack _); by vm_compute).
  rewrite transfer_revm_spec. unfold is_moran_active_at_block. rewrite transfer_at_block.
  assert (Hspec : ref_revm_spec (bsc_testnet (FCA:=RefHardforks.fc_api)) t n = Gibbs).
  { cbv -[Z.leb andb]. repeat match goal with
    | |- context [Z.leb ?k n] => first [rewrite (proj2 (Z.leb_le k n)) by lia | rewrite (proj2 (Z.leb_gt k n)) by lia]
    end. reflexivity. }
  rewrite Hspec, contracts_follow_schedule by (split; lia). split; [reflexivity|].
  cbv -[Z.leb]. apply Z.leb_gt. lia.
Qed.

End Chapel.

(** ** Double-sign evidence *)

Section DoubleSignSpec.
Context `{RL : Rlp} `{RLL : !RlpLaws RL} `{KE : Keccak} `{EA : EvidenceApi} `{EL : !EvidenceLaws EA}.

(** The header of the chain that an evidence header stands for. *)
Definition header_of (h : EvidenceHeader) : Header := {|
  parent_hash := ev_parent_hash h; ommers_hash := ev_uncle_hash h; beneficiary := ev_coinbase h;
  state_root := ev_root h; transactions_root := ev_tx_hash h; receipts_root := ev_receipt_hash h;
  logs_bloom := ev_bloom h; difficulty := ev_difficulty h; number := ev_number h; gas_limit := ev_gas_limit h;
  gas_used := ev_gas_used h; timestamp := ev_time h; extra_data := ev_extra h; mix_hash := ev_mix_digest h;
  nonce := ev_nonce h; base_fee_per_gas := None; withdrawals_root := None; blob_gas_used := None;
  excess_blob_gas := None; parent_beacon_block_root := None; requests_hash := None |}.

(** The hash of the precompile is the one validators sign. *)
Lemma seal_hash_agrees {E} h chain_id :
  seal_hash (E:=E) h chain_id = hash_with_chain_id (header_of h) chain_id.
Proof.
  unfold seal_hash, hash_with_chain_id, encode_header_with_chain_id, rlp_header, signed_extra, extra_len.
  cbn [header_of extra_data zero_beacon_root parent_beacon_block_root]. unfold EXTRA_SEAL_LENGTH, EXTRA_SEAL_LEN.
  destruct (slice _ _ _) as [extra| | |]; [|done..]. cbn [mbind comp_bind]. do 2 f_equal.
  unfold encode_seal_content. rewrite !rlp_uint_length_ok, !rlp_bytes_length_ok. f_equal. f_equal.
  rewrite !zlen_app. cbn [parent_hash ommers_hash beneficiary state_root transactions_root receipts_root logs_bloom
    difficulty number gas_limit gas_used timestamp mix_hash nonce header_of]. lia.
Qed.

(** The seal of a header, as [ecrecover] takes it. *)
Definition recovered (h : EvidenceHeader) (msg : B256) : option (list Z) :=
  let sig := drop (length (ev_extra h) - 65) (ev_extra h) in
  ecrecover (take 64 sig) (default 0 (sig !! 64%nat)) msg.

Lemma seal_slice {E} (h : EvidenceHeader) :
  65 <= zlen (ev_extra h) →
  slice (E:=E) (ev_extra h) (zlen (ev_extra h) - EXTRA_SEAL_LENGTH) (zlen (ev_extra h))
  = Ret (drop (length (ev_extra h) - 65) (ev_extra h)).
Proof.
  intros Hl. unfold EXTRA_SEAL_LENGTH. rewrite slice_Ret by lia. f_equal. unfold zlen in *.
  replace (Z.to_nat (Z.of_nat (length (ev_extra h)) - 65)) with (length (ev_extra h) - 65)%nat by lia.
  apply take_ge. rewrite length_drop. lia.
Qed.

Lemma seal_parts {E} (h : EvidenceHeader) :
  65 <= zlen (ev_extra h) → let sig := drop (length (ev_extra h) - 65) (ev_extra h) in
  index (E:=E) sig 64 = Ret (default 0 (sig !! 64%nat)) ∧ slice (E:=E) sig 0 64 = Ret (take 64 sig).
Proof.
  intros Hl sig. assert (Hs : zlen sig = 65) by (unfold sig, zlen in *; rewrite length_drop; lia). split.
  - destruct (index_Ret (E:=E) sig 64) as (x & -> & Hx); [lia|]. change (Z.to_nat 64) with 64%nat in Hx. by rewrite Hx.
  - rewrite slice_Ret by lia. done.
Qed.

(** Evidence of a double sign at one height on one parent: two headers with
    different signed hashes, and one signer of both. *)
Record double_signed (chain_id : Z) (h1 h2 : EvidenceHeader) (signer : list Z) : Prop := {
  ds_number : ev_number h1 = ev_number h2;
  ds_parent : ev_parent_hash h1 = ev_parent_hash h2;
  ds_hashes : ∃ m1 m2, hash_with_chain_id (E:=Empty_set) (header_of h1) chain_id = Ret m1
    ∧ hash_with_chain_id (E:=Empty_set) (header_of h2) chain_id = Ret m2 ∧ m1 ≠ m2
    ∧ recovered h1 m1 = Some signer ∧ recovered h2 m2 = Some signer;
  ds_seals : 65 <= zlen (ev_extra h1) ∧ 65 <= zlen (ev_extra h2)
    ∧ drop (length (ev_extra h1) - 65) (ev_extra h1) ≠ drop (length (ev_extra h2) - 65) (ev_extra h2);
}.

Lemma seal_hash_any {E E'} h c m : seal_hash (E:=E) h c = Ret m → seal_hash (E:=E') h c = Ret m.
Proof.
  unfold seal_hash. intros H. apply bind_Ret_inv in H as (extra & Hs & [= <-]).
  apply slice_inv in Hs as (? & ? & ? & -> & _). by rewrite slice_Ret by lia.
Qed.

Lemma check_evidence_inv chain_id h1 h2 a1 a2 :
  check_evidence chain_id h1 h2 = Ret (Some (a1, a2)) → a1 = a2 → double_signed chain_id h1 h2 a1.
Proof.
  unfold check_evidence. intros H <-.
  destruct (Z.eqb_spec (ev_number h1) (ev_number h2)); [|done].
  destruct (Z.eqb_spec (ev_parent_hash h1) (ev_parent_hash h2)); [|done]. cbn [negb] in H.
  destruct (Z.ltb_spec (zlen (ev_extra h1)) EXTRA_SEAL_LENGTH) as [|Hl1]; [done|].
  destruct (Z.ltb_spec (zlen (ev_extra h2)) EXTRA_SEAL_LENGTH) as [|Hl2]; [done|]. cbn [orb] in H.
  change EXTRA_SEAL_LENGTH with 65 in Hl1, Hl2.
  rewrite !seal_slice in H by done. cbn [mbind comp_bind] in H.
  case_bool_decide as Hsig; [done|].
  apply bind_Ret_inv in H as (m1 & Hm1 & H). apply bind_Ret_inv in H as (m2 & Hm2 & H).
  destruct (Z.eqb_spec m1 m2) as [|Hm]; [done|].
  destruct (seal_parts (E:=PrecompileError) h1 Hl1) as [Hi1 Hs1].
  destruct (seal_parts (E:=PrecompileError) h2 Hl2) as [Hi2 Hs2].
  rewrite Hi1, Hs1 in H. cbn [mbind comp_bind] in H.
  destruct (ecrecover (take 64 _) _ m1) as [w1|] eqn:Hr1; [|done].
  rewrite Hi2, Hs2 in H. cbn [mbind comp_bind] in H.
  destruct (ecrecover (take 64 _) _ m2) as [w2|] eqn:Hr2; [|done]. injection H as <- <-.
  split; [done|done| |done].
  exists m1, m2. rewrite <- !seal_hash_agrees. split_and!; try done; by eapply seal_hash_any.
Qed.

(** C21. The contract vouches for a double sign only when there was one: an
    answer means that the input decodes to two headers with the same number and
    parent but different hashes (as validators sign them, without the fields
    added since London), and that both seals recover to one signer; the answer
    is the address of the signer and the number, in 52 bytes. *)
Theorem double_sign_sound input gas out :
  double_sign_evidence_validation_run input gas = Ret out → reverted out = false →
  ∃ evidence h1 h2 signer,
    decode_evidence input = Some evidence
    ∧ decode_evidence_header (header_bytes1 evidence) = Some h1
    ∧ decode_evidence_header (header_bytes2 evidence) = Some h2
    ∧ double_signed (ev_chain_id evidence) h1 h2 signer
    ∧ out_bytes out = drop 12 signer ++ replicate 24 0 ++ be_encode 8 (ev_number h1)
    ∧ zlen (out_bytes out) = 52.
Proof.
  unfold double_sign_evidence_validation_run. destruct (_ <? _); [done|].
  destruct (decode_evidence input) as [evidence|]; [|by intros [= <-]].
  destruct (decode_evidence_header (header_bytes1 evidence)) as [h1|] eqn:H1; [|by intros [= <-]].
  destruct (decode_evidence_header (header_bytes2 evidence)) as [h2|] eqn:H2; [|by intros [= <-]].
  intros H Hrev. apply bind_Ret_inv in H as ([[a1 a2]|] & Hc & H); [|by injection H as <-].
  case_bool_decide as Ha; [|done]. cbn [negb] in H. apply bind_Ret_inv in H as (signer & Hs & [= <-]).
  pose proof (check_evidence_inv _ _ _ _ _ Hc Ha) as Hd.
  destruct (ds_hashes _ _ _ _ Hd) as (m1 & _ & _ & _ & _ & Hrec & _). apply ecrecover_length in Hrec.
  apply slice_inv in Hs as (_ & _ & _ & -> & Hlen).
  exists evidence, h1, h2, a1. split_and!; try done; cbn [out_bytes new_output].
  - f_equal. change (Z.to_nat 12) with 12%nat. apply take_ge. rewrite length_drop. unfold zlen in *. lia.
  - rewrite zlen_app, Hlen, Hrec. done.
Qed.

End DoubleSignSpec.

(** ** Consensus states *)

Section CometSpec.
Context `{CK : CometKeys} `{KL : !CometKeysLaws CK} `{CA : !CometApi} `{CL : !CometLaws CA}.

(** A voting power as it comes out of a decoded state: [as u32]. *)
Definition low_power (v : CometValidator) : CometValidator :=
  {| pub_key := pub_key v; power := wrapu 32 (power v); bls_key := bls_key v; relayer_address := relayer_address v |}.

Record validator_ok (v : CometValidator) : Prop := {
  vo_power : is_u 64 (power v);
  vo_address : zlen (relayer_address v) = 20;
  vo_bls : zlen (bls_key v) = 48;
}.

(** A state that can be written: an identifier of ASCII characters, and 1 to
    99 validators in the order of their set. *)
Record consensus_state_ok (cs : ConsensusState) : Prop := {
  cso_chain : Forall (λ b, 0 < b < 128) (cs_chain_id cs) ∧ zlen (cs_chain_id cs) <= 32;
  cso_height : is_u 64 (cs_height cs);
  cso_hash : zlen (next_validator_set_hash cs) = 32;
  cso_count : 1 <= zlen (cs_validators cs) <= 99;
  cso_validators : Forall validator_ok (cs_validators cs);
  cso_order : without_proposer (low_power <$> cs_validators cs) = low_power <$> cs_validators cs;
}.

Lemma slice_prefix {E A} (m s : list A) b : b = zlen m → slice (E:=E) (m ++ s) 0 b = Ret m.
Proof. intros ->. by apply (slice_app []). Qed.

Lemma slice_suffix {E A} (p m : list A) a b :
  a = zlen p → b = zlen p + zlen m → slice (E:=E) (p ++ m) a b = Ret m.
Proof. intros -> ->. rewrite <- (app_nil_r m) at 1. by apply slice_app. Qed.

Lemma mjoin_split {A} (l : list (list A)) n i x :
  (∀ y, y ∈ l → length y = n) → l !! i = Some x →
  ∃ p s, mjoin l = p ++ x ++ s ∧ zlen p = Z.of_nat i * Z.of_nat n.
Proof.
  revert i. induction l as [|y l IH]; intros i Hn Hi; [done|]. destruct i as [|i].
  - injection Hi as ->. exists [], (mjoin l). done.
  - destruct (IH i) as (p & s & E & Hp); [intros z Hz; apply Hn; by right|done|].
    exists (y ++ p), s. split; [by rewrite <- app_assoc, <- E|].
    rewrite zlen_app, Hp. unfold zlen. rewrite (Hn y) by left. lia.
Qed.

Lemma zlen_mjoin {A} (l : list (list A)) n :
  (∀ y, y ∈ l → length y = n) → zlen (mjoin l) = zlen l * Z.of_nat n.
Proof.
  induction l as [|y l IH]; intros Hn; [done|].
  change (mjoin (y :: l)) with (y ++ mjoin l). rewrite zlen_app, IH by (intros z Hz; apply Hn; by right).
  unfold zlen. rewrite (Hn y) by left. cbn [length]. lia.
Qed.

(** Text of ASCII characters is read as it is. *)
Lemma lossy_ascii l : Forall (λ b, 0 <= b < 128) l → from_utf8_lossy l = l.
Proof.
  unfold from_utf8_lossy. induction 1 as [|b l Hb Hl IH]; [done|]. cbn [length utf8_lossy].
  rewrite (proj2 (Z.ltb_lt b 128)) by lia. by rewrite IH.
Qed.

Lemma drop_zeros_nonzero l : Forall (λ b, 0 < b < 128) l → drop_zeros l = l.
Proof. intros [|b l' Hb]; cbn; [done|]. by rewrite (proj2 (Z.eqb_neq b 0)) by lia. Qed.

Lemma trim_padded l n : Forall (λ b, 0 < b < 128) l → trim_end_zeros (l ++ replicate n 0) = l.
Proof.
  intros Hl. unfold trim_end_zeros. rewrite reverse_app, reverse_replicate.
  assert (E : ∀ k, drop_zeros (replicate n 0 ++ k) = drop_zeros k) by (intros k; induction n; [done|assumption]).
  rewrite E, drop_zeros_nonzero by by apply Forall_reverse. apply reverse_involutive.
Qed.

Lemma read_chain_id l n :
  Forall (λ b, 0 < b < 128) l → trim_end_zeros (from_utf8_lossy (l ++ replicate n 0)) = l.
Proof.
  intros Hl. rewrite lossy_ascii; [by apply trim_padded|]. apply Forall_app. split.
  - induction Hl; constructor; [lia|assumption].
  - apply Forall_replicate. lia.
Qed.

(** ** One validator *)

Definition validator_bytes (v : CometValidator) : list Z :=
  key_to_bytes (pub_key v) ++ be_encode 8 (power v) ++ relayer_address v ++ bls_key v.

Lemma encode_validator_ok {E} v : validator_ok v → encode_validator (E:=E) v = Ret (validator_bytes v).
Proof.
  intros [_ Ha Hb]. unfold encode_validator, copy_exact. by rewrite ed25519_length, Ha, Hb.
Qed.

Lemma length_validator_bytes v : validator_ok v → length (validator_bytes v) = 108%nat.
Proof.
  intros [_ Ha Hb]. pose proof (ed25519_length (pub_key v)) as Hk. unfold validator_bytes, zlen in *.
  rewrite !length_app, length_be_encode. lia.
Qed.

Lemma decode_validator_bytes v : validator_ok v → decode_validator (validator_bytes v) = Ret (low_power v).
Proof.
  intros Hok. pose proof (length_validator_bytes v Hok) as Hlen. destruct Hok as [Hp Ha Hb].
  pose proof (ed25519_length (pub_key v)) as Hk. unfold decode_validator.
  change VALIDATOR_PUBKEY_LENGTH with 32. change VALIDATOR_VOTING_POWER_LENGTH with 8. change RELAYER_ADDRESS_LENGTH with 20.
  replace (zlen (validator_bytes v)) with 108 by (unfold zlen; lia). unfold validator_bytes.
  rewrite (slice_app _ (be_encode 8 (power v)) _ 32) by (rewrite ?zlen_be_encode; lia). cbn [mbind comp_bind].
  rewrite app_assoc, (slice_app _ (relayer_address v) _ (32 + 8)) by (rewrite zlen_app, zlen_be_encode; lia). cbn [mbind comp_bind].
  rewrite app_assoc, (slice_suffix _ (bls_key v) (32 + 8 + 20)) by (rewrite !zlen_app, zlen_be_encode; lia).
  cbn [mbind comp_bind]. rewrite <- !app_assoc. rewrite (slice_prefix (key_to_bytes (pub_key v)) _ 32) by lia.
  cbn [mbind comp_bind]. rewrite ed25519_roundtrip. cbn [ok_or mbind comp_bind].
  rewrite be_decode_encode. unfold low_power. do 2 f_equal.
  change (256 ^ Z.of_nat 8) with (2 ^ 64). by rewrite Z.mod_small by (exact Hp).
Qed.

(** ** The whole state *)

Definition state_bytes (cs : ConsensusState) : list Z :=
  (cs_chain_id cs ++ replicate (32 - length (cs_chain_id cs)) 0)
  ++ be_encode 8 (cs_height cs) ++ next_validator_set_hash cs ++ mjoin (validator_bytes <$> cs_validators cs).

Lemma encode_ok cs : consensus_state_ok cs → encode cs = Ret (state_bytes cs).
Proof.
  intros [[Hc1 Hc2] _ Hh Hn Hv _]. unfold encode.
  change MAX_CONSENSUS_STATE_LENGTH with 10764. change SINGLE_VALIDATOR_BYTES_LENGTH with 108.
  change (CHAIN_ID_LENGTH + HEIGHT_LENGTH + VALIDATOR_SET_HASH_LENGTH) with 72. change CHAIN_ID_LENGTH with 32.
  destruct (Z.ltb_spec 10764 (72 + zlen (cs_validators cs) * 108)); [lia|].
  destruct (Z.ltb_spec 32 (zlen (cs_chain_id cs))); [lia|]. unfold copy_exact at 1. rewrite Hh. cbn [Z.eqb].
  change (32 =? VALIDATOR_SET_HASH_LENGTH) with true. cbn [mbind comp_bind].
  rewrite (mapM_Ret _ _ (validator_bytes <$> cs_validators cs)); [done|].
  apply Forall2_fmap_r. clear -Hv KL. induction Hv as [|v l Hok Hl IH]; [by left|].
  right; [by apply encode_validator_ok|exact IH].
Qed.

Lemma zlen_state_bytes cs :
  consensus_state_ok cs → zlen (state_bytes cs) = 72 + zlen (cs_validators cs) * 108.
Proof.
  intros [[_ Hc] _ Hh _ Hv _]. unfold state_bytes.
  rewrite !zlen_app, zlen_be_encode, Hh, (zlen_mjoin _ 108).
  - unfold zlen in *. rewrite length_replicate, length_fmap. lia.
  - intros y (v & -> & Hin)%list_elem_of_fmap. apply length_validator_bytes. by eapply list.Forall_forall in Hv.
Qed.

Lemma decode_state_bytes cs :
  consensus_state_ok cs →
  decode_consensus_state (state_bytes cs)
  = Ret {| cs_chain_id := cs_chain_id cs; cs_height := cs_height cs;
           next_validator_set_hash := next_validator_set_hash cs;
           cs_validators := low_power <$> cs_validators cs |}.
Proof.
  intros Hok. pose proof (zlen_state_bytes cs Hok) as Hlen. destruct Hok as [[Hc1 Hc2] Hh Hhash Hn Hv Hord].
  unfold decode_consensus_state.
  change SINGLE_VALIDATOR_BYTES_LENGTH with 108. change (CHAIN_ID_LENGTH + HEIGHT_LENGTH + VALIDATOR_SET_HASH_LENGTH) with 72.
  change (CHAIN_ID_LENGTH + HEIGHT_LENGTH) with 40. change CHAIN_ID_LENGTH with 32. rewrite Hlen.
  replace (72 + zlen (cs_validators cs) * 108 - 72) with (zlen (cs_validators cs) * 108) by lia.
  destruct (Z.leb_spec (72 + zlen (cs_validators cs) * 108) 72); [lia|].
  unfold is_multiple_of. rewrite Z.mod_mul, Z.div_mul by done. cbn [orb negb Z.eqb].
  assert (Hpad : zlen (cs_chain_id cs ++ replicate (32 - length (cs_chain_id cs)) 0) = 32).
  { unfold zlen in *. rewrite length_app, length_replicate. lia. }
  unfold state_bytes. set (vs := mjoin _).
  assert (Hvs : zlen vs = zlen (cs_validators cs) * 108).
  { unfold state_bytes in Hlen. rewrite !zlen_app, zlen_be_encode, Hhash in Hlen. fold vs in Hlen.
    rewrite zlen_app in Hpad. lia. }
  rewrite (slice_prefix _ _ 32) by done. cbn [mbind comp_bind]. rewrite read_chain_id by done.
  rewrite (slice_app _ (be_encode 8 (cs_height cs)) _ 32) by (rewrite ?zlen_be_encode; lia). cbn [mbind comp_bind].
  rewrite app_assoc, (slice_app _ (next_validator_set_hash cs) _ 40) by (rewrite zlen_app, zlen_be_encode; lia).
  cbn [mbind comp_bind]. rewrite app_assoc, (slice_suffix _ vs 72)
    by (rewrite (zlen_app _ (next_validator_set_hash cs)), (zlen_app _ (be_encode 8 _)), zlen_be_encode; lia).
  cbn [mbind comp_bind]. rewrite be_decode_encode. change (256 ^ Z.of_nat 8) with (2 ^ 64).
  rewrite Z.mod_small by exact Hh.
  rewrite (mapM_zrange _ _ (low_power <$> cs_validators cs)); [by cbn [mbind comp_bind]; rewrite Hord| |].
  { unfold zlen. by rewrite length_fmap, Nat2Z.id. }
  intros i x Hx. rewrite list_lookup_fmap in Hx. apply fmap_Some in Hx as (v & Hi & ->).
  pose proof (Forall_lookup_1 _ _ _ _ Hv Hi) as Hvok. pose proof (length_validator_bytes v Hvok) as Hl.
  destruct (mjoin_split (validator_bytes <$> cs_validators cs) 108 i (validator_bytes v)) as (p & s & E & Hp).
  { intros y (u & -> & Hin)%list_elem_of_fmap. apply length_validator_bytes. by eapply list.Forall_forall in Hv. }
  { by rewrite list_lookup_fmap, Hi. }
  unfold vs. rewrite E. change (Z.of_nat 108) with 108 in Hp.
  rewrite (slice_app p (validator_bytes v)) by (unfold zlen in *; lia). cbn [mbind comp_bind].
  by apply decode_validator_bytes.
Qed.

(** What the light-client contract returns as the new consensus state it
    accepts as the old one: [decode_consensus_state] reads back the identifier,
    the height, the hash and every validator with its keys and address, but of a
    voting power only the lower 32 of its 64 bits. *)
Theorem consensus_state_roundtrip cs :
  consensus_state_ok cs →
  ∃ bytes, encode cs = Ret bytes ∧ zlen bytes = 72 + 108 * zlen (cs_validators cs)
  ∧ decode_consensus_state bytes
    = Ret {| cs_chain_id := cs_chain_id cs; cs_height := cs_height cs;
             next_validator_set_hash := next_validator_set_hash cs;
             cs_validators := low_power <$> cs_validators cs |}.
Proof.
  intros Hok. exists (state_bytes cs). split; [by apply encode_ok|]. rewrite zlen_state_bytes by done.
  split; [lia|]. by apply decode_state_bytes.
Qed.

(** Anybody can make a node panic by calling the light-client contract: with
    a consensus state that decodes and no light block behind it, the message read
    from the empty rest has no signed header, which the conversion unwraps. *)
Theorem empty_light_block_panics cs gas is_hertz :
  consensus_state_ok cs → 3000 <= gas →
  ∃ bytes, encode cs = Ret bytes
  ∧ cometbft_light_block_validation_run_inner (be_encode 32 (zlen bytes) ++ bytes) gas is_hertz = Panic.
Proof.
  intros Hok Hgas. exists (state_bytes cs). split; [by apply encode_ok|].
  pose proof (zlen_state_bytes cs Hok) as Hlen. pose proof (cso_count _ Hok) as Hn.
  unfold cometbft_light_block_validation_run_inner. change COMETBFT_LIGHT_BLOCK_VALIDATION_BASE with 3000.
  destruct (Z.ltb_spec gas 3000); [lia|].
  assert (Hdec : ∃ pb, pb_signed_header pb = None ∧
    decode_light_block_validation_input (be_encode 32 (zlen (state_bytes cs)) ++ state_bytes cs)
    = Ret ({| cs_chain_id := cs_chain_id cs; cs_height := cs_height cs;
              next_validator_set_hash := next_validator_set_hash cs;
              cs_validators := low_power <$> cs_validators cs |}, pb)).
  { destruct merge_empty as (pb & Hpb & Hnone). exists pb. split; [done|].
    unfold decode_light_block_validation_input. change CONSENSUS_STATE_LENGTH_BYTES_LENGTH with 32.
    change (32 - UINT64_TYPE_LENGTH) with 24. rewrite !zlen_app, zlen_be_encode. change (Z.of_nat 32) with 32.
    destruct (Z.ltb_spec (32 + zlen (state_bytes cs)) 32); [lia|].
    change (be_encode 32) with (be_encode (24 + 8)). rewrite be_encode_split, <- app_assoc.
    rewrite (slice_app _ (be_encode 8 _)) by (rewrite !zlen_be_encode; lia). cbn [mbind comp_bind].
    rewrite be_decode_encode. change (256 ^ Z.of_nat 8) with (2 ^ 64).
    rewrite Z.mod_small by lia. destruct (Z.leb_spec (2 ^ 64) (32 + zlen (state_bytes cs))); [lia|].
    destruct (Z.ltb_spec (32 + zlen (state_bytes cs)) (32 + zlen (state_bytes cs))); [lia|].
    rewrite app_assoc, (slice_suffix _ (state_bytes cs) 32) by (rewrite zlen_app, !zlen_be_encode; lia).
    cbn [mbind comp_bind]. rewrite decode_state_bytes by done. cbn [mbind comp_bind].
    rewrite slice_Ret by (rewrite ?(zlen_app (_ ++ _)), ?zlen_app, ?zlen_be_encode; lia). rewrite Z.sub_diag. cbn [mbind comp_bind].
    change (take (Z.to_nat 0) _) with (@nil Z). by rewrite Hpb. }
  destruct Hdec as (pb & Hnone & ->). cbn [mbind comp_bind].
  unfold convert_light_block_from_proto. by rewrite Hnone.
Qed.

End CometSpec.

(** * Witnesses *)

Module PrecompileExample.

Import RefHardforks RefLibraries.
#[local] Ltac ev := vm_compute; first [reflexivity | discriminate].

#[local] Instance lite : TendermintLite := {|
  tm_header_verifier_execute l := if bool_decide (l = []) then inr "empty" else inl (take 3 l);
  iavl_proof_execute l _ _ _ := inl (replicate 31 0 ++ [1]);
|}.
#[local] Instance ark : BlsArkworks := {|
  signature_to_point l := bool_decide (l ≠ replicate 96 0);
  key_validate l := bool_decide (l ≠ replicate 48 0);
  ark_verify key msg sig := bool_decide (take 32 sig = msg);
  ark_aggregate_verify keys msgs sig := forallb (λ m, bool_decide (take 32 sig = m)) msgs;
|}.
#[local] Instance tm_secp : TmSecp := {|
  TmKey := list Z; TmSignature := list Z; tm_key_from_slice l := Some l; tm_signature_from_compact l := Some l;
  tm_verify s m k := bool_decide (take 32 s = m); tm_account_id l := Some (take 20 l);
|}.

(** Headers are encoded as the list of their number, parent, root and extra
    data; the signer is named by the first byte of a seal. *)
#[local] Instance evidence_api : EvidenceApi := {|
  decode_evidence l :=
    match l with
    | c :: n :: l => Some {| ev_chain_id := c; header_bytes1 := take (Z.to_nat n) l; header_bytes2 := drop (Z.to_nat n) l |}
    | _ => None
    end;
  decode_evidence_header l :=
    match l with
    | n :: p :: r :: extra => Some {|
        ev_parent_hash := p; ev_uncle_hash := 0; ev_coinbase := 0; ev_root := r; ev_tx_hash := 0; ev_receipt_hash := 0;
        ev_bloom := 0; ev_difficulty := 2; ev_number := n; ev_gas_limit := 0; ev_gas_used := 0; ev_time := 0;
        ev_extra := extra; ev_mix_digest := 0; ev_nonce := 0 |}
    | _ => None
    end;
  ecrecover sig _ _ := match sig with b :: _ => Some (replicate 31 0 ++ [b]) | [] => None end;
|}.
#[local] Instance evidence_laws : EvidenceLaws evidence_api.
Proof. constructor. intros [|b sig] recid msg w; [done|]. by intros [= <-]. Qed.

#[local] Instance revm : RevmPrecompiles := {|
  EthPrecompile := bool; eth_address b := if b : bool then 1 else 256; eth_istanbul := [true];
  eth_modexp_berlin := true; eth_point_evaluation := true; eth_p256verify := false; eth_bls12_381 := [true];
|}.
#[local] Instance revm_laws : RevmPrecompilesLaws revm.
Proof. constructor. intros []; cbn; lia. Qed.

Definition Key32 : Type := { l : list Z | Nat.eqb (length l) 32 = true }.
Definition a_key : Key32 := exist _ (replicate 32 3) eq_refl.
#[local] Instance keys : CometKeys := {|
  EdKey := Key32;
  from_raw_ed25519 l := match decide (Nat.eqb (length l) 32 = true) with left H => Some (exist _ l H) | right _ => None end;
  key_to_bytes k := `k;
|}.
#[local] Instance keys_laws : CometKeysLaws keys.
Proof.
  constructor; intros [l H]; cbn.
  - case_decide as H'; [|done]. f_equal. apply (sig_eq_pi _). done.
  - apply Nat.eqb_eq in H. unfold zlen. by rewrite H.
Qed.
#[local] Instance comet : CometApi := {|
  without_proposer l := l; set_hash l := []; TmLightBlock := list Z; TmSignedHeader := Z; TmValidatorSet := unit;
  SignedHeader := Z; merge_light_block l := Some l; pb_signed_header l := head l; pb_validator_set l := Some tt;
  signed_header_try_from h := Some h; set_try_from _ := Some []; sh_height h := h; sh_chain_id _ := [66];
  sh_validators_hash _ := replicate 32 7; sh_next_validators_hash _ := replicate 32 7;
  sufficient_overlap _ _ _ := true;
|}.
#[local] Instance comet_laws : CometLaws comet.
Proof. constructor. by exists []. Qed.

Lemma precompiles_charge_price_witness :
  charges 4500 (bls_signature_validation_run (replicate 176 1))
  ∧ bls_signature_validation_run (replicate 176 1) 4499 = Err OutOfGas
  ∧ bls_signature_validation_run (replicate 176 1) 5000 = Ret (new_output 4500 [1]).
Proof.
  split; [|split; ev].
  apply (precompiles_charge_price BLS_SIGNATURE_VALIDATION (replicate 176 1)); reflexivity.
Defined.

Lemma contracts_follow_schedule_witness :
  precompiles_new Nano !! 100 = Some TENDERMINT_HEADER_VALIDATION_NANO
  ∧ precompiles_new Fermi !! 101 = Some IAVL_PROOF_VALIDATION_PLATO.
Proof.
  split.
  - apply (contracts_follow_schedule Nano 100). split; discriminate.
  - apply (contracts_follow_schedule Fermi 101). split; discriminate.
Defined.

Lemma chapel_moran_proofs_early_witness :
  precompiles_new (revm_spec_by_timestamp_and_block_number testnet_spec 1660000000 23000000) !! 101
  = Some IAVL_PROOF_VALIDATION_MORAN
  ∧ is_moran_active_at_block testnet_spec 23000000 = false.
Proof. apply (chapel_moran_proofs_early 23000000 1660000000). split; [discriminate|reflexivity]. Defined.

(** Two headers 7 on one parent with different roots, sealed by the same
    signer 9. *)
Definition header_bytes (root : Z) : list Z := [7; 5; root] ++ replicate 32 0 ++ [9; root] ++ replicate 63 0.
Definition two_headers : list Z := 56 :: zlen (header_bytes 1) :: header_bytes 1 ++ header_bytes 2.

Lemma double_sign_sound_witness :
  ∃ evidence h1 h2 signer,
    decode_evidence two_headers = Some evidence
    ∧ decode_evidence_header (header_bytes1 evidence) = Some h1
    ∧ decode_evidence_header (header_bytes2 evidence) = Some h2
    ∧ double_signed (ev_chain_id evidence) h1 h2 signer
    ∧ replicate 19 0 ++ [9] ++ replicate 31 0 ++ [7] = drop 12 signer ++ replicate 24 0 ++ be_encode 8 (ev_number h1)
    ∧ zlen (replicate 19 0 ++ [9] ++ replicate 31 0 ++ [7]) = 52.
Proof.
  apply (double_sign_sound two_headers 10000
    (new_output 10000 (replicate 19 0 ++ [9] ++ replicate 31 0 ++ [7]))); [ev|reflexivity].
Defined.

Definition light_validator (p : Z) : CometValidator :=
  {| pub_key := (a_key : EdKey); power := p; bls_key := replicate 48 4; relayer_address := replicate 20 5 |}.
Definition light_state (vals : list CometValidator) : ConsensusState :=
  {| cs_chain_id := [66; 78; 66]; cs_height := 100; next_validator_set_hash := replicate 32 7; cs_validators := vals |}.

Lemma light_state_ok p : is_u 64 p → consensus_state_ok (light_state [light_validator p]).
Proof.
  intros Hp. split; try done; cbn.
  - split; [|done]. repeat constructor; lia.
  - apply Forall_singleton. by split.
Qed.

(** A power of 2^32 + 5 comes back as 5. *)
Lemma consensus_state_roundtrip_witness :
  ∃ bytes, encode (light_state [light_validator (2 ^ 32 + 5)]) = Ret bytes
  ∧ zlen bytes = 180
  ∧ decode_consensus_state bytes = Ret (light_state [light_validator 5]).
Proof. apply (consensus_state_roundtrip (light_state [light_validator (2 ^ 32 + 5)])), light_state_ok. done. Defined.

Lemma empty_light_block_panics_witness :
  ∃ bytes, encode (light_state [light_validator 5]) = Ret bytes
  ∧ cometbft_light_block_validation_run_inner (be_encode 32 (zlen bytes) ++ bytes) 3000 true = Panic.
Proof.
  apply (empty_light_block_panics (light_state [light_validator 5]) 3000 true); [by apply light_state_ok|discriminate].
Defined.

End PrecompileExample.
