(* ===== verification/Validation.v ===== *)
(** * Validation of headers and blocks ([src/consensus/parlia/validation.rs],
      [src/node/consensus.rs], [src/consensus/eip4844/blob_fee.rs],
      [src/chainspec/mod.rs])

    The checks of a header on its own, against its parent, of a body against
    its header and of the result of execution, the blob parameters of a chain
    and the blob fee.  The clock is an argument; the checks of reth
    ([validate_against_parent_hash_number], [validate_against_parent_4844], the
    body check of [EthBeaconConsensus]), the roots of tries and the constants of
    EIP-4844 are parameters. *)

From S2P Require Import Prelude Hardforks Types Snapshot HeaderExtra Errors Timing.

(** [ConsensusError] of reth: the errors these checks return; [Reth] stands for
    those of the checks of reth. *)
Inductive ConsensusError :=
| HeaderGasUsedExceedsGasLimit (gas_used gas_limit : Z)
| BaseFeeMissing
| BlobGasUsedMissing
| ExcessBlobGasMissing
| BlobGasUsedExceedsMaxBlobGasPerBlock (blob_gas_used max_blob_gas_per_block : Z)
| BlobGasUsedNotMultipleOfBlobGasPerBlob (blob_gas_used blob_gas_per_blob : Z)
| TimestampIsInFuture (timestamp present_timestamp : Z)
| Other (e : ParliaConsensusError)
| BodyOmmersHashDiff (got expected : B256)
| BlobGasUsedUnexpected
| ExcessBlobGasUnexpected
| ParentBeaconBlockRootUnexpected
| BodyTransactionRootDiff (got expected : B256)
| BlobGasUsedDiff (got expected : Z)
| TimestampIsInPast (parent_timestamp timestamp : Z)
| BlockGasUsed (got expected : Z)
| BodyReceiptRootDiff (got expected : B256)
| BodyBloomLogDiff (got expected : Z)
| RequestsHashMissing
| BodyRequestsHashDiff (got expected : B256)
| Reth (code : Z).

Notation checked := (comp ConsensusError unit).

(** The constants of [alloy_eips] and [alloy_consensus]. *)
Class BlobConstants := {
  DATA_GAS_PER_BLOB : Z;
  MAX_DATA_GAS_PER_BLOCK_DENCUN : Z;
  BLOB_GASPRICE_UPDATE_FRACTION : Z;
  BLOB_GASPRICE_UPDATE_FRACTION_PECTRA : Z;
  fake_exponential : Z → Z → Z → Z;
  EMPTY_OMMER_ROOT_HASH : B256;
}.
Class BlobConstantsLaws `(BlobConstants) : Prop := {
  DATA_GAS_PER_BLOB_pos : 0 < DATA_GAS_PER_BLOB;
}.

(** A block with its body: the hashes of the body are those the libraries
    compute from it. *)
Record Body := {
  body_transactions_root : B256;
  body_blob_gas_used : Z;
}.

(** [BlockExecutionResult]: the gas after each transaction and the bloom of its
    logs, and the hash of the requests. *)
Record ReceiptData := { cumulative_gas_used : Z; receipt_bloom : Z }.
Record ExecutionResultData := { result_receipts : list ReceiptData; result_requests_hash : B256 }.

Section Validation.
Context `{FCA : ForkConditionApi} {CS : Type} `{!BscHardforks CS} `{BC : BlobConstants} `{SL : Sealable}.
Context `{TL : !LruApi Z}.
Variable self : Parlia CS.
Implicit Types (header parent : Header).

(** ** A header on its own *)

Definition validate_header_gas header : checked :=
  if gas_limit header <? gas_used header
  then Err (HeaderGasUsedExceedsGasLimit (gas_used header) (gas_limit header))
  else Ret tt.

Definition validate_header_base_fee header : checked :=
  if active_at_block (ethereum_fork_activation (spec self) EthLondon) (number header)
     && bool_decide (base_fee_per_gas header = None)
  then Err BaseFeeMissing
  else Ret tt.

Definition validate_4844_header_of_bsc header : checked :=
  blob_gas_used ← ok_or (blob_gas_used header) BlobGasUsedMissing;
  excess_blob_gas ← ok_or (excess_blob_gas header) ExcessBlobGasMissing;
  if MAX_DATA_GAS_PER_BLOCK_DENCUN <? blob_gas_used
  then Err (BlobGasUsedExceedsMaxBlobGasPerBlock blob_gas_used MAX_DATA_GAS_PER_BLOCK_DENCUN)
  else
    r ← rem_u blob_gas_used DATA_GAS_PER_BLOB;
    if negb (r =? 0) then Err (BlobGasUsedNotMultipleOfBlobGasPerBlob blob_gas_used DATA_GAS_PER_BLOB)
    else
      r ← rem_u excess_blob_gas DATA_GAS_PER_BLOB;
      if negb (r =? 0) then Err (BlobGasUsedNotMultipleOfBlobGasPerBlob excess_blob_gas DATA_GAS_PER_BLOB)
      else Ret tt.

(** [now] is [present_millis_timestamp]. *)
Definition validate_header (now : Z) header : checked :=
  let header_timestamp := calculate_millisecond_timestamp header in
  if now <? header_timestamp then Err (TimestampIsInFuture header_timestamp now)
  else
    _ ← map_err Other (check_header_extra self header);
    if negb (ommers_hash header =? EMPTY_OMMER_ROOT_HASH)
    then Err (BodyOmmersHashDiff (ommers_hash header) EMPTY_OMMER_ROOT_HASH)
    else
      _ ← validate_header_gas header;
      _ ← validate_header_base_fee header;
      _ ← (if is_cancun_active_at_timestamp (spec self) (number header) (timestamp header)
           then validate_4844_header_of_bsc header
           else if bool_decide (is_Some (blob_gas_used header)) then Err BlobGasUsedUnexpected
           else if bool_decide (is_Some (excess_blob_gas header)) then Err ExcessBlobGasUnexpected
           else Ret tt);
      if is_bohr_active_at_timestamp (spec self) (number header) (timestamp header) then
        match parent_beacon_block_root header with
        | None => Err ParentBeaconBlockRootUnexpected
        | Some root => if negb (root =? ZERO) then Err ParentBeaconBlockRootUnexpected else Ret tt
        end
      else
        match parent_beacon_block_root header with
        | Some _ => Err ParentBeaconBlockRootUnexpected
        | None => Ret tt
        end.

(** The method of the trait on [Parlia], which its documentation says is unused. *)
Definition parlia_validate_header_against_parent header parent : checked := Panic.

(** ** A header against its parent *)

Context {BlobParams : Type}.
Variable blob_params_at_timestamp : Z → option BlobParams.
Variable validate_against_parent_hash_number : Header → Header → checked.
Variable validate_against_parent_4844 : Header → Header → BlobParams → checked.

Definition validate_header_against_parent header parent : checked :=
  _ ← validate_against_parent_hash_number header parent;
  let header_ts := calculate_millisecond_timestamp header in
  let parent_ts := calculate_millisecond_timestamp parent in
  if header_ts <=? parent_ts then Err (TimestampIsInPast parent_ts header_ts)
  else if is_cancun_active_at_timestamp (spec self) (number header) (timestamp header) then
    match blob_params_at_timestamp (timestamp header) with
    | Some blob_params => validate_against_parent_4844 header parent blob_params
    | None => Ret tt
    end
  else Ret tt.

(** ** A block before and after its execution *)

(** [ensure_transaction_root_valid] compares the root of the transactions of
    the body with the one of the header. *)
Definition validate_block_pre_execution header (body : Body) : checked :=
  if negb (body_transactions_root body =? transactions_root header)
  then Err (BodyTransactionRootDiff (body_transactions_root body) (transactions_root header))
  else if is_cancun_active_at_timestamp (spec self) (number header) (timestamp header) then
    header_blob_gas_used ← ok_or (blob_gas_used header) BlobGasUsedMissing;
    total_blob_gas ← ok_or (blob_gas_used header) BlobGasUsedMissing;
    if negb (total_blob_gas =? header_blob_gas_used)
    then Err (BlobGasUsedDiff header_blob_gas_used total_blob_gas)
    else Ret tt
  else Ret tt.

Variable calculate_receipt_root : list ReceiptData → B256.

Definition compare_receipts_root_and_logs_bloom (calculated_receipts_root calculated_logs_bloom
    expected_receipts_root expected_logs_bloom : Z) : checked :=
  if negb (calculated_receipts_root =? expected_receipts_root)
  then Err (BodyReceiptRootDiff calculated_receipts_root expected_receipts_root)
  else if negb (calculated_logs_bloom =? expected_logs_bloom)
  then Err (BodyBloomLogDiff calculated_logs_bloom expected_logs_bloom)
  else Ret tt.

Definition verify_receipts (expected_receipts_root expected_logs_bloom : Z) (receipts : list ReceiptData) : checked :=
  let logs_bloom := fold_left (λ bloom r, Z.lor bloom (receipt_bloom r)) receipts 0 in
  compare_receipts_root_and_logs_bloom (calculate_receipt_root receipts) logs_bloom
    expected_receipts_root expected_logs_bloom.

Definition validate_block_post_execution header (result : ExecutionResultData) : checked :=
  let receipts := result_receipts result in
  let cumulative := from_option cumulative_gas_used 0 (list.last receipts) in
  if negb (gas_used header =? cumulative) then Err (BlockGasUsed cumulative (gas_used header))
  else
    _ ← (if active_at_block (ethereum_fork_activation (spec self) EthByzantium) (number header)
         then verify_receipts (receipts_root header) (logs_bloom header) receipts
         else Ret tt);
    if is_prague_active_at_block_and_timestamp (spec self) (number header) (timestamp header) then
      match requests_hash header with
      | None => Err RequestsHashMissing
      | Some header_requests_hash =>
          let requests_hash := result_requests_hash result in
          if negb (requests_hash =? header_requests_hash)
          then Err (BodyRequestsHashDiff requests_hash header_requests_hash)
          else Ret tt
      end
    else Ret tt.

End Validation.

(** ** Blob parameters and fees *)

Definition MIN_BLOB_GAS_PRICE : Z := 1.
Definition BLOB_TX_BLOB_GAS_PER_BLOB : Z := 131072.

Section BlobFee.
Context `{HA : HardforksApi} `{BC : BlobConstants}.
Variable chain_spec : BscChainSpec.

Definition CANCUN_UPDATE_FRACTION : Z := wrapu 64 BLOB_GASPRICE_UPDATE_FRACTION.

(** [cancun]: the blob parameters of Cancun in the wrapped [ChainSpec], whose
    method [is_cancun_active_at_timestamp] asks the Ethereum fork. *)
Definition blob_params_at_timestamp {BlobParams} (cancun : BlobParams) (timestamp : Z) : option BlobParams :=
  if active_at_timestamp (ethereum_fork_activation chain_spec EthCancun) timestamp
  then Some cancun else None.

Definition get_update_fraction {E} (timestamp : Z) : comp E Z :=
  let pectra := wrapu 64 BLOB_GASPRICE_UPDATE_FRACTION_PECTRA in
  if active_at_timestamp (bsc_fork_activation chain_spec Fermi) timestamp then Ret pectra
  else if active_at_timestamp (bsc_fork_activation chain_spec Maxwell) timestamp then Ret pectra
  else if active_at_timestamp (bsc_fork_activation chain_spec Lorentz) timestamp then Ret pectra
  else if is_prague_active_at_timestamp chain_spec timestamp then Ret pectra
  else if active_at_timestamp (bsc_fork_activation chain_spec Cancun) timestamp then Ret CANCUN_UPDATE_FRACTION
  else Panic.

Definition calc_blob_fee {E} (header : Header) : comp E Z :=
  frac ← get_update_fraction (timestamp header);
  Ret (fake_exponential MIN_BLOB_GAS_PRICE (default 0 (excess_blob_gas header)) frac).

End BlobFee.

(** * Proofs *)

Section Proofs.
Context `{FCA : ForkConditionApi} {CS : Type} `{!BscHardforks CS} `{BC : BlobConstants} `{!BlobConstantsLaws BC}.
Variable self : Parlia CS.
Implicit Types (header parent : Header).

(** The blob fields of a header from Cancun on. *)
Definition blob_fields_ok header : Prop :=
  ∃ used excess, blob_gas_used header = Some used ∧ excess_blob_gas header = Some excess
  ∧ used <= MAX_DATA_GAS_PER_BLOCK_DENCUN ∧ used mod DATA_GAS_PER_BLOB = 0 ∧ excess mod DATA_GAS_PER_BLOB = 0.

Lemma validate_4844_iff header : validate_4844_header_of_bsc header = Ret tt ↔ blob_fields_ok header.
Proof.
  unfold validate_4844_header_of_bsc, blob_fields_ok. pose proof DATA_GAS_PER_BLOB_pos.
  destruct (blob_gas_used header) as [u|]; cbn; [|naive_solver].
  destruct (excess_blob_gas header) as [e|]; cbn; [|naive_solver].
  unfold rem_u. rewrite (proj2 (Z.eqb_neq DATA_GAS_PER_BLOB 0)) by lia. cbn.
  destruct (Z.ltb_spec MAX_DATA_GAS_PER_BLOCK_DENCUN u).
  { split; [done|]. intros (u' & e' & [= <-] & [= <-] & ? & _). lia. }
  destruct (Z.eqb_spec (u mod DATA_GAS_PER_BLOB) 0) as [Hu|Hu]; cbn; [|split; [done|]; naive_solver].
  destruct (Z.eqb_spec (e mod DATA_GAS_PER_BLOB) 0) as [He|He]; cbn; [|split; [done|]; naive_solver].
  split; [|done]. intros _. by exists u, e.
Qed.

(** The fields of a header that its validation checks, apart from the extra data
    and the time. *)
Record header_fields_ok header : Prop := {
  hf_ommers : ommers_hash header = EMPTY_OMMER_ROOT_HASH;
  hf_gas : gas_used header <= gas_limit header;
  hf_base_fee : active_at_block (ethereum_fork_activation (spec self) EthLondon) (number header) = true →
    is_Some (base_fee_per_gas header);
  hf_blobs : if is_cancun_active_at_timestamp (spec self) (number header) (timestamp header)
    then blob_fields_ok header else blob_gas_used header = None ∧ excess_blob_gas header = None;
  hf_beacon : parent_beacon_block_root header
    = if is_bohr_active_at_timestamp (spec self) (number header) (timestamp header) then Some ZERO else None;
}.

Lemma bind_tt_iff (c d : checked) : (_ ← c; d) = Ret tt ↔ c = Ret tt ∧ d = Ret tt.
Proof. destruct c as [[]| | |]; cbn; naive_solver. Qed.

Lemma map_err_Ret {E E' A} (f : E → E') (c : comp E A) a : map_err f c = Ret a ↔ c = Ret a.
Proof. destruct c; cbn; naive_solver. Qed.

Lemma else_Ret_iff (b : bool) e (c : checked) : (if b then Err e else c) = Ret tt ↔ b = false ∧ c = Ret tt.
Proof. destruct b; naive_solver. Qed.

Lemma header_gas_iff header : validate_header_gas header = Ret tt ↔ gas_used header <= gas_limit header.
Proof. unfold validate_header_gas. rewrite else_Ret_iff, Z.ltb_ge. naive_solver. Qed.

Lemma header_base_fee_iff header :
  validate_header_base_fee self header = Ret tt ↔
  (active_at_block (ethereum_fork_activation (spec self) EthLondon) (number header) = true →
   is_Some (base_fee_per_gas header)).
Proof.
  unfold validate_header_base_fee. rewrite else_Ret_iff, andb_false_iff, bool_decide_eq_false, <- not_eq_None_Some.
  destruct (active_at_block _ _); naive_solver.
Qed.

Lemma no_blob_fields_iff header :
  (if bool_decide (is_Some (blob_gas_used header)) then Err BlobGasUsedUnexpected
   else if bool_decide (is_Some (excess_blob_gas header)) then Err ExcessBlobGasUnexpected
   else Ret tt) = Ret tt ↔ blob_gas_used header = None ∧ excess_blob_gas header = None.
Proof. rewrite !else_Ret_iff, !bool_decide_eq_false, <- !eq_None_not_Some. naive_solver. Qed.

Lemma validate_header_result now header :
  validate_header self now header = Ret tt ↔
  calculate_millisecond_timestamp header <= now ∧ check_header_extra self header = Ret tt
  ∧ header_fields_ok header.
Proof.
  unfold validate_header.
  rewrite else_Ret_iff, Z.ltb_ge, bind_tt_iff, map_err_Ret, else_Ret_iff, negb_false_iff, Z.eqb_eq, !bind_tt_iff,
    header_gas_iff, header_base_fee_iff.
  assert (Hblobs : (if is_cancun_active_at_timestamp (spec self) (number header) (timestamp header)
           then validate_4844_header_of_bsc header
           else if bool_decide (is_Some (blob_gas_used header)) then Err BlobGasUsedUnexpected
           else if bool_decide (is_Some (excess_blob_gas header)) then Err ExcessBlobGasUnexpected
           else Ret tt) = Ret tt ↔
    if is_cancun_active_at_timestamp (spec self) (number header) (timestamp header)
    then blob_fields_ok header else blob_gas_used header = None ∧ excess_blob_gas header = None).
  { destruct (is_cancun_active_at_timestamp _ _ _); [apply validate_4844_iff|apply no_blob_fields_iff]. }
  rewrite Hblobs. clear Hblobs. split.
  - intros (Ht & Hx & Ho & Hg & Hf & Hb & Hroot). split_and!; [done|done|]. split; try done.
    destruct (is_bohr_active_at_timestamp _ _ _); destruct (parent_beacon_block_root header) as [r|]; try done.
    apply else_Ret_iff in Hroot as [Hr _]. reflect_bools. by subst.
  - intros (Ht & Hx & []). split_and!; try done.
    destruct (is_bohr_active_at_timestamp _ _ _); by rewrite hf_beacon0.
Qed.

End Proofs.
