(* ===== verification/Mining.v ===== *)
(** * Preparing and sealing a new header ([src/node/miner/util.rs])

    The miner's path through the consensus: [prepare_new_header],
    [prepare_new_attributes] and [finalize_new_header], and the theorem that
    the header it ends with passes the checks of a received header. *)

From S2P Require Import Prelude Hardforks Types Snapshot HeaderExtra Errors Timing VotePool Attestation.

Section Mining.
Context `{FCA : ForkConditionApi} {CS : Type} `{!BscHardforks CS}.
Context `{SL : Sealable} `{AR : AttestationRlp} `{KE : Keccak} `{VR : VoteRlp} `{BL : Bls}.
Context `{RL : Rlp} `{SE : Secp256k1}.
Context `{VL : !LruApi (list Address * list VoteAddress)} `{TL : !LruApi Z}.
Variable self : Parlia CS.
Variable chain_id : Z.

(** [parent_header.maybe_next_block_excess_blob_gas] under the blob parameters
    of the given time. *)
Variable maybe_next_block_excess_blob_gas : Header → Z → option Z.

(** [alloy_consensus::Header::default()]. *)
Variable header_default : Header.

Record EthPayloadBuilderAttributes := {
  attr_parent : B256;
  attr_timestamp : Z;
  suggested_fee_recipient : Address;
  prev_randao : B256;
  attr_parent_beacon_block_root : option B256;
}.

(** [now] is the present in milliseconds. *)
Definition prepare_new_header (now : Z) (parent_header : Header) (signer : Address) : Header :=
  let t := now / 1000 in
  let t := if t <=? timestamp parent_header then add64 (timestamp parent_header) 1 else t in
  let n := add64 (number parent_header) 1 in
  let d := header_default in
  {| parent_hash := hash_slow parent_header; ommers_hash := ommers_hash d; beneficiary := signer;
     state_root := state_root d; transactions_root := transactions_root d;
     receipts_root := receipts_root d; logs_bloom := logs_bloom d; difficulty := difficulty d;
     number := n; gas_limit := gas_limit d; gas_used := gas_used d; timestamp := t;
     extra_data := extra_data d; mix_hash := mix_hash d; nonce := nonce d;
     base_fee_per_gas := base_fee_per_gas d; withdrawals_root := withdrawals_root d;
     blob_gas_used := blob_gas_used d;
     excess_blob_gas :=
       if is_cancun_active_at_timestamp (spec self) n t
       then maybe_next_block_excess_blob_gas parent_header t else excess_blob_gas d;
     parent_beacon_block_root := parent_beacon_block_root d; requests_hash := requests_hash d |}.

(** The header is also stored in the mining context. *)
Definition prepare_new_attributes {E} (fuel : nat) (now : Z) (parent_snapshot : Snapshot)
    (parent_header : Header) (signer : Address) : comp E (EthPayloadBuilderAttributes * Header) :=
  new_header ← prepare_timestamp self fuel now parent_snapshot parent_header
                 (prepare_new_header now parent_header signer);
  Ret ({| attr_parent := parent_hash new_header;
          attr_timestamp := timestamp new_header;
          suggested_fee_recipient := beneficiary new_header;
          prev_randao := mix_hash new_header;
          attr_parent_beacon_block_root :=
            if is_bohr_active_at_timestamp (spec self) (number new_header) (timestamp new_header)
            then Some ZERO else None |}, new_header).

(** ** Finalizing *)

Variable snapshot_by_hash : B256 → option Snapshot.
Variable canonical_header_by_hash : B256 → option Header.

(** The validators of the epoch, from the global [VALIDATOR_CACHE]. *)
Definition finalize_validators {E} (validator_cache : LruMap (list Address * list VoteAddress))
    (parent_snap : Snapshot) (parent_header new_header : Header) : comp E Header :=
  if is_multiple_of (number new_header) (epoch_num parent_snap)
  then prepare_validators self parent_snap (lru_get validator_cache (hash_slow parent_header)).1 new_header
  else Ret new_header.

(** An error is logged and the header stays as it is. *)
Definition finalize_attestation {E} (pool : VotePool) (parent_snap : Snapshot)
    (parent_header new_header : Header) : comp E Header :=
  match assemble_vote_attestation self snapshot_by_hash canonical_header_by_hash pool
          parent_snap parent_header new_header with
  | Ret h => Ret h
  | Err _ => Ret new_header
  | Panic => Panic
  | OutOfFuel => OutOfFuel
  end.

(** The message of [SigningFailed] goes on with the text of the error. *)
Definition finalize_new_header (validator_cache : LruMap (list Address * list VoteAddress))
    (turn_cache : LruMap Z) (pool : VotePool) (global_signer : option (list Z))
    (parent_snap : Snapshot) (parent_header new_header : Header) : comp SignerError Header :=
  d ← calculate_difficulty parent_snap (beneficiary new_header);
  let h := set_difficulty d new_header in
  let h := if extra_len h <? EXTRA_VANITY_LEN then set_extra_data (replicate 32 0) h else h in
  h ← finalize_validators validator_cache parent_snap parent_header h;
  '(h, _) ← map_err (λ _, SigningFailed "Failed to prepare turn length: ")
              (prepare_turn_length self turn_cache parent_snap h);
  h ← finalize_attestation pool parent_snap parent_header h;
  seal_new_header global_signer h chain_id.

End Mining.

(** * Proofs *)

Section Stages.
Context `{FCA : ForkConditionApi} {CS : Type} `{!BscHardforks CS}.
Context `{SL : Sealable} `{AR : AttestationRlp} `{!AttestationRlpLaws AR} `{KE : Keccak} `{VR : VoteRlp}.
Context `{BL : Bls} `{!BlsLaws BL} `{RL : Rlp} `{!RlpLaws RL} `{SE : Secp256k1} `{!Secp256k1Laws SE}.
Context `{VL : !LruApi (list Address * list VoteAddress)} `{!LruLaws _ VL}.
Context `{TL : !LruApi Z} `{!LruLaws Z TL} `{HL : !LruApi Header}.
Variable self : Parlia CS.
Implicit Types (h : Header).

Lemma set_extra_data_id h : set_extra_data (extra_data h) h = h.
Proof. by destruct h. Qed.

Lemma set_extra_data_twice x y h : set_extra_data x (set_extra_data y h) = set_extra_data x h.
Proof. done. Qed.

(** The validator section an epoch header gets, and none otherwise. *)
Lemma finalize_validators_ok {E} vcache snap parent h :
  (∀ vals votes, lru_entries vcache !! hash_slow parent = Some (vals, votes) → NoDup vals ∧ 0 < zlen vals < 256) →
  ∃ section, finalize_validators (E:=E) self vcache snap parent h
             = Ret (set_extra_data (extra_data h ++ section) h)
  ∧ zlen section < 2 ^ 32
  ∧ (is_multiple_of (number h) (epoch_num snap) = false → section = [])
  ∧ (is_Some (lru_entries vcache !! hash_slow parent) →
     is_multiple_of (number h) (epoch_num snap) = true → luban_at self h = true →
     ∃ n entries, 0 < n < 256 ∧ section = [n] ++ entries ∧ zlen entries = n * 68).
Proof.
  intros Hv. unfold finalize_validators. rewrite lru_get_value. change (2 ^ 32) with 4294967296.
  destruct (is_multiple_of (number h) (epoch_num snap)) eqn:Hep.
  2: { exists []. rewrite app_nil_r, set_extra_data_id. split; [done|]. split; [done|]. split; [done|].
       intros; discriminate. }
  destruct (lru_entries vcache !! hash_slow parent) as [[vals votes]|] eqn:Hc.
  2: { exists []. rewrite app_nil_r, set_extra_data_id. unfold prepare_validators. rewrite Hep.
       split; [done|]. split; [done|]. split; [done|]. by intros []. }
  destruct (Hv vals votes eq_refl) as [Hnd Hn]. destruct (luban_at self h) eqn:Hl.
  - rewrite prepare_validators_luban by done. eexists. split; [done|]. unfold validator_section.
    rewrite wrapu_small by (unfold is_u; change (2 ^ 8) with 256; lia).
    set (w := written _ vals). assert (Hw : zlen w = zlen vals) by (unfold w, zlen, written; by rewrite length_fmap, length_sort).
    split; [rewrite zlen_app, zlen_entries, Hw; change (zlen [zlen vals]) with 1; lia|]. split; [done|].
    intros _ _ _. exists (zlen vals), (concat_map entry w). by rewrite zlen_entries, Hw.
  - unfold prepare_validators, luban_at in *. rewrite Hep, Hl. cbn [negb]. eexists. split; [done|].
    split; [|split; [done|intros; discriminate]].
    unfold zlen. rewrite (length_concat_map_const _ 20) by (intros; apply length_be_encode).
    rewrite length_sort. unfold zlen in Hn. lia.
Qed.

Lemma prepare_turn_length_ok tcache snap h :
  (is_multiple_of (number h) (epoch_num snap) = true → bohr_at_header self h = true →
   ∃ turn, lru_entries tcache !! parent_hash h = Some turn) →
  ∃ tl c, prepare_turn_length self tcache snap h = Ret (set_extra_data (extra_data h ++ tl) h, c)
  ∧ (is_multiple_of (number h) (epoch_num snap) = false → tl = [])
  ∧ (is_multiple_of (number h) (epoch_num snap) = true → zlen tl = if bohr_at_header self h then 1 else 0).
Proof.
  intros Hc. unfold prepare_turn_length. fold (bohr_at_header self h).
  destruct (is_multiple_of _ _) eqn:Hep, (bohr_at_header self h) eqn:Hb; cbn [negb orb].
  - destruct (Hc eq_refl eq_refl) as [turn Ht].
    rewrite (surjective_pairing (lru_get tcache (parent_hash h))), lru_get_value, Ht. cbn [ok_or mbind comp_bind].
    eexists [turn], _. split; [done|]. split; done.
  - exists [], tcache. rewrite app_nil_r, set_extra_data_id. split_and!; done.
  - exists [], tcache. rewrite app_nil_r, set_extra_data_id. split_and!; done.
  - exists [], tcache. rewrite app_nil_r, set_extra_data_id. split_and!; done.
Qed.

(** What the verifier finds behind the validators and the turn length. *)
Lemma final_attestation snap h vanity section tl ab seal :
  zlen vanity = 32 → zlen seal = 65 → zlen ab < 2 ^ 32 →
  (luban_at self h = false → ab = []) →
  (is_multiple_of (number h) (epoch_num snap) = false → section = [] ∧ tl = []) →
  (is_multiple_of (number h) (epoch_num snap) = true → luban_at self h = true →
   zlen tl = (if bohr_at_header self h then 1 else 0) ∧
   ∃ n entries, 0 < n < 256 ∧ section = [n] ++ entries ∧ zlen entries = n * 68) →
  get_vote_attestation_from_header self
    (set_extra_data (vanity ++ section ++ tl ++ ab ++ seal) h) (epoch_num snap) = decode_attestation ab.
Proof.
  intros Hv Hs Hab Hnl Hne Hep. set (hf := set_extra_data _ h).
  assert (Hlub : luban_at self hf = luban_at self h) by done.
  destruct (luban_at self h) eqn:Hl.
  2: { rewrite Hnl by done. unfold get_vote_attestation_from_header. unfold luban_at in Hlub. rewrite Hlub.
       by destruct (extra_len hf <=? _). }
  destruct (is_multiple_of (number h) (epoch_num snap)) eqn:He.
  - destruct (Hep eq_refl eq_refl) as (Htl & n & entries & Hn & -> & Hen).
    assert (L : epoch_layout self hf vanity n entries tl ab seal).
    { constructor; try done. unfold extra_len, hf. cbn [extra_data set_extra_data]. rewrite !zlen_app, Hv, Hs, Hen, Htl, zlen_cons.
        change (zlen (@nil Z)) with 0. change (2 ^ 32) with 4294967296 in Hab.
        change (2 ^ 63) with 9223372036854775808. destruct (bohr_at_header self h); lia. }
    by apply (layout_attestation self _ _ _ _ _ _ _ L).
  - destruct (Hne eq_refl) as [-> ->]. unfold get_vote_attestation_from_header.
    unfold luban_at in Hlub. rewrite Hlub. change (number hf) with (number h). rewrite He. cbn [negb].
    assert (Hlen : extra_len hf = 97 + zlen ab).
    { unfold extra_len, hf. cbn [extra_data set_extra_data app]. rewrite !zlen_app. lia. }
    rewrite Hlen. unfold EXTRA_VANITY_LEN, EXTRA_SEAL_LEN. pose proof (zlen_nonneg ab) as Hp.
    destruct (Z.leb_spec (97 + zlen ab) (32 + 65)) as [Hle|Hgt].
    + assert (ab = []) as -> by (destruct ab; [done|rewrite zlen_cons in Hle; pose proof (zlen_nonneg ab); lia]). done.
    + rewrite sub64_small by (unfold is_u; change (2 ^ 32) with 4294967296 in Hab; lia).
      unfold hf. cbn [extra_data set_extra_data app]. rewrite (slice_app vanity ab seal) by lia. done.
Qed.

(** The seal of the signer passes, with the difficulty the miner computed. *)
Lemma verify_seal_ok snap h d :
  beneficiary h ∈ validators snap → sign_recently snap (beneficiary h) = false →
  calculate_difficulty (E:=BscBlockExecutionError) snap (beneficiary h) = Ret d → difficulty h = d →
  verify_seal (Ret (beneficiary h)) snap h = Ret tt.
Proof.
  intros Hin Hr Hd Hdiff. unfold verify_seal. cbn [map_err mbind comp_bind].
  rewrite Z.eqb_refl, bool_decide_true, Hr by done. cbn [negb].
  unfold calculate_difficulty in Hd. apply bind_Ret_inv in Hd as (b & Hb & [= Hd]).
  rewrite Hb. cbn [mbind comp_bind]. rewrite Hdiff, <- Hd. by destruct b.
Qed.

(** The check of the time reads the number, the time and the beneficiary. *)
Lemma block_time_same fuel snap h1 h2 parent :
  number h2 = number h1 → timestamp h2 = timestamp h1 → mix_hash h2 = mix_hash h1 →
  beneficiary h2 = beneficiary h1 →
  block_time_verify_for_ramanujan_fork self fuel snap h1 parent = Ret tt →
  block_time_verify_for_ramanujan_fork self fuel snap h2 parent = Ret tt.
Proof.
  intros Hn Ht Hm Hb. unfold block_time_verify_for_ramanujan_fork, calculate_millisecond_timestamp.
  rewrite Hn, Ht, Hm. destruct (is_ramanujan_active_at_block _ _); [|done].
  rewrite (back_off_time_same self fuel snap parent h1 h2) by (done || (unfold bohr_block; by rewrite Hn, Ht)).
  destruct (back_off_time _ _ _ _ _) as [t| | |]; cbn [mbind comp_bind]; try done. by destruct (_ <? _).
Qed.

End Stages.

(** ** The mined header is accepted *)

Section Accepted.
Context `{FCA : ForkConditionApi} {CS : Type} `{!BscHardforks CS}.
Context `{SL : Sealable} `{AR : AttestationRlp} `{!AttestationRlpLaws AR} `{KE : Keccak} `{VR : VoteRlp}.
Context `{BL : Bls} `{!BlsLaws BL} `{RL : Rlp} `{!RlpLaws RL} `{SE : Secp256k1} `{!Secp256k1Laws SE}.
Context `{VL : !LruApi (list Address * list VoteAddress)} `{!LruLaws _ VL}.
Context `{TL : !LruApi Z} `{!LruLaws Z TL} `{HL : !LruApi Header}.
Variable self : Parlia CS.
Variable chain_id : Z.
Variable snapshot_by_hash : B256 → option Snapshot.
Variable canonical_header_by_hash : B256 → option Header.
Variable canonical_header_by_number : Z → option Header.
Variable reader : HeaderCacheReader.
Implicit Types (h parent : Header) (pool : VotePool).

(** The header [h] the payload builder returns for the attributes prepared at
    the time [now]. *)
Record built_header (fuel : nat) (now : Z) (snap : Snapshot) (parent h : Header) : Prop := {
  bh_time : ∃ h0 h1, prepare_timestamp self (E:=BscBlockExecutionError) fuel now snap parent h0 = Ret h1
    ∧ bohr_block self h1 = bohr_block self h0
    ∧ number h = number h1 ∧ timestamp h = timestamp h1 ∧ mix_hash h = mix_hash h1
    ∧ beneficiary h = beneficiary h1;
  bh_now : is_u 62 (calculate_millisecond_timestamp parent + block_interval snap) ∧ is_u 62 now;
  bh_seconds : is_lorentz_active_at_timestamp (spec self) (number h) (timestamp h) = false →
    calculate_millisecond_timestamp parent mod 1000 = 0 ∧ block_interval snap mod 1000 = 0;
  bh_extra : extra_len h <= 32;
  bh_beacon : zero_beacon_root h = true → beacon_fields_present h;
}.

(** The beneficiary is a validator that may sign, and signs with its key. *)
Record may_sign (snap : Snapshot) (secret : list Z) (h : Header) : Prop := {
  ms_key : ∃ sk, secret_from_slice secret = Some sk ∧ beneficiary h = address_of_key (public_key_of sk);
  ms_validator : beneficiary h ∈ validators snap;
  ms_recent : sign_recently snap (beneficiary h) = false;
}.

(** The caches hold the validators and the turn length of an epoch block, and
    no wrong proposer. *)
Record caches_ok (vcache : LruMap (list Address * list VoteAddress)) (tcache proposers : LruMap Z)
    (snap : Snapshot) (parent h : Header) : Prop := {
  ca_validators : is_multiple_of (number h) (epoch_num snap) = true →
    is_Some (lru_entries vcache !! hash_slow parent);
  ca_distinct : ∀ vals votes, lru_entries vcache !! hash_slow parent = Some (vals, votes) →
    NoDup vals ∧ 0 < zlen vals < 256;
  ca_turn : is_multiple_of (number h) (epoch_num snap) = true → bohr_at_header self h = true →
    ∃ turn, lru_entries tcache !! parent_hash h = Some turn;
  ca_proposers : ∀ x a, lru_entries proposers !! hash_slow x = Some a → recover_uncached x chain_id = Ret a;
}.

(** The chain behind the block and the votes for it are as they should be. *)
Record chain_ok (pool : VotePool) (snap : Snapshot) (parent : Header) : Prop := {
  co_cache : cache_agrees canonical_header_by_hash reader;
  co_hashes : collision_free (ancestry canonical_header_by_hash 3 parent);
  co_justified : target_hash (vote_data snap) ≠ ZERO ∧
    ∃ j, cached_header_by_hash canonical_header_by_hash reader (target_hash (vote_data snap)) = Some j
    ∧ number j = target_number (vote_data snap) ∧ hash_slow j = target_hash (vote_data snap);
  co_snapshots : ∀ t s, t ∈ ancestry canonical_header_by_hash 3 parent →
    snapshot_by_hash (parent_hash t) = Some s → snapshot_wf s ∧ zlen (validators s) <= 64;
  co_votes : ∀ t v, t ∈ ancestry canonical_header_by_hash 3 parent →
    v ∈ fetch_vote_by_block_hash (hash_slow t) pool → valid_vote v;
  co_size : ∀ a, extra a = [] → zlen (rlp_encode_attestation a) < 2 ^ 32;
}.

#[local] Notation assemble := (assemble_vote_attestation self snapshot_by_hash canonical_header_by_hash).
#[local] Notation verify_attestation :=
  (verify_vote_attestation self snapshot_by_hash canonical_header_by_hash canonical_header_by_number reader).

(** The bytes of the attestation, which pass if they are read back. *)
Lemma finalize_attestation_ok {E} pool snap parent h :
  chain_ok pool snap parent →
  ∃ ab, finalize_attestation (E:=E) self snapshot_by_hash canonical_header_by_hash pool snap parent h
        = Ret (set_extra_data (extra_data h ++ ab) h)
  ∧ zlen ab < 2 ^ 32 ∧ (luban_at self h = false → ab = [])
  ∧ ∀ h2, number h2 = number h → timestamp h2 = timestamp h →
      get_vote_attestation_from_header self h2 (epoch_num snap) = decode_attestation ab →
      verify_attestation snap h2 parent = Ret tt.
Proof.
  intros Hch. unfold finalize_attestation.
  assert (Hnone : ∃ ab, Ret (E:=E) h = Ret (set_extra_data (extra_data h ++ ab) h)
    ∧ zlen ab < 2 ^ 32 ∧ (luban_at self h = false → ab = [])
    ∧ ∀ h2, number h2 = number h → timestamp h2 = timestamp h →
        get_vote_attestation_from_header self h2 (epoch_num snap) = decode_attestation ab →
        verify_attestation snap h2 parent = Ret tt).
  { exists []. rewrite app_nil_r, set_extra_data_id. split; [done|]. split; [done|]. split; [done|].
    intros h2 _ _ Hget. unfold verify_vote_attestation. rewrite Hget. by destruct (negb _). }
  pose proof (assemble_completes self snapshot_by_hash canonical_header_by_hash pool snap parent h
    (co_votes _ _ _ Hch)) as Hc.
  destruct (assemble pool snap parent h) as [h'|e| |] eqn:Ha; [|exact Hnone|done|done].
  destruct (co_justified _ _ _ Hch) as (Hz & j & Hj & Hjn & Hjh).
  destruct (assembled_verifies self snapshot_by_hash canonical_header_by_hash canonical_header_by_number reader
    pool snap parent h h' j (co_cache _ _ _ Hch) (co_hashes _ _ _ Hch) Hz Hj Hjn Hjh
    (co_snapshots _ _ _ Hch) (co_votes _ _ _ Hch) Ha) as [->|(a & t & s & -> & _ & _ & _ & _ & _ & Hext & Hver)];
    [exact Hnone|].
  exists (rlp_encode_attestation a). split; [done|]. split; [by apply (co_size _ _ _ Hch)|]. split.
  - intros Hl. apply assemble_inv in Ha as [Ha|(? & ? & ? & ? & _ & _ & _ & Ha)]; [|unfold luban_at in Hl; congruence].
    apply (f_equal extra_data) in Ha. cbn [append_attestation extra_data set_extra_data] in Ha.
    rewrite <- (app_nil_r (extra_data h)) in Ha at 2. by apply app_inv_head in Ha.
  - intros h2 Hn Ht Hget. apply Hver; [done|done|]. rewrite Hget. unfold decode_attestation.
    rewrite bool_decide_false by apply rlp_attestation_nonempty.
    rewrite <- (app_nil_r (rlp_encode_attestation a)), rlp_attestation_roundtrip. done.
Qed.

Lemma recover_sound proposers x :
  (∀ x a, lru_entries proposers !! hash_slow x = Some a → recover_uncached x chain_id = Ret a) →
  (recover_proposer proposers x chain_id).1 = recover_uncached x chain_id.
Proof.
  intros Hc. unfold recover_proposer.
  rewrite (surjective_pairing (lru_get proposers (hash_slow x))), lru_get_value.
  destruct (lru_entries proposers !! hash_slow x) as [a|] eqn:Ha; [by rewrite (Hc x a)|].
  by destruct (recover_uncached x chain_id).
Qed.

(** What [finalize_new_header] writes into the extra data, and what the parts
    are good for. *)
Record finalized (snap : Snapshot) (parent h : Header) (d : Z) (vanity section tl ab seal : list Z) : Prop := {
  fin_difficulty : ∀ E, calculate_difficulty (E:=E) snap (beneficiary h) = Ret d;
  fin_vanity : zlen vanity = 32;
  fin_seal : zlen seal = 65;
  fin_attestation_size : zlen ab < 2 ^ 32;
  fin_no_attestation : luban_at self h = false → ab = [];
  fin_no_epoch : is_multiple_of (number h) (epoch_num snap) = false → section = [] ∧ tl = [];
  fin_epoch : is_multiple_of (number h) (epoch_num snap) = true → luban_at self h = true →
    zlen tl = (if bohr_at_header self h then 1 else 0) ∧
    ∃ n entries, 0 < n < 256 ∧ section = [n] ++ entries ∧ zlen entries = n * 68;
  fin_verifies : ∀ h2, number h2 = number h → timestamp h2 = timestamp h →
    get_vote_attestation_from_header self h2 (epoch_num snap) = decode_attestation ab →
    verify_attestation snap h2 parent = Ret tt;
  fin_signer : recover_uncached (set_extra_data (vanity ++ section ++ tl ++ ab ++ seal) (set_difficulty d h)) chain_id
    = Ret (beneficiary h);
}.

Lemma finalize_ok fuel now vcache tcache proposers pool secret parent_snap parent h :
  snapshot_wf parent_snap → built_header fuel now parent_snap parent h → may_sign parent_snap secret h →
  caches_ok vcache tcache proposers parent_snap parent h → chain_ok pool parent_snap parent →
  ∃ d vanity section tl ab seal, finalized parent_snap parent h d vanity section tl ab seal
  ∧ finalize_new_header self chain_id snapshot_by_hash canonical_header_by_hash vcache tcache pool
      (Some secret) parent_snap parent h
    = Ret (set_extra_data (vanity ++ section ++ tl ++ ab ++ seal) (set_difficulty d h)).
Proof.
  intros Hwf Hb [(sk & Hsk & Hben) Hin Hrec] Hca Hch.
  destruct (inturn_validator_Ret (E:=Empty_set) parent_snap Hwf) as [w Hw].
  set (d := if w =? beneficiary h then DIFF_INTURN else DIFF_NOTURN).
  assert (Hd : ∀ E, calculate_difficulty (E:=E) parent_snap (beneficiary h) = Ret d).
  { intros E. unfold calculate_difficulty, is_inturn. by rewrite (inturn_validator_any _ w Hw). }
  set (hd := set_difficulty d h).
  set (vanity := if extra_len hd <? 32 then replicate 32 0 else extra_data hd).
  assert (Hvan : zlen vanity = 32).
  { unfold vanity. pose proof (bh_extra _ _ _ _ _ Hb) as Hx. change (extra_len h) with (extra_len hd) in Hx.
    destruct (Z.ltb_spec (extra_len hd) 32); [done|]. unfold extra_len in *. lia. }
  set (hv := set_extra_data vanity hd).
  assert (Hstart : (if extra_len hd <? EXTRA_VANITY_LEN then set_extra_data (replicate 32 0) hd else hd) = hv).
  { unfold hv, vanity, EXTRA_VANITY_LEN. destruct (extra_len hd <? 32); [done|]. by rewrite set_extra_data_id. }
  destruct (finalize_validators_ok (E:=SignerError) self vcache parent_snap parent hv (ca_distinct _ _ _ _ _ _ Hca))
    as (section & Hsec & Hsecn & Hsec0 & Hsec1).
  set (hs := set_extra_data (extra_data hv ++ section) hv) in *.
  destruct (prepare_turn_length_ok self tcache parent_snap hs (ca_turn _ _ _ _ _ _ Hca))
    as (tl & c & Htl & Htl0 & Htl1).
  set (ht := set_extra_data (extra_data hs ++ tl) hs) in *.
  destruct (finalize_attestation_ok (E:=SignerError) pool parent_snap parent ht Hch)
    as (ab & Hab & Habl & Habn & Hver).
  set (ha := set_extra_data (extra_data ht ++ ab) ht) in *.
  assert (Hext : extra_data ha = vanity ++ section ++ tl ++ ab).
  { unfold ha, ht, hs, hv. cbn [extra_data set_extra_data]. by rewrite <- !app_assoc. }
  assert (Hlen : 32 <= extra_len ha < 2 ^ 62).
  { assert (zlen tl <= 1).
    { destruct (is_multiple_of (number hs) (epoch_num parent_snap)) eqn:He; [rewrite Htl1 by done; by case_match|].
      by rewrite Htl0. }
    unfold extra_len. rewrite Hext, !zlen_app, Hvan. change (2 ^ 32) with 4294967296 in *.
    pose proof (zlen_nonneg section). pose proof (zlen_nonneg tl). pose proof (zlen_nonneg ab).
    change (2 ^ 62) with 4611686018427387904. lia. }
  destruct (seal_recovers secret sk ha chain_id) as (seal & Hseal & Hsealed & Hrecover);
    [done|exact (bh_beacon _ _ _ _ _ Hb)|done|].
  assert (Hhf : set_extra_data (extra_data ha ++ seal) ha = set_extra_data (vanity ++ section ++ tl ++ ab ++ seal) hd)
    by (rewrite Hext, <- !app_assoc; done).
  rewrite Hhf in Hsealed, Hrecover. exists d, vanity, section, tl, ab, seal. split.
  - split; try done.
    + intros He. split; [by apply Hsec0|by apply Htl0].
    + intros He Hl. split; [by apply Htl1|]. apply Hsec1; [by apply (ca_validators _ _ _ _ _ _ Hca)|done|done].
    + rewrite Hben. exact Hrecover.
  - unfold finalize_new_header. rewrite Hd. cbn [mbind comp_bind]. fold hd. rewrite Hstart, Hsec.
    cbn [mbind comp_bind]. fold hs. rewrite Htl. cbn [map_err mbind comp_bind]. fold ht. rewrite Hab.
    cbn [mbind comp_bind]. fold ha. exact Hsealed.
Qed.

(** The finished header passes the checks of its fields. *)
Lemma finalized_cascading fuel now vcache tcache proposers parent_snap parent h d vanity section tl ab seal :
  snapshot_wf parent_snap → zlen (validators parent_snap) < 2 ^ 31 →
  built_header fuel now parent_snap parent h → beneficiary h ∈ validators parent_snap →
  sign_recently parent_snap (beneficiary h) = false → caches_ok vcache tcache proposers parent_snap parent h →
  finalized parent_snap parent h d vanity section tl ab seal →
  verify_cascading_fields self chain_id snapshot_by_hash canonical_header_by_hash canonical_header_by_number
    reader fuel proposers (set_extra_data (vanity ++ section ++ tl ++ ab ++ seal) (set_difficulty d h)) parent
    parent_snap = Ret tt.
Proof.
  intros Hwf Hn Hb Hin Hrec Hca [Hd Hvan Hseal Habl Habn Hne Hep Hver Hsig].
  destruct (bh_time _ _ _ _ _ Hb) as (h0 & h1 & Hp & Hbohr & H1 & H2 & H3 & H4).
  destruct (prepared_block_time self fuel now parent_snap parent h0 h1) as (Htime & _); try done.
  { exact (proj1 (bh_now _ _ _ _ _ Hb)). }
  { exact (proj2 (bh_now _ _ _ _ _ Hb)). }
  { rewrite <- H1, <- H2. exact (bh_seconds _ _ _ _ _ Hb). }
  set (hf := set_extra_data _ _). unfold verify_cascading_fields.
  rewrite (block_time_same self fuel parent_snap h1 hf parent) by done. cbn [mbind comp_bind].
  rewrite Hver; [|done|done|].
  2: { unfold hf. by apply (final_attestation self parent_snap (set_difficulty d h) vanity section tl ab seal). }
  cbn [mbind comp_bind]. rewrite recover_sound by exact (ca_proposers _ _ _ _ _ _ Hca).
  unfold hf at 1. rewrite Hsig. by apply (verify_seal_ok parent_snap hf d).
Qed.

(** A mined header passes every check of a received one: take the header of a
    block built for the attributes the miner prepared, let its beneficiary be a
    validator that may sign and holds the signing key, let the caches hold the
    epoch's validators and turn length, and let the chain and the votes of the
    pool be in order.  Then [finalize_new_header] succeeds, changes only the
    difficulty and the extra data, and the result passes
    [verify_cascading_fields]: its time, its attestation and its seal are
    accepted. *)
Theorem mined_header_accepted fuel now vcache tcache proposers pool secret parent_snap parent h :
  snapshot_wf parent_snap → zlen (validators parent_snap) < 2 ^ 31 →
  built_header fuel now parent_snap parent h → may_sign parent_snap secret h →
  caches_ok vcache tcache proposers parent_snap parent h → chain_ok pool parent_snap parent →
  ∃ hf, finalize_new_header self chain_id snapshot_by_hash canonical_header_by_hash vcache tcache pool
          (Some secret) parent_snap parent h = Ret hf
  ∧ (∃ d x, hf = set_extra_data x (set_difficulty d h))
  ∧ verify_cascading_fields self chain_id snapshot_by_hash canonical_header_by_hash canonical_header_by_number
      reader fuel proposers hf parent parent_snap = Ret tt.
Proof.
  intros Hwf Hn Hb Hms Hca Hch.
  destruct (finalize_ok _ _ _ _ _ _ _ _ _ _ Hwf Hb Hms Hca Hch) as (d & vanity & section & tl & ab & seal & Hf & Hfin).
  eexists. split; [exact Hfin|]. split; [by eexists _, _|]. destruct Hms as [_ Hin Hrec].
  by apply (finalized_cascading _ _ _ _ _ _ _ _ _ _ _ _ _ _ Hwf Hn Hb Hin Hrec Hca Hf).
Qed.

End Accepted.

(** ** Witness *)

Section Witness.
Import RefHardforks RefLibraries.
#[local] Existing Instance HeaderExtra.ref_hash.
#[local] Ltac ev := vm_compute; first [reflexivity | discriminate].

(** The validator with the secret key 1234. *)
Definition miner_key : list Z := be_encode 32 1234.
Definition miner_address : Address := Eval vm_compute in address_of_key (SE:=ref_secp) (1234 : Z).

(** Its set of validators at block 60000000. *)
Definition miner_snap : Snapshot :=
  match snapshot_new (E:=Empty_set) [miner_address; 10; 20] 60000000 60000000 1000 (Some [300; 100; 200]) with
  | Ret s => {| epoch_num := 1000; block_number := 60000000; block_hash := hash_slow parent_header;
                validators := validators s; validators_map := validators_map s; recent_proposers := ∅;
                vote_data := vote_data parent_snapshot; turn_length := Some 1; block_interval := 750 |}
  | _ => three 0
  end.

Definition unprepared_header : Header :=
  set_beneficiary miner_address (test_header 60000001 1768357801 (hash_slow parent_header)).

(** Out of turn, two seconds of back-off after the parent's time and 750 ms. *)
Definition built : Header := set_mix_hash 750 (set_timestamp 1768357802 unprepared_header).

Lemma built_prepared :
  prepare_timestamp testnet_parlia (E:=BscBlockExecutionError) 10 1768357801000 miner_snap parent_header
    unprepared_header = Ret built.
Proof. vm_compute. reflexivity. Qed.

Lemma miner_list_ok : validator_list_ok [miner_address; 10; 20] (Some [300; 100; 200]).
Proof. split; [|done|done]. apply (bool_decide_unpack _). vm_compute. exact I. Qed.

Lemma miner_snap_wf : snapshot_wf miner_snap.
Proof.
  unfold miner_snap.
  destruct (snapshot_new (E:=Empty_set) [miner_address; 10; 20] 60000000 60000000 1000 (Some [300; 100; 200]))
    as [s| | |] eqn:Hs; [|by apply three_wf..].
  assert (Hwf : snapshot_wf s)
    by (eapply snapshot_new_preserves_wf; [exact miner_list_ok| | | |exact Hs]; first [discriminate|split; ev]).
  destruct Hwf. split; try assumption; repeat split; ev.
Qed.

Definition no_validators : LruMap (list Address * list VoteAddress) := (∅ : gmap B256 (list Address * list VoteAddress)).
Definition no_numbers : LruMap Z := (∅ : gmap B256 Z).

(** The chain behind the block, for any provider that knows the snapshot of the
    parent's parent and any reader that knows the justified header. *)
Lemma miner_chain_ok snaps reader :
  snaps 59999999 = Some (three 59999999) →
  cached_header_by_hash no_headers reader (hash_slow justified_header) = Some justified_header →
  chain_ok snaps no_headers reader example_pool miner_snap parent_header.
Proof.
  intros Hsn Hj. split.
  - intros k h Hk. discriminate Hk.
  - intros x y Hx Hy _. exact (eq_trans (in_ancestry x Hx) (eq_sym (in_ancestry y Hy))).
  - split; [ev|]. exists justified_header. split; [exact Hj|split; reflexivity].
  - intros t s Ht Hs. rewrite (in_ancestry t Ht) in Hs. change (snaps 59999999 = Some s) in Hs.
    rewrite Hsn in Hs. injection Hs as <-. split; [exact (three_wf 59999999 ltac:(by split))|ev].
  - intros t v Ht Hv. rewrite (in_ancestry t Ht) in Hv.
    assert (Hl : fetch_vote_by_block_hash (hash_slow parent_header) example_pool = [vote_of 200; vote_of 300]) by ev.
    rewrite Hl in Hv. apply elem_of_cons in Hv as [->|Hv]; [|apply list_elem_of_singleton in Hv as ->];
      eexists _, _; (split; [vm_compute; reflexivity|split; [vm_compute; reflexivity|vm_compute; reflexivity]]).
  - intros a Ha. cbn. rewrite Ha. reflexivity.
Qed.

(** Block 60000001 is not an epoch block. *)
Lemma miner_caches_ok h :
  number h = 60000001 → caches_ok testnet_parlia 97 no_validators no_numbers no_numbers miner_snap parent_header h.
Proof.
  intros Hn. split; rewrite ?Hn.
  - intros He. vm_compute in He. discriminate He.
  - intros vals votes He. discriminate He.
  - intros He. vm_compute in He. discriminate He.
  - intros x a He. discriminate He.
Qed.

Lemma miner_may_sign h : beneficiary h = miner_address → may_sign miner_snap miner_key h.
Proof.
  intros Hb. split; rewrite ?Hb; [exists (1234 : Z); split; ev|apply (bool_decide_unpack _); vm_compute; exact I|ev].
Qed.

Lemma mined_header_accepted_witness :
  ∃ hf, finalize_new_header testnet_parlia 97 snapshots no_headers no_validators no_numbers example_pool
          (Some miner_key) miner_snap parent_header built = Ret hf
  ∧ (∃ d x, hf = set_extra_data x (set_difficulty d built))
  ∧ verify_cascading_fields testnet_parlia 97 snapshots no_headers no_headers example_reader 10
      no_numbers hf parent_header miner_snap = Ret tt.
Proof.
  apply (mined_header_accepted testnet_parlia 97 snapshots no_headers no_headers example_reader 10 1768357801000
    no_validators no_numbers no_numbers example_pool miner_key miner_snap parent_header built).
  - exact miner_snap_wf.
  - ev.
  - split; [exists unprepared_header, built; split; [exact built_prepared|]| | | |].
    + split; [ev|split; [reflexivity|split; [reflexivity|split; reflexivity]]].
    + split; split; ev.
    + intros Hl. vm_compute in Hl. discriminate Hl.
    + discriminate.
    + intros Hz. discriminate Hz.
  - by apply miner_may_sign.
  - by apply miner_caches_ok.
  - by apply miner_chain_ok.
Defined.

End Witness.
