(* ===== verification/VoteJournal.v ===== *)
(** * The vote journal ([src/node/vote_journal.rs])

    The journal of the votes this node has cast, kept in memory (the latest 512)
    and on disk, and the rules that keep the node from casting votes it would be
    slashed for; the last step of [src/node/vote_producer.rs], which uses both
    (the rest of it is in [VoteProducer.v]).

    The journal file is the list of its lines; JSON is a class. *)

From Stdlib Require Import Ascii.
From S2P Require Import Prelude Types.

Definition MAX_RECENT_ENTRIES : Z := 512.
Definition MALICIOUS_VOTE_SLASH_SCOPE : Z := 256.
Definition UPPER_LIMIT_OF_VOTE_BLOCK_NUMBER : Z := 11.

(** [serde_json] on vote envelopes. *)
Class VoteJson := {
  vote_to_string : VoteEnvelope → string;
  vote_from_str : string → option VoteEnvelope;
}.
Class VoteJsonLaws `(VoteJson) : Prop := {
  vote_json_roundtrip v : vote_from_str (vote_to_string v) = Some v;
  vote_json_nonempty v : vote_to_string v ≠ "";
}.

(** ** The cache by target number *)

Record VoteDataLru := {
  capacity : Z;
  order : list Z;
  votes_by_target : gmap Z VoteData;
}.

Definition lru_new (capacity : Z) : VoteDataLru :=
  {| capacity := capacity; order := []; votes_by_target := ∅ |}.

Definition lru_contains (key : Z) (self : VoteDataLru) : bool :=
  bool_decide (is_Some (votes_by_target self !! key)).

Definition lru_add (key : Z) (value : VoteData) (self : VoteDataLru) : VoteDataLru :=
  let self :=
    if lru_contains key self then self
    else
      let order := order self ++ [key] in
      if capacity self <? zlen order then
        match order with
        | old :: order => {| capacity := capacity self; order := order;
                             votes_by_target := delete old (votes_by_target self) |}
        | [] => self
        end
      else {| capacity := capacity self; order := order; votes_by_target := votes_by_target self |} in
  {| capacity := capacity self; order := order self;
     votes_by_target := <[key := value]> (votes_by_target self) |}.

(** ** The journal *)

Record VoteJournal := { lines : list string; lru : VoteDataLru }.

Section VoteJournal.
Context `{VJ : VoteJson}.

(** The latest entries of the file, as they are collected line by line. *)
Definition push_line (buf : list VoteData) (line : string) : list VoteData :=
  if bool_decide (line = "") then buf
  else match vote_from_str line with
       | Some env =>
           let buf := buf ++ [data env] in
           if MAX_RECENT_ENTRIES <? zlen buf then drop 1 buf else buf
       | None => buf
       end.

Definition load_from_disk (file : list string) : VoteDataLru :=
  foldl (λ lru vd, lru_add (target_number vd) vd lru) (lru_new MAX_RECENT_ENTRIES)
    (foldl push_line [] file).

Definition journal_new (file : list string) : VoteJournal :=
  {| lines := file; lru := load_from_disk file |}.

(** The loop over the heights between the source and the target. *)
Definition backward_ok (source_number : Z) (lru : VoteDataLru) (block_number : Z) : bool :=
  match votes_by_target lru !! block_number with
  | Some vd => negb (source_number <? Types.source_number vd)
  | None => true
  end.

(** The loop over the heights above the target; the counter may wrap. *)
Fixpoint forward_window (fuel : nat) (source_number bn upper : Z) (lru : VoteDataLru) : comp Empty_set bool :=
  match fuel with
  | O => OutOfFuel
  | S fuel =>
      if bn <=? upper then
        match votes_by_target lru !! bn with
        | Some vd => if Types.source_number vd <? source_number then Ret false
                     else forward_window fuel source_number (add64 bn 1) upper lru
        | None => forward_window fuel source_number (add64 bn 1) upper lru
        end
      else Ret true
  end.

Definition under_rules (fuel : nat) (source_number target_number : Z) (self : VoteJournal) : comp Empty_set bool :=
  if lru_contains target_number (lru self) then Ret false
  else
    let block_number := Z.min U64_MAX (source_number + 1) in
    let block_number :=
      if add64 block_number MALICIOUS_VOTE_SLASH_SCOPE <? target_number
      then saturating_sub target_number MALICIOUS_VOTE_SLASH_SCOPE else block_number in
    if forallb (backward_ok source_number (lru self))
         (zrange block_number (Z.to_nat (target_number - block_number)))
    then forward_window fuel source_number (add64 target_number 1)
           (add64 target_number UPPER_LIMIT_OF_VOTE_BLOCK_NUMBER) (lru self)
    else Ret false.

(** [mem_only]: the environment variable; [io]: whether the file could be
    opened and written. *)
Definition write_vote (mem_only io : bool) (env : VoteEnvelope) (self : VoteJournal) : comp unit VoteJournal :=
  let remember lines :=
    {| lines := lines; lru := lru_add (target_number (data env)) (data env) (lru self) |} in
  if mem_only then Ret (remember (lines self))
  else if negb io then Err tt
  else
    let line := vote_to_string env in
    Ret (remember (if bool_decide (line = "") then lines self else lines self ++ [line])).

(** The end of [maybe_produce_and_broadcast_for_head]
    ([src/node/vote_producer.rs]) for a vote that was signed: [sent] are the
    votes put into the pool and broadcast, the latest first.  A journal error is
    only logged. *)
Definition produce_vote (fuel : nat) (mem_only io : bool) (env : VoteEnvelope)
    (st : VoteJournal * list VoteEnvelope) : comp Empty_set (VoteJournal * list VoteEnvelope) :=
  let '(journal, sent) := st in
  allowed ← under_rules fuel (Types.source_number (data env)) (target_number (data env)) journal;
  if (allowed : bool) then
    Ret (match write_vote mem_only io env journal with Ret j => j | _ => journal end, env :: sent)
  else Ret (journal, sent).

End VoteJournal.

(** * Proofs *)

Section Lru.
Implicit Types (l : list VoteData).

(** A cache that holds the entries of [l], the oldest first. *)
Definition lru_of l : VoteDataLru :=
  {| capacity := MAX_RECENT_ENTRIES; order := target_number <$> l;
     votes_by_target := list_to_map ((λ d, (target_number d, d)) <$> l) |}.

(** Adding an entry at the end, dropping the oldest one when there are too many. *)
Definition push_entry l (d : VoteData) : list VoteData :=
  let l := l ++ [d] in if MAX_RECENT_ENTRIES <? zlen l then drop 1 l else l.

Definition targets_distinct l : Prop := NoDup (target_number <$> l).

Lemma keys_of l : ((λ d, (target_number d, d)) <$> l).*1 = target_number <$> l.
Proof. by rewrite <- list_fmap_compose. Qed.

Lemma lru_of_lookup l k d :
  targets_distinct l → votes_by_target (lru_of l) !! k = Some d ↔ d ∈ l ∧ target_number d = k.
Proof.
  intros Hnd. cbn [votes_by_target lru_of]. rewrite <- elem_of_list_to_map by by rewrite keys_of.
  rewrite list_elem_of_fmap. split; [intros (x & [= -> ->] & ?); done|intros [? <-]; by exists d].
Qed.

Lemma lru_of_None l k : votes_by_target (lru_of l) !! k = None ↔ k ∉ target_number <$> l.
Proof. cbn [votes_by_target lru_of]. by rewrite <- not_elem_of_list_to_map, keys_of. Qed.

Lemma zlen_snoc_targets l d : zlen ((target_number <$> l) ++ [target_number d]) = zlen (l ++ [d]).
Proof. unfold zlen. by rewrite !length_app, length_fmap. Qed.

Lemma lru_add_of l d :
  targets_distinct l → target_number d ∉ target_number <$> l →
  lru_add (target_number d) d (lru_of l) = lru_of (push_entry l d).
Proof.
  intros Hnd Hd. assert (Hk : target_number d ∉ ((λ d, (target_number d, d)) <$> l).*1) by by rewrite keys_of.
  unfold lru_add, lru_contains. rewrite bool_decide_false.
  2: { rewrite (proj2 (lru_of_None l _) Hd). by intros []. }
  unfold push_entry. cbn [order capacity lru_of]. rewrite zlen_snoc_targets.
  destruct (MAX_RECENT_ENTRIES <? zlen (l ++ [d])) eqn:Hfull; unfold lru_of.
  - destruct l as [|x l]; [by vm_compute in Hfull|]. rewrite !fmap_cons in *.
    change (drop 1 ((x :: l) ++ [d])) with (l ++ [d]). cbn [app capacity order votes_by_target fst] in *.
    rewrite !(fmap_app _ l [d]), !fmap_cons, !fmap_nil. f_equal.
    unfold targets_distinct in Hnd. rewrite fmap_cons in Hnd. apply list.NoDup_cons in Hnd as [Hx _].
    apply not_elem_of_cons in Hk as [Hne Hk].
    rewrite list_to_map_cons, list_to_map_snoc by done. f_equal. apply delete_insert_id.
    apply not_elem_of_list_to_map. by rewrite keys_of.
  - cbn [capacity order votes_by_target]. rewrite !fmap_app. f_equal. rewrite fmap_cons, fmap_nil.
    by rewrite list_to_map_snoc.
Qed.

Lemma push_entry_suffix l d : ∃ k, push_entry l d = drop k (l ++ [d]).
Proof. unfold push_entry. destruct (_ <? _); [by exists 1%nat|by exists 0%nat]. Qed.

Lemma targets_distinct_push l d :
  targets_distinct l → target_number d ∉ target_number <$> l → targets_distinct (push_entry l d).
Proof.
  intros Hnd Hd. assert (Hs : targets_distinct (l ++ [d])).
  { unfold targets_distinct. rewrite fmap_app, fmap_cons, fmap_nil. apply list.NoDup_app.
    split; [done|split; [|apply NoDup_singleton]]. intros k Hk Hk'. apply list_elem_of_singleton in Hk' as ->. done. }
  destruct (push_entry_suffix l d) as [k ->]. unfold targets_distinct in *. rewrite fmap_drop.
  rewrite <- (take_drop k (target_number <$> l ++ [d])) in Hs. by apply list.NoDup_app in Hs as (_ & _ & ?).
Qed.

(** Pushing one after the other keeps the last 512. *)
Lemma push_all l :
  foldl push_entry [] l = drop (length l - Z.to_nat MAX_RECENT_ENTRIES) l.
Proof.
  induction l as [|d l IH] using rev_ind; [done|]. rewrite foldl_app. cbn [foldl]. rewrite IH.
  unfold push_entry. rewrite length_app. cbn [length]. set (n := length l) in *. set (m := Z.to_nat MAX_RECENT_ENTRIES).
  assert (Hm : MAX_RECENT_ENTRIES = Z.of_nat m) by done.
  unfold zlen. rewrite length_app, length_drop. fold n. cbn [length].
  rewrite <- drop_app_le by (fold n; lia). rewrite Hm.
  destruct (Z.ltb_spec (Z.of_nat m) (Z.of_nat (n - (n - m) + 1))).
  - rewrite drop_drop. f_equal. lia.
  - replace (n + 1 - m)%nat with (n - m)%nat by lia. done.
Qed.

Lemma zlen_push_all l : zlen (foldl push_entry [] l) <= MAX_RECENT_ENTRIES.
Proof. rewrite push_all. unfold zlen. rewrite length_drop. change MAX_RECENT_ENTRIES with 512. lia. Qed.

(** Filling an empty cache with a short list. *)
Lemma fill_lru l :
  targets_distinct l → zlen l <= MAX_RECENT_ENTRIES →
  foldl (λ lru vd, lru_add (target_number vd) vd lru) (lru_new MAX_RECENT_ENTRIES) l = lru_of l.
Proof.
  induction l as [|d l IH] using rev_ind; intros Hnd Hlen; [done|].
  rewrite foldl_app. cbn [foldl]. unfold targets_distinct in Hnd.
  rewrite fmap_app, fmap_cons, fmap_nil in Hnd. apply list.NoDup_app in Hnd as (Hl & Hd & _).
  rewrite zlen_app in Hlen. change (zlen [d]) with 1 in Hlen.
  rewrite IH by (done || lia). rewrite lru_add_of.
  - unfold push_entry. rewrite zlen_app. change (zlen [d]) with 1. by rewrite (proj2 (Z.ltb_ge _ _)) by lia.
  - done.
  - intros Hin. apply (Hd _ Hin). by left.
Qed.

End Lru.

Section Rules.
Context `{VJ : VoteJson} `{VL : !VoteJsonLaws VJ}.

(** The votes as the rules see them: heights fit in 63 bits and a vote leads
    from a lower block to a higher one. *)
Definition vote_heights_ok (d : VoteData) : Prop := 0 <= source_number d < target_number d ∧ target_number d < 2 ^ 63.

Lemma forward_window_ok (n : nat) fuel s bn lru :
  (n < fuel)%nat → 0 <= bn → bn + Z.of_nat n < 2 ^ 64 →
  ∃ b, forward_window fuel s bn (bn + Z.of_nat n - 1) lru = Ret b
  ∧ (b = true → ∀ k vd, votes_by_target lru !! k = Some vd → bn <= k <= bn + Z.of_nat n - 1 → s <= source_number vd).
Proof.
  revert fuel bn. induction n as [|n IH]; intros [|fuel] bn Hf Hb Hn; [lia| |lia|]; cbn [forward_window].
  - rewrite (proj2 (Z.leb_gt _ _)) by lia. eexists. split; [done|]. intros _ k vd _ Hk. lia.
  - rewrite (proj2 (Z.leb_le _ _)) by lia.
    rewrite add64_small by (unfold is_u; lia).
    destruct (IH fuel (bn + 1)) as (b & Hb' & Hall); [lia|lia|lia|].
    replace (bn + 1 + Z.of_nat n - 1) with (bn + Z.of_nat (S n) - 1) in * by lia.
    destruct (votes_by_target lru !! bn) as [vd|] eqn:Hvd.
    + destruct (Z.ltb_spec (source_number vd) s); [by eexists|]. exists b. split; [done|].
      intros -> k vd' Hk Hr. destruct (decide (k = bn)) as [->|]; [naive_solver|]. apply (Hall eq_refl k); [done|lia].
    + exists b. split; [done|]. intros -> k vd' Hk Hr.
      destruct (decide (k = bn)) as [->|]; [congruence|]. apply (Hall eq_refl k); [done|lia].
Qed.

(** What [under_rules] has looked at when it allows a vote. *)
Lemma under_rules_ok j d :
  vote_heights_ok d →
  ∃ b, under_rules 12 (source_number d) (target_number d) j = Ret b
  ∧ (b = true → votes_by_target (lru j) !! target_number d = None
     ∧ (∀ k vd, votes_by_target (lru j) !! k = Some vd →
          source_number d < k < target_number d → target_number d - 256 <= k → source_number vd <= source_number d)
     ∧ (∀ k vd, votes_by_target (lru j) !! k = Some vd →
          target_number d < k <= target_number d + 11 → source_number d <= source_number vd)).
Proof.
  intros [Hs Ht]. unfold under_rules, lru_contains. case_bool_decide as Hc; [by eexists|].
  assert (Hnone : votes_by_target (lru j) !! target_number d = None)
    by (destruct (votes_by_target (lru j) !! target_number d); [destruct Hc; eauto|done]).
  rewrite Z.min_r by (unfold U64_MAX; lia).
  change MALICIOUS_VOTE_SLASH_SCOPE with 256. change UPPER_LIMIT_OF_VOTE_BLOCK_NUMBER with 11.
  rewrite !add64_small by (unfold is_u; lia). unfold saturating_sub.
  set (start := if source_number d + 1 + 256 <? target_number d then _ else _).
  destruct (forallb _ _) eqn:Hback; [|by eexists].
  destruct (forward_window_ok 11 12 (source_number d) (target_number d + 1) (lru j)) as (b & Hb & Hall); [lia|lia|lia|].
  replace (target_number d + 1 + Z.of_nat 11 - 1) with (target_number d + 11) in * by lia.
  exists b. split; [done|]. intros ->. split; [done|]. split.
  - intros k vd Hk Hr Hw. rewrite forallb_forall in Hback.
    assert (Hok : backward_ok (source_number d) (lru j) k = true).
    { apply Hback, list_elem_of_In. unfold zrange. apply list_elem_of_fmap. exists (Z.to_nat (k - start)).
      assert (start <= k) by (unfold start; destruct (Z.ltb_spec (source_number d + 1 + 256) (target_number d)); lia).
      rewrite elem_of_seq. lia. }
    unfold backward_ok in Hok. rewrite Hk in Hok. apply negb_true_iff, Z.ltb_ge in Hok. done.
  - intros k vd Hk Hr. apply (Hall eq_refl k); [done|lia].
Qed.

(** A run of [produce_vote] with a working disk. *)
Fixpoint produce_votes (envs : list VoteEnvelope) (st : VoteJournal * list VoteEnvelope)
    : comp Empty_set (VoteJournal * list VoteEnvelope) :=
  match envs with
  | [] => Ret st
  | env :: envs => st ← produce_vote 12 false true env st; produce_votes envs st
  end.

(** Two votes that break the rules of slashing: the same height, or one within
    the span of the other, for votes at most 256 (the later one reaching over
    the earlier) or 11 (the later one inside) blocks apart. *)
Definition slashable (new old : VoteData) : Prop :=
  target_number new = target_number old
  ∨ (source_number new < source_number old ∧ target_number old < target_number new <= target_number old + 256)
  ∨ (source_number old < source_number new ∧ target_number new < target_number old <= target_number new + 11).

(** The entries in memory after the votes [sent], the latest first. *)
Definition entries_of (sent : list VoteEnvelope) : list VoteData :=
  foldl push_entry [] (data <$> reverse sent).

Record journal_inv (st : VoteJournal * list VoteEnvelope) : Prop := {
  ji_lru : lru st.1 = lru_of (entries_of st.2);
  ji_distinct : targets_distinct (entries_of st.2);
  ji_lines : lines st.1 = vote_to_string <$> reverse st.2;
  ji_safe : ∀ i j new old, st.2 !! i = Some new → st.2 !! j = Some old → (i < j)%nat →
    (j <= i + Z.to_nat MAX_RECENT_ENTRIES)%nat → ¬ slashable (data new) (data old);
}.

Lemma entries_of_cons v sent : entries_of (v :: sent) = push_entry (entries_of sent) (data v).
Proof. unfold entries_of. rewrite reverse_cons, fmap_app, foldl_app. done. Qed.

Lemma entries_of_recent sent j old :
  sent !! j = Some old → (j < Z.to_nat MAX_RECENT_ENTRIES)%nat → data old ∈ entries_of sent.
Proof.
  intros Hj Hlt. unfold entries_of. rewrite push_all, length_fmap, length_reverse.
  pose proof (lookup_lt_Some _ _ _ Hj) as Hn.
  apply (list_elem_of_lookup_2 _ (length sent - S j - (length sent - Z.to_nat MAX_RECENT_ENTRIES))).
  rewrite lookup_drop, list_lookup_fmap, reverse_lookup by lia.
  replace (length sent - S _)%nat with j by lia. by rewrite Hj.
Qed.

(** One vote: the step ends, keeps the invariant and sends at most this vote. *)
Lemma produce_vote_ok env st :
  vote_heights_ok (data env) → journal_inv st →
  (∀ v, v ∈ st.2 → vote_heights_ok (data v)) →
  ∃ st', produce_vote 12 false true env st = Ret st' ∧ journal_inv st'
  ∧ (st'.2 = st.2 ∨ st'.2 = env :: st.2).
Proof.
  intros Henv Hinv Hsent. destruct st as [j sent]. cbn [fst snd] in *. unfold produce_vote.
  destruct (under_rules_ok j (data env) Henv) as (b & -> & Hrules). cbn [mbind comp_bind].
  destruct b; [|eexists; split; [done|split; [done|by left]]].
  destruct (Hrules eq_refl) as (Hnew & Hback & Hforw). clear Hrules.
  eexists. split; [done|]. split; [|by right].
  destruct Hinv as [Hlru Hdist Hlines Hsafe]. cbn [fst snd] in *.
  assert (Hfresh : target_number (data env) ∉ target_number <$> entries_of sent)
    by (rewrite Hlru in Hnew; by apply lru_of_None in Hnew).
  unfold write_vote. cbn [negb].
  split; cbn [fst snd lru lines].
  - rewrite Hlru, entries_of_cons. by apply lru_add_of.
  - rewrite entries_of_cons. by apply targets_distinct_push.
  - rewrite bool_decide_false by apply vote_json_nonempty. rewrite Hlines, reverse_cons, fmap_app. done.
  - intros [|i] [|k] new old Hi Hk Hlt Hwin; [lia| |lia|].
    + cbn in Hi, Hk. injection Hi as <-.
      assert (Hold : votes_by_target (lru j) !! target_number (data old) = Some (data old)).
      { rewrite Hlru. apply lru_of_lookup; [done|]. split; [|done]. apply (entries_of_recent sent k); [done|lia]. }
      assert (Hoh : vote_heights_ok (data old)) by (apply Hsent; by eapply list_elem_of_lookup_2).
      destruct Hoh as [Hos Hot], Henv as [Hns Hnt].
      intros [He|[[Hs Ht]|[Hs Ht]]].
      * rewrite He in Hnew. congruence.
      * pose proof (Hback _ _ Hold ltac:(lia) ltac:(lia)). lia.
      * pose proof (Hforw _ _ Hold ltac:(lia)). lia.
    + cbn in Hi, Hk. apply (Hsafe i k); [done|done|lia|lia].
Qed.

Lemma journal_inv_new : journal_inv (journal_new [], []).
Proof.
  split; [done| |done|].
  - constructor.
  - intros i j new old Hi. by destruct i.
Qed.

Lemma produce_votes_ok envs st :
  (∀ v, v ∈ envs → vote_heights_ok (data v)) → journal_inv st →
  (∀ v, v ∈ st.2 → vote_heights_ok (data v)) →
  ∃ st', produce_votes envs st = Ret st' ∧ journal_inv st'.
Proof.
  revert st. induction envs as [|env envs IH]; intros st Henvs Hinv Hsent; [by exists st|].
  cbn [produce_votes].
  destruct (produce_vote_ok env st) as (st1 & -> & Hinv1 & Hst1); [apply Henvs; by left|done|done|].
  cbn [mbind comp_bind]. apply IH; [intros v Hv; apply Henvs; by right|done|].
  intros v Hv. destruct Hst1 as [He|He]; rewrite He in Hv; [by apply Hsent|].
  apply elem_of_cons in Hv as [->|Hv]; [apply Henvs; by left|by apply Hsent].
Qed.

(** Reading the file back restores the cache. *)
Lemma load_ok sent :
  targets_distinct (entries_of sent) →
  load_from_disk (vote_to_string <$> reverse sent) = lru_of (entries_of sent).
Proof.
  intros Hd. unfold load_from_disk.
  assert (Hbuf : ∀ l buf, foldl push_line buf (vote_to_string <$> l) = foldl push_entry buf (data <$> l)).
  { induction l as [|v l IH]; intros buf; [done|]. rewrite !fmap_cons. cbn [foldl]. rewrite IH. f_equal.
    unfold push_line. rewrite bool_decide_false by apply vote_json_nonempty. by rewrite vote_json_roundtrip. }
  rewrite Hbuf. fold (entries_of sent). apply fill_lru; [done|]. apply zlen_push_all.
Qed.

(** The node does not get itself slashed: whatever votes it is asked to cast
    from an empty journal on, the rules decide about each of them in bounded
    time, and as long as the disk works no two of the votes it sends break the
    slashing rules, for any two of the latest 512: they have different targets,
    and neither spans the other. *)
Theorem no_slashable_votes envs :
  (∀ v, v ∈ envs → vote_heights_ok (data v)) →
  ∃ j sent, produce_votes envs (journal_new [], []) = Ret (j, sent)
  ∧ ∀ i k new old, sent !! i = Some new → sent !! k = Some old → (i < k <= i + 512)%nat →
      ¬ slashable (data new) (data old).
Proof.
  intros Henvs. destruct (produce_votes_ok envs (journal_new [], []) Henvs journal_inv_new) as ([j sent] & Hr & Hinv).
  { intros v Hv. by apply elem_of_nil in Hv. }
  exists j, sent. split; [done|]. intros i k new old Hi Hk Hlt.
  apply (ji_safe _ Hinv i k new old Hi Hk); [lia|]. change (Z.to_nat MAX_RECENT_ENTRIES) with 512%nat. lia.
Qed.

(** A restart forgets nothing the rules need: after any run with a working
    disk, the journal read back from the file has the same entries, so it
    decides about every vote as the running node would. *)
Theorem journal_survives_restart envs j sent :
  (∀ v, v ∈ envs → vote_heights_ok (data v)) →
  produce_votes envs (journal_new [], []) = Ret (j, sent) →
  journal_new (lines j) = j.
Proof.
  intros Henvs Hrun.
  destruct (produce_votes_ok envs (journal_new [], []) Henvs journal_inv_new) as (st & Hr & Hinv).
  { intros v Hv. by apply elem_of_nil in Hv. }
  rewrite Hrun in Hr. injection Hr as <-. destruct Hinv as [Hlru Hdist Hlines _]. cbn [fst snd] in *.
  unfold journal_new. destruct j as [ls l]. cbn [lines lru] in *. f_equal.
  by rewrite Hlines, load_ok, Hlru.
Qed.

(** Without the disk the rules do not protect the node: a vote whose entry
    cannot be written is sent all the same and is not remembered, so a second
    vote for the same height, with any other block as its target, is sent as
    well. *)
Theorem failed_disk_double_vote env1 env2 j :
  vote_heights_ok (data env1) → target_number (data env2) = target_number (data env1) →
  source_number (data env2) = source_number (data env1) →
  under_rules 12 (source_number (data env1)) (target_number (data env1)) j = Ret true →
  ∃ sent1, produce_vote 12 false false env1 (j, []) = Ret (j, sent1) ∧ sent1 = [env1]
  ∧ produce_vote 12 false false env2 (j, sent1) = Ret (j, [env2; env1])
  ∧ slashable (data env2) (data env1).
Proof.
  intros _ Ht Hs Hr. exists [env1]. unfold produce_vote. rewrite Ht, Hs, Hr. cbn [mbind comp_bind].
  split; [done|split; [done|split; [done|by left]]].
Qed.

End Rules.

(** ** Witnesses *)

Section Witnesses.

Fixpoint digits_of (p : positive) : string :=
  match p with
  | xH => String "1"%char EmptyString
  | xO p => String "0"%char (digits_of p)
  | xI p => String "1"%char (digits_of p)
  end.

Fixpoint of_digits (s : string) : option positive :=
  match s with
  | String "1"%char EmptyString => Some xH
  | String "0"%char s => xO <$> of_digits s
  | String "1"%char s => xI <$> of_digits s
  | _ => None
  end.

Lemma of_digits_of p : of_digits (digits_of p) = Some p.
Proof.
  induction p as [p IH|p IH|]; cbn [digits_of of_digits]; [| |done]; rewrite IH; [|done].
  by destruct (digits_of p) eqn:Hp; [destruct p|].
Qed.

(** A codec of votes by numbers. *)
Definition vote_code (v : VoteEnvelope) : positive :=
  encode (vote_address v, signature v, source_number (data v), source_hash (data v),
          target_number (data v), target_hash (data v)).
Definition vote_decode (p : positive) : option VoteEnvelope :=
  '(a, g, sn, sh, tn, th) ← decode (A:=Z * Z * Z * Z * Z * Z) p;
  Some {| vote_address := a; signature := g;
          data := {| source_number := sn; source_hash := sh; target_number := tn; target_hash := th |} |}.

#[local] Instance ref_json : VoteJson := {|
  vote_to_string v := digits_of (vote_code v);
  vote_from_str s := of_digits s ≫= vote_decode;
|}.
#[local] Instance ref_json_laws : VoteJsonLaws ref_json.
Proof.
  split.
  - intros [a g [sn sh tn th]]. cbn [vote_from_str vote_to_string ref_json]. rewrite of_digits_of. cbn [mbind option_bind].
    unfold vote_decode, vote_code. rewrite decode_encode. done.
  - intros v. cbn. by destruct (vote_code v).
Qed.

Definition small_vote (source target hash : Z) : VoteEnvelope :=
  {| vote_address := 1; signature := 1;
     data := {| source_number := source; source_hash := source; target_number := target; target_hash := hash |} |}.

(** The second and the third vote are refused. *)
Definition some_votes : list VoteEnvelope :=
  [small_vote 5 8 80; small_vote 6 8 81; small_vote 3 10 100; small_vote 5 9 90].

Lemma some_votes_ok v : v ∈ some_votes → vote_heights_ok (data v).
Proof.
  intros Hv. unfold some_votes in Hv.
  repeat (apply elem_of_cons in Hv as [->|Hv]; [repeat split; vm_compute; first [reflexivity|discriminate]|]).
  by apply elem_of_nil in Hv.
Qed.

Lemma no_slashable_votes_witness :
  ∃ j sent, produce_votes some_votes (journal_new [], []) = Ret (j, sent)
  ∧ sent = [small_vote 5 9 90; small_vote 5 8 80]
  ∧ ¬ slashable (data (small_vote 5 9 90)) (data (small_vote 5 8 80)).
Proof.
  destruct (no_slashable_votes some_votes some_votes_ok) as (j & sent & Hr & Hs).
  exists j, sent. split; [exact Hr|].
  assert (Hsent : sent = [small_vote 5 9 90; small_vote 5 8 80]) by (vm_compute in Hr; injection Hr as _ <-; reflexivity).
  split; [exact Hsent|]. subst sent. apply (Hs 0%nat 1%nat); [reflexivity|reflexivity|lia].
Defined.

Lemma journal_survives_restart_witness :
  ∃ j sent, produce_votes some_votes (journal_new [], []) = Ret (j, sent) ∧ journal_new (lines j) = j.
Proof.
  destruct (produce_votes some_votes (journal_new [], [])) as [[j sent]| | |] eqn:Hr;
    try (exfalso; vm_compute in Hr; discriminate Hr).
  exists j, sent. split; [reflexivity|]. exact (journal_survives_restart some_votes j sent some_votes_ok Hr).
Defined.

Lemma failed_disk_double_vote_witness :
  slashable (data (small_vote 5 8 81)) (data (small_vote 5 8 80))
  ∧ ∃ sent1, produce_vote 12 false false (small_vote 5 8 81) (journal_new [], sent1)
             = Ret (journal_new [], [small_vote 5 8 81; small_vote 5 8 80]).
Proof.
  destruct (failed_disk_double_vote (small_vote 5 8 80) (small_vote 5 8 81) (journal_new []))
    as (sent1 & _ & _ & H2 & Hs).
  - apply (some_votes_ok (small_vote 5 8 80)). by left.
  - reflexivity.
  - reflexivity.
  - vm_compute. reflexivity.
  - split; [exact Hs|]. exists sent1. exact H2.
Defined.

End Witnesses.
