(* ===== verification/ForkChoice.v ===== *)
(** * Fork choice ([src/consensus/parlia/forkchoice_rule.rs],
      [src/node/consensus.rs])

    Which of two heads a node follows: fast finality first, then total
    difficulty with its tie breaks; and the engine that feeds the rule with
    total difficulties and justified blocks and updates the canonical head. *)

From S2P Require Import Prelude Hardforks Types Snapshot.

(** [src/consensus/mod.rs] *)
Inductive ParliaConsensusErr :=
| Provider
| HeadHashNotFound
| ForkChoiceUpdateError (msg : string)
| UnknownTotalDifficulty (hash : B256) (number : Z)
| InternalErr.

(** ** The rule *)

Record HeaderForForkchoice := {
  fc_header : Header;
  fc_td : option Z;
  justified_num : Z;
}.

Section Rule.
Context `{FCA : ForkConditionApi} {CS : Type} `{!BscHardforks CS} `{SL : Sealable}.
Variable spec : CS.

Definition head_choice_with_fast_finality (incoming current : HeaderForForkchoice) : option bool :=
  if negb (is_plato_active_at_block spec (number (fc_header incoming)))
     && negb (is_plato_active_at_block spec (number (fc_header current)))
  then None
  else if negb (justified_num incoming =? justified_num current)
  then Some (justified_num current <? justified_num incoming)
  else None.

(** [draw]: whether the random number in [0, 1) is below one half. *)
Definition head_choice_with_td (draw : bool) (incoming current : HeaderForForkchoice)
    : comp ParliaConsensusErr bool :=
  let i := fc_header incoming in
  let c := fc_header current in
  current_td ← ok_or (fc_td current) (UnknownTotalDifficulty (hash_slow c) (number c));
  incoming_td ← ok_or (fc_td incoming) (UnknownTotalDifficulty (hash_slow i) (number i));
  Ret (match incoming_td ?= current_td with
       | Gt => true
       | Lt => false
       | Eq =>
           if number i <? number c then true
           else if number c <? number i then false
           else if timestamp i =? timestamp c then
             if beneficiary i =? beneficiary c then hash_slow i <? hash_slow c else draw
           else timestamp i <? timestamp c
       end).

Definition is_need_reorg (draw : bool) (incoming current : HeaderForForkchoice)
    : comp ParliaConsensusErr bool :=
  match head_choice_with_fast_finality incoming current with
  | Some need_reorg => Ret need_reorg
  | None => head_choice_with_td draw incoming current
  end.

End Rule.

(** ** The engine ([BscForkChoiceEngine]) *)

Record ForkchoiceState := {
  head_block_hash : B256;
  safe_block_hash : B256;
  finalized_block_hash : B256;
}.

Section Engine.
Context `{FCA : ForkConditionApi} {CS : Type} `{!BscHardforks CS} `{SL : Sealable}.
Context `{TC : !LruApi (option Z)}.
Variable spec : CS.
(** The global snapshot provider, if it is set. *)
Variable snapshot_by_hash : option (B256 → option Snapshot).
(** The engine: total difficulties, and its answer to an update of the head (the
    error of an invalid one or of the call). *)
Variable query_td : Z → B256 → comp ParliaConsensusErr (option Z).
Variable fork_choice_updated : ForkchoiceState → option string.

Definition snapshot_of (header : Header) : option Snapshot :=
  sp ← snapshot_by_hash; sp (hash_slow header).

Definition get_justified_number_and_hash (header : Header) : option (Z * B256) :=
  if negb (is_luban_active_at_block spec (number header)) then None
  else snap ← snapshot_of header; Some (target_number (vote_data snap), target_hash (vote_data snap)).

Definition get_finalized_number_and_hash (header : Header) : option (Z * B256) :=
  if negb (is_plato_active_at_block spec (number header)) then None
  else snap ← snapshot_of header; Some (source_number (vote_data snap), source_hash (vote_data snap)).

(** The total difficulty, through [header_td_cache]. *)
Definition header_td (n : Z) (hash : B256) (cache : LruMap (option Z))
    : comp ParliaConsensusErr (option Z) * LruMap (option Z) :=
  let '(o, cache) := lru_get cache hash in
  match o with
  | Some td => (Ret td, cache)
  | None =>
      match query_td n hash with
      | Ret td => (Ret td, lru_insert cache hash td)
      | Err _ => (Err InternalErr, cache)
      | r => (r, cache)
      end
  end.

Definition header_td_fcu (incoming current : Header) (cache : LruMap (option Z))
    : comp ParliaConsensusErr (option Z * option Z) * LruMap (option Z) :=
  let '(r, cache) := header_td (number current) (hash_slow current) cache in
  match r with
  | Ret current_td =>
      let '(r, cache) := header_td (number incoming) (hash_slow incoming) cache in
      match r with
      | Ret td => (Ret (td, current_td), cache)
      | Err _ =>
          let '(r, cache) := header_td (sub64 (number incoming) 1) (parent_hash incoming) cache in
          let add td := wrapu 256 (td + difficulty incoming) in
          (o ← r; Ret (option_map add o, current_td), cache)
      | Panic => (Panic, cache)
      | OutOfFuel => (OutOfFuel, cache)
      end
  | Err e => (Err e, cache)
  | Panic => (Panic, cache)
  | OutOfFuel => (OutOfFuel, cache)
  end.

Definition for_forkchoice (header : Header) (td : option Z) : HeaderForForkchoice :=
  {| fc_header := header; fc_td := td;
     justified_num := default 0 (option_map fst (get_justified_number_and_hash header)) |}.

Definition engine_need_reorg (draw : bool) (incoming_header current_header : Header)
    (cache : LruMap (option Z)) : comp ParliaConsensusErr bool * LruMap (option Z) :=
  let '(r, cache) := header_td_fcu incoming_header current_header cache in
  ('(incoming_td, current_td) ← r;
   is_need_reorg spec draw (for_forkchoice incoming_header incoming_td)
     (for_forkchoice current_header current_td), cache).

Definition forkchoice_state (new_canonical_head : Header) : ForkchoiceState :=
  {| head_block_hash := hash_slow new_canonical_head;
     safe_block_hash := default ZERO (option_map snd (get_justified_number_and_hash new_canonical_head));
     finalized_block_hash := default ZERO (option_map snd (get_finalized_number_and_hash new_canonical_head)) |}.

(** The new canonical head the engine was told about.  [best_number]: the
    number of the canonical head ([chain_info]). *)
Definition update_forkchoice (best_number : comp ParliaConsensusErr Z)
    (header_by_number : Z → comp ParliaConsensusErr (option Header)) (draw : bool)
    (incoming_header : Header) (cache : LruMap (option Z))
    : comp ParliaConsensusErr Header * LruMap (option Z) :=
  let head :=
    current_number ← best_number;
    o ← header_by_number current_number;
    ok_or o HeadHashNotFound in
  match head with
  | Ret current_head =>
      let '(r, cache) := engine_need_reorg draw incoming_header current_head cache in
      (need_reorg ← r;
       let new_canonical_head := if (need_reorg : bool) then incoming_header else current_head in
       match fork_choice_updated (forkchoice_state new_canonical_head) with
       | Some e => Err (ForkChoiceUpdateError e)
       | None => Ret new_canonical_head
       end, cache)
  | Err e => (Err e, cache)
  | Panic => (Panic, cache)
  | OutOfFuel => (OutOfFuel, cache)
  end.

End Engine.

(** * Proofs *)

(** ** Lexicographic order *)

Fixpoint lexb (k1 k2 : list Z) : bool :=
  match k1, k2 with
  | x :: k1, y :: k2 => (x <? y) || ((x =? y) && lexb k1 k2)
  | _, _ => false
  end.

Lemma lexb_cons x y k1 k2 : lexb (x :: k1) (y :: k2) = true ↔ x < y ∨ x = y ∧ lexb k1 k2 = true.
Proof. cbn [lexb]. by rewrite orb_true_iff, andb_true_iff, Z.ltb_lt, Z.eqb_eq. Qed.

Lemma lexb_irrefl k : lexb k k = false.
Proof. induction k as [|x k IH]; [done|]. cbn [lexb]. by rewrite Z.ltb_irrefl, Z.eqb_refl, IH. Qed.

Lemma lexb_trans k1 k2 k3 : lexb k1 k2 = true → lexb k2 k3 = true → lexb k1 k3 = true.
Proof.
  revert k2 k3. induction k1 as [|x k1 IH]; intros [|y k2] [|z k3] H1 H2; try done.
  apply lexb_cons in H1, H2. apply lexb_cons.
  destruct H1 as [?|[-> H1]], H2 as [?|[-> H2]]; [left; lia|by left|by left|right; split; [done|by eapply IH]].
Qed.

Lemma lexb_total k1 k2 : length k1 = length k2 → lexb k1 k2 = true ∨ k1 = k2 ∨ lexb k2 k1 = true.
Proof.
  revert k2. induction k1 as [|x k1 IH]; intros [|y k2] Hl; try done; [by right; left|].
  rewrite !lexb_cons. destruct (Z.lt_trichotomy x y) as [?|[->|?]]; [by left; left| |by right; right; left].
  destruct (IH k2) as [?|[->|?]]; [by injection Hl|by left; right|by right; left|by right; right; right].
Qed.

Section Order.
Context `{FCA : ForkConditionApi} {CS : Type} `{!BscHardforks CS} `{SL : Sealable}.
Variable spec : CS.
Implicit Types (a b h : HeaderForForkchoice) (l : list HeaderForForkchoice).

(** What the rule compares, the most important number first. *)
Definition rank a : list Z :=
  [justified_num a; default 0 (fc_td a); - number (fc_header a); - timestamp (fc_header a);
   - hash_slow (fc_header a)].

(** A candidate with a known total difficulty; nothing is justified before Plato. *)
Definition comparable a : Prop :=
  is_Some (fc_td a) ∧ (is_plato_active_at_block spec (number (fc_header a)) = false → justified_num a = 0).

(** No coin is thrown between the two, and equal hashes mean equal candidates. *)
Definition decisive a b : Prop :=
  take 4 (rank a) = take 4 (rank b) →
  beneficiary (fc_header a) = beneficiary (fc_header b)
  ∧ (hash_slow (fc_header a) = hash_slow (fc_header b) → a = b).

(** The rule is the comparison of the ranks. *)
Lemma is_need_reorg_rank draw a b :
  comparable a → comparable b → decisive a b →
  is_need_reorg spec draw a b = Ret (lexb (rank b) (rank a)).
Proof.
  intros [[ta Ha] Hpa] [[tb Hb] Hpb] Hd.
  assert (Htd : justified_num a = justified_num b →
    head_choice_with_td draw a b = Ret (lexb (rank b) (rank a))).
  { intros Hj. unfold head_choice_with_td. rewrite Ha, Hb. cbn [ok_or mbind comp_bind]. f_equal.
    unfold rank. rewrite Ha, Hb. cbn [default lexb]. change (id ta) with ta. change (id tb) with tb.
    rewrite Hj, Z.ltb_irrefl, Z.eqb_refl. cbn [orb andb].
    destruct (Z.compare_spec ta tb) as [->|Hlt|Hlt].
    2: { rewrite (proj2 (Z.ltb_ge _ _)), (proj2 (Z.eqb_neq tb ta)) by lia. done. }
    2: { by rewrite (proj2 (Z.ltb_lt _ _)) by lia. }
    rewrite Z.ltb_irrefl, Z.eqb_refl. cbn [orb andb].
    destruct (Z.ltb_spec (number (fc_header a)) (number (fc_header b))).
    { by rewrite (proj2 (Z.ltb_lt _ _)) by lia. }
    destruct (Z.ltb_spec (number (fc_header b)) (number (fc_header a))).
    { rewrite (proj2 (Z.ltb_ge _ _)), (proj2 (Z.eqb_neq (- number (fc_header b)) _)) by lia. done. }
    assert (Hn : number (fc_header a) = number (fc_header b)) by lia. rewrite Hn, Z.ltb_irrefl, Z.eqb_refl.
    cbn [orb andb]. destruct (Z.eqb_spec (timestamp (fc_header a)) (timestamp (fc_header b))) as [Ht|Ht].
    - rewrite Ht, Z.ltb_irrefl, Z.eqb_refl. cbn [orb andb].
      destruct Hd as [Hbe _]; [unfold rank; cbn [take]; by rewrite Ha, Hb, Hj, Hn, Ht|]. rewrite Hbe, Z.eqb_refl.
      destruct (Z.ltb_spec (hash_slow (fc_header a)) (hash_slow (fc_header b))).
      + by rewrite (proj2 (Z.ltb_lt _ _)) by lia.
      + rewrite (proj2 (Z.ltb_ge _ _)) by lia. by rewrite andb_false_r.
    - rewrite (proj2 (Z.eqb_neq (- timestamp (fc_header b)) _)) by lia. cbn [andb]. rewrite orb_false_r.
      destruct (Z.ltb_spec (timestamp (fc_header a)) (timestamp (fc_header b)));
        [by rewrite (proj2 (Z.ltb_lt _ _)) by lia|by rewrite (proj2 (Z.ltb_ge _ _)) by lia]. }
  unfold is_need_reorg, head_choice_with_fast_finality.
  destruct (negb _ && negb _) eqn:Hp.
  - apply andb_true_iff in Hp as [H1%negb_true_iff H2%negb_true_iff]. apply Htd. by rewrite Hpa, Hpb.
  - destruct (Z.eqb_spec (justified_num a) (justified_num b)) as [Hj|Hj]; cbn [negb]; [by apply Htd|].
    f_equal. unfold rank. cbn [lexb]. rewrite (proj2 (Z.eqb_neq (justified_num b) _)) by congruence.
    cbn [andb]. by rewrite orb_false_r.
Qed.

(** Following one candidate after the other; the last one given a coin first. *)
Fixpoint follow (draws : nat → bool) l h : comp ParliaConsensusErr HeaderForForkchoice :=
  match l with
  | [] => Ret h
  | x :: l =>
      reorg ← is_need_reorg spec (draws (length l)) x h;
      follow draws l (if (reorg : bool) then x else h)
  end.

Definition all_decisive l : Prop :=
  (∀ a, a ∈ l → comparable a) ∧ ∀ a b, a ∈ l → b ∈ l → decisive a b.

(** The candidate followed in the end ranks above every other one. *)
Lemma follow_best draws l h :
  all_decisive (h :: l) →
  ∃ r, follow draws l h = Ret r ∧ r ∈ h :: l ∧ ∀ x, x ∈ h :: l → x = r ∨ lexb (rank x) (rank r) = true.
Proof.
  revert h. induction l as [|x l IH]; intros h [Hc Hd]; cbn [follow].
  { exists h. split; [done|]. split; [by left|]. intros x Hx. left. by apply list_elem_of_singleton in Hx. }
  rewrite (is_need_reorg_rank (draws (length l)) x h (Hc x ltac:(set_solver)) (Hc h ltac:(set_solver))
    (Hd x h ltac:(set_solver) ltac:(set_solver))).
  cbn [mbind comp_bind]. set (w := if lexb (rank h) (rank x) then x else h).
  destruct (IH w) as (r & Hr & Hin & Hall).
  { assert (Hw : w ∈ h :: x :: l) by (unfold w; destruct (lexb _ _); set_solver).
    split; intros; [apply Hc|apply Hd]; set_solver. }
  exists r. split; [done|]. split; [unfold w in Hin; destruct (lexb _ _); set_solver|].
  assert (Hpair : ∀ y, y = h ∨ y = x → y = w ∨ lexb (rank y) (rank w) = true).
  { intros y Hy. unfold w. destruct (lexb (rank h) (rank x)) eqn:Hlex.
    - destruct Hy as [->| ->]; [by right|by left].
    - destruct Hy as [->| ->]; [by left|].
      destruct (lexb_total (rank x) (rank h) eq_refl) as [?|[He|?]]; [by right| |congruence].
      left. apply (Hd x h); [set_solver|set_solver|by rewrite He|].
      unfold rank in He. injection He. lia. }
  intros y Hy. rewrite !elem_of_cons in Hy.
  destruct Hy as [Hy|[Hy|Hy]].
  1,2: destruct (Hpair y ltac:(tauto)) as [->|Hlt]; [apply Hall; by left|];
    destruct (Hall w ltac:(by left)) as [<-|Hw]; [by right|right; by eapply lexb_trans].
  apply Hall. by right.
Qed.

(** C28. Nodes converge: two nodes that have seen the same candidates, in any
    orders and with any coins, follow the same one, as long as the candidates'
    total difficulties are known and no two of them need a coin (the same
    justified block, difficulty, height and time, but different proposers).
    It is the one of the highest rank: justified block, then difficulty, then
    the lower height, the earlier time and the smaller hash. *)
Theorem fork_choice_converges draws1 draws2 h1 l1 h2 l2 :
  h1 :: l1 ≡ₚ h2 :: l2 → all_decisive (h1 :: l1) →
  ∃ r, follow draws1 l1 h1 = Ret r ∧ follow draws2 l2 h2 = Ret r ∧ r ∈ h1 :: l1
  ∧ ∀ x, x ∈ h1 :: l1 → x ≠ r → lexb (rank x) (rank r) = true.
Proof.
  intros Hp Hd. assert (Hd2 : all_decisive (h2 :: l2)).
  { destruct Hd as [Hc Hd]. split; intros; [apply Hc|apply Hd]; by rewrite Hp. }
  destruct (follow_best draws1 l1 h1 Hd) as (r1 & Hr1 & Hin1 & Hall1).
  destruct (follow_best draws2 l2 h2 Hd2) as (r2 & Hr2 & Hin2 & Hall2).
  assert (r2 = r1) as ->.
  { destruct (Hall1 r2) as [?|Hlt1]; [by rewrite Hp|done|].
    destruct (Hall2 r1) as [?|Hlt2]; [by rewrite <- Hp|done|].
    pose proof (lexb_trans _ _ _ Hlt1 Hlt2) as H. by rewrite lexb_irrefl in H. }
  exists r1. split; [done|]. split; [done|]. split; [done|].
  intros x Hx Hne. by destruct (Hall1 x Hx).
Qed.

End Order.

(** ** A run of the engine *)

Section Run.
Context `{FCA : ForkConditionApi} {CS : Type} `{!BscHardforks CS} `{SL : Sealable}.
Context `{TC : !LruApi (option Z)}.
Variable spec : CS.
Variable snapshot_by_hash : option (B256 → option Snapshot).
Variable query_td : Z → B256 → comp ParliaConsensusErr (option Z).
Variable fork_choice_updated : ForkchoiceState → option string.
Implicit Types (cache : LruMap (option Z)) (h : Header) (draws : nat → bool).

#[local] Notation update :=
  (update_forkchoice spec snapshot_by_hash query_td fork_choice_updated).
#[local] Notation for_forkchoice := (for_forkchoice spec snapshot_by_hash).

Definition justified_of h : Z := justified_num (for_forkchoice h None).

Lemma need_reorg_justified draw inc cur itd ctd b :
  is_plato_active_at_block spec (number inc) = true ∨ is_plato_active_at_block spec (number cur) = true →
  is_need_reorg spec draw (for_forkchoice inc itd) (for_forkchoice cur ctd) = Ret b →
  if (b : bool) then justified_of cur <= justified_of inc else justified_of inc <= justified_of cur.
Proof.
  intros Hp Hb. unfold is_need_reorg, head_choice_with_fast_finality in Hb.
  assert (Hneg : negb (is_plato_active_at_block spec (number (fc_header (for_forkchoice inc itd))))
    && negb (is_plato_active_at_block spec (number (fc_header (for_forkchoice cur ctd)))) = false).
  { cbn [ForkChoice.for_forkchoice fc_header]. destruct Hp as [-> | ->]; [done|apply andb_false_r]. }
  rewrite Hneg in Hb. change (justified_num (for_forkchoice inc itd)) with (justified_of inc) in Hb.
  change (justified_num (for_forkchoice cur ctd)) with (justified_of cur) in Hb.
  destruct (Z.eqb_spec (justified_of inc) (justified_of cur)) as [He|Hne]; cbn [negb] in Hb.
  - destruct b; lia.
  - injection Hb as <-. destruct (Z.ltb_spec (justified_of cur) (justified_of inc)); lia.
Qed.

Lemma update_forkchoice_inv best by_number draw inc cache new cache' :
  update best by_number draw inc cache = (Ret new, cache') →
  ∃ n cur b itd ctd,
    best = Ret n ∧ by_number n = Ret (Some cur)
    ∧ is_need_reorg spec draw (for_forkchoice inc itd) (for_forkchoice cur ctd) = Ret b
    ∧ new = (if (b : bool) then inc else cur)
    ∧ fork_choice_updated (forkchoice_state spec snapshot_by_hash new) = None.
Proof.
  unfold update_forkchoice, engine_need_reorg. intros H.
  destruct best as [n| | |]; try discriminate. cbn [mbind comp_bind] in H.
  destruct (by_number n) as [[cur|]| | |] eqn:Hcur; try discriminate. cbn [mbind comp_bind ok_or] in H.
  destruct (header_td_fcu query_td inc cur cache) as [r cache1].
  destruct r as [[itd ctd]| | |]; try discriminate. cbn [mbind comp_bind] in H.
  destruct (is_need_reorg _ _ _ _) as [b| | |] eqn:Hb; try discriminate. cbn [mbind comp_bind] in H.
  destruct (fork_choice_updated _) as [e|] eqn:Hup; [discriminate|]. injection H as <- <-.
  exists n, cur, b, itd, ctd. by repeat split.
Qed.

(** The canonical head through a series of incoming headers: an update that
    succeeds moves it, one that fails does not. *)
Fixpoint canonical draws incs cur cache : Header :=
  match incs with
  | [] => cur
  | inc :: incs =>
      match update (Ret (number cur)) (λ _, Ret (Some cur)) (draws (length incs)) inc cache with
      | (Ret new, cache) => canonical draws incs new cache
      | (_, cache) => canonical draws incs cur cache
      end
  end.

#[local] Lemma skip h x y (l : list Header) : h ∈ x :: l → h ∈ x :: y :: l.
Proof. rewrite !elem_of_cons. tauto. Qed.

(** C29. From Plato on the justified block of the canonical head never goes
    back: whatever headers come in, in whatever order, with whatever total
    difficulties (unknown ones and failed queries included) and whatever the
    engine answers, the head that is followed in the end is the first one or one
    of the headers that came in, and justifies no lower a block than any head
    before it. *)
Theorem forkchoice_keeps_justified draws incs cur cache :
  (∀ h, h ∈ cur :: incs → is_plato_active_at_block spec (number h) = true) →
  let r := canonical draws incs cur cache in
  r ∈ cur :: incs ∧ justified_of cur <= justified_of r
  ∧ (r = cur ∨ fork_choice_updated (forkchoice_state spec snapshot_by_hash r) = None).
Proof.
  revert cur cache. induction incs as [|inc incs IH]; intros cur cache Hp; cbn [canonical].
  { split; [by left|]. split; [lia|by left]. }
  destruct (update _ _ _ inc cache) as [[new| | |] cache'] eqn:Hu.
  2-4: destruct (IH cur cache') as (Hin & Hj & Hr); [|split; [by apply skip|done]];
    intros h Hh; apply Hp; by apply skip.
  apply update_forkchoice_inv in Hu as (n & c & b & itd & ctd & _ & Hc & Hb & -> & Hup). injection Hc as <-.
  pose proof (need_reorg_justified _ _ _ _ _ _ (or_introl (Hp inc (list_elem_of_further _ _ _ (list_elem_of_here _ _)))) Hb) as Hle.
  set (new := if b then inc else cur) in *.
  assert (Hsub : ∀ h, h ∈ new :: incs → h ∈ cur :: inc :: incs).
  { intros h Hh. unfold new in Hh. destruct b; [by right|by apply skip]. }
  destruct (IH new cache') as (Hin & Hj & Hr); [intros h Hh; apply Hp; by apply Hsub|].
  split; [by apply Hsub|]. split.
  - unfold new in Hj at 1. destruct b; lia.
  - destruct Hr as [-> | Hr]; by right.
Qed.

End Run.

(** ** Witnesses *)

Section Witness.
Import RefHardforks RefLibraries.
#[local] Instance number_hash : Sealable := λ h, number h * 1000 + timestamp h.
#[local] Ltac ev := vm_compute; first [reflexivity | discriminate].

Definition candidate (n t td justified : Z) : HeaderForForkchoice :=
  {| fc_header := test_header n t 0; fc_td := Some td; justified_num := justified |}.

(** A justified head wins over a heavier one. *)
Definition low : HeaderForForkchoice := candidate 60000003 12 110 59999998.
Definition best : HeaderForForkchoice := candidate 60000002 11 100 60000000.
Definition late : HeaderForForkchoice := candidate 60000002 14 100 60000000.

Lemma fork_choice_converges_witness :
  ∃ r, follow mainnet_spec (λ _, true) [best; late] low = Ret r
  ∧ follow mainnet_spec (λ _, false) [low; best] late = Ret r
  ∧ r ∈ [low; best; late] ∧ ∀ x, x ∈ [low; best; late] → x ≠ r → lexb (rank x) (rank r) = true.
Proof.
  apply fork_choice_converges.
  - change [late; low; best] with ([late] ++ [low; best]). by rewrite <- Permutation_app_comm.
  - split.
    + intros a Ha. rewrite !elem_of_cons in Ha.
      destruct Ha as [->|[->|[->|Ha]]]; [split; [by eexists|ev]..|]. by apply elem_of_nil in Ha.
    + intros a b Ha Hb. rewrite !elem_of_cons in Ha, Hb.
      destruct Ha as [->|[->|[->|Ha]]]; [| | |by apply elem_of_nil in Ha];
      (destruct Hb as [->|[->|[->|Hb]]]; [| | |by apply elem_of_nil in Hb]);
        intros Hr; vm_compute in Hr; first [discriminate Hr|split; [reflexivity|intros _; reflexivity]].
Defined.

Definition no_td : LruMap (option Z) := (∅ : gmap B256 (option Z)).
Definition heads : list Header := [test_header 60000001 11 0; test_header 60000002 12 0].

(** Each block justifies its parent. *)
Definition voted (k : B256) : option Snapshot :=
  let s := three (k / 1000) in
  Some {| epoch_num := epoch_num s; block_number := block_number s; block_hash := k;
          validators := validators s; validators_map := validators_map s; recent_proposers := recent_proposers s;
          vote_data := {| source_number := k / 1000 - 2; source_hash := k - 2000;
                          target_number := k / 1000 - 1; target_hash := k - 1000 |};
          turn_length := turn_length s; block_interval := block_interval s |}.

Lemma forkchoice_keeps_justified_witness :
  let r := canonical mainnet_spec (Some voted) (λ n _, Ret (Some n)) (λ _, None) (λ _, true) heads
             (test_header 60000000 10 0) no_td in
  r ∈ test_header 60000000 10 0 :: heads
  ∧ justified_of mainnet_spec (Some voted) (test_header 60000000 10 0) <= justified_of mainnet_spec (Some voted) r
  ∧ (r = test_header 60000000 10 0 ∨ None = @None string).
Proof.
  apply (forkchoice_keeps_justified mainnet_spec (Some voted) (λ n _, Ret (Some n)) (λ _, None)).
  intros h Hh. unfold heads in Hh. rewrite !elem_of_cons in Hh.
  destruct Hh as [->|[->|[->|Hh]]]; [ev..|by apply elem_of_nil in Hh].
Defined.

End Witness.
