(* ===== verification/SystemContracts.v ===== *)
(** * System contracts ([src/system_contracts/mod.rs],
      [src/system_contracts/feynman_fork.rs])

    The addresses of the system contracts, the calls and the transactions the
    node makes to them, the codes that forks install, what counts as a system
    transaction, its signature by the miner, and the election of validators by
    voting power. *)

From Stdlib Require OrdersEx.
From S2P Require Import Prelude Hardforks Types HeaderExtra.

(** ** Addresses *)

Definition SYSTEM_ADDRESS : Address := 0xfffffffffffffffffffffffffffffffffffffffe.
Definition VALIDATOR_CONTRACT : Address := 0x1000.
Definition SLASH_CONTRACT : Address := 0x1001.
Definition SYSTEM_REWARD_CONTRACT : Address := 0x1002.
Definition LIGHT_CLIENT_CONTRACT : Address := 0x1003.
Definition TOKEN_HUB_CONTRACT : Address := 0x1004.
Definition RELAYER_INCENTIVIZE_CONTRACT : Address := 0x1005.
Definition RELAYER_HUB_CONTRACT : Address := 0x1006.
Definition GOV_HUB_CONTRACT : Address := 0x1007.
Definition TOKEN_MANAGER_CONTRACT : Address := 0x1008.
Definition CROSS_CHAIN_CONTRACT : Address := 0x2000.
Definition STAKING_CONTRACT : Address := 0x2001.
Definition STAKE_HUB_CONTRACT : Address := 0x2002.
Definition STAKE_CREDIT_CONTRACT : Address := 0x2003.
Definition GOVERNOR_CONTRACT : Address := 0x2004.
Definition GOV_TOKEN_CONTRACT : Address := 0x2005.
Definition TIMELOCK_CONTRACT : Address := 0x2006.
Definition TOKEN_RECOVER_PORTAL_CONTRACT : Address := 0x3000.

Definition SYSTEM_CONTRACTS_SET : list Address := [
  VALIDATOR_CONTRACT; SLASH_CONTRACT; SYSTEM_REWARD_CONTRACT; LIGHT_CLIENT_CONTRACT;
  TOKEN_HUB_CONTRACT; RELAYER_INCENTIVIZE_CONTRACT; RELAYER_HUB_CONTRACT; GOV_HUB_CONTRACT;
  TOKEN_MANAGER_CONTRACT; CROSS_CHAIN_CONTRACT; STAKING_CONTRACT; STAKE_HUB_CONTRACT;
  STAKE_CREDIT_CONTRACT; GOVERNOR_CONTRACT; GOV_TOKEN_CONTRACT; TIMELOCK_CONTRACT;
  TOKEN_RECOVER_PORTAL_CONTRACT].

(** ** Transactions *)

Inductive TxType := Legacy | Eip2930 | Eip1559 | Eip4844 | Eip7702.

#[export] Instance TxType_eq_dec : EqDecision TxType.
Proof. solve_decision. Defined.

(** [reth_primitives::Transaction]: [max_fee_per_gas] is the gas price of a
    legacy transaction, [to] is [None] for a creation, and [tx_more] holds the
    fields of the typed transactions that the node does not look at. *)
Record Transaction := {
  tx_type : TxType;
  tx_chain_id : option Z;
  tx_nonce : Z;
  gas_price : Z;
  tx_gas_limit : Z;
  tx_to : option Address;
  tx_value : Z;
  tx_input : list Z;
  tx_more : list Z;
}.

#[export] Instance Transaction_eq_dec : EqDecision Transaction.
Proof. solve_decision. Defined.

Record TxSignature := { sig_r : Z; sig_s : Z; odd_y_parity : bool }.
Record TransactionSigned := { tx : Transaction; tx_signature : TxSignature }.

(** [signature_hash] of a transaction, and the hash of a signed one. *)
Class TxHashing := {
  signature_hash : Transaction → B256;
  trie_hash : TransactionSigned → B256;
}.

(** [src/node/evm/util.rs] *)
Definition set_nonce (t : Transaction) (nonce : Z) : Transaction :=
  {| tx_type := tx_type t; tx_chain_id := tx_chain_id t; tx_nonce := nonce; gas_price := gas_price t;
     tx_gas_limit := tx_gas_limit t; tx_to := tx_to t; tx_value := tx_value t; tx_input := tx_input t;
     tx_more := tx_more t |}.

Definition is_invoke_system_contract (addr : Address) : bool := bool_decide (addr ∈ SYSTEM_CONTRACTS_SET).

Definition is_system_transaction (t : Transaction) (signer coinbase : Address) : bool :=
  match tx_to t with
  | Some to => (signer =? coinbase) && is_invoke_system_contract to && (gas_price t =? 0)
  | None => false
  end.

(** [MinerSigner::sign_transaction] and [sign_system_transaction]
    ([src/node/miner/signer.rs]); [global_signer] is the secret key, if it is
    set. *)
Definition sign_transaction `{TxHashing} `{SE : Secp256k1} (secret_bytes : list Z) (t : Transaction)
    : comp SignerError TransactionSigned :=
  let message := from_digest (be_encode 32 (signature_hash t)) in
  sk ← ok_or (secret_from_slice secret_bytes) (SigningFailed "Invalid private key");
  let '(recovery_id, sig_bytes) := serialize_compact (sign_ecdsa_recoverable message sk) in
  r ← slice sig_bytes 0 32;
  s ← slice sig_bytes 32 64;
  Ret {| tx := t;
         tx_signature := {| sig_r := be_decode r; sig_s := be_decode s;
                            odd_y_parity := negb (recovery_id_to_i32 recovery_id =? 0) |} |}.

Definition sign_system_transaction `{TxHashing} `{SE : Secp256k1} (global_signer : option (list Z))
    (t : Transaction) : comp SignerError TransactionSigned :=
  secret_bytes ← ok_or global_signer NotInitialized;
  sign_transaction secret_bytes t.

(** ** Calls

    The ABI coder ([alloy_dyn_abi]) works on the JSON interfaces of [abi.rs],
    which are constants named here. *)
Inductive SystemAbi := validator_abi_before_luban | validator_abi | slash_abi | stake_hub_abi.

Inductive DynSolValue :=
| SolAddress (a : Address)
| SolUint (z : Z)
| SolBytes (l : list Z)
| SolFixedBytes (l : list Z)
| SolArray (l : list DynSolValue).

Class DynAbi := {
  abi_encode_input : SystemAbi → string → list DynSolValue → list Z;
  abi_decode_output : SystemAbi → string → list Z → option (list DynSolValue);
}.

Definition as_address (v : DynSolValue) : option Address :=
  match v with SolAddress a => Some a | _ => None end.
Definition as_uint (v : DynSolValue) : option Z :=
  match v with SolUint z => Some z | _ => None end.
Definition as_bytes (v : DynSolValue) : option (list Z) :=
  match v with SolBytes l => Some l | _ => None end.
Definition as_fixed_bytes (v : DynSolValue) : option (list Z) :=
  match v with SolFixedBytes l => Some l | _ => None end.
Definition as_array (v : DynSolValue) : option (list DynSolValue) :=
  match v with SolArray l => Some l | _ => None end.

(** [output[i].as_array().unwrap()] and each element through [f]. *)
Definition array_of {E A} (f : DynSolValue → comp E A) (output : list DynSolValue) (i : Z) : comp E (list A) :=
  v ← index output i; l ← unwrap (as_array v); mapM f l.

Definition uint_of {E} (output : list DynSolValue) (i : Z) : comp E Z :=
  v ← index output i; unwrap (as_uint v).

Section SystemContract.
Context `{FCA : ForkConditionApi} {CS : Type} `{!BscHardforks CS} `{DA : DynAbi}.
Variable chain_spec : CS.
Variable chain_id : Z.

Definition get_current_validators_before_luban (block_number : Z) : Address * list Z :=
  let function :=
    if is_euler_active_at_block chain_spec block_number then "getMiningValidators" else "getValidators" in
  (VALIDATOR_CONTRACT, abi_encode_input validator_abi_before_luban function []).

Definition unpack_data_into_validator_set_before_luban {E} (data : list Z) : comp E (list Address) :=
  output ← unwrap (abi_decode_output validator_abi_before_luban "getValidators" data);
  array_of (λ val, unwrap (as_address val)) output 0.

Definition get_current_validators_call : Address * list Z :=
  (VALIDATOR_CONTRACT, abi_encode_input validator_abi "getMiningValidators" []).

(** [VoteAddress::from_slice] panics unless it is given 48 bytes. *)
Definition vote_address_of {E} (val : DynSolValue) : comp E VoteAddress :=
  bytes ← unwrap (as_bytes val);
  if zlen bytes =? 0 then Ret 0
  else _ ← assert_that (zlen bytes =? 48); Ret (be_decode bytes).

Definition unpack_data_into_validator_set {E} (data : list Z) : comp E (list Address * list VoteAddress) :=
  output ← unwrap (abi_decode_output validator_abi "getMiningValidators" data);
  consensus_addresses ← array_of (λ val, unwrap (as_address val)) output 0;
  vote_address ← array_of vote_address_of output 1;
  Ret (consensus_addresses, vote_address).

Definition get_max_elected_validators : Address * list Z :=
  (STAKE_HUB_CONTRACT, abi_encode_input stake_hub_abi "maxElectedValidators" []).

Definition unpack_data_into_max_elected_validators {E} (data : list Z) : comp E Z :=
  output ← unwrap (abi_decode_output stake_hub_abi "maxElectedValidators" data); uint_of output 0.

Definition get_validator_election_info_with (offset limit : Z) : Address * list Z :=
  (STAKE_HUB_CONTRACT,
   abi_encode_input stake_hub_abi "getValidatorElectionInfo" [SolUint offset; SolUint limit]).

Definition get_validator_election_info : Address * list Z := get_validator_election_info_with 0 0.

Definition unpack_data_into_validator_election_info {E} (data : list Z)
    : comp E (list Address * list Z * list (list Z) * Z) :=
  output ← unwrap (abi_decode_output stake_hub_abi "getValidatorElectionInfo" data);
  consensus_address ← array_of (λ val, unwrap (as_address val)) output 0;
  voting_powers ← array_of (λ val, unwrap (as_uint val)) output 1;
  vote_addresses ← array_of (λ val, unwrap (as_bytes val)) output 2;
  total_length ← uint_of output 3;
  Ret (consensus_address, voting_powers, vote_addresses, total_length).

Definition get_turn_length_call : Address * list Z :=
  (VALIDATOR_CONTRACT, abi_encode_input validator_abi "getTurnLength" []).

Definition unpack_data_into_turn_length {E} (data : list Z) : comp E Z :=
  output ← unwrap (abi_decode_output validator_abi "getTurnLength" data); uint_of output 0.

Definition get_node_ids (validators : list Address) : Address * list Z :=
  (STAKE_HUB_CONTRACT, abi_encode_input stake_hub_abi "getNodeIDs" [SolArray (SolAddress <$> validators)]).

(** [copy_from_slice] into 32 bytes. *)
Definition node_id_of {E} (v : DynSolValue) : comp E (list Z) :=
  b ← unwrap (as_fixed_bytes v); _ ← assert_that (zlen b =? 32); Ret b.

Definition unpack_data_into_node_ids {E} (data : list Z) : comp E (list Address * list (list (list Z))) :=
  output ← unwrap (abi_decode_output stake_hub_abi "getNodeIDs" data);
  consensus_addresses ← array_of (λ val, unwrap (as_address val)) output 0;
  node_ids_list ← array_of (λ arr, l ← unwrap (as_array arr); mapM node_id_of l) output 1;
  Ret (consensus_addresses, node_ids_list).

(** ** Transactions *)

(** The legacy transactions the node builds: no gas price, half the gas. *)
Definition system_tx (nonce value : Z) (input : list Z) (to : Address) : Transaction :=
  {| tx_type := Legacy; tx_chain_id := Some chain_id; tx_nonce := nonce; gas_price := 0;
     tx_gas_limit := U64_MAX / 2; tx_to := Some to; tx_value := value; tx_input := input; tx_more := [] |}.

Definition slash (address : Address) : Transaction :=
  system_tx 0 0 (abi_encode_input slash_abi "slash" [SolAddress address]) SLASH_CONTRACT.

Definition distribute_to_system (system_reward : Z) : Transaction :=
  system_tx 0 system_reward [] SYSTEM_REWARD_CONTRACT.

Definition distribute_to_validator (address : Address) (block_reward : Z) : Transaction :=
  system_tx 0 block_reward (abi_encode_input validator_abi "deposit" [SolAddress address]) VALIDATOR_CONTRACT.

Definition distribute_finality_reward_tx (validators : list Address) (weights : list Z) : Transaction :=
  system_tx 0 0
    (abi_encode_input validator_abi "distributeFinalityReward"
       [SolArray (SolAddress <$> validators); SolArray (SolUint <$> weights)]) VALIDATOR_CONTRACT.

Definition add_node_ids_tx (node_ids : list (list Z)) (nonce : Z) : Transaction :=
  system_tx nonce 0 (abi_encode_input stake_hub_abi "addNodeIDs" [SolArray (SolFixedBytes <$> node_ids)])
    STAKE_HUB_CONTRACT.

Definition remove_node_ids_tx (node_ids : list (list Z)) (nonce : Z) : Transaction :=
  system_tx nonce 0 (abi_encode_input stake_hub_abi "removeNodeIDs" [SolArray (SolFixedBytes <$> node_ids)])
    STAKE_HUB_CONTRACT.

Definition update_validator_set_v2_tx (validators : list Address) (voting_powers : list Z)
    (vote_addresses : list (list Z)) : Transaction :=
  system_tx 0 0
    (abi_encode_input validator_abi "updateValidatorSetV2"
       [SolArray (SolAddress <$> validators); SolArray (SolUint <$> voting_powers);
        SolArray (SolBytes <$> vote_addresses)]) VALIDATOR_CONTRACT.

(** The transactions of block 1 and of the Feynman transition, with an empty
    signature. *)
Definition unsigned (t : Transaction) : TransactionSigned :=
  {| tx := t; tx_signature := {| sig_r := 0; sig_s := 0; odd_y_parity := false |} |}.

Definition genesis_contracts_txs : list TransactionSigned :=
  let input := abi_encode_input validator_abi "init" [] in
  (λ contract, unsigned (system_tx 0 0 input contract)) <$>
    [VALIDATOR_CONTRACT; SLASH_CONTRACT; LIGHT_CLIENT_CONTRACT; RELAYER_HUB_CONTRACT; TOKEN_HUB_CONTRACT;
     RELAYER_INCENTIVIZE_CONTRACT; CROSS_CHAIN_CONTRACT].

Definition feynman_contracts_txs : list TransactionSigned :=
  let input := abi_encode_input stake_hub_abi "initialize" [] in
  (λ contract, unsigned (system_tx 0 0 input contract)) <$>
    [STAKE_HUB_CONTRACT; GOVERNOR_CONTRACT; GOV_TOKEN_CONTRACT; TIMELOCK_CONTRACT;
     TOKEN_RECOVER_PORTAL_CONTRACT].

Definition encode_add_node_ids_call (node_ids : list (list Z)) : Address * list Z :=
  (STAKE_HUB_CONTRACT, abi_encode_input stake_hub_abi "addNodeIDs" [SolArray (SolFixedBytes <$> node_ids)]).

Definition encode_remove_node_ids_call (node_ids : list (list Z)) : Address * list Z :=
  (STAKE_HUB_CONTRACT, abi_encode_input stake_hub_abi "removeNodeIDs" [SolArray (SolFixedBytes <$> node_ids)]).

End SystemContract.

(** ** Codes installed by forks *)

Notation Bytecode := (list Z).

Inductive SystemContractError := InvalidSpec | InvalidHardfork.

Definition get_all_system_contracts : list (string * Address) := [
  ("ValidatorContract", VALIDATOR_CONTRACT);
  ("SlashContract", SLASH_CONTRACT);
  ("SystemRewardContract", SYSTEM_REWARD_CONTRACT);
  ("LightClientContract", LIGHT_CLIENT_CONTRACT);
  ("TokenHubContract", TOKEN_HUB_CONTRACT);
  ("RelayerIncentivizeContract", RELAYER_INCENTIVIZE_CONTRACT);
  ("RelayerHubContract", RELAYER_HUB_CONTRACT);
  ("GovHubContract", GOV_HUB_CONTRACT);
  ("TokenHubContract", TOKEN_HUB_CONTRACT);
  ("TokenManagerContract", TOKEN_MANAGER_CONTRACT);
  ("CrossChainContract", CROSS_CHAIN_CONTRACT);
  ("StakingContract", STAKING_CONTRACT);
  ("StakeHubContract", STAKE_HUB_CONTRACT);
  ("StakeCreditContract", STAKE_CREDIT_CONTRACT);
  ("GovTokenContract", GOV_TOKEN_CONTRACT);
  ("GovernorContract", GOVERNOR_CONTRACT);
  ("TimelockContract", TIMELOCK_CONTRACT);
  ("TokenRecoverPortalContract", TOKEN_RECOVER_PORTAL_CONTRACT)].

Definition hardforks_with_system_contracts : list BscHardfork := [
  Ramanujan; Niels; MirrorSync; Bruno; Euler; Gibbs; Moran; Planck; Luban; Plato; Kepler; Feynman;
  FeynmanFix; HaberFix; Bohr; Pascal; Lorentz; Maxwell; Fermi].

Definition hardfork_to_dir_name (hardfork : BscHardfork) : comp SystemContractError string :=
  match hardfork with
  | Bruno => Ret "bruno"
  | Euler => Ret "euler"
  | Feynman => Ret "feynman"
  | FeynmanFix => Ret "feynman_fix"
  | Gibbs => Ret "gibbs"
  | Kepler => Ret "kepler"
  | Luban => Ret "luban"
  | MirrorSync => Ret "mirror_sync"
  | Moran => Ret "moran"
  | Niels => Ret "niels"
  | Planck => Ret "planck"
  | Plato => Ret "plato"
  | Ramanujan => Ret "ramanujan"
  | HaberFix => Ret "haber_fix"
  | Bohr => Ret "bohr"
  | Pascal => Ret "pascal"
  | Lorentz => Ret "lorentz"
  | Maxwell => Ret "maxwell"
  | Fermi => Ret "fermi"
  | _ => Err InvalidHardfork
  end.

(** The directory of a chain: mainnet 56, testnet 97, qanet 714. *)
Definition chain_dir (chain_id : Z) : option string :=
  if chain_id =? 56 then Some "mainnet"
  else if chain_id =? 97 then Some "chapel"
  else if chain_id =? 714 then Some "rialto"
  else None.

Section Codes.
Context `{FCA : ForkConditionApi} {CS : Type} `{!BscHardforks CS}.
(** The generated table [EMBEDDED_CONTRACTS], after [hex::decode]. *)
Variable embedded : string → option Bytecode.

(** The inner map of [read_all_system_contracts] for one fork. *)
Definition contracts_of (dir parent_dir : string) : gmap Address (option Bytecode) :=
  foldl (λ m c,
    match embedded (parent_dir +:+ "_" +:+ dir +:+ "_" +:+ c.1) with
    | Some bytes => <[c.2 := Some bytes]> m
    | None => m
    end) ∅ get_all_system_contracts.

Definition read_all_system_contracts (dir : string)
    : comp SystemContractError (list (BscHardfork * gmap Address (option Bytecode))) :=
  mapM (λ hardfork,
    parent_dir ← match hardfork_to_dir_name hardfork with Ret n => Ret n | _ => Panic end;
    Ret (hardfork, contracts_of dir parent_dir)) hardforks_with_system_contracts.

Definition get_system_contract_codes (chain_id : Z) (hardfork : BscHardfork)
    : comp SystemContractError (gmap Address (option Bytecode)) :=
  match chain_dir chain_id with
  | None => Err InvalidSpec
  | Some dir =>
      all ← read_all_system_contracts dir;
      Ret (default ∅ (snd <$> List.find (λ e, bool_decide (e.1 = hardfork)) all))
  end.

(** The forks that take effect at a block, in the order in which their codes
    are installed: first those activated by block number, then those activated
    by timestamp. *)
Definition block_upgrades (spec : CS) (block_number : Z) : list (bool * BscHardfork) := [
  (is_ramanujan_transition_at_block spec block_number, Ramanujan);
  (is_niels_transition_at_block spec block_number, Niels);
  (is_mirror_sync_transition_at_block spec block_number, MirrorSync);
  (is_bruno_transition_at_block spec block_number, Bruno);
  (is_euler_transition_at_block spec block_number, Euler);
  (is_gibbs_transition_at_block spec block_number, Gibbs);
  (is_moran_transition_at_block spec block_number, Moran);
  (is_planck_transition_at_block spec block_number, Planck);
  (is_luban_transition_at_block spec block_number, Luban);
  (is_plato_transition_at_block spec block_number, Plato)].

Definition timestamp_upgrades (spec : CS) (block_number block_time parent_block_time : Z) : list (bool * BscHardfork) := [
  (is_kepler_transition_at_timestamp spec block_number block_time parent_block_time, Kepler);
  (is_feynman_transition_at_timestamp spec block_number block_time parent_block_time, Feynman);
  (is_feynman_fix_transition_at_timestamp spec block_number block_time parent_block_time, FeynmanFix);
  (is_haber_fix_transition_at_timestamp spec block_number block_time parent_block_time, HaberFix);
  (is_bohr_transition_at_timestamp spec block_number block_time parent_block_time, Bohr);
  (is_pascal_transition_at_timestamp spec block_number block_time parent_block_time, Pascal);
  (is_lorentz_transition_at_timestamp spec block_number block_time parent_block_time, Lorentz);
  (is_maxwell_transition_at_timestamp spec block_number block_time parent_block_time, Maxwell);
  (is_fermi_transition_at_timestamp spec block_number block_time parent_block_time, Fermi)].

Definition upgrade_order (spec : CS) (block_number block_time parent_block_time : Z) : list (bool * BscHardfork) :=
  block_upgrades spec block_number ++ timestamp_upgrades spec block_number block_time parent_block_time.

(** One of the blocks of [get_upgrade_system_contracts]: the codes of the fork
    replace those of earlier forks; an error is ignored. *)
Definition install (chain_id : Z) (m : gmap Address (option Bytecode)) (step : bool * BscHardfork)
    : gmap Address (option Bytecode) :=
  if (step.1 : bool) then
    match get_system_contract_codes chain_id step.2 with
    | Ret contracts => contracts ∪ m
    | _ => m
    end
  else m.

Definition get_upgrade_system_contracts (spec : CS) (chain_id block_number block_time parent_block_time : Z)
    : comp SystemContractError (gmap Address (option Bytecode)) :=
  Ret (foldl (install chain_id) ∅ (upgrade_order spec block_number block_time parent_block_time)).

End Codes.

(** ** Election by voting power ([feynman_fork.rs]) *)

Record ValidatorElectionInfo := {
  address : Address;
  voting_power : Z;
  vote_address_bytes : list Z;
}.

Record ElectedValidators := {
  e_validators : list Address;
  e_voting_powers : list Z;
  e_vote_addrs : list (list Z);
}.

(** [Address::to_string] (with its checksum), and the order of [str]. *)
Class AddressDisplay := address_to_string : Address → string.
Class AddressDisplayLaws `(AddressDisplay) : Prop := {
  address_to_string_inj a b : is_u 160 a → is_u 160 b → address_to_string a = address_to_string b → a = b;
}.

Section Election.
Context `{AddressDisplay}.
Implicit Types (a b m x y : ValidatorElectionInfo) (l heap : list ValidatorElectionInfo).

Definition info_cmp a b : comparison :=
  match voting_power a ?= voting_power b with
  | Eq => OrdersEx.String_as_OT.compare (address_to_string (address b)) (address_to_string (address a))
  | other => other
  end.

(** [BinaryHeap::pop]: a greatest element and the others. *)
Fixpoint pop_max x l : ValidatorElectionInfo * list ValidatorElectionInfo :=
  match l with
  | [] => (x, [])
  | y :: l =>
      match info_cmp y x with
      | Gt => let '(m, r) := pop_max y l in (m, x :: r)
      | _ => let '(m, r) := pop_max x l in (m, y :: r)
      end
  end.

Fixpoint pop_n (n : nat) heap : list ValidatorElectionInfo :=
  match n, heap with
  | S n, x :: l => let '(m, r) := pop_max x l in m :: pop_n n r
  | _, _ => []
  end.

(** [Uint::to::<u64>()] panics when the number does not fit. *)
Definition uint_to_u64 {E} (z : Z) : comp E Z := if z <? 2 ^ 64 then Ret z else Panic.

Definition get_top_validators_by_voting_power {E} (validators : list ValidatorElectionInfo)
    (max_elected_validators : Z) : comp E ElectedValidators :=
  let validator_heap := filter (λ info, 0 < voting_power info) validators in
  top_n ← uint_to_u64 max_elected_validators;
  let top_n := if zlen validator_heap <? top_n then zlen validator_heap else top_n in
  let items := pop_n (Z.to_nat top_n) validator_heap in
  powers ← mapM (λ item, uint_to_u64 (voting_power item / 10 ^ 10)) items;
  Ret {| e_validators := address <$> items; e_voting_powers := powers;
         e_vote_addrs := vote_address_bytes <$> items |}.

End Election.

(** * Proofs *)

(** ** The election *)

Section ElectionProofs.
Context `{AD : AddressDisplay} `{!AddressDisplayLaws AD}.
Implicit Types (a b m x y : ValidatorElectionInfo) (l heap : list ValidatorElectionInfo).

(** More voting power, or the same and the smaller address string. *)
Definition above a b : Prop :=
  voting_power b < voting_power a
  ∨ voting_power a = voting_power b
    ∧ OrdersEx.String_as_OT.lt (address_to_string (address a)) (address_to_string (address b)).

Lemma info_cmp_Gt a b : info_cmp a b = Gt ↔ above a b.
Proof.
  unfold info_cmp, above. destruct (Z.compare_spec (voting_power a) (voting_power b)) as [He|Hl|Hl].
  - pose proof (OrdersEx.String_as_OT.compare_spec (address_to_string (address b))
      (address_to_string (address a))) as Hc.
    destruct (OrdersEx.String_as_OT.compare _ _); inversion Hc as [H|H|H].
    + split; [done|]. rewrite H. intros [?|[_ H']]; [lia|]. by apply StrictOrder_Irreflexive in H'.
    + split; [done|]. intros [?|[_ H']]; [lia|].
      pose proof (StrictOrder_Transitive _ _ _ H H') as Hi. by apply StrictOrder_Irreflexive in Hi.
    + by split; [right|].
  - split; [done|]. intros [?|[? _]]; lia.
  - split; [|done]. intros _. left. lia.
Qed.

Lemma above_irrefl a : ¬ above a a.
Proof. intros [?|[_ H]]; [lia|]. by apply StrictOrder_Irreflexive in H. Qed.

Lemma above_trans a b x : above a b → above b x → above a x.
Proof.
  intros [?|[He H1]] [?|[He' H2]]; [left; lia..|]. right. split; [lia|].
  exact (StrictOrder_Transitive _ _ _ H1 H2).
Qed.

Lemma above_total a b :
  address_to_string (address a) ≠ address_to_string (address b) → above a b ∨ above b a.
Proof.
  intros Hne. destruct (Z.lt_trichotomy (voting_power a) (voting_power b)) as [?|[He|?]];
    [by right; left| |by left; left].
  pose proof (OrdersEx.String_as_OT.compare_spec (address_to_string (address a))
    (address_to_string (address b))) as Hc.
  destruct (OrdersEx.String_as_OT.compare _ _); inversion Hc; [done|by left; right|by right; right].
Qed.

Lemma pop_max_perm x l : (pop_max x l).1 :: (pop_max x l).2 ≡ₚ x :: l.
Proof.
  revert x. induction l as [|y l IH]; intros x; [done|]. cbn [pop_max].
  destruct (info_cmp y x).
  3: specialize (IH y); destruct (pop_max y l) as [m r]; cbn in *; rewrite <- IH; apply perm_swap.
  all: specialize (IH x); destruct (pop_max x l) as [m r]; cbn in *; rewrite (perm_swap y m), IH; apply perm_swap.
Qed.

(** The names of a list of candidates are distinct. *)
Definition named l : Prop := NoDup ((λ a, address_to_string (address a)) <$> l).

Lemma named_perm l l' : l ≡ₚ l' → named l → named l'.
Proof. intros Hp. unfold named. by rewrite Hp. Qed.

Lemma pop_max_above x l y : named (x :: l) → y ∈ (pop_max x l).2 → above (pop_max x l).1 y.
Proof.
  revert x y. induction l as [|z l IH]; intros x y Hn Hy; [by apply elem_of_nil in Hy|].
  assert (Hzx : above z x ∨ above x z).
  { apply above_total. unfold named in Hn. cbn in Hn. apply list.NoDup_cons in Hn as [Hn _].
    intros He. apply Hn. rewrite <- He. by left. }
  cbn [pop_max] in *. destruct (info_cmp z x) eqn:Hc.
  3: { apply info_cmp_Gt in Hc. clear Hzx.
       assert (Hnz : named (z :: l)) by (unfold named in *; cbn in *; by apply list.NoDup_cons in Hn as [_ Hn]).
       pose proof (pop_max_perm z l) as Hp. pose proof (λ w, IH z w Hnz) as Ha.
       destruct (pop_max z l) as [m r]. cbn in *. apply elem_of_cons in Hy as [->|Hy]; [|by apply Ha].
       assert (Hz : z ∈ m :: r) by (rewrite Hp; by left).
       apply elem_of_cons in Hz as [->|Hz]; [done|]. eapply above_trans; [by apply Ha|done]. }
  all: assert (Hxz : above x z)
    by (destruct Hzx as [Ha|Ha]; [apply info_cmp_Gt in Ha; congruence|done]).
  all: assert (Hnx : named (x :: l))
    by (unfold named in *; cbn in *; apply list.NoDup_cons in Hn as [Hn1 Hn2];
        apply list.NoDup_cons in Hn2 as [Hn2 Hn3]; apply list.NoDup_cons; split; [|done];
        intros Hin; apply Hn1; by right).
  all: pose proof (pop_max_perm x l) as Hp; pose proof (λ w, IH x w Hnx) as Ha.
  all: destruct (pop_max x l) as [m r]; cbn in *; apply elem_of_cons in Hy as [->|Hy]; [|by apply Ha].
  all: assert (Hx : x ∈ m :: r) by (rewrite Hp; by left).
  all: apply elem_of_cons in Hx as [->|Hx]; [done|]; eapply above_trans; [by apply Ha|done].
Qed.

(** The greatest candidate does not depend on the order. *)
Lemma pop_max_unique x l x' l' :
  named (x :: l) → x :: l ≡ₚ x' :: l' → (pop_max x l).1 = (pop_max x' l').1 ∧ (pop_max x l).2 ≡ₚ (pop_max x' l').2.
Proof.
  intros Hn Hp. pose proof (pop_max_perm x l) as P1. pose proof (pop_max_perm x' l') as P2.
  pose proof (λ y, pop_max_above x l y Hn) as A1.
  pose proof (λ y, pop_max_above x' l' y (named_perm _ _ Hp Hn)) as A2.
  destruct (pop_max x l) as [m r], (pop_max x' l') as [m' r']. cbn in *.
  assert (Hall : m :: r ≡ₚ m' :: r') by (by rewrite P1, P2).
  assert (Hm : m = m').
  { assert (H1 : m ∈ m' :: r') by (rewrite <- Hall; by left). assert (H2 : m' ∈ m :: r) by (rewrite Hall; by left).
    apply elem_of_cons in H1 as [?|H1]; [done|]. apply elem_of_cons in H2 as [?|H2]; [done|].
    destruct (above_irrefl m). eapply above_trans; [by apply A1|by apply A2]. }
  subst m'. split; [done|]. by apply Permutation_cons_inv in Hall.
Qed.

Lemma pop_n_unique n heap heap' : named heap → heap ≡ₚ heap' → pop_n n heap = pop_n n heap'.
Proof.
  revert heap heap'. induction n as [|n IH]; intros heap heap' Hn Hp; [done|].
  destruct heap as [|x l], heap' as [|x' l']; [done|by apply Permutation_nil_l in Hp| |].
  { by apply Permutation_nil_r in Hp. }
  destruct (pop_max_unique x l x' l' Hn Hp) as [Hm Hr]. pose proof (pop_max_perm x l) as P.
  cbn [pop_n]. destruct (pop_max x l) as [m r], (pop_max x' l') as [m' r']. cbn in *. subst m'.
  f_equal. apply IH; [|done]. apply (named_perm _ _ (symmetry P)) in Hn.
  unfold named in *. cbn in Hn. by apply list.NoDup_cons in Hn as [_ Hn].
Qed.

Lemma pop_n_spec n heap :
  named heap → (n <= length heap)%nat →
  ∃ rest, pop_n n heap ++ rest ≡ₚ heap ∧ length (pop_n n heap) = n
  ∧ StronglySorted above (pop_n n heap) ∧ ∀ w y, w ∈ pop_n n heap → y ∈ rest → above w y.
Proof.
  revert heap. induction n as [|n IH]; intros heap Hn Hl.
  { exists heap. cbn. split; [by destruct heap|]. split; [done|]. split; [by destruct heap; constructor|].
    intros w y Hw. destruct heap; by apply elem_of_nil in Hw. }
  destruct heap as [|x l]; [cbn in Hl; lia|]. pose proof (pop_max_perm x l) as P.
  pose proof (λ y, pop_max_above x l y Hn) as A. cbn [pop_n]. destruct (pop_max x l) as [m r]. cbn in P, A.
  assert (Hnr : named r).
  { apply (named_perm _ _ (symmetry P)) in Hn. unfold named in *. cbn in Hn.
    by apply list.NoDup_cons in Hn as [_ Hn]. }
  assert (Hlr : length r = length l) by (apply Permutation_length in P; cbn in P; lia).
  destruct (IH r Hnr ltac:(cbn in Hl; lia)) as (rest & Hp & Hlen & Hs & Ha). exists rest. split.
  { cbn. by rewrite Hp, P. }
  split; [cbn; by rewrite Hlen|]. split.
  - constructor; [done|]. apply list.Forall_forall. intros y Hy. apply A. rewrite <- Hp. by apply elem_of_app; left.
  - intros w y Hw Hy. apply elem_of_cons in Hw as [->|Hw]; [|by apply Ha].
    apply A. rewrite <- Hp. by apply elem_of_app; right.
Qed.

Lemma uint_to_u64_small {E} z : z < 2 ^ 64 → uint_to_u64 (E:=E) z = Ret z.
Proof. intros Hz. unfold uint_to_u64. by rewrite (proj2 (Z.ltb_lt _ _) Hz). Qed.

Lemma mapM_u64 l :
  (∀ a, a ∈ l → voting_power a / 10 ^ 10 < 2 ^ 64) →
  ∀ E, mapM (M := comp E) (λ item, uint_to_u64 (voting_power item / 10 ^ 10)) l
       = Ret ((λ a, voting_power a / 10 ^ 10) <$> l).
Proof.
  intros Hl E. induction l as [|a l IH]; [done|]. cbn [mapM].
  rewrite uint_to_u64_small by (apply Hl; by left). cbn [mbind comp_bind]. rewrite IH by (intros; apply Hl; by right). done.
Qed.

(** C8. The election takes the [max_elected_validators] candidates of the
    greatest voting power (all of them when there are fewer), those of equal
    power by their address string, the greatest first, never one without voting
    power; every elected candidate ranks above every other one, and the outcome
    does not depend on the order in which the contract lists the candidates.
    The powers are scaled down by 10^10; a scaled power of 2^64 or more would
    panic. *)
Theorem elected_are_top infos max_elected {E} :
  NoDup (address <$> infos) → (∀ a, a ∈ infos → is_u 160 (address a)) →
  (∀ a, a ∈ infos → voting_power a / 10 ^ 10 < 2 ^ 64) → is_u 64 max_elected →
  let candidates := filter (λ a, 0 < voting_power a) infos in
  ∃ winners losers,
    winners ++ losers ≡ₚ candidates
    ∧ length winners = (Z.to_nat max_elected `min` length candidates)%nat
    ∧ StronglySorted above winners
    ∧ (∀ w y, w ∈ winners → y ∈ losers → above w y)
    ∧ ∀ infos', infos' ≡ₚ infos →
        get_top_validators_by_voting_power (E:=E) infos' max_elected
        = Ret {| e_validators := address <$> winners;
                 e_voting_powers := (λ a, voting_power a / 10 ^ 10) <$> winners;
                 e_vote_addrs := vote_address_bytes <$> winners |}.
Proof.
  intros Hnd Ha Hp Hmax candidates. set (n := (Z.to_nat max_elected `min` length candidates)%nat).
  assert (Hsub : ∀ a, a ∈ candidates → a ∈ infos) by (intros a [_ ?]%list_elem_of_filter; done).
  assert (Hnamed : named candidates).
  { unfold named. change (λ a, address_to_string (address a)) with (address_to_string ∘ address).
    rewrite list_fmap_compose.
    apply (NoDup_fmap_2_strong address_to_string).
    - intros a b [x [-> Hx]]%list_elem_of_fmap [y [-> Hy]]%list_elem_of_fmap He.
      apply address_to_string_inj; [by apply Ha, Hsub|by apply Ha, Hsub|done].
    - refine (sublist_NoDup _ _ Hnd _). apply fmap_sublist, sublist_filter. }
  destruct (pop_n_spec n candidates Hnamed ltac:(unfold n; lia)) as (losers & Hperm & Hlen & Hs & Habove).
  exists (pop_n n candidates), losers. split; [done|]. split; [done|]. split; [done|]. split; [done|].
  intros infos' Hinfos. unfold get_top_validators_by_voting_power.
  assert (Hcand : filter (λ info, 0 < voting_power info) infos' ≡ₚ candidates) by (unfold candidates; by rewrite Hinfos).
  set (cand' := filter (λ info, 0 < voting_power info) infos') in *.
  rewrite uint_to_u64_small by apply Hmax. cbn [mbind comp_bind].
  assert (Hn : Z.to_nat (if zlen cand' <? max_elected then zlen cand' else max_elected) = n).
  { unfold n, zlen. rewrite (Permutation_length Hcand). destruct Hmax as [? _].
    destruct (Z.ltb_spec (Z.of_nat (length candidates)) max_elected); lia. }
  rewrite Hn, (pop_n_unique n cand' candidates) by (apply (named_perm candidates); [by symmetry|done] || done).
  rewrite mapM_u64; [done|]. intros a Hin. apply Hp, Hsub. rewrite <- Hperm. by apply elem_of_app; left.
Qed.

End ElectionProofs.

(** ** The codes of forks *)

Section CodesProofs.
Context `{FCA : ForkConditionApi} {CS : Type} `{!BscHardforks CS}.
Variable embedded : string → option Bytecode.
Implicit Types (m : gmap Address (option Bytecode)) (f : BscHardfork).

Lemma NoDup_forks : NoDup hardforks_with_system_contracts.
Proof. apply (bool_decide_unpack _). vm_compute. exact I. Qed.

Lemma dir_name_total f :
  f ∈ hardforks_with_system_contracts → ∃ n, hardfork_to_dir_name f = Ret n.
Proof.
  intros Hf. unfold hardforks_with_system_contracts in Hf. rewrite !elem_of_cons in Hf.
  repeat (destruct Hf as [-> | Hf]; [by eexists|]). by apply elem_of_nil in Hf.
Qed.

Definition codes_of (dir : string) f : gmap Address (option Bytecode) :=
  match hardfork_to_dir_name f with Ret n => contracts_of embedded dir n | _ => ∅ end.

Lemma read_all_codes dir :
  read_all_system_contracts embedded dir = Ret ((λ f, (f, codes_of dir f)) <$> hardforks_with_system_contracts).
Proof.
  unfold read_all_system_contracts. pose proof dir_name_total as Ht.
  induction hardforks_with_system_contracts as [|f l IH]; [done|]. cbn [mapM].
  destruct (Ht f) as [n Hn]; [by left|].
  assert (Hc : codes_of dir f = contracts_of embedded dir n) by (unfold codes_of; by rewrite Hn).
  rewrite Hn. cbn [mbind comp_bind]. rewrite IH by (intros; apply Ht; by right). cbn [mbind comp_bind].
  rewrite fmap_cons, Hc. reflexivity.
Qed.

Lemma find_fork (l : list BscHardfork) (g : BscHardfork → gmap Address (option Bytecode)) f :
  f ∈ l → List.find (λ e, bool_decide (e.1 = f)) ((λ f, (f, g f)) <$> l) = Some (f, g f).
Proof.
  induction l as [|f' l IH]; [by intros ?%elem_of_nil|]. intros Hf. cbn.
  case_bool_decide as He; [by subst|]. apply IH. by apply elem_of_cons in Hf as [->|?].
Qed.

Lemma system_contract_codes chain_id dir f :
  chain_dir chain_id = Some dir → f ∈ hardforks_with_system_contracts →
  get_system_contract_codes embedded chain_id f = Ret (codes_of dir f).
Proof.
  intros Hd Hf. unfold get_system_contract_codes. rewrite Hd, read_all_codes. cbn [mbind comp_bind].
  by rewrite find_fork.
Qed.

(** Every address has one name. *)
Lemma contract_names n n' a :
  (n, a) ∈ get_all_system_contracts → (n', a) ∈ get_all_system_contracts → n = n'.
Proof.
  assert (Hall : Forall (λ c, Forall (λ c', c.2 = c'.2 → c.1 = c'.1) get_all_system_contracts) get_all_system_contracts)
    by (apply (bool_decide_unpack _); vm_compute; exact I).
  intros H1 H2. rewrite list.Forall_forall in Hall. specialize (Hall _ H1). rewrite list.Forall_forall in Hall.
  by specialize (Hall _ H2 eq_refl).
Qed.

Lemma fold_codes_lookup (g : string → option Bytecode) (cs : list (string * Address)) m a n :
  (∀ n', (n', a) ∈ cs → n' = n) →
  foldl (λ m c, match g c.1 with Some bytes => <[c.2 := Some bytes]> m | None => m end) m cs !! a
  = (if bool_decide ((n, a) ∈ cs) then Some <$> g n else None) ∪ m !! a.
Proof.
  intros Hu. induction cs as [|[n' a'] cs IH] using rev_ind.
  { cbn. rewrite bool_decide_false by (by intros ?%elem_of_nil). by rewrite (left_id_L None _). }
  rewrite foldl_snoc. cbn [fst snd].
  assert (Hu' : ∀ n'', (n'', a) ∈ cs → n'' = n) by (intros; apply Hu; apply elem_of_app; by left).
  specialize (IH Hu').
  destruct (decide (a' = a)) as [->|Hne].
  - assert (n' = n) as -> by (apply Hu; apply elem_of_app; right; by left).
    rewrite (bool_decide_true ((n, a) ∈ cs ++ [(n, a)])) by (apply elem_of_app; right; by left).
    destruct (g n) as [bytes|] eqn:Hg; [rewrite lookup_insert_eq; by destruct (m !! a)|].
    rewrite IH. by case_bool_decide.
  - rewrite (bool_decide_ext ((n, a) ∈ cs ++ [(n', a')]) ((n, a) ∈ cs)).
    2: { rewrite elem_of_app, list_elem_of_singleton. naive_solver. }
    destruct (g n') as [bytes|]; [by rewrite lookup_insert_ne|done].
Qed.

(** The codes of a fork are those of its directory in the embedded table. *)
Lemma contracts_of_lookup dir parent_dir n a :
  (n, a) ∈ get_all_system_contracts →
  contracts_of embedded dir parent_dir !! a = Some <$> embedded (parent_dir +:+ "_" +:+ dir +:+ "_" +:+ n).
Proof.
  intros Hn. unfold contracts_of.
  rewrite (fold_codes_lookup (λ n, embedded (parent_dir +:+ "_" +:+ dir +:+ "_" +:+ n)) _ _ _ n)
    by (intros n' Hn'; by apply (contract_names _ _ a)).
  rewrite bool_decide_true by done. by destruct (embedded _).
Qed.

Lemma contracts_of_other dir parent_dir a :
  a ∉ get_all_system_contracts.*2 → contracts_of embedded dir parent_dir !! a = None.
Proof.
  intros Hn. unfold contracts_of.
  rewrite (fold_codes_lookup (λ n, embedded (parent_dir +:+ "_" +:+ dir +:+ "_" +:+ n)) _ _ _ "").
  - by rewrite bool_decide_false by (intros Hin; apply Hn, list_elem_of_fmap; by exists ("", a)).
  - intros n' Hin. destruct Hn. apply list_elem_of_fmap. by exists (n', a).
Qed.

Lemma install_lookup chain_id dir m b f (a : Address) :
  chain_dir chain_id = Some dir → f ∈ hardforks_with_system_contracts →
  install embedded chain_id m (b, f) !! a = if b then codes_of dir f !! a ∪ m !! a else m !! a.
Proof.
  intros Hd Hf. unfold install. cbn [fst snd]. destruct b; [|done].
  rewrite (system_contract_codes chain_id dir f Hd Hf). by rewrite lookup_union.
Qed.

Lemma install_all_lookup chain_id dir (steps : list (bool * BscHardfork)) m (a : Address) :
  chain_dir chain_id = Some dir → (∀ s, s ∈ steps → s.2 ∈ hardforks_with_system_contracts) →
  foldl (install embedded chain_id) m steps !! a
  = list.last (omap (λ s, if (s.1 : bool) then codes_of dir s.2 !! a else None) steps) ∪ m !! a.
Proof.
  intros Hd. revert m. induction steps as [|[b f] steps IH] using rev_ind; intros m Hs.
  { cbn. by destruct (m !! a). }
  rewrite foldl_snoc, (install_lookup chain_id dir) by (exact Hd || (apply (Hs (b, f)); apply elem_of_app; right; apply list_elem_of_here)).
  rewrite IH by (intros; apply Hs, elem_of_app; by left). rewrite omap_app, last_app. cbn.
  destruct b; cbn; [|done]. destruct (codes_of dir f !! a), (m !! a), (list.last _); done.
Qed.

(** The code a fork embeds for a named contract. *)
Definition embedded_code (dir : string) f (n : string) : option Bytecode :=
  match hardfork_to_dir_name f with
  | Ret d => embedded (d +:+ "_" +:+ dir +:+ "_" +:+ n)
  | _ => None
  end.

(** The upgrade of a block gives each system contract, by its name, the
    code embedded for the last of the forks that take effect at the block and
    embed one for it, and touches no other account; the installation never
    fails.  On a chain without embedded codes (any but mainnet, testnet and
    qanet) nothing is ever installed. *)
Theorem upgrade_installs_last_fork (spec : CS) chain_id n t pt :
  ∃ m, get_upgrade_system_contracts embedded spec chain_id n t pt = Ret m
  ∧ (chain_dir chain_id = None → m = ∅)
  ∧ ∀ dir a, chain_dir chain_id = Some dir →
      (∀ name, (name, a) ∈ get_all_system_contracts →
        m !! a = Some <$> list.last
          (omap (λ s, if (s.1 : bool) then embedded_code dir s.2 name else None) (upgrade_order spec n t pt)))
      ∧ (a ∉ get_all_system_contracts.*2 → m !! a = None).
Proof.
  eexists. split; [reflexivity|]. split.
  { intros Hd. induction (upgrade_order spec n t pt) as [|[b f] l IH] using rev_ind; [done|].
    rewrite foldl_snoc, IH. unfold install. destruct b; [|done]. unfold get_system_contract_codes. by rewrite Hd. }
  intros dir a Hd.
  assert (Hs : ∀ s, s ∈ upgrade_order spec n t pt → s.2 ∈ hardforks_with_system_contracts).
  { intros s Hs. change hardforks_with_system_contracts with (upgrade_order spec n t pt).*2.
    apply list_elem_of_fmap. by exists s. }
  rewrite (install_all_lookup chain_id dir) by done. rewrite lookup_empty, (right_id_L None _).
  revert Hs. generalize (upgrade_order spec n t pt). intros steps Hs. split.
  - intros name Hname. induction steps as [|s steps IH] using rev_ind; [done|].
    rewrite !omap_app, !last_app.
    assert (Hsteps : ∀ s', s' ∈ steps → s'.2 ∈ hardforks_with_system_contracts)
      by (intros; apply Hs, elem_of_app; by left).
    destruct s as [b f]. destruct (dir_name_total f) as [d Hdn].
    { apply (Hs (b, f)), elem_of_app; right; by left. }
    cbn. destruct b; [|by apply IH]. unfold codes_of, embedded_code. rewrite Hdn.
    rewrite (contracts_of_lookup _ _ name) by done. destruct (embedded _); [done|by apply IH].
  - intros Ha. induction steps as [|[b f] steps IH] using rev_ind; [done|].
    rewrite omap_app, last_app. cbn.
    assert (Hc : codes_of dir f !! a = None).
    { unfold codes_of. destruct (hardfork_to_dir_name f); [by apply contracts_of_other|by rewrite lookup_empty..]. }
    rewrite Hc. destruct b; (apply IH; intros; apply Hs, elem_of_app; by left).
Qed.

End CodesProofs.

(** ** System transactions *)

Section SystemTransactions.
Context `{DA : DynAbi}.
Variable chain_id : Z.

(** A transaction the node builds is recognised as a system transaction when
    it is sent by the proposer to a system contract. *)
Lemma system_tx_recognised nonce n value input to coinbase :
  to ∈ SYSTEM_CONTRACTS_SET →
  is_system_transaction (set_nonce (system_tx chain_id n value input to) nonce) coinbase coinbase = true.
Proof.
  intros Hto. unfold is_system_transaction, set_nonce, system_tx. cbn [tx_to gas_price].
  unfold is_invoke_system_contract. by rewrite bool_decide_true, Z.eqb_refl by done.
Qed.

End SystemTransactions.

(** ** Witness: four candidates for three seats *)

Module ElectionExample.

Fixpoint unary (n : nat) : string := match n with O => "" | S n => "1" +:+ unary n end.
#[local] Instance unary_display : AddressDisplay := λ a, unary (Z.to_nat a).
Lemma unary_length n : String.length (unary n) = n.
Proof. induction n as [|n IH]; [done|]. change (S (String.length (unary n)) = S n). by f_equal. Qed.
#[local] Instance unary_laws : AddressDisplayLaws unary_display.
Proof.
  split. intros a b [Ha _] [Hb _] He. apply (f_equal String.length) in He.
  unfold address_to_string, unary_display in He. rewrite !unary_length in He. lia.
Qed.

Definition info (a p : Z) : ValidatorElectionInfo :=
  {| address := a; voting_power := p * 10 ^ 10; vote_address_bytes := [a] |}.
Definition infos : list ValidatorElectionInfo := [info 3 5; info 1 7; info 4 0; info 2 5; info 5 4].

Lemma elected_are_top_witness :
  ∃ winners losers : list ValidatorElectionInfo,
    winners ++ losers ≡ₚ filter (λ a, 0 < voting_power a) infos
    ∧ length winners = 3%nat
    ∧ StronglySorted above winners
    ∧ (∀ w y, w ∈ winners → y ∈ losers → above w y)
    ∧ ∀ infos', infos' ≡ₚ infos →
        get_top_validators_by_voting_power (E:=Empty_set) infos' 3
        = Ret {| e_validators := address <$> winners;
                 e_voting_powers := (λ a, voting_power a / 10 ^ 10) <$> winners;
                 e_vote_addrs := vote_address_bytes <$> winners |}.
Proof.
  apply (elected_are_top (AD:=unary_display) infos 3).
  - apply (bool_decide_unpack _). vm_compute. exact I.
  - intros a Ha. unfold infos in Ha. rewrite !elem_of_cons in Ha.
    repeat (destruct Ha as [-> | Ha]; [split; vm_compute; first [reflexivity|discriminate]|]).
    by apply elem_of_nil in Ha.
  - intros a Ha. unfold infos in Ha. rewrite !elem_of_cons in Ha.
    repeat (destruct Ha as [-> | Ha]; [vm_compute; reflexivity|]). by apply elem_of_nil in Ha.
  - split; vm_compute; first [reflexivity|discriminate].
Defined.

Example elected : get_top_validators_by_voting_power (E:=Empty_set) infos 3
  = Ret {| e_validators := [1; 2; 3]; e_voting_powers := [7; 5; 5]; e_vote_addrs := [[1]; [2]; [3]] |}.
Proof. reflexivity. Qed.

End ElectionExample.
