(* ===== verification/Evm.v ===== *)
(** * The interface of the virtual machine and its state

    What block execution uses of revm and alloy-evm: accounts, system and user
    transaction environments, the execution of one transaction on a state, and
    the changes the node makes to the state itself; with the laws that
    theorems about the state rely on, and a small machine that satisfies
    them. *)

From S2P Require Import Prelude Types SystemContracts.

Record AccountInfo := {
  balance : Z;
  account_nonce : Z;
  code_hash : B256;
  code : option Bytecode;
}.

(** The hash of the empty code. *)
Definition KECCAK_EMPTY : B256 := 0xc5d2460186f7233c927e7db2dcc703c0e500b653ca82273b7bfad8045d85a470.
Definition AccountInfo_default : AccountInfo :=
  {| balance := 0; account_nonce := 0; code_hash := KECCAK_EMPTY; code := None |}.

Definition with_code (hash : B256) (c : Bytecode) (i : AccountInfo) : AccountInfo :=
  {| balance := balance i; account_nonce := account_nonce i; code_hash := hash; code := Some c |}.

(** [BscTxEnv] ([src/evm/transaction.rs]) of a legacy call: the fields that
    the node does not set to a default. *)
Record BscTxEnv := {
  caller : Address;
  kind : Address;
  env_nonce : Z;
  env_gas_limit : Z;
  env_value : Z;
  env_data : list Z;
  env_chain_id : option Z;
  is_system : bool;
}.

(** revm's [BlockEnv]: what the opcodes of a contract can read of the block. *)
Record BlockEnv := {
  block_number : Z;
  block_beneficiary : Address;
  block_timestamp : Z;
  env_difficulty : Z;
  env_prevrandao : option B256;
  block_gas_limit : Z;
  env_basefee : Z;
  env_blob_excess_gas_and_price : option (Z * Z);
}.

(** [State<DB>] and [Evm].  [None] of the first option is a database error.
    [change_account] is [account.change(info, storage)] with its transition,
    [remove_account] the transition without an account. *)
Class Evm := {
  Db : Type;
  Diff : Type;
  ExecutionResult : Type;
  Receipt : Type;
  is_success : ExecutionResult → bool;
  result_gas_used : ExecutionResult → Z;
  output : ExecutionResult → option (list Z);
  basic : Db → Address → option (option AccountInfo);
  storage : Db → Address → Z → Z;
  change_account : Address → AccountInfo → gmap Z Z → Db → Db;
  remove_account : Address → Db → Db;
  increment_balance : Address → Z → Db → option Db;
  transact : BlockEnv → Db → BscTxEnv → option (ExecutionResult * Diff);
  transact_tx : BlockEnv → Db → TransactionSigned → option (ExecutionResult * Diff);
  commit : Diff → Db → Db;
  apply_blockhashes_contract_call : B256 → BlockEnv → Db → option Db;
  set_state_clear_flag : bool → Db → Db;
  build_receipt : TransactionSigned → ExecutionResult → Z → Receipt;
}.

Class EvmLaws `(Evm) : Prop := {
  basic_change d a i st b :
    basic (change_account a i st d) b = if bool_decide (b = a) then Some (Some i) else basic d b;
  storage_change d a i st b k :
    storage (change_account a i st d) b k
    = if bool_decide (b = a) then default (storage d b k) (st !! k) else storage d b k;
}.

(** A transaction uses at most the gas it may use. *)
Class EvmGasLaws `(Evm) : Prop := {
  transact_tx_gas env d t r st : transact_tx env d t = Some (r, st) → 0 <= result_gas_used r <= tx_gas_limit (tx t);
}.

(** ** A small machine

    A state is a finite map of accounts and their storage; a call moves its
    value, increments the nonce of the caller and costs 21000 gas, and system
    calls answer with an output given by a function of the state. *)
Module RefMachine.

Record State := { accounts : gmap Address AccountInfo; slots : gmap Address (gmap Z Z) }.

Definition info_of (d : State) (a : Address) : AccountInfo := default AccountInfo_default (accounts d !! a).
Definition add_balance (n : Z) (i : AccountInfo) : AccountInfo :=
  {| balance := balance i + n; account_nonce := account_nonce i; code_hash := code_hash i; code := code i |}.
Definition next_nonce (i : AccountInfo) : AccountInfo :=
  {| balance := balance i; account_nonce := account_nonce i + 1; code_hash := code_hash i; code := code i |}.
Definition set_account (a : Address) (i : AccountInfo) (d : State) : State :=
  {| accounts := <[a := i]> (accounts d); slots := slots d |}.

Definition call (from : Address) (to : Address) (value : Z) (d : State) : option State :=
  if balance (info_of d from) <? value then None
  else
    let d := set_account from (add_balance (- value) (next_nonce (info_of d from))) d in
    Some (set_account to (add_balance value (info_of d to)) d).

(** [answer] is the output of a call in a state. *)
Definition machine (answer : State → list Z → list Z) : Evm := {|
  Db := State; Diff := State; ExecutionResult := list Z; Receipt := (TransactionSigned * Z)%type;
  is_success _ := true; result_gas_used _ := 21000; output r := Some r;
  basic d a := Some (accounts d !! a);
  storage d a k := default 0 (default ∅ (slots d !! a) !! k);
  change_account a i st d :=
    {| accounts := <[a := i]> (accounts d);
       slots := <[a := st ∪ default ∅ (slots d !! a)]> (slots d) |};
  remove_account a d := {| accounts := delete a (accounts d); slots := slots d |};
  increment_balance a n d := Some (set_account a (add_balance n (info_of d a)) d);
  transact _ d env := d' ← call (caller env) (kind env) (env_value env) d; Some (answer d (env_data env), d');
  transact_tx _ d t :=
    if tx_gas_limit (tx t) <? 21000 then None else
    match tx_to (tx t) with
    | Some to => d' ← call 0 to (tx_value (tx t)) d; Some ([], d')
    | None => None
    end;
  commit d' _ := d';
  apply_blockhashes_contract_call _ _ d := Some d;
  set_state_clear_flag _ d := d;
  build_receipt t _ g := (t, g);
|}.

#[export] Instance machine_laws answer : EvmLaws (machine answer).
Proof.
  split; cbn; intros.
  - case_bool_decide as Hb; [by rewrite Hb, lookup_insert_eq|by rewrite lookup_insert_ne].
  - case_bool_decide as Hb; [|by rewrite lookup_insert_ne]. rewrite Hb, lookup_insert_eq. cbn.
    rewrite lookup_union. by destruct (st !! k), (default ∅ (slots d !! a) !! k).
Qed.

#[export] Instance machine_gas_laws answer : EvmGasLaws (machine answer).
Proof. split. intros env d t r st. cbn. destruct (Z.ltb_spec (tx_gas_limit (tx t)) 21000); [done|lia]. Qed.

End RefMachine.
