(* ===== verification/Handler.v ===== *)
(** * Transactions in the virtual machine ([src/evm/handler.rs],
      [src/evm/blacklist.rs], [src/node/evm/mod.rs], [src/node/pool/mod.rs])

    The steps of revm's handler that BSC replaces: the authorization list of
    EIP-7702 with its blacklist, the intrinsic gas of system transactions, the
    fee that goes to the system address and the result of a transaction; the
    environment in which a system transaction runs; and the blacklist in the
    transaction pool.

    The journal is the state of the accounts that a transaction has loaded,
    over a database; logs and the call frames are left out. *)

From S2P Require Import Prelude Types SystemContracts Evm.

(** ** The blacklist *)

Definition NANO_BLACKLIST : list Address := [
  0x489A8756C18C0b8B24EC2a2b9FF3D4d447F79BEc;
  0xFd6042Df3D74ce9959922FeC559d7995F3933c55;
  0xdb789Eb5BDb4E559beD199B8b82dED94e1d056C9].

Definition is_blacklisted (address : Address) : bool := bool_decide (address ∈ NANO_BLACKLIST).

Definition check_tx_basic_blacklist (from : Address) (to : option Address) : bool :=
  if is_blacklisted from then true
  else match to with
       | Some to => if is_blacklisted to then true else false
       | None => false
       end.

(** ** The transaction pool *)

Inductive Outcome (T : Type) :=
| Valid (transaction : T)
| Blacklisted (transaction : T)
| OtherOutcome (transaction : T) (code : Z).
Arguments Valid {T} transaction.
Arguments Blacklisted {T} transaction.
Arguments OtherOutcome {T} transaction code.

Section Pool.
Context {T : Type}.
Variable sender : T → Address.
Variable to : T → option Address.
(** The validator of reth, for one transaction and for many. *)
Variable inner_validate : T → Outcome T.
Variable inner_validate_all : list T → list (Outcome T).

Definition validate_transaction (t : T) : Outcome T :=
  if check_tx_basic_blacklist (sender t) (to t) then Blacklisted t else inner_validate t.

Definition validate_transactions (ts : list T) : list (Outcome T) :=
  (λ outcome, match outcome with
              | Valid t => if check_tx_basic_blacklist (sender t) (to t) then Blacklisted t else Valid t
              | other => other
              end) <$> inner_validate_all ts.
End Pool.

(** ** The journal *)

Record Account := {
  info : AccountInfo;
  loaded_as_not_existing : bool;
  touched : bool;
}.
Notation Journal := (gmap Address Account).

Inductive EVMError := Database | Custom (error : string) | Transaction_ (code : Z).
Notation evm A := (comp EVMError A).

(** revm's journal: [load_account] (and [load_account_code]) gives the account of
    the journal or else that of the database, [db_account], which enters the
    journal; it can fail with an error of the database. *)
Class JournalApi := {
  db_account : Address → Account;
  load_account : Address → Journal → evm (Account * Journal);
  account_is_empty : Account → bool;
  is_loaded_as_not_existing_not_touched : Account → bool;
}.
Class JournalLaws `(JournalApi) : Prop := {
  load_account_completes a j : completes (load_account a j);
  load_account_Ret a j acc j' :
    load_account a j = Ret (acc, j') → acc = default (db_account a) (j !! a) ∧ j' = <[a := acc]> j;
}.

(** revm's byte code and the gas constants of EIP-7702. *)
Class Eip7702Api := {
  is_eip7702 : Bytecode → bool;
  new_eip7702 : Address → Bytecode;
  hash_slow_code : Bytecode → B256;
  PER_EMPTY_ACCOUNT_COST : Z;
  PER_AUTH_BASE_COST : Z;
}.
Class Eip7702Laws `(Eip7702Api) : Prop := {
  new_eip7702_is a : is_eip7702 (new_eip7702 a) = true;
  auth_costs : 0 <= PER_AUTH_BASE_COST ∧ PER_AUTH_BASE_COST <= PER_EMPTY_ACCOUNT_COST ∧ PER_EMPTY_ACCOUNT_COST < 2 ^ 32;
}.

(** An authorization; [authority] is the signer that is recovered from it. *)
Record Authorization := {
  auth_chain_id : Z;
  auth_nonce : Z;
  auth_address : Address;
  authority : option Address;
}.

Inductive TransactionType := TypeLegacy | TypeEip2930 | TypeEip1559 | TypeEip4844 | TypeEip7702.
#[export] Instance TransactionType_eq_dec : EqDecision TransactionType.
Proof. solve_decision. Defined.

Section Handler.
Context `{E7 : Eip7702Api} `{JA : JournalApi}.
Implicit Types (j : Journal) (acc : Account).

(** ** EIP-7702 *)

(** The new code of the authority and the incremented nonce. *)
Definition delegate (address : Address) acc : Account :=
  let '(c, h) := if address =? ZERO then ([], KECCAK_EMPTY)
                 else let c := new_eip7702 address in (c, hash_slow_code c) in
  {| info := {| balance := balance (info acc);
                account_nonce := Z.min (account_nonce (info acc) + 1) U64_MAX;
                code_hash := h; code := Some c |};
     loaded_as_not_existing := loaded_as_not_existing acc; touched := true |}.

(** One authorization: the accounts after it and whether it refunds. *)
Definition apply_authorization (chain_id : Z) (auth : Authorization) j : evm (Z * Journal) :=
  if negb (auth_chain_id auth =? 0) && negb (auth_chain_id auth =? chain_id) then Ret (0, j)
  else if auth_nonce auth =? U64_MAX then Ret (0, j)
  else match authority auth with
  | None => Ret (0, j)
  | Some a =>
      if is_blacklisted a then Ret (0, j)
      else
        '(acc, j) ← load_account a j;
        let foreign_code := match code (info acc) with
                            | Some c => negb (bool_decide (c = [])) && negb (is_eip7702 c)
                            | None => false
                            end in
        if foreign_code then Ret (0, j)
        else if negb (auth_nonce auth =? account_nonce (info acc)) then Ret (0, j)
        else
          let refunds := if negb (account_is_empty acc && is_loaded_as_not_existing_not_touched acc) then 1 else 0 in
          Ret (refunds, <[a := delegate (auth_address auth) acc]> j)
  end.

Fixpoint apply_authorizations (chain_id : Z) (refunded_accounts : Z) (auths : list Authorization) j
    : evm (Z * Journal) :=
  match auths with
  | [] => Ret (refunded_accounts, j)
  | auth :: auths =>
      '(refunds, j) ← apply_authorization chain_id auth j;
      apply_authorizations chain_id (add64 refunded_accounts refunds) auths j
  end.

Definition apply_eip7702_auth_list (type : TransactionType) (chain_id : Z) (auths : list Authorization) j
    : evm (Z * Journal) :=
  if negb (bool_decide (type = TypeEip7702)) then Ret (0, j)
  else
    '(refunded_accounts, j) ← apply_authorizations chain_id 0 auths j;
    Ret (mul64 refunded_accounts (sub64 PER_EMPTY_ACCOUNT_COST PER_AUTH_BASE_COST), j).

(** ** Gas and fees *)

(** The gas of a finished frame: [spent] and the signed [refunded]. *)
Record Gas := { spent : Z; refunded : Z }.

(** [mainnet]: the handler of revm. *)
Definition validate_initial_tx_gas (is_system_transaction : bool) (mainnet : evm (Z * Z)) : evm (Z * Z) :=
  if is_system_transaction then Ret (0, 0) else mainnet.

Definition add_to_balance (amount : Z) acc : Account :=
  {| info := {| balance := Z.min (balance (info acc) + amount) (2 ^ 256 - 1);
                account_nonce := account_nonce (info acc); code_hash := code_hash (info acc); code := code (info acc) |};
     loaded_as_not_existing := loaded_as_not_existing acc; touched := true |}.

(** [U256] arithmetic wraps except for the saturating additions. *)
Definition tx_fee (g : Gas) (effective_gas_price : Z) (is_cancun : bool) (total_blob_gas blob_gasprice : Z) : Z :=
  let fee := wrapu 256 (sub64 (spent g) (wrapu 64 (refunded g)) * effective_gas_price) in
  if is_cancun then Z.min (fee + wrapu 256 (total_blob_gas * blob_gasprice)) (2 ^ 256 - 1) else fee.

Definition reward_beneficiary (is_system_transaction : bool) (g : Gas) (effective_gas_price : Z)
    (is_cancun : bool) (total_blob_gas blob_gasprice : Z) j : evm Journal :=
  if is_system_transaction then Ret j
  else
    '(acc, j) ← load_account SYSTEM_ADDRESS j;
    Ret (<[SYSTEM_ADDRESS := add_to_balance (tx_fee g effective_gas_price is_cancun total_blob_gas blob_gasprice) acc]> j).

(** ** The result *)

Inductive ContextError := NoError | DbError | CustomError (e : string).
Inductive SuccessOrHalt :=
| SohSuccess (reason : Z)
| SohRevert
| SohHalt (reason : Z)
| SohFatalExternalError
| SohInternal (code : Z).

Inductive TxResult :=
| Success (reason gas_used gas_refunded : Z) (logs : list Z) (out : list Z)
| Revert (gas_used : Z) (out : list Z)
| Halt (reason gas_used : Z).

(** [logs]: those the journal hands over. *)
Definition execution_result (error : ContextError) (is_system_transaction : bool) (g : Gas)
    (instruction_result : SuccessOrHalt) (out : list Z) (logs : list Z) : evm TxResult :=
  match error with
  | DbError => Err Database
  | CustomError e => Err (Custom e)
  | NoError =>
      let gas_refunded := if is_system_transaction then 0 else wrapu 64 (refunded g) in
      let final_gas_used := sub64 (spent g) gas_refunded in
      match instruction_result with
      | SohSuccess reason => Ret (Success reason final_gas_used gas_refunded logs out)
      | SohRevert => Ret (Revert final_gas_used out)
      | SohHalt reason => Ret (Halt reason final_gas_used)
      | SohFatalExternalError | SohInternal _ => Panic
      end
  end.

Definition tx_gas_used (r : TxResult) : Z :=
  match r with Success _ g _ _ _ => g | Revert g _ => g | Halt _ g => g end.

(** ** The environment of a system transaction *)

(** The fields of the block and of the configuration that [transact_raw]
    changes, and the transaction with its flag. *)
Record MachineEnv := { m_gas_limit : Z; m_basefee : Z; m_disable_nonce_check : bool; m_beneficiary : Address }.
Record MachineTx := { t_caller : Address; t_kind : option Address; t_gas_price : Z; t_gas_limit : Z; t_value : Z;
                      is_system_transaction : bool }.

Definition detect_system_tx (env : MachineEnv) (t : MachineTx) : bool :=
  match t_kind t with
  | Some to => (t_caller t =? m_beneficiary env) && is_invoke_system_contract to && (t_gas_price t =? 0)
  | None => false
  end.

Definition with_flag (b : bool) (t : MachineTx) : MachineTx :=
  {| t_caller := t_caller t; t_kind := t_kind t; t_gas_price := t_gas_price t; t_gas_limit := t_gas_limit t;
     t_value := t_value t; is_system_transaction := b |}.

Definition set_balance (amount : Z) acc : Account :=
  {| info := {| balance := amount; account_nonce := account_nonce (info acc); code_hash := code_hash (info acc);
                code := code (info acc) |};
     loaded_as_not_existing := loaded_as_not_existing acc; touched := true |}.

Definition system_env (t : MachineTx) (env : MachineEnv) : MachineEnv :=
  {| m_gas_limit := t_gas_limit t; m_basefee := 0; m_disable_nonce_check := true; m_beneficiary := m_beneficiary env |}.

(** [transact]: the execution with or without an inspector. *)
Definition transact_raw {R} (trace : bool) (transact : MachineEnv → Journal → MachineTx → evm R * Journal)
    (t : MachineTx) (env : MachineEnv) j : evm R * MachineEnv * Journal :=
  let '(t, j) :=
    if trace then
      let t := with_flag (detect_system_tx env t) t in
      if is_system_transaction t then
        match load_account (m_beneficiary env) j with
        | Ret (acc, j) => (t, <[m_beneficiary env := set_balance (t_value t) acc]> j)
        | _ => (t, j)
        end
      else (t, j)
    else (t, j) in
  let running := if is_system_transaction t then system_env t env else env in
  let '(res, j) := transact running j t in
  let after := if is_system_transaction t
               then {| m_gas_limit := m_gas_limit env; m_basefee := m_basefee env;
                       m_disable_nonce_check := m_disable_nonce_check env; m_beneficiary := m_beneficiary running |}
               else running in
  (res, after, j).

End Handler.

(** * Proofs *)

Section Proofs.
Context `{E7 : Eip7702Api} `{E7L : !Eip7702Laws E7} `{JA : JournalApi} `{JL : !JournalLaws JA}.
Implicit Types (j : Journal) (acc : Account) (a : Address).

(** The account a journal stands for. *)
Definition account_of j a : Account := default (db_account a) (j !! a).
Notation nonce_of j a := (account_nonce (info (account_of j a))).
Notation balance_of j a := (balance (info (account_of j a))).

Lemma account_of_insert j a acc b : account_of (<[a := acc]> j) b = if decide (b = a) then acc else account_of j b.
Proof.
  unfold account_of. destruct (decide (b = a)) as [->|]; [by rewrite lookup_insert_eq|by rewrite lookup_insert_ne].
Qed.

(** Loading an account changes no account. *)
Lemma load_account_of j a acc j' :
  load_account a j = Ret (acc, j') → acc = account_of j a ∧ ∀ b, account_of j' b = account_of j b.
Proof.
  intros [-> ->]%load_account_Ret. split; [done|]. intros b. rewrite account_of_insert. by case_decide as Hb; [subst b|].
Qed.

(** ** Authorizations *)

(** The authority whose account an authorization changes. *)
Definition accepts (chain_id : Z) (auth : Authorization) j : option Address :=
  a ← authority auth;
  let code_ok := match code (info (account_of j a)) with
                 | Some c => bool_decide (c = []) || is_eip7702 c
                 | None => true
                 end in
  if ((auth_chain_id auth =? 0) || (auth_chain_id auth =? chain_id)) && negb (auth_nonce auth =? U64_MAX)
     && negb (is_blacklisted a) && code_ok && (auth_nonce auth =? nonce_of j a)
  then Some a else None.

(** The authorizations of a list that change an account. *)
Fixpoint applied (chain_id : Z) (auths : list Authorization) j : list (Address * Authorization) :=
  match auths with
  | [] => []
  | auth :: auths =>
      match apply_authorization chain_id auth j with
      | Ret (_, j1) =>
          match accepts chain_id auth j with Some a => [(a, auth)] | None => [] end ++ applied chain_id auths j1
      | _ => []
      end
  end.

(** The cases of [apply_authorization]. *)
Lemma apply_authorization_cases chain_id auth j r j1 :
  apply_authorization chain_id auth j = Ret (r, j1) →
  (accepts chain_id auth j = None ∧ r = 0 ∧ ∀ b, account_of j1 b = account_of j b)
  ∨ ∃ a, accepts chain_id auth j = Some a ∧ authority auth = Some a ∧ is_blacklisted a = false
      ∧ auth_nonce auth = nonce_of j a ∧ auth_nonce auth ≠ U64_MAX ∧ 0 <= r <= 1
      ∧ ∀ b, account_of j1 b = if decide (b = a) then delegate (auth_address auth) (account_of j a) else account_of j b.
Proof.
  unfold apply_authorization, accepts. intros H.
  destruct (authority auth) as [a|]; cbn [mbind option_bind].
  2: { left. split; [done|]. by repeat (case_match; simplify_eq). }
  destruct (auth_chain_id auth =? 0), (auth_chain_id auth =? chain_id); cbn [negb andb orb] in H |- *;
    try (left; by injection H as <- <-).
  all: destruct (Z.eqb_spec (auth_nonce auth) U64_MAX) as [Hm|Hm]; cbn [negb andb];
    [left; by injection H as <- <-|].
  all: destruct (is_blacklisted a) eqn:Hbl; cbn [negb andb]; [left; by injection H as <- <-|].
  all: apply bind_Ret_inv in H as ([acc j2] & Hl & H); apply load_account_of in Hl as [-> Hacc].
  all: destruct (code (info (account_of j a))) as [c|]; [destruct (bool_decide (c = [])), (is_eip7702 c)|];
    cbn [negb andb orb] in H |- *; try (left; injection H as <- <-; by split).
  all: destruct (Z.eqb_spec (auth_nonce auth) (nonce_of j a)) as [Hn|Hn]; cbn [negb] in H;
    [right|left; injection H as <- <-; by split].
  all: injection H as <- <-; exists a; split_and!; try done; [by case_match|by case_match|].
  all: intros b; rewrite account_of_insert; case_decide; [done|apply Hacc].
Qed.

Lemma delegate_info address acc :
  balance (info (delegate address acc)) = balance (info acc)
  ∧ (account_nonce (info acc) < U64_MAX → account_nonce (info (delegate address acc)) = account_nonce (info acc) + 1)
  ∧ code (info (delegate address acc)) = Some (if address =? ZERO then [] else new_eip7702 address).
Proof. unfold delegate. destruct (address =? ZERO); cbn; split_and!; [done|lia|done|done|lia|done]. Qed.

(** The applied authorizations of an address. *)
Definition applied_to a (ap : list (Address * Authorization)) : Z := zlen (filter (λ x, x.1 = a) ap).

Lemma applied_to_cons a x ap : applied_to a (x :: ap) = (if decide (x.1 = a) then 1 else 0) + applied_to a ap.
Proof. unfold applied_to. rewrite filter_cons. case_decide; [rewrite zlen_cons|]; lia. Qed.

Record auths_ok (chain_id : Z) (auths : list Authorization) j j' (ap : list (Address * Authorization)) : Prop := {
  ao_from : ∀ a auth, (a, auth) ∈ ap → auth ∈ auths ∧ authority auth = Some a ∧ is_blacklisted a = false
    ∧ nonce_of j a <= auth_nonce auth;
  ao_once : NoDup ((λ x, (x.1, auth_nonce x.2)) <$> ap);
  ao_nonce : ∀ a, nonce_of j' a = nonce_of j a + applied_to a ap;
  ao_balance : ∀ a, balance_of j' a = balance_of j a;
  ao_others : ∀ a, a ∉ ap.*1 → account_of j' a = account_of j a;
}.

Lemma apply_authorizations_ok chain_id auths refunded j n j' :
  (∀ a, nonce_of j a <= U64_MAX) → apply_authorizations chain_id refunded auths j = Ret (n, j') →
  0 <= refunded → refunded + zlen auths < 2 ^ 64 →
  auths_ok chain_id auths j j' (applied chain_id auths j)
  ∧ refunded <= n <= refunded + zlen (applied chain_id auths j).
Proof.
  revert refunded j. induction auths as [|auth auths IH]; intros refunded j Hmax H H0 Hlt; cbn [applied apply_authorizations] in *.
  - injection H as <- <-. split; [|unfold zlen; cbn; lia]. split.
    + intros a auth Hin. by apply elem_of_nil in Hin.
    + constructor.
    + intros a. change (applied_to a []) with 0. lia.
    + done.
    + done.
  - apply bind_Ret_inv in H as ([r j1] & H1 & H). rewrite H1. rewrite zlen_cons in Hlt. pose proof (zlen_nonneg auths).
    destruct (apply_authorization_cases _ _ _ _ _ H1) as [(-> & -> & Hj1)|(a & -> & Ha & Hbl & Hn & Hnm & Hr & Hj1)].
    + rewrite add64_small in H by (unfold is_u; lia). rewrite Z.add_0_r in H.
      apply IH in H as [[Hf Ho Hno Hba Hot] Hb]; [|by intros a; rewrite Hj1|lia|lia]. cbn [app]. split; [|lia]. split.
      * intros a au Hin. destruct (Hf a au Hin) as (? & ? & ? & ?). rewrite <- Hj1. split_and!; [by right|done..].
      * done.
      * intros a. by rewrite Hno, Hj1.
      * intros a. by rewrite Hba, Hj1.
      * intros a Hin. by rewrite Hot, Hj1.
    + rewrite add64_small in H by (unfold is_u; lia).
      destruct (delegate_info (auth_address auth) (account_of j a)) as (Hdb & Hdn & _).
      assert (Hlt1 : nonce_of j a < U64_MAX) by (pose proof (Hmax a); lia).
      apply IH in H as [[Hf Ho Hno Hba Hot] Hb]; [| |lia|lia].
      2: { intros b. rewrite Hj1. case_decide; [rewrite Hdn; lia|apply Hmax]. }
      cbn [app]. split; [|rewrite zlen_cons; lia]. split.
      * intros b au [[= -> ->]|Hin]%elem_of_cons; [split_and!; [by left|done|done|lia]|].
        destruct (Hf b au Hin) as (? & ? & ? & Hge). split_and!; [by right|done|done|].
        rewrite Hj1 in Hge. case_decide; [subst b; lia|done].
      * rewrite fmap_cons. apply list.NoDup_cons. split; [|done].
        intros ([b au] & [= Eb En] & Hin)%list_elem_of_fmap. cbn in Eb, En. subst b.
        destruct (Hf a au Hin) as (_ & _ & _ & Hge). rewrite Hj1, decide_True in Hge by done. lia.
      * intros b. rewrite Hno, Hj1, applied_to_cons. cbn [fst]. destruct (decide (b = a)) as [->|Hne].
        -- rewrite decide_True by done. lia.
        -- rewrite decide_False by congruence. lia.
      * intros b. rewrite Hba, Hj1. by case_decide as Hb1; [subst b|].
      * intros b Hin. rewrite fmap_cons in Hin. apply not_elem_of_cons in Hin as [Hne Hin].
        rewrite Hot, Hj1 by done. by rewrite decide_False.
Qed.

Lemma auth_list_completes type chain_id auths j : completes (apply_eip7702_auth_list type chain_id auths j).
Proof.
  unfold apply_eip7702_auth_list. destruct (negb _); [done|]. apply completes_bind; [|by intros []].
  generalize 0 as n. revert j. induction auths as [|auth auths IH]; intros j n; [done|]. cbn [apply_authorizations].
  apply completes_bind; [|intros [] _; apply IH]. unfold apply_authorization. repeat (case_match; try done).
  apply completes_bind; [apply load_account_completes|]. intros [acc j2] _. by repeat (case_match; try done).
Qed.

Lemma auth_list_error type chain_id auths j e :
  apply_eip7702_auth_list type chain_id auths j = Err e → ∃ a j0, load_account a j0 = Err e.
Proof.
  unfold apply_eip7702_auth_list. destruct (negb _); [done|]. generalize 0 as n. revert j.
  induction auths as [|auth auths IH]; intros j n; [done|]. cbn [apply_authorizations].
  destruct (apply_authorization chain_id auth j) as [[r j1]|e1| |] eqn:H1; try done; [apply IH|]. intros [= ->].
  revert H1. unfold apply_authorization. repeat (case_match; try done).
  match goal with |- context [load_account ?a ?j] => destruct (load_account a j) as [[acc j2]|e2| |] eqn:Hl end; try done.
  - cbn. by repeat (case_match; try done).
  - intros [= <-]. by eauto.
Qed.

(** C17. The authorization list of a transaction: an authorization is applied at
    most once, for a signer that is not on the blacklist; an account's nonce
    grows by the number of its applied authorizations, no balance changes, and
    an account without an applied authorization is untouched; the refund is
    at most that of one existing account per applied authorization.  The list
    is processed without a panic, whatever its authorizations: only a failing
    database gives an error. *)
Theorem auth_list_spec chain_id auths j :
  (∀ a, nonce_of j a <= U64_MAX) → zlen auths < 2 ^ 32 →
  completes (apply_eip7702_auth_list TypeEip7702 chain_id auths j)
  ∧ (∀ e, apply_eip7702_auth_list TypeEip7702 chain_id auths j = Err e → ∃ a j0, load_account a j0 = Err e)
  ∧ ∀ gas j', apply_eip7702_auth_list TypeEip7702 chain_id auths j = Ret (gas, j') →
  let ap := applied chain_id auths j in
  NoDup ((λ x, (x.1, auth_nonce x.2)) <$> ap)
  ∧ (∀ a auth, (a, auth) ∈ ap → auth ∈ auths ∧ authority auth = Some a ∧ is_blacklisted a = false)
  ∧ (∀ a, nonce_of j' a = nonce_of j a + applied_to a ap ∧ balance_of j' a = balance_of j a)
  ∧ (∀ a, a ∉ ap.*1 → account_of j' a = account_of j a)
  ∧ 0 <= gas <= zlen ap * (PER_EMPTY_ACCOUNT_COST - PER_AUTH_BASE_COST).
Proof.
  intros Hmax Hlen. split; [apply auth_list_completes|]. split; [apply auth_list_error|]. intros gas j' H. cbv zeta. unfold apply_eip7702_auth_list in H. rewrite bool_decide_true in H by done.
  cbn [negb] in H. apply bind_Ret_inv in H as ([n j1] & H & [= <- <-]). change (2 ^ 32) with 4294967296 in Hlen.
  destruct (apply_authorizations_ok _ _ _ _ _ _ Hmax H) as [[Hf Ho Hn Hb Hot] Hcount];
    [lia|change (2 ^ 64) with 18446744073709551616; lia|].
  assert (Hzl : zlen (applied chain_id auths j) <= zlen auths).
  { clear. revert j. induction auths as [|auth auths IH]; intros j; [done|]. cbn [applied]. rewrite zlen_cons.
    pose proof (zlen_nonneg auths). destruct (apply_authorization chain_id auth j) as [[r j1]| | |]; try (unfold zlen in *; cbn; lia).
    specialize (IH j1). destruct (accepts chain_id auth j); cbn [app]; rewrite ?zlen_cons; lia. }
  split_and!; [done| |done|done| |].
  - intros a auth Hin. destruct (Hf a auth Hin) as (? & ? & ? & _). done.
  - apply mul64_is_u.
  - destruct auth_costs as (? & ? & Hc). change (2 ^ 32) with 4294967296 in Hc.
    rewrite sub64_small by (unfold is_u; change (2 ^ 64) with 18446744073709551616; lia).
    rewrite mul64_small; [nia|]. unfold is_u. change (2 ^ 64) with 18446744073709551616. nia.
Qed.

(** ** Fees *)

(** The fee of a user transaction is the gas it is reported to use, at its
    effective price, plus the fee of its blobs: [reward_beneficiary] adds it to
    the system address, from which the block's rewards are paid, and changes no
    other account; a system transaction pays nothing and reports all the gas it
    spent. *)
Theorem fee_matches_gas is_system g price cancun blobs blob_price reason out logs r j j' :
  0 <= refunded g <= spent g → spent g < 2 ^ 63 → 0 <= price → 0 <= blobs → 0 <= blob_price →
  0 <= balance_of j SYSTEM_ADDRESS →
  balance_of j SYSTEM_ADDRESS + spent g * price + blobs * blob_price < 2 ^ 256 →
  execution_result NoError is_system g reason out logs = Ret r →
  reward_beneficiary is_system g price cancun blobs blob_price j = Ret j' →
  let fee := if is_system then 0 else tx_gas_used r * price + (if cancun then blobs * blob_price else 0) in
  balance_of j' SYSTEM_ADDRESS = balance_of j SYSTEM_ADDRESS + fee
  ∧ (∀ a, a ≠ SYSTEM_ADDRESS → account_of j' a = account_of j a)
  ∧ (is_system = true → tx_gas_used r = spent g).
Proof.
  intros Hr Hs Hp Hb Hbp Hbal Hsum Hres Hrew. cbv zeta.
  assert (Hg : wrapu 64 (refunded g) = refunded g).
  { apply wrapu_small. unfold is_u. change (2 ^ 63) with 9223372036854775808 in Hs.
    change (2 ^ 64) with 18446744073709551616. lia. }
  assert (Hsub : sub64 (spent g) (refunded g) = spent g - refunded g).
  { apply sub64_small. unfold is_u. change (2 ^ 63) with 9223372036854775808 in Hs.
    change (2 ^ 64) with 18446744073709551616. lia. }
  unfold execution_result in Hres. rewrite Hg in Hres. unfold reward_beneficiary, tx_fee in Hrew. rewrite Hg, Hsub in Hrew.
  destruct is_system.
  { injection Hrew as <-. split_and!; [lia|done|]. intros _.
    assert (H0 : sub64 (spent g) 0 = spent g).
    { rewrite sub64_small, Z.sub_0_r; [done|]. unfold is_u. change (2 ^ 63) with 9223372036854775808 in Hs.
      change (2 ^ 64) with 18446744073709551616. lia. }
    rewrite H0 in Hres. by destruct reason; simplify_eq. }
  rewrite Hsub in Hres. assert (Hu : tx_gas_used r = spent g - refunded g) by (by destruct reason; simplify_eq).
  apply bind_Ret_inv in Hrew as ([acc j1] & Hl & [= <-]). apply load_account_of in Hl as [-> Hj1].
  set (bal := balance_of j SYSTEM_ADDRESS) in *. set (fee := (spent g - refunded g) * price).
  assert (Hfee : 0 <= fee <= spent g * price) by (unfold fee; nia). fold fee.
  assert (Hblob : 0 <= blobs * blob_price) by nia. generalize dependent (blobs * blob_price). intros blob Hsum Hblob.
  generalize dependent (spent g * price). intros total Hsum Hfee.
  rewrite Hu. fold fee. split_and!; [|intros a Ha; rewrite account_of_insert, decide_False by done; apply Hj1|done].
  rewrite account_of_insert, decide_True by done. cbn [info balance add_to_balance]. fold bal.
  rewrite (wrapu_small 256 fee), (wrapu_small 256 blob) by (unfold is_u; lia). destruct cancun; lia.
Qed.

(** [transact_raw] leaves the environment as it was, whatever the transaction. *)
Lemma transact_raw_env {R} trace (transact : MachineEnv → Journal → MachineTx → evm R * Journal) t env j :
  (transact_raw trace transact t env j).1.2 = env.
Proof.
  unfold transact_raw. destruct (if trace then _ else _) as [t' j1].
  destruct (is_system_transaction t') eqn:Ht; destruct (transact _ j1 t') as [res j2]; cbn; by destruct env.
Qed.

(** ** The pool *)

(** Whatever the inner validator says, a transaction from or to an address of
    the blacklist is not accepted, alone or in a batch. *)
Lemma pool_refuses_blacklisted {T} (sender : T → Address) to inner inner_all t ts :
  check_tx_basic_blacklist (sender t) (to t) = true →
  validate_transaction sender to inner t ≠ Valid t
  ∧ Valid t ∉ validate_transactions sender to inner_all ts.
Proof.
  intros Hb. split; [unfold validate_transaction; by rewrite Hb|].
  intros (o & Ho & _)%list_elem_of_fmap. destruct o as [u|u|u c]; [|done|done].
  destruct (check_tx_basic_blacklist (sender u) (to u)) eqn:Hu; [done|]. injection Ho as ->. congruence.
Qed.

End Proofs.

(** * Witnesses *)

Section Witnesses.

(** Delegations are the bytes 0xef0100 and the address; no account exists in
    the database. *)
#[local] Instance ref_7702 : Eip7702Api := {|
  is_eip7702 c := bool_decide (take 3 c = [239; 1; 0]);
  new_eip7702 a := [239; 1; 0] ++ be_encode 20 a;
  hash_slow_code c := zlen c; PER_EMPTY_ACCOUNT_COST := 25000; PER_AUTH_BASE_COST := 12500 |}.
#[local] Instance ref_7702_laws : Eip7702Laws ref_7702.
Proof. split; [by intros a|by cbn]. Qed.
Definition no_account : Account := {| info := AccountInfo_default; loaded_as_not_existing := true; touched := false |}.
#[local] Instance ref_journal : JournalApi := {|
  db_account _ := no_account;
  load_account a j := let acc := default no_account (j !! a) in Ret (acc, <[a := acc]> j);
  account_is_empty acc := (account_nonce (info acc) =? 0) && (balance (info acc) =? 0);
  is_loaded_as_not_existing_not_touched acc := loaded_as_not_existing acc && negb (touched acc) |}.
#[local] Instance ref_journal_laws : JournalLaws ref_journal.
Proof. split; [done|]. by intros a j acc j' [= <- <-]. Qed.

(** Account 7 signs twice for the same nonce, and then for the next one; the
    third authorization is signed by a blacklisted account. *)
Definition auth_for (n target : Z) (a : Address) : Authorization :=
  {| auth_chain_id := 56; auth_nonce := n; auth_address := target; authority := Some a |}.
Definition example_auths : list Authorization :=
  [auth_for 0 100 7; auth_for 0 200 7; auth_for 0 100 0x489A8756C18C0b8B24EC2a2b9FF3D4d447F79BEc; auth_for 1 300 7].

Lemma auth_list_spec_witness :
  applied 56 example_auths ∅ = [(7, auth_for 0 100 7); (7, auth_for 1 300 7)]
  ∧ ∃ gas j', apply_eip7702_auth_list TypeEip7702 56 example_auths ∅ = Ret (gas, j')
  ∧ account_nonce (info (account_of j' 7)) = 2 ∧ gas <= 25000.
Proof.
  assert (Hap : applied 56 example_auths ∅ = [(7, auth_for 0 100 7); (7, auth_for 1 300 7)]) by (vm_compute; reflexivity).
  split; [exact Hap|].
  destruct (apply_eip7702_auth_list TypeEip7702 56 example_auths ∅) as [[gas j']| | |] eqn:H;
    try (vm_compute in H; discriminate).
  exists gas, j'. split; [reflexivity|].
  destruct (auth_list_spec 56 example_auths ∅) as (_ & _ & Hspec); [discriminate|reflexivity|].
  destruct (Hspec gas j' H) as (_ & _ & Hn & _ & Hg).
  rewrite Hap in Hn, Hg. split; [rewrite (proj1 (Hn 7)); vm_compute; reflexivity|].
  change (0 <= gas <= 25000) in Hg. lia.
Defined.

Lemma fee_matches_gas_witness :
  ∃ j', reward_beneficiary false {| spent := 50000; refunded := 10000 |} 3 true 131072 2 ∅ = Ret j'
  ∧ balance (info (account_of j' SYSTEM_ADDRESS)) = 40000 * 3 + 131072 * 2.
Proof.
  destruct (reward_beneficiary false {| spent := 50000; refunded := 10000 |} 3 true 131072 2 ∅) as [j'| | |] eqn:H;
    try (vm_compute in H; discriminate).
  exists j'. split; [reflexivity|].
  destruct (fee_matches_gas false {| spent := 50000; refunded := 10000 |} 3 true 131072 2 (SohSuccess 0) [] []
    (Success 0 40000 10000 [] []) ∅ j') as (Hb & _); [split; discriminate|reflexivity|discriminate|discriminate|discriminate|discriminate
    |reflexivity|reflexivity|exact H|].
  rewrite Hb. vm_compute. reflexivity.
Defined.

End Witnesses.
