(* ===== verification/HertzPatch.v ===== *)
(** * The Hertz patches ([src/node/evm/patch/mod.rs])

    Storage writes that the node makes before and after four transactions of
    mainnet and of the Chapel testnet, for compatibility with a past error of
    other clients. *)

From S2P Require Import Prelude Types SystemContracts Evm Errors.

Record StoragePatch := { patch_address : Address; patch_storage : list (Z * Z) }.

(** ** Tables

    A hash map is the list of its entries; no key occurs twice. *)

Definition mainnet_before_1 : StoragePatch := {|
  patch_address := 0x00000000001f8b68515efb546542397d3293ccfd;
  patch_storage := [
    (0x1, 0x52db206170b430da8223651d28830e56ba3cdc04);
    (0x2, 0xbb45f138499734bf5c0948d490c65903676ea1de);
    (0x65c95177950b486c2071bf2304da1427b9136564150fb97266ffb318b03a71cc, 0x1);
    (0x245e58a02bec784ccbdb9e022a84af83227a4125a22a5e68fcc596c7e436434e, 0x1);
    (0x1c4534c86090a60a9120f34c7b15254913c00bda3d4b276d6edb65c9f48a913f, 0x1);
    (0x4, 0x19);
    (0x8a35acfbc15ff81a39ae7d344fd709f28e8600b4aa8c65c6b64bfe7fe36bd1b4, 0x0);
    (0x8a35acfbc15ff81a39ae7d344fd709f28e8600b4aa8c65c6b64bfe7fe36bd1b5, 0x0);
    (0x8a35acfbc15ff81a39ae7d344fd709f28e8600b4aa8c65c6b64bfe7fe36bd1b6, 0x0);
    (0x5, 0xfc248);
    (0x6, 0xfc132)] |}.

Definition mainnet_before_2 : StoragePatch := {|
  patch_address := 0x00000000001f8b68515efb546542397d3293ccfd;
  patch_storage := [
    (0xbcfc62ca570bdb58cf9828ac51ae8d7e063a1cc0fa1aee57691220a7cd78b1c8, 0x1);
    (0x30dce49ce1a4014301bf21aad0ee16893e4dcc4a4e4be8aa10e442dd13259837, 0x1);
    (0xc0582628d787ee16fe03c8e5b5f5644d3b81989686f8312280b7a1f733145525, 0x1);
    (0xfca5cf22ff2e8d58aece8e4370cce33cd0144d48d00f40a5841df4a42527694b, 0x1);
    (0xb189302b37865d2ae522a492ff1f61a5addc1db44acbdcc4b6814c312c815f46, 0x1);
    (0xfe1f1986775fc2ac905aeaecc7b1aa8b0d6722b852c90e26edacd2dac7382489, 0x1);
    (0x36052a8ddb27fecd20e2e09da15494a0f2186bf8db36deebbbe701993f8c4aae, 0x1);
    (0x4959a566d8396b889ff4bc20e18d2497602e01e5c6013af5af7a7c4657ece3e2, 0x1);
    (0xe0b5aeb100569add952966f803cb67aca86dc6ec8b638f5a49f9e0760efa9a7a, 0x1);
    (0x632467ad388b91583f956f76488afc42846e283c962cbb215d288033ffc4fb71, 0x1);
    (0x9ad4e69f52519f7b7b8ee5ae3326d57061b429428ea0c056dd32e7a7102e79a7, 0x1);
    (0x35e130c7071699eae5288b12374ef157a15e4294e2b3a352160b7c1cd4641d82, 0x1);
    (0xa0d8279f845f63979dc292228adfa0bda117de27e44d90ac2adcd44465b225e7, 0x1);
    (0x9a100b70ffda9ed9769becdadca2b2936b217e3da4c9b9817bad30d85eab25ff, 0x1);
    (0x28d67156746295d901005e2d95ce589e7093decb638f8c132d9971fd0a37e176, 0x1);
    (0x297c4e115b5df76bcd5a1654b8032661680a1803e30a0774cb42bb01891e6d97, 0x1);
    (0x5f71b88f1032d27d8866948fc9c49525f3e584bdd52a66de6060a7b1f767326f, 0x1);
    (0xe6d8ddf6a0bbeb4840f48f0c4ffda9affa4675354bdb7d721235297f5a094f54, 0x1);
    (0x30ba10aef6238bf19667aaa988b18b72adb4724c016e19eb64bbb52808d1a842, 0x1);
    (0x9c6806a4d6a99e4869b9a4aaf80b0a3bf5f5240a1d6032ed82edf0e86f2a2467, 0x1);
    (0xe8480d613bbf3b979aee2de4487496167735bb73df024d988e1795b3c7fa559a, 0x1);
    (0xebfaec01f898f7f0e2abdb4b0aee3dfbf5ec2b287b1e92f9b62940f85d5f5bac, 0x1)] |}.

Definition MAINNET_PATCHES_BEFORE_TX : list (B256 * StoragePatch) := [
  (0x7eba4edc7c1806d6ee1691d43513838931de5c94f9da56ec865721b402f775b0, mainnet_before_1);
  (0x5217324f0711af744fe8e12d73f13fdb11805c8e29c0c095ac747b7e4563e935, mainnet_before_2)].

Definition mainnet_after_1 : StoragePatch := {|
  patch_address := 0x00000000001f8b68515efb546542397d3293ccfd;
  patch_storage := [
    (0x1, 0x0);
    (0x2, 0x0);
    (0x65c95177950b486c2071bf2304da1427b9136564150fb97266ffb318b03a71cc, 0x0);
    (0x245e58a02bec784ccbdb9e022a84af83227a4125a22a5e68fcc596c7e436434e, 0x0);
    (0x1c4534c86090a60a9120f34c7b15254913c00bda3d4b276d6edb65c9f48a913f, 0x0);
    (0x5, 0x0);
    (0x6, 0x0)] |}.

Definition mainnet_after_2 : StoragePatch := {|
  patch_address := 0x00000000001f8b68515efb546542397d3293ccfd;
  patch_storage := [
    (0xbcfc62ca570bdb58cf9828ac51ae8d7e063a1cc0fa1aee57691220a7cd78b1c8, 0x0);
    (0x30dce49ce1a4014301bf21aad0ee16893e4dcc4a4e4be8aa10e442dd13259837, 0x0);
    (0xc0582628d787ee16fe03c8e5b5f5644d3b81989686f8312280b7a1f733145525, 0x0);
    (0xfca5cf22ff2e8d58aece8e4370cce33cd0144d48d00f40a5841df4a42527694b, 0x0);
    (0xb189302b37865d2ae522a492ff1f61a5addc1db44acbdcc4b6814c312c815f46, 0x0);
    (0xfe1f1986775fc2ac905aeaecc7b1aa8b0d6722b852c90e26edacd2dac7382489, 0x0);
    (0x36052a8ddb27fecd20e2e09da15494a0f2186bf8db36deebbbe701993f8c4aae, 0x0);
    (0x4959a566d8396b889ff4bc20e18d2497602e01e5c6013af5af7a7c4657ece3e2, 0x0);
    (0xe0b5aeb100569add952966f803cb67aca86dc6ec8b638f5a49f9e0760efa9a7a, 0x0);
    (0x632467ad388b91583f956f76488afc42846e283c962cbb215d288033ffc4fb71, 0x0);
    (0x9ad4e69f52519f7b7b8ee5ae3326d57061b429428ea0c056dd32e7a7102e79a7, 0x0);
    (0x35e130c7071699eae5288b12374ef157a15e4294e2b3a352160b7c1cd4641d82, 0x0);
    (0xa0d8279f845f63979dc292228adfa0bda117de27e44d90ac2adcd44465b225e7, 0x0);
    (0x9a100b70ffda9ed9769becdadca2b2936b217e3da4c9b9817bad30d85eab25ff, 0x0);
    (0x28d67156746295d901005e2d95ce589e7093decb638f8c132d9971fd0a37e176, 0x0);
    (0x297c4e115b5df76bcd5a1654b8032661680a1803e30a0774cb42bb01891e6d97, 0x0);
    (0x5f71b88f1032d27d8866948fc9c49525f3e584bdd52a66de6060a7b1f767326f, 0x0);
    (0xe6d8ddf6a0bbeb4840f48f0c4ffda9affa4675354bdb7d721235297f5a094f54, 0x0);
    (0x30ba10aef6238bf19667aaa988b18b72adb4724c016e19eb64bbb52808d1a842, 0x0);
    (0x9c6806a4d6a99e4869b9a4aaf80b0a3bf5f5240a1d6032ed82edf0e86f2a2467, 0x0);
    (0xe8480d613bbf3b979aee2de4487496167735bb73df024d988e1795b3c7fa559a, 0x0);
    (0xebfaec01f898f7f0e2abdb4b0aee3dfbf5ec2b287b1e92f9b62940f85d5f5bac, 0x0)] |}.

Definition MAINNET_PATCHES_AFTER_TX : list (B256 * StoragePatch) := [
  (0x7eba4edc7c1806d6ee1691d43513838931de5c94f9da56ec865721b402f775b0, mainnet_after_1);
  (0x5217324f0711af744fe8e12d73f13fdb11805c8e29c0c095ac747b7e4563e935, mainnet_after_2)].

Definition chapel_before_1 : StoragePatch := {|
  patch_address := 0x89791428868131eb109e42340ad01eb8987526b2;
  patch_storage := [
    (0xf1e9242398de526b8dd9c25d38e65fbb01926b8940377762d7884b8b0dcdc3b0, 0xf6a7831804efd2cd0a)] |}.

Definition chapel_before_2 : StoragePatch := {|
  patch_address := 0x89791428868131eb109e42340ad01eb8987526b2;
  patch_storage := [
    (0xf1e9242398de526b8dd9c25d38e65fbb01926b8940377762d7884b8b0dcdc3b0, 0x114be8ecea72b64003)] |}.

Definition CHAPEL_PATCHES_BEFORE_TX : list (B256 * StoragePatch) := [
  (0x7ce9a3cf77108fcc85c1e84e88e363e3335eca515dfcf2feb2011729878b13a7, chapel_before_1);
  (0xe3895eb95605d6b43ceec7876e6ff5d1c903e572bf83a08675cb684c047a695c, chapel_before_2)].

Definition chapel_after_1 : StoragePatch := {|
  patch_address := 0x89791428868131eb109e42340ad01eb8987526b2;
  patch_storage := [
    (0xf1e9242398de526b8dd9c25d38e65fbb01926b8940377762d7884b8b0dcdc3b0, 0x0)] |}.

Definition chapel_after_2 : StoragePatch := {|
  patch_address := 0x89791428868131eb109e42340ad01eb8987526b2;
  patch_storage := [
    (0xf1e9242398de526b8dd9c25d38e65fbb01926b8940377762d7884b8b0dcdc3b0, 0x0)] |}.

Definition CHAPEL_PATCHES_AFTER_TX : list (B256 * StoragePatch) := [
  (0x7ce9a3cf77108fcc85c1e84e88e363e3335eca515dfcf2feb2011729878b13a7, chapel_after_1);
  (0xe3895eb95605d6b43ceec7876e6ff5d1c903e572bf83a08675cb684c047a695c, chapel_after_2)].

(** ** Applying *)

Section Hertz.
Context `{TH : TxHashing} `{EV : Evm}.
Implicit Types (state : Db) (transaction : TransactionSigned).

Definition table_get (table : list (B256 * StoragePatch)) (h : B256) : option StoragePatch :=
  snd <$> List.find (λ e, e.1 =? h) table.

Definition apply_patch state (p : StoragePatch) : exec Db :=
  account ← ok_or (basic state (patch_address p)) (Msg "database");
  Ret (change_account (patch_address p) (default AccountInfo_default account)
         (list_to_map (patch_storage p)) state).

Definition patch_with (table : list (B256 * StoragePatch)) transaction state : exec Db :=
  match table_get table (trie_hash transaction) with
  | Some patch => apply_patch state patch
  | None => Ret state
  end.

Definition patch_mainnet_before_tx := patch_with MAINNET_PATCHES_BEFORE_TX.
Definition patch_mainnet_after_tx := patch_with MAINNET_PATCHES_AFTER_TX.
Definition patch_chapel_before_tx := patch_with CHAPEL_PATCHES_BEFORE_TX.
Definition patch_chapel_after_tx := patch_with CHAPEL_PATCHES_AFTER_TX.

(** [HertzPatchManager] holds one flag. *)
Definition patch_before_tx (is_mainnet : bool) transaction state : exec Db :=
  if is_mainnet then patch_mainnet_before_tx transaction state else patch_chapel_before_tx transaction state.
Definition patch_after_tx (is_mainnet : bool) transaction state : exec Db :=
  if is_mainnet then patch_mainnet_after_tx transaction state else patch_chapel_after_tx transaction state.

End Hertz.

(** * Proofs *)

Definition all_patches : list (B256 * StoragePatch) :=
  MAINNET_PATCHES_BEFORE_TX ++ MAINNET_PATCHES_AFTER_TX ++ CHAPEL_PATCHES_BEFORE_TX ++ CHAPEL_PATCHES_AFTER_TX.

(** No slot is listed twice in a patch, and no transaction in a table. *)
Lemma patches_unambiguous :
  Forall (λ e, NoDup (patch_storage e.2).*1) all_patches
  ∧ NoDup MAINNET_PATCHES_BEFORE_TX.*1 ∧ NoDup MAINNET_PATCHES_AFTER_TX.*1
  ∧ NoDup CHAPEL_PATCHES_BEFORE_TX.*1 ∧ NoDup CHAPEL_PATCHES_AFTER_TX.*1.
Proof. split_and!; apply (bool_decide_unpack _); vm_compute; exact I. Qed.

Section Patched.
Context `{TH : TxHashing} `{EV : Evm} `{!EvmLaws EV}.

(** A patched transaction finds the listed values in the listed slots, and
    every other slot of the state as it was. *)
Lemma patch_with_storage table t d d' b k :
  patch_with table t d = Ret d' →
  storage d' b k =
    match table_get table (trie_hash t) with
    | Some p =>
        if bool_decide (b = patch_address p)
        then default (storage d b k) ((list_to_map (patch_storage p) : gmap Z Z) !! k) else storage d b k
    | None => storage d b k
    end.
Proof.
  unfold patch_with. destruct (table_get _ _) as [p|]; [|by injection 1 as <-].
  unfold apply_patch. intros H. inv_bind. apply storage_change.
Qed.

(** The account of a patch keeps its balance, nonce and code. *)
Lemma patch_with_basic table t d d' b i :
  patch_with table t d = Ret d' → basic d b = Some (Some i) → basic d' b = Some (Some i).
Proof.
  unfold patch_with. destruct (table_get _ _) as [p|]; [|by injection 1 as <-].
  unfold apply_patch. intros H Hb. inv_bind. rewrite basic_change.
  case_bool_decide as He; [|done]. subst b. by simplify_eq.
Qed.

End Patched.
