(* ===== verification/Execution.v ===== *)
(** * Block execution ([src/node/evm/executor.rs], [pre_execution.rs],
      [post_execution.rs])

    What the node does around the transactions of a block: the checks before
    it, the upgrades of system contracts, the system transactions after it
    (slashing, fees, finality rewards, the election of validators), which the
    miner builds and signs and the verifier recomputes and compares, and the
    data both prepare for the next epoch.

    An executor is a state of the machine with the gas and the receipts so
    far, the system transactions still expected (verifier) or assembled so far
    (miner), and the data kept between the two phases; operations are
    computations on it.  Metrics, logs, the state hook and the broadcast of
    StakeHub transactions are left out. *)

From S2P Require Import Prelude Hardforks Types Snapshot HeaderExtra Errors Timing VotePool Attestation SystemContracts Evm HertzPatch.

Definition SYSTEM_REWARD_PERCENT : Z := 4.
Definition MAX_SYSTEM_REWARD : Z := 100 * 10 ^ 18.
Definition COLLECT_ADDITIONAL_VOTES_REWARD_RATIO : Z := 100.
Definition FF_REWARD_DISTRIBUTION_INTERVAL : Z := 200.

(** ** The executor *)

Section Executor.
Context `{EV : Evm} `{VL : !LruApi (list Address * list VoteAddress)} `{TL : !LruApi Z}.

(** [BscBlockExecutor] with its inner context, the shared context of the miner
    and the two global caches of the epoch.  [onchain_nodeids] is the last list
    given to [update_onchain_nodeids]. *)
Record Executor := {
  db : Db;
  block_gas_used : Z;
  receipts : list Receipt;
  system_txs : list TransactionSigned;
  assembled_system_txs : list TransactionSigned;
  current_validators : option (list Address * gmap Address VoteAddress);
  max_elected_validators : option Z;
  validators_election_info : option (list ValidatorElectionInfo);
  snap : option Snapshot;
  header : option Header;
  parent_header : option Header;
  shared_validators : option (list Address * list VoteAddress);
  shared_turn_length : option Z;
  validator_cache : LruMap (list Address * list VoteAddress);
  turn_length_cache : LruMap Z;
  onchain_nodeids : option (list (list Z));
}.

(** A computation on an executor; the executor of a failed block is dropped. *)
Definition ex (A : Type) : Type := Executor → exec (A * Executor).

#[export] Instance ex_ret : MRet ex := λ A a s, Ret (a, s).
#[export] Instance ex_bind : MBind ex := λ A B f m s, '(a, s) ← m s; f a s.

Definition lift {A} (c : exec A) : ex A := λ s, a ← c; Ret (a, s).
Definition gets {A} (f : Executor → A) : ex A := λ s, Ret (f s, s).
Definition fails {A} (e : BscBlockExecutionError) : ex A := λ _, Err e.
Definition panics {A} : ex A := λ _, Panic.

Definition set_db (d : Db) (s : Executor) : Executor :=
  {| db := d; block_gas_used := block_gas_used s; receipts := receipts s; system_txs := system_txs s;
     assembled_system_txs := assembled_system_txs s; current_validators := current_validators s;
     max_elected_validators := max_elected_validators s; validators_election_info := validators_election_info s;
     snap := snap s; header := header s; parent_header := parent_header s;
     shared_validators := shared_validators s; shared_turn_length := shared_turn_length s;
     validator_cache := validator_cache s; turn_length_cache := turn_length_cache s;
     onchain_nodeids := onchain_nodeids s |}.

(** The gas and the receipt of a transaction, and the state after it. *)
Definition push_receipt (d : Db) (gas : Z) (r : Receipt) (s : Executor) : Executor :=
  {| db := d; block_gas_used := gas; receipts := receipts s ++ [r]; system_txs := system_txs s;
     assembled_system_txs := assembled_system_txs s; current_validators := current_validators s;
     max_elected_validators := max_elected_validators s; validators_election_info := validators_election_info s;
     snap := snap s; header := header s; parent_header := parent_header s;
     shared_validators := shared_validators s; shared_turn_length := shared_turn_length s;
     validator_cache := validator_cache s; turn_length_cache := turn_length_cache s;
     onchain_nodeids := onchain_nodeids s |}.

Definition set_txs (expected assembled : list TransactionSigned) (s : Executor) : Executor :=
  {| db := db s; block_gas_used := block_gas_used s; receipts := receipts s; system_txs := expected;
     assembled_system_txs := assembled; current_validators := current_validators s;
     max_elected_validators := max_elected_validators s; validators_election_info := validators_election_info s;
     snap := snap s; header := header s; parent_header := parent_header s;
     shared_validators := shared_validators s; shared_turn_length := shared_turn_length s;
     validator_cache := validator_cache s; turn_length_cache := turn_length_cache s;
     onchain_nodeids := onchain_nodeids s |}.

Definition set_context (h p : option Header) (sn : option Snapshot) (s : Executor) : Executor :=
  {| db := db s; block_gas_used := block_gas_used s; receipts := receipts s; system_txs := system_txs s;
     assembled_system_txs := assembled_system_txs s; current_validators := current_validators s;
     max_elected_validators := max_elected_validators s; validators_election_info := validators_election_info s;
     snap := sn; header := h; parent_header := p;
     shared_validators := shared_validators s; shared_turn_length := shared_turn_length s;
     validator_cache := validator_cache s; turn_length_cache := turn_length_cache s;
     onchain_nodeids := onchain_nodeids s |}.

Definition set_current_validators (v : option (list Address * gmap Address VoteAddress))
    (ids : option (list (list Z))) (s : Executor) : Executor :=
  {| db := db s; block_gas_used := block_gas_used s; receipts := receipts s; system_txs := system_txs s;
     assembled_system_txs := assembled_system_txs s; current_validators := v;
     max_elected_validators := max_elected_validators s; validators_election_info := validators_election_info s;
     snap := snap s; header := header s; parent_header := parent_header s;
     shared_validators := shared_validators s; shared_turn_length := shared_turn_length s;
     validator_cache := validator_cache s; turn_length_cache := turn_length_cache s;
     onchain_nodeids := ids |}.

Definition set_election (n : option Z) (infos : option (list ValidatorElectionInfo)) (s : Executor) : Executor :=
  {| db := db s; block_gas_used := block_gas_used s; receipts := receipts s; system_txs := system_txs s;
     assembled_system_txs := assembled_system_txs s; current_validators := current_validators s;
     max_elected_validators := n; validators_election_info := infos;
     snap := snap s; header := header s; parent_header := parent_header s;
     shared_validators := shared_validators s; shared_turn_length := shared_turn_length s;
     validator_cache := validator_cache s; turn_length_cache := turn_length_cache s;
     onchain_nodeids := onchain_nodeids s |}.

Definition set_shared (v : option (list Address * list VoteAddress)) (t : option Z) (s : Executor) : Executor :=
  {| db := db s; block_gas_used := block_gas_used s; receipts := receipts s; system_txs := system_txs s;
     assembled_system_txs := assembled_system_txs s; current_validators := current_validators s;
     max_elected_validators := max_elected_validators s; validators_election_info := validators_election_info s;
     snap := snap s; header := header s; parent_header := parent_header s;
     shared_validators := v; shared_turn_length := t;
     validator_cache := validator_cache s; turn_length_cache := turn_length_cache s;
     onchain_nodeids := onchain_nodeids s |}.

Definition set_caches (v : LruMap (list Address * list VoteAddress)) (t : LruMap Z) (s : Executor) : Executor :=
  {| db := db s; block_gas_used := block_gas_used s; receipts := receipts s; system_txs := system_txs s;
     assembled_system_txs := assembled_system_txs s; current_validators := current_validators s;
     max_elected_validators := max_elected_validators s; validators_election_info := validators_election_info s;
     snap := snap s; header := header s; parent_header := parent_header s;
     shared_validators := shared_validators s; shared_turn_length := shared_turn_length s;
     validator_cache := v; turn_length_cache := t; onchain_nodeids := onchain_nodeids s |}.

Definition modify (f : Executor → Executor) : ex unit := λ s, Ret (tt, f s).

End Executor.

(** ** Operations *)

Section Operations.
Context `{FCA : ForkConditionApi} {CS : Type} `{!BscHardforks CS}.
Context `{SL : Sealable} `{AR : AttestationRlp} `{KE : Keccak} `{VR : VoteRlp} `{BL : Bls}.
Context `{HL : !LruApi Header} `{PL : !LruApi Address} `{RL : Rlp} `{SE : Secp256k1}.
Context `{TH : TxHashing} `{DA : DynAbi} `{AD : AddressDisplay} `{EV : Evm}.
Context `{VL : !LruApi (list Address * list VoteAddress)} `{TL : !LruApi Z}.
Variable self : Parlia CS.
Variable chain_id : Z.
Variable snapshot_by_hash : B256 → option Snapshot.
Variable header_by_hash_from_provider : B256 → option Header.
Variable header_by_number_from_provider : Z → option Header.
Variable reader : HeaderCacheReader.
(** The embedded codes, [BREATHE_BLOCK_INTERVAL], the global signer and the
    recovery of the signer of a transaction. *)
Variable embedded : string → option Bytecode.
Variable breathe_interval : option Z.
Variable global_signer : option (list Z).
Variable recover_signer : TransactionSigned → option Address.
(** [HISTORY_STORAGE_ADDRESS] and [HISTORY_STORAGE_CODE] of EIP-2935. *)
Variable history_storage : Address * Bytecode.
(** The environment of the block and [BscBlockExecutionCtx]. *)
Variable block : BlockEnv.
Variable base_parent_hash : B256.
Variable ctx_header : option Header.
Variable is_miner : bool.

#[local] Notation ex := (@ex EV VL TL).
#[local] Notation header_by_hash := (cached_header_by_hash header_by_hash_from_provider reader).

Definition database_error : BscBlockExecutionError := Msg "database".
Definition evm_error : BscBlockExecutionError := Msg "evm".

(** *** Calls *)

Definition eth_call (to : Address) (data : list Z) : ex (list Z) :=
  d ← gets db;
  let env := {| caller := 0; kind := to; env_nonce := 0; env_gas_limit := block_gas_limit block; env_value := 0;
                env_data := data; env_chain_id := Some chain_id; is_system := false |} in
  '(result, _) ← lift (ok_or (transact block d env) evm_error);
  if negb (is_success result) then fails (Msg "ETH call failed")
  else lift (ok_or (output result) (Msg "ETH call output is None")).

Definition get_current_validators (n : Z) : ex (list Address * list VoteAddress) :=
  if is_luban_active_at_block (spec self) n then
    out ← eth_call get_current_validators_call.1 get_current_validators_call.2;
    lift (unpack_data_into_validator_set out)
  else
    let '(to, data) := get_current_validators_before_luban (spec self) n in
    out ← eth_call to data;
    validator_set ← lift (unpack_data_into_validator_set_before_luban out);
    mret (validator_set, []).

Definition get_current_validators_with_cache (n : Z) (hash : B256) : ex (list Address * list VoteAddress) :=
  vc ← gets validator_cache;
  tc ← gets turn_length_cache;
  let '(cached, vc) := lru_get vc hash in
  match cached with
  | Some result => _ ← modify (set_caches vc tc); mret result
  | None =>
      result ← get_current_validators n;
      _ ← modify (set_caches (lru_insert vc hash result) tc);
      mret result
  end.

(** [.to::<u8>()] panics when the number does not fit. *)
Definition get_turn_length (n t : Z) : ex Z :=
  if is_bohr_active_at_timestamp (spec self) n t then
    bz ← eth_call get_turn_length_call.1 get_turn_length_call.2;
    l ← lift (unpack_data_into_turn_length bz);
    if l <? 256 then mret l else panics
  else mret DEFAULT_TURN_LENGTH.

(** *** Before the transactions *)

(** The days on which the validators are elected. *)
Definition election_block (n t parent_timestamp : Z) : ex bool :=
  if is_feynman_active_at_timestamp (spec self) n t
     && negb (is_feynman_transition_at_timestamp (spec self) n t parent_timestamp)
  then lift (is_breathe_block breathe_interval parent_timestamp t)
  else mret false.

(** The same condition after the transactions, tested in another order. *)
Definition update_block (n t parent_timestamp : Z) : ex bool :=
  if is_feynman_active_at_timestamp (spec self) n t then
    breathe ← lift (is_breathe_block breathe_interval parent_timestamp t);
    mret (breathe && negb (is_feynman_transition_at_timestamp (spec self) n t parent_timestamp))
  else mret false.

Definition zip_infos (validators : list Address) (powers : list Z) (votes : list (list Z))
    : list ValidatorElectionInfo :=
  (λ e, {| address := e.1.1; voting_power := e.1.2; vote_address_bytes := e.2 |}) <$>
    zip (zip validators powers) votes.

Definition fetch_election : ex unit :=
  bz ← eth_call get_max_elected_validators.1 get_max_elected_validators.2;
  n ← lift (unpack_data_into_max_elected_validators bz);
  infos ← gets validators_election_info;
  _ ← modify (set_election (Some n) infos);
  bz ← eth_call get_validator_election_info.1 get_validator_election_info.2;
  '(validators, voting_powers, vote_addrs, total_length) ← lift (unpack_data_into_validator_election_info bz);
  total_length ← lift (uint_to_u64 total_length);
  if negb (zlen validators =? total_length) || negb (zlen voting_powers =? total_length)
     || negb (zlen vote_addrs =? total_length)
  then fails (Msg "Failed to get top validators")
  else modify (set_election (Some n) (Some (zip_infos validators voting_powers vote_addrs))).

(** An error of this call is ignored, not a panic of the decoder. *)
Definition fetch_node_ids (validators : list Address) : ex unit := λ s,
  let '(to, data) := get_node_ids validators in
  match eth_call to data s with
  | Ret (out, _) =>
      '(_, node_ids_list) ← unpack_data_into_node_ids out;
      Ret (tt, set_current_validators (current_validators s) (Some (mjoin node_ids_list)) s)
  | Err _ => Ret (tt, s)
  | Panic => Panic
  | OutOfFuel => OutOfFuel
  end.

(** [fuel] and [proposers] are those of [verify_cascading_fields]. *)
Definition check_new_block (fuel : nat) (proposers : LruMap Address) : ex unit :=
  h ← lift (unwrap ctx_header);
  parent ← lift (ok_or (header_by_hash (parent_hash h)) (Msg "Failed to get parent header from global header reader"));
  sn ← lift (ok_or (snapshot_by_hash (parent_hash h)) (Msg "Failed to get snapshot from snapshot provider"));
  _ ← modify (set_context (Some h) (Some parent) (Some sn));
  _ ← lift (verify_cascading_fields self chain_id snapshot_by_hash header_by_hash_from_provider
              header_by_number_from_provider reader fuel proposers h parent sn);
  _ ← if is_multiple_of (number h) (epoch_num sn) then
        '(validator_set, vote_addresses) ← get_current_validators_with_cache (sub64 (number h) 1) (parent_hash h);
        let vote_addrs_map :=
          if bool_decide (vote_addresses = []) then ∅
          else foldl (λ m e, <[e.1 := e.2]> m) ∅ (zip validator_set vote_addresses) in
        ids ← gets onchain_nodeids;
        _ ← modify (set_current_validators (Some (validator_set, vote_addrs_map)) ids);
        if is_maxwell_active_at_timestamp (spec self) (number h) (timestamp h)
        then fetch_node_ids validator_set else mret tt
      else mret tt;
  election ← election_block (number h) (timestamp h) (timestamp parent);
  if (election : bool) then fetch_election else mret tt.

Definition prepare_new_block : ex unit :=
  parent ← lift (ok_or (header_by_hash base_parent_hash) (Msg "Failed to get parent header from global header reader"));
  sn ← lift (ok_or (snapshot_by_hash base_parent_hash) (Msg "Failed to get snapshot from snapshot provider"));
  h ← gets header;
  _ ← modify (set_context h (Some parent) (Some sn));
  election ← election_block (block_number block) (block_timestamp block) (timestamp parent);
  if (election : bool) then fetch_election else mret tt.

(** *** Upgrades of system contracts *)

Definition upgrade_system_contract (a : Address) (c : Bytecode) : ex unit :=
  d ← gets db;
  account ← lift (ok_or (basic d a) database_error);
  let info := with_code (keccak256 c) c (default AccountInfo_default account) in
  modify (set_db (change_account a info ∅ d)).

Fixpoint upgrade_each (contracts : list (Address * option Bytecode)) : ex unit :=
  match contracts with
  | [] => mret tt
  | (a, Some c) :: contracts => _ ← upgrade_system_contract a c; upgrade_each contracts
  | (_, None) :: contracts => upgrade_each contracts
  end.

(** The map is gone through in the order of its addresses. *)
Definition upgrade_contracts (n t parent_timestamp : Z) : ex unit :=
  contracts ← lift (map_err (λ _, Msg "Failed to get upgrade system contracts")
                      (get_upgrade_system_contracts embedded (spec self) chain_id n t parent_timestamp));
  upgrade_each (map_to_list contracts).

Definition apply_history_storage_account : ex unit :=
  let '(a, c) := history_storage in
  d ← gets db;
  account ← lift (ok_or (basic d a) database_error);
  let info := {| balance := 0; account_nonce := 1; code_hash := keccak256 c; code := Some c |} in
  modify (set_db (change_account a info ∅ d)).

Definition try_update_build_in_system_contract (n t parent_timestamp : Z) (at_block_begin : bool) : ex unit :=
  let feynman := is_feynman_active_at_timestamp (spec self) n parent_timestamp in
  if at_block_begin then
    _ ← if negb feynman then upgrade_contracts n t parent_timestamp else mret tt;
    if is_prague_transition_at_block_and_timestamp (spec self) n t parent_timestamp
    then apply_history_storage_account else mret tt
  else if feynman then upgrade_contracts n t parent_timestamp else mret tt.

(** [spurious_dragon]: whether that fork is active at the block. *)
Definition apply_pre_execution_changes (spurious_dragon : bool) (fuel : nat) (proposers : LruMap Address) : ex unit :=
  _ ← if is_miner then prepare_new_block else check_new_block fuel proposers;
  d ← gets db;
  _ ← modify (set_db (set_state_clear_flag spurious_dragon d));
  p ← gets parent_header;
  parent ← lift (unwrap p);
  _ ← try_update_build_in_system_contract (block_number block) (block_timestamp block) (timestamp parent) true;
  if is_prague_active_at_block_and_timestamp (spec self) (block_number block) (block_timestamp block) then
    d ← gets db;
    d ← lift (ok_or (apply_blockhashes_contract_call base_parent_hash block d) evm_error);
    modify (set_db d)
  else mret tt.

(** *** The transactions of the block *)

(** [signer] is the recovered sender of the transaction. *)
Definition execute_transaction (t : TransactionSigned) (signer : Address) : ex Z :=
  if is_system_transaction (tx t) signer (block_beneficiary block) then
    txs ← gets system_txs;
    assembled ← gets assembled_system_txs;
    _ ← modify (set_txs (txs ++ [t]) assembled);
    mret 0
  else
    d ← gets db;
    d ← lift (patch_before_tx (chain_id =? 56) t d);
    gas ← gets block_gas_used;
    let block_available_gas := sub64 (block_gas_limit block) gas in
    if block_available_gas <? tx_gas_limit (tx t)
    then fails (Msg "transaction gas limit is more than available block gas")
    else
      '(result, state) ← lift (ok_or (transact_tx block d t) evm_error);
      let gas := add64 gas (result_gas_used result) in
      let d := commit state d in
      _ ← modify (push_receipt d gas (build_receipt t result gas));
      d ← lift (patch_after_tx (chain_id =? 56) t d);
      _ ← modify (set_db d);
      mret (result_gas_used result).

(** What the builder of a block calls: every transaction is run, without the
    patches, and kept when [should_commit] says so of its result. *)
Definition execute_transaction_with_commit_condition (t : TransactionSigned) (should_commit : ExecutionResult → bool)
    : ex (option Z) :=
  gas ← gets block_gas_used;
  let block_available_gas := sub64 (block_gas_limit block) gas in
  if block_available_gas <? tx_gas_limit (tx t)
  then fails (Msg "transaction gas limit is more than available block gas")
  else
    d ← gets db;
    '(result, state) ← lift (ok_or (transact_tx block d t) evm_error);
    if negb (should_commit result) then mret None
    else
      let gas_used := result_gas_used result in
      let gas := add64 gas gas_used in
      _ ← modify (push_receipt (commit state d) gas (build_receipt t result gas));
      mret (Some gas_used).

(** *** System transactions *)

Inductive next_tx := Execute (signed : TransactionSigned) | Skip.

(** The verifier takes the expected transaction from the block; a missing
    slash is let pass. *)
Definition take_system_tx (t : Transaction) : ex next_tx :=
  txs ← gets system_txs;
  assembled ← gets assembled_system_txs;
  match txs with
  | first :: rest =>
      if signature_hash t =? signature_hash (tx first)
      then _ ← modify (set_txs rest assembled); mret (Execute first)
      else if bool_decide (tx_to t = Some SLASH_CONTRACT)
              && negb (default 0 (tx_to (tx first)) =? SLASH_CONTRACT)
      then mret Skip
      else fails (Validation UnexpectedSystemTx)
  | [] =>
      if bool_decide (tx_to t = Some SLASH_CONTRACT) then mret Skip
      else fails (Validation UnexpectedSystemTx)
  end.

(** The miner signs the transaction and puts it into the block; the text of a
    signing error is that of [SignerError]. *)
Definition sign_next_tx (t : Transaction) : ex next_tx :=
  match global_signer with
  | None => fails GlobalSignerNotInitializedForMiningMode
  | Some _ =>
      signed ← lift (map_err (λ _, FailedToSignSystemTransaction "Signing failed")
                       (sign_system_transaction global_signer t));
      _ ← lift (unwrap (recover_signer signed));
      txs ← gets system_txs;
      assembled ← gets assembled_system_txs;
      _ ← modify (set_txs txs (assembled ++ [signed]));
      mret (Execute signed)
  end.

Definition transact_system_tx (t : Transaction) (sender : Address) : ex unit :=
  d ← gets db;
  o ← lift (ok_or (basic d sender) database_error);
  let account := default AccountInfo_default o in
  let t := set_nonce t (account_nonce account) in
  next ← if is_miner then sign_next_tx t else take_system_tx t;
  match next with
  | Skip => mret tt
  | Execute signed =>
      to ← lift (unwrap (tx_to t));
      let env := {| caller := sender; kind := to; env_nonce := account_nonce account;
                    env_gas_limit := U64_MAX / 2; env_value := tx_value t; env_data := tx_input t;
                    env_chain_id := Some chain_id; is_system := true |} in
      '(result, state) ← lift (ok_or (transact block d env) evm_error);
      gas ← gets block_gas_used;
      let gas := add64 gas (result_gas_used result) in
      modify (push_receipt (commit state d) gas (build_receipt signed result gas))
  end.

Fixpoint transact_all (txs : list TransactionSigned) (sender : Address) : ex unit :=
  match txs with
  | [] => mret tt
  | t :: txs => _ ← transact_system_tx (tx t) sender; transact_all txs sender
  end.

Definition initialize_feynman_contracts (b : Address) : ex unit := transact_all (feynman_contracts_txs chain_id) b.
Definition deploy_genesis_contracts (b : Address) : ex unit := transact_all (genesis_contracts_txs chain_id) b.

Definition slash_spoiled_validator (validator spoiled_val : Address) : ex unit :=
  transact_system_tx (slash chain_id spoiled_val) validator.

(** [drain_balance] returns a [u128] and panics when the balance does not fit. *)
Definition distribute_incoming (validator : Address) : ex unit :=
  d ← gets db;
  o ← lift (ok_or (basic d SYSTEM_ADDRESS) database_error);
  let fees := default 0 (option_map balance o) in
  if fees =? 0 then mret tt
  else if 2 ^ 128 <=? fees then panics
  else
    d ← lift (ok_or (increment_balance validator fees (remove_account SYSTEM_ADDRESS d)) database_error);
    _ ← modify (set_db d);
    o ← lift (ok_or (basic d SYSTEM_REWARD_CONTRACT) database_error);
    let system_reward_balance := balance (default AccountInfo_default o) in
    block_reward ←
      if negb (is_kepler_active_at_timestamp (spec self) (block_number block) (block_timestamp block))
         && (system_reward_balance <? MAX_SYSTEM_REWARD)
      then
        let reward_to_system := Z.shiftr fees SYSTEM_REWARD_PERCENT in
        _ ← if 0 <? reward_to_system
            then transact_system_tx (distribute_to_system chain_id reward_to_system) validator
            else mret tt;
        mret (wrapu 128 (fees - reward_to_system))
      else mret fees;
    transact_system_tx (distribute_to_validator chain_id validator block_reward) validator.

(** *** Finality rewards *)

Definition add_weight (v : Address) (w : Z) (weights : gmap Address Z) : gmap Address Z :=
  <[v := wrapu 256 (default 0 (weights !! v) + w)]> weights.

(** One vote for each validator whose bit is set; and their number. *)
Definition count_votes (set : Z) (l : list (Z * Address)) (weights : gmap Address Z) : gmap Address Z * Z :=
  foldl (λ acc e,
    if bool_decide (e.1 ∈ ones set) then (add_weight e.2 1 acc.1, acc.2 + 1) else acc) (weights, 0) l.

Definition process_attestation (attestation : VoteAttestation) (h : Header) (weights : gmap Address Z)
    : exec (gmap Address Z) :=
  justified ← ok_or (header_by_hash (target_hash (att_data attestation))) (Msg "Header not found");
  parent ← ok_or (header_by_hash (parent_hash justified)) (Msg "Header not found");
  snapshot ← unwrap (snapshot_by_hash (hash_slow parent));
  let vals := validators snapshot in
  let bits := count_ones (vote_address_set attestation) in
  if zlen vals <? bits then Err (Validation (InvalidAttestationVoteCount_ bits (zlen vals)))
  else
    let '(weights, valid_vote_count) := count_votes (vote_address_set attestation) (enumerate 0 vals) weights in
    let quorum := div_ceil (zlen vals * 2) 3 in
    Ret (if quorum <? valid_vote_count
         then add_weight (beneficiary h) ((valid_vote_count - quorum) * COLLECT_ADDITIONAL_VOTES_REWARD_RATIO / 100)
                weights
         else weights).

(** The blocks of the interval, from the parent backwards. *)
Fixpoint accumulate_weights (count : nat) (target : B256) (weights : gmap Address Z) : exec (gmap Address Z) :=
  match count with
  | O => Ret weights
  | S count =>
      h ← ok_or (header_by_hash target) (Msg "Header not found for block hash");
      sn ← ok_or (snapshot_by_hash (parent_hash h)) (Msg "Failed to get snapshot from snapshot provider");
      o ← map_err (λ err, Validation (ParliaConsensusError_ err))
            (get_vote_attestation_from_header self h (epoch_num sn));
      weights ← match o with Some attestation => process_attestation attestation h weights | None => Ret weights end;
      accumulate_weights count (parent_hash h) weights
  end.

Definition distribute_finality_reward : ex unit :=
  let n := block_number block in
  if negb (is_multiple_of n FF_REWARD_DISTRIBUTION_INTERVAL) then mret tt
  else
    let start := Z.max (sub64 n FF_REWARD_DISTRIBUTION_INTERVAL) 1 in
    weights ← lift (accumulate_weights (Z.to_nat (n - start)) base_parent_hash ∅);
    let vals := sort (map_to_list weights).*1 in
    transact_system_tx
      (distribute_finality_reward_tx chain_id vals ((λ v, default 0 (weights !! v)) <$> vals))
      (block_beneficiary block).

Definition update_validator_set_v2 (max_elected : Z) (infos : list ValidatorElectionInfo) (validator : Address)
    : ex unit :=
  elected ← lift (get_top_validators_by_voting_power infos max_elected);
  transact_system_tx
    (update_validator_set_v2_tx chain_id (e_validators elected) (e_voting_powers elected) (e_vote_addrs elected))
    validator.

(** *** After the transactions *)

Definition verify_validators : ex unit :=
  o ← gets header; h ← lift (unwrap o);
  o ← gets snap; sn ← lift (unwrap o);
  if negb (is_multiple_of (number h) (epoch_num sn)) then mret tt
  else
    o ← gets current_validators;
    '(vals, vote_addrs_map) ← lift (ok_or o (Msg "Invalid current validators data"));
    let vals := sort vals in
    let vote_addrs_map : gmap Address VoteAddress :=
      if is_luban_transition_at_block (spec self) (number h)
      then foldl (λ m v, <[v := 0]> m) ∅ vals else vote_addrs_map in
    entries ← lift (mapM (λ v,
      if is_luban_active_at_block (spec self) (number h) then validator_entry vote_addrs_map v
      else Ret (be_encode 20 v)) vals);
    o ← lift (get_validator_bytes_from_header self h (epoch_num sn));
    expected ← lift (unwrap o);
    if bool_decide (mjoin entries = expected) then mret tt else fails (Msg "Invalid validators").

Definition verify_turn_length : ex unit :=
  o ← gets header; h ← lift (unwrap o);
  o ← gets snap; sn ← lift (unwrap o);
  if negb (is_multiple_of (number h) (epoch_num sn))
     || negb (is_bohr_active_at_timestamp (spec self) (number h) (timestamp h))
  then mret tt
  else
    o ← lift (map_err (λ err, Validation (ParliaConsensusError_ err)) (get_turn_length_from_header self h (epoch_num sn)));
    match o with
    | None => mret tt
    | Some turn_length_from_header =>
        turn_length_from_contract ← get_turn_length (number h) (timestamp h);
        if turn_length_from_header =? turn_length_from_contract then mret tt
        else fails (Validation MismatchingEpochTurnLengthError)
    end.

(** Slashing the validator in turn, unless it signed recently. *)
Definition slash_inturn (sn : Snapshot) : ex unit :=
  spoiled ← lift (inturn_validator sn);
  let signed_recently :=
    if is_plato_active_at_block (spec self) (block_number block) then sign_recently sn spoiled
    else existsb (λ '(_, v), v =? spoiled) (map_to_list (recent_proposers sn)) in
  if negb signed_recently then slash_spoiled_validator (block_beneficiary block) spoiled else mret tt.

(** What [post_check_new_block] and [finalize_new_block] have in common. *)
Definition distribute_and_elect : ex unit :=
  _ ← distribute_incoming (block_beneficiary block);
  _ ← if is_plato_active_at_block (spec self) (block_number block) then distribute_finality_reward else mret tt;
  o ← gets parent_header; parent ← lift (unwrap o);
  election ← update_block (block_number block) (block_timestamp block) (timestamp parent);
  if (election : bool) then
    n ← gets max_elected_validators;
    infos ← gets validators_election_info;
    update_validator_set_v2 (default 21 n) (default [] infos) (block_beneficiary block)
  else mret tt.

Definition post_check_new_block : ex unit :=
  _ ← verify_validators;
  _ ← verify_turn_length;
  o ← gets header; h ← lift (unwrap o);
  _ ← if negb (difficulty h =? DIFF_INTURN) then o ← gets snap; sn ← lift (unwrap o); slash_inturn sn else mret tt;
  _ ← distribute_and_elect;
  txs ← gets system_txs;
  if negb (bool_decide (txs = [] :> list TransactionSigned)) then fails (Validation UnexpectedSystemTx)
  else
    current_snap ← lift (ok_or (snapshot_by_hash (hash_slow h))
                           (Msg "Failed to get current snapshot from snapshot provider"));
    let is_next_epoch := is_multiple_of (add64 (number h) 1) (epoch_num current_snap) in
    _ ← if is_next_epoch then _ ← get_current_validators_with_cache (number h) (hash_slow h); mret tt else mret tt;
    if is_next_epoch && is_bohr_active_at_timestamp (spec self) (number h) (timestamp h) then
      turn_length ← get_turn_length (number h) (timestamp h);
      vc ← gets validator_cache;
      tc ← gets turn_length_cache;
      modify (set_caches vc (lru_insert tc (hash_slow h) turn_length))
    else mret tt.

Definition finalize_new_block : ex unit :=
  o ← gets snap; sn ← lift (unwrap o);
  expected_validator ← lift (inturn_validator sn);
  _ ← if negb (block_beneficiary block =? expected_validator) then slash_inturn sn else mret tt;
  _ ← distribute_and_elect;
  let n := block_number block in
  let t := block_timestamp block in
  let is_next_epoch := is_multiple_of (add64 n 1) (epoch_num sn) in
  _ ← if is_next_epoch then
        vals ← get_current_validators n;
        l ← gets shared_turn_length;
        modify (set_shared (Some vals) l)
      else mret tt;
  if is_next_epoch && is_bohr_active_at_timestamp (spec self) n t then
    turn_length ← get_turn_length n t;
    vals ← gets shared_validators;
    modify (set_shared vals (Some turn_length))
  else mret tt.

Definition finish : ex unit :=
  o ← gets parent_header; parent ← lift (unwrap o);
  let n := block_number block in
  let t := block_timestamp block in
  _ ← try_update_build_in_system_contract n t (timestamp parent) false;
  _ ← if is_feynman_transition_at_timestamp (spec self) n t (timestamp parent)
      then initialize_feynman_contracts (block_beneficiary block) else mret tt;
  _ ← if n =? 1 then deploy_genesis_contracts (block_beneficiary block) else mret tt;
  if is_miner then finalize_new_block else post_check_new_block.

End Operations.

(** * Proofs *)

(** ** Miner and verifier step by step *)

Section Agreement.
Context `{EV : Evm} `{VL : !LruApi (list Address * list VoteAddress)} `{TL : !LruApi Z}.
#[local] Notation Executor := (@Executor EV VL TL).
#[local] Notation ex := (@ex EV VL TL).
Implicit Types (sm sv s : Executor) (d : Db).
(** What is known of the states that the two go through. *)
Variable P : Db → Prop.

Lemma ex_bind_eq {A B} (m : ex A) (f : A → ex B) s : (m ≫= f) s = ('(a, s') ← m s; f a s').
Proof. reflexivity. Qed.

Lemma ex_bind_inv {A B} (m : ex A) (f : A → ex B) s b s' :
  (m ≫= f) s = Ret (b, s') → ∃ a s1, m s = Ret (a, s1) ∧ f a s1 = Ret (b, s').
Proof.
  rewrite ex_bind_eq. destruct (m s) as [[a s1]| | |]; try discriminate. intros H. by exists a, s1.
Qed.

(** What the executors of a miner and of a verifier of a block share. *)
Record same sm sv : Prop := {
  same_db : db sm = db sv;
  same_gas : block_gas_used sm = block_gas_used sv;
  same_receipts : receipts sm = receipts sv;
  same_max : max_elected_validators sm = max_elected_validators sv;
  same_infos : validators_election_info sm = validators_election_info sv;
  same_snap : snap sm = snap sv;
  same_parent : parent_header sm = parent_header sv;
}.

(** What the operations of a verifier on system transactions leave alone. *)
Record frame s s' : Prop := {
  frame_header : header s' = header s;
  frame_snap : snap s' = snap s;
  frame_validators : current_validators s' = current_validators s;
  frame_validator_cache : validator_cache s' = validator_cache s;
  frame_turn_cache : turn_length_cache s' = turn_length_cache s;
}.

Lemma frame_refl s : frame s s.
Proof. by split. Qed.

Lemma frame_trans s1 s2 s3 : frame s1 s2 → frame s2 s3 → frame s1 s3.
Proof. intros [] []. split; congruence. Qed.

(** The miner's computation puts some transactions into the block, and the
    verifier's, given them, consumes them and reaches the same result. *)
Definition agrees {A} (om ov : ex A) : Prop :=
  ∀ sm a sm', P (db sm) → om sm = Ret (a, sm') →
  P (db sm') ∧ ∃ new, assembled_system_txs sm' = assembled_system_txs sm ++ new
  ∧ ∀ sv rest, same sm sv → system_txs sv = new ++ rest →
    ∃ sv', ov sv = Ret (a, sv') ∧ same sm' sv' ∧ system_txs sv' = rest ∧ frame sv sv'.

(** A step that adds no transaction. *)
Lemma agrees_plain {A} (om ov : ex A) :
  (∀ sm a sm', P (db sm) → om sm = Ret (a, sm') →
    P (db sm') ∧ assembled_system_txs sm' = assembled_system_txs sm
    ∧ ∀ sv, same sm sv → ∃ sv', ov sv = Ret (a, sv') ∧ same sm' sv' ∧ system_txs sv' = system_txs sv ∧ frame sv sv') →
  agrees om ov.
Proof.
  intros Hp sm a sm' HP H. destruct (Hp sm a sm' HP H) as (HP' & Ha & Hv). split; [done|]. exists [].
  rewrite app_nil_r. split; [done|]. intros sv rest Hs Ht. destruct (Hv sv Hs) as (sv' & H1 & H2 & H3 & H4).
  exists sv'. rewrite H3. by split_and!.
Qed.

Lemma agrees_same {A} (om ov : ex A) :
  (∀ sm a sm', om sm = Ret (a, sm') → sm' = sm ∧ ∀ sv, same sm sv → ov sv = Ret (a, sv)) → agrees om ov.
Proof.
  intros Hp. apply agrees_plain. intros sm a sm' HP H. destruct (Hp sm a sm' H) as [-> Hv]. split_and!; [done..|].
  intros sv Hs. exists sv. split_and!; [by apply Hv|done|done|apply frame_refl].
Qed.

Lemma agrees_ret {A} (a : A) : agrees (mret a) (mret a).
Proof. apply agrees_same. intros sm a' sm' H. by injection H as <- <-. Qed.

Lemma agrees_lift {A} (c : exec A) : agrees (lift c) (lift c).
Proof. apply agrees_same. intros sm a sm' H. unfold lift in *. destruct c; try discriminate. by injection H as <- <-. Qed.

Lemma agrees_fails {A} e e' : agrees (fails e : ex A) (fails e').
Proof. by intros sm a sm' _ H. Qed.

Lemma agrees_panics {A} : agrees (panics : ex A) panics.
Proof. by intros sm a sm' _ H. Qed.

Lemma agrees_gets {A} (f : Executor → A) : (∀ sm sv, same sm sv → f sm = f sv) → agrees (gets f) (gets f).
Proof.
  intros Hf. apply agrees_same. intros sm a sm' H. injection H as <- <-. split; [done|]. intros sv Hs.
  unfold gets. by rewrite (Hf sm sv Hs).
Qed.

Lemma agrees_set_db d : P d → agrees (modify (set_db d)) (modify (set_db d)).
Proof.
  intros Hd. apply agrees_plain. intros sm a sm' _ H. injection H as <- <-. split_and!; [done..|].
  intros sv []. eexists. split_and!; [reflexivity|by split|done|by split].
Qed.

Lemma agrees_push_receipt d g r : P d → agrees (modify (push_receipt d g r)) (modify (push_receipt d g r)).
Proof.
  intros Hd. apply agrees_plain. intros sm a sm' _ H. injection H as <- <-. split_and!; [done..|].
  intros sv [? ? Hr]. eexists. split_and!; [reflexivity|split; cbn; congruence|done|by split].
Qed.

Lemma agrees_bind {A B} (om ov : ex A) (fm fv : A → ex B) :
  agrees om ov → (∀ a, agrees (fm a) (fv a)) → agrees (om ≫= fm) (ov ≫= fv).
Proof.
  intros Ho Hf sm b sm' HP (a & s1 & Hm & H)%ex_bind_inv.
  destruct (Ho sm a s1 HP Hm) as (HP1 & n1 & H1 & Hv1). destruct (Hf a s1 b sm' HP1 H) as (HP2 & n2 & H2 & Hv2).
  split; [done|]. exists (n1 ++ n2). split; [by rewrite H2, H1, app_assoc|]. intros sv rest Hs Ht.
  rewrite <- app_assoc in Ht. destruct (Hv1 sv (n2 ++ rest) Hs Ht) as (s2 & Hov & Hs2 & Ht2 & Hfr2).
  destruct (Hv2 s2 rest Hs2 Ht2) as (s3 & Hfv & Hs3 & Ht3 & Hfr3). exists s3.
  rewrite ex_bind_eq, Hov. cbn [mbind comp_bind].
  split; [done|]. split; [done|]. split; [done|by eapply frame_trans].
Qed.

(** What is read is known to satisfy [P], and what is computed is the result. *)
Lemma agrees_gets_db {B} (fm fv : Db → ex B) :
  (∀ d, P d → agrees (fm d) (fv d)) → agrees (gets db ≫= fm) (gets db ≫= fv).
Proof.
  intros Hf sm b sm' HP (d & s1 & [= <- <-] & H)%ex_bind_inv.
  destruct (Hf (db sm) HP sm b sm' HP H) as (HP' & n & Hn & Hv). split; [done|]. exists n. split; [done|].
  intros sv rest Hs Ht. rewrite ex_bind_eq. cbn [gets mbind comp_bind]. rewrite <- (same_db _ _ Hs). by apply Hv.
Qed.

Lemma agrees_lift_bind {A B} (c c' : exec A) (fm fv : A → ex B) :
  c = c' → (∀ a, c = Ret a → agrees (fm a) (fv a)) → agrees (lift c ≫= fm) (lift c' ≫= fv).
Proof.
  intros <- Hf sm b sm' HP (a & s1 & H1 & H)%ex_bind_inv. unfold lift in H1. destruct c as [a'| | |]; try discriminate.
  injection H1 as <- <-. destruct (Hf a' eq_refl sm b sm' HP H) as (HP' & n & Hn & Hv). split; [done|]. exists n. by split.
Qed.

End Agreement.

#[export] Hint Resolve agrees_ret agrees_lift agrees_fails agrees_panics agrees_set_db agrees_push_receipt : bsc.
#[export] Hint Extern 1 (agrees _ (gets _) (gets _)) => (apply agrees_gets; intros ? ? []; assumption) : bsc.

(** Goes through two computations in step. *)
Ltac agree :=
  repeat first
    [ progress (cbn beta iota delta [block_number block_beneficiary block_timestamp block_gas_limit])
    | solve [eauto with bsc]
    | apply agrees_gets_db; intros
    | apply agrees_lift_bind; [reflexivity|intros]
    | apply agrees_bind; [|intros]
    | match goal with
      | |- agrees _ (match ?x with _ => _ end) _ => destruct x eqn:?
      | |- agrees _ (if ?b then _ else _) _ => destruct b
      end ].

(** ** One side *)

Section Single.
Context `{FCA : ForkConditionApi} {CS : Type} `{!BscHardforks CS}.
Context `{SL : Sealable} `{AR : AttestationRlp} `{KE : Keccak} `{VR : VoteRlp} `{BL : Bls}.
Context `{HL : !LruApi Header} `{PL : !LruApi Address} `{RL : Rlp} `{SE : Secp256k1}.
Context `{TH : TxHashing} `{DA : DynAbi} `{AD : AddressDisplay} `{EV : Evm}.
Context `{VL : !LruApi (list Address * list VoteAddress)} `{TL : !LruApi Z}.
Variable self : Parlia CS.
Variable chain_id : Z.
Variable snapshot_by_hash : B256 → option Snapshot.
Variable header_by_hash_from_provider : B256 → option Header.
Variable reader : HeaderCacheReader.
Variable embedded : string → option Bytecode.
Variable breathe_interval : option Z.
Variable global_signer : option (list Z).
Variable recover_signer : TransactionSigned → option Address.
Variable history_storage : Address * Bytecode.
Variable block : BlockEnv.
Variable base_parent_hash : B256.
#[local] Notation Executor := (@Executor EV VL TL).
#[local] Notation ex := (@ex EV VL TL).
Implicit Types (s sm : Executor).
#[local] Notation miner f := (f global_signer recover_signer block true) (only parsing).

Lemma sign_keeps_tx gs t signed : sign_system_transaction gs t = Ret signed → tx signed = t.
Proof.
  unfold sign_system_transaction, sign_transaction. intros H. inv_bind.
  destruct (serialize_compact _) as [rid sig]. inv_bind. done.
Qed.

(** ** Reading the state *)

(** The computation does not change the executor and depends on the state of
    the machine only. *)
Definition reads {A} (m : ex A) : Prop :=
  ∀ s a s', m s = Ret (a, s') → s' = s ∧ ∀ s2, db s2 = db s → m s2 = Ret (a, s2).

Lemma reads_ret {A} (a : A) : reads (mret a).
Proof. intros s a' s' H. by injection H as <- <-. Qed.
Lemma reads_lift {A} (c : exec A) : reads (lift c).
Proof. intros s a s' H. unfold lift in *. destruct c; try discriminate. by injection H as <- <-. Qed.
Lemma reads_fails {A} e : reads (fails e : ex A).
Proof. by intros s a s' H. Qed.
Lemma reads_panics {A} : reads (panics : ex A).
Proof. by intros s a s' H. Qed.
Lemma reads_db : reads (gets db).
Proof. intros s a s' H. injection H as <- <-. split; [done|]. intros s2 Hs. unfold gets. by rewrite Hs. Qed.
Lemma reads_bind {A B} (m : ex A) (f : A → ex B) : reads m → (∀ a, reads (f a)) → reads (m ≫= f).
Proof.
  intros Hm Hf s b s' (a & s1 & H1 & H2)%ex_bind_inv.
  destruct (Hm _ _ _ H1) as [-> Hm2]. destruct (Hf _ _ _ _ H2) as [-> Hf2]. split; [done|].
  intros s2 Hs. rewrite ex_bind_eq, (Hm2 s2 Hs). cbn [mbind comp_bind]. by apply Hf2.
Qed.

#[local] Ltac reading :=
  repeat first
    [ progress (cbn beta iota)
    | apply reads_bind; [|intros]
    | apply reads_ret | apply reads_lift | apply reads_fails | apply reads_panics | apply reads_db
    | match goal with
      | |- reads (match ?x with _ => _ end) => destruct x
      | |- reads (if ?b then _ else _) => destruct b
      end ].

Lemma reads_current_validators n : reads (get_current_validators self chain_id block n).
Proof. unfold get_current_validators, eth_call. reading. Qed.

Lemma reads_turn_length n t : reads (get_turn_length self chain_id block n t).
Proof. unfold get_turn_length, eth_call. reading. Qed.

Lemma cached_validators n hash s vals :
  get_current_validators self chain_id block n s = Ret (vals, s) →
  ∃ s' v, get_current_validators_with_cache self chain_id block n hash s = Ret (v, s')
  ∧ s' = set_caches (validator_cache s') (turn_length_cache s) s
  ∧ ((lru_get (validator_cache s) hash).1 = None →
     v = vals ∧ validator_cache s' = lru_insert (lru_get (validator_cache s) hash).2 hash vals).
Proof.
  intros H. unfold get_current_validators_with_cache.
  rewrite ex_bind_eq. cbn [gets mbind comp_bind]. rewrite ex_bind_eq. cbn [gets mbind comp_bind].
  destruct (lru_get (validator_cache s) hash) as [[c|] vc].
  - rewrite ex_bind_eq. cbn [modify mbind comp_bind]. by eexists _, c.
  - rewrite ex_bind_eq, H. cbn [mbind comp_bind]. rewrite ex_bind_eq. cbn [modify mbind comp_bind].
    by eexists _, vals.
Qed.

(** ** The end of a block *)

#[local] Notation finish f g m :=
  (finish self chain_id snapshot_by_hash header_by_hash_from_provider reader embedded breathe_interval
     f g history_storage block base_parent_hash m).

(** The part of [finish] before the two modes part. *)
Definition before_finish (is_miner : bool) gs rs : ex unit :=
  o ← gets parent_header; parent ← lift (unwrap o);
  let n := block_number block in
  let t := block_timestamp block in
  _ ← try_update_build_in_system_contract self chain_id embedded history_storage n t (timestamp parent) false;
  _ ← if is_feynman_transition_at_timestamp (spec self) n t (timestamp parent)
      then initialize_feynman_contracts chain_id gs rs block is_miner (block_beneficiary block) else mret tt;
  if n =? 1 then deploy_genesis_contracts chain_id gs rs block is_miner (block_beneficiary block) else mret tt.

Lemma finish_split gs rs m s :
  finish gs rs m s =
  ('(_, s1) ← before_finish m gs rs s;
   if m : bool
   then finalize_new_block self chain_id snapshot_by_hash header_by_hash_from_provider reader breathe_interval
          gs rs block base_parent_hash m s1
   else post_check_new_block self chain_id snapshot_by_hash header_by_hash_from_provider reader breathe_interval
          gs rs block base_parent_hash m s1).
Proof.
  unfold Execution.finish, before_finish. rewrite !ex_bind_eq. cbn [gets mbind comp_bind]. rewrite !ex_bind_eq.
  destruct (lift _ s) as [[p s1]| | |]; [|done..]. cbn [mbind comp_bind]. rewrite !ex_bind_eq.
  destruct (try_update_build_in_system_contract _ _ _ _ _ _ _ _ _) as [[u s2]| | |]; [|done..].
  cbn [mbind comp_bind]. rewrite !ex_bind_eq.
  destruct (_ s2) as [[u' s3]| | |]; [|done..]. cbn [mbind comp_bind]. rewrite !ex_bind_eq.
  destruct (_ s3) as [[u'' s4]| | |]; [|done..]. cbn [mbind comp_bind]. by destruct m.
Qed.

(** The checks of the header that opens an epoch pass wherever the block's own
    transactions lead. *)
Definition epoch_checks_pass s : Prop :=
  ∀ s', frame s s' →
    verify_validators self s' = Ret (tt, s') ∧ verify_turn_length self chain_id block s' = Ret (tt, s').

(** A block that does not open an epoch has nothing to check. *)
Lemma no_epoch_checks s h sn :
  header s = Some h → snap s = Some sn → is_multiple_of (number h) (epoch_num sn) = false →
  epoch_checks_pass s.
Proof.
  intros Hh Hs He s' [Hf Hsn _ _ _]. rewrite <- Hf in Hh. rewrite <- Hsn in Hs.
  unfold verify_validators, verify_turn_length. rewrite !ex_bind_eq. cbn [gets mbind comp_bind].
  rewrite !ex_bind_eq, Hh. cbn [lift unwrap mbind comp_bind]. rewrite !ex_bind_eq. cbn [gets mbind comp_bind].
  rewrite !ex_bind_eq, Hs. cbn [lift unwrap mbind comp_bind]. by rewrite He.
Qed.

#[local] Notation next_epoch sn := (is_multiple_of (add64 (block_number block) 1) (epoch_num sn)).
#[local] Notation bohr_now :=
  (is_bohr_active_at_timestamp (spec self) (block_number block) (block_timestamp block)).

(** The data for the next epoch that can be read from a state. *)
Definition next_epoch_readable sn s : Prop :=
  (next_epoch sn = true →
    ∃ vs, get_current_validators self chain_id block (block_number block) s = Ret (vs, s))
  ∧ (next_epoch sn && bohr_now = true →
    ∃ l, get_turn_length self chain_id block (block_number block) (block_timestamp block) s = Ret (l, s)).

Lemma readable_same sn s s' : db s' = db s → next_epoch_readable sn s → next_epoch_readable sn s'.
Proof.
  intros Hdb [Hvals Hturn]. split; intros Hnext.
  - destruct (Hvals Hnext) as [vs Hvs]. destruct (reads_current_validators _ _ _ _ Hvs) as [_ Hvs2]. exists vs. by apply Hvs2.
  - destruct (Hturn Hnext) as [l Hl]. destruct (reads_turn_length _ _ _ _ _ Hl) as [_ Hl2]. exists l. by apply Hl2.
Qed.

(** The miner slashes, distributes and elects; what it reads for the next epoch
    stays in its shared context. *)
Lemma finalize_inv sm sm' sn :
  finalize_new_block self chain_id snapshot_by_hash header_by_hash_from_provider reader breathe_interval
    global_signer recover_signer block base_parent_hash true sm = Ret (tt, sm') →
  snap sm = Some sn →
  ∃ v s1 s2 vals turn,
    inturn_validator (E:=BscBlockExecutionError) sn = Ret v
    ∧ (if negb (block_beneficiary block =? v) then miner (slash_inturn self chain_id) sn else mret tt) sm = Ret (tt, s1)
    ∧ distribute_and_elect self chain_id snapshot_by_hash header_by_hash_from_provider reader breathe_interval
        global_signer recover_signer block base_parent_hash true s1 = Ret (tt, s2)
    ∧ sm' = set_shared vals turn s2 ∧ next_epoch_readable sn s2.
Proof.
  intros Hm Hsn. unfold finalize_new_block in Hm.
  apply ex_bind_inv in Hm as (o & s1 & H1 & Hm). injection H1 as <- <-. rewrite Hsn in Hm.
  apply ex_bind_inv in Hm as (sn' & s1 & H1 & Hm). injection H1 as <- <-.
  apply ex_bind_inv in Hm as (v & s1 & H1 & Hm). unfold lift in H1.
  destruct (inturn_validator sn) as [v'| | |] eqn:Hv; try discriminate. injection H1 as <- <-.
  apply ex_bind_inv in Hm as ([] & s1 & Hslash & Hm). apply ex_bind_inv in Hm as ([] & s2 & Helect & Hm).
  exists v', s1, s2. unfold next_epoch_readable.
  apply ex_bind_inv in Hm as (u3 & s3 & Hvals & Hm).
  assert (H3 : ∃ vals turn, s3 = set_shared vals turn s2 ∧ (next_epoch sn = true →
    ∃ vs, get_current_validators self chain_id block (block_number block) s2 = Ret (vs, s2))).
  { destruct (next_epoch sn).
    - apply ex_bind_inv in Hvals as (vs & s4 & Hvs & Hvals).
      destruct (reads_current_validators _ _ _ _ Hvs) as [-> _].
      apply ex_bind_inv in Hvals as (l & s5 & H5 & Hvals). injection H5 as <- <-. injection Hvals as _ <-.
      eexists _, _. split; [reflexivity|]. intros _. by exists vs.
    - injection Hvals as _ <-. exists (shared_validators s2), (shared_turn_length s2). by destruct s2. }
  destruct H3 as (vals & turn & -> & Hvs). destruct (next_epoch sn && bohr_now).
  - apply ex_bind_inv in Hm as (l & s4 & Hl & Hm). destruct (reads_turn_length _ _ _ _ _ Hl) as [-> Hl2].
    apply ex_bind_inv in Hm as (w & s5 & H5 & Hm). injection H5 as <- <-. injection Hm as <-.
    eexists _, _. do 3 (split; [done|]). split; [reflexivity|]. split; [done|]. intros _. exists l. by apply Hl2.
  - injection Hm as <-. by exists vals, turn.
Qed.

(** The verifier's last steps, once its system transactions are used up. *)
Definition post_check_tail (h : Header) : ex unit :=
  txs ← gets system_txs;
  if negb (bool_decide (txs = [] :> list TransactionSigned)) then fails (Validation UnexpectedSystemTx)
  else
    current_snap ← lift (ok_or (snapshot_by_hash (hash_slow h))
                           (Msg "Failed to get current snapshot from snapshot provider"));
    let is_next_epoch := is_multiple_of (add64 (number h) 1) (epoch_num current_snap) in
    _ ← if is_next_epoch
        then _ ← get_current_validators_with_cache self chain_id block (number h) (hash_slow h); mret tt else mret tt;
    if is_next_epoch && is_bohr_active_at_timestamp (spec self) (number h) (timestamp h) then
      turn_length ← get_turn_length self chain_id block (number h) (timestamp h);
      vc ← gets validator_cache;
      tc ← gets turn_length_cache;
      modify (set_caches vc (lru_insert tc (hash_slow h) turn_length))
    else mret tt.

Lemma post_check_tail_ok s h sn cur :
  number h = block_number block → timestamp h = block_timestamp block →
  snapshot_by_hash (hash_slow h) = Some cur → epoch_num cur = epoch_num sn →
  system_txs s = [] → next_epoch_readable sn s →
  ∃ vc tc, post_check_tail h s = Ret (tt, set_caches vc tc s).
Proof.
  intros Hn Ht Hcur Hep Htx [Hvals Hturn]. unfold post_check_tail.
  rewrite ex_bind_eq. cbn [gets mbind comp_bind]. rewrite Htx, bool_decide_true by done. cbn [negb].
  rewrite ex_bind_eq, Hcur. cbn [lift ok_or mbind comp_bind]. rewrite Hn, Ht, Hep.
  destruct (next_epoch sn); cbn [andb] in *.
  - destruct (Hvals eq_refl) as [vs Hvs]. destruct (cached_validators _ (hash_slow h) _ _ Hvs) as (s2 & x & Hs2 & Heq & _).
    rewrite !ex_bind_eq, Hs2. cbn [mbind comp_bind mret ex_ret].
    destruct bohr_now.
    + destruct (Hturn eq_refl) as [l Hl]. destruct (reads_turn_length _ _ _ _ _ Hl) as [_ Hl2].
      rewrite ex_bind_eq, Hl2 by (by rewrite Heq). cbn [mbind comp_bind].
      rewrite ex_bind_eq. cbn [gets mbind comp_bind]. rewrite ex_bind_eq. cbn [gets mbind comp_bind].
      rewrite Heq. by eexists _, _.
    + exists (validator_cache s2), (turn_length_cache s). rewrite Heq. by destruct s.
  - exists (validator_cache s), (turn_length_cache s). by destruct s.
Qed.

End Single.

(** ** Two sides

    The miner builds a block in one environment and the others execute it in
    another: from Kepler on the opcode for randomness reads the [mix_hash] in the
    first and the difficulty in the second ([Building.v], [building_env_differs]).
    What the two have in common is this. *)
Record same_block (b b' : BlockEnv) : Prop := {
  sb_number : block_number b = block_number b';
  sb_beneficiary : block_beneficiary b = block_beneficiary b';
  sb_timestamp : block_timestamp b = block_timestamp b';
  sb_gas_limit : block_gas_limit b = block_gas_limit b';
}.

(** The calls that the node itself makes: system transactions and queries. *)
Definition node_call (chain_id : Z) (block : BlockEnv) (env : BscTxEnv) : Prop :=
  is_invoke_system_contract (kind env) = true ∧ env_chain_id env = Some chain_id
  ∧ caller env = (if is_system env then block_beneficiary block else 0).

(** In the states [P] no contract that such a call reaches looks at what the
    environments differ in, and the node's own changes stay in [P]. *)
Record blind `{FCA : ForkConditionApi} {CS : Type} `{!BscHardforks CS} `{KE : Keccak} {EV : Evm}
    (spec : CS) (chain_id : Z) (embedded : string → option Bytecode) (b b' : BlockEnv) (P : Db → Prop) : Prop := {
  blind_transact d env : P d → node_call chain_id b env → transact b d env = transact b' d env;
  blind_commit d env r st :
    P d → node_call chain_id b env → is_system env = true → transact b d env = Some (r, st) → P (commit st d);
  blind_upgrade d p contracts a c account :
    P d → get_upgrade_system_contracts embedded spec chain_id (block_number b) (block_timestamp b) p = Ret contracts →
    contracts !! a = Some (Some c) → P (change_account a (with_code (keccak256 c) c account) ∅ d);
  blind_fees d v n d' : P d → increment_balance v n (remove_account SYSTEM_ADDRESS d) = Some d' → P d';
}.

Section System.
Context `{FCA : ForkConditionApi} {CS : Type} `{!BscHardforks CS}.
Context `{SL : Sealable} `{AR : AttestationRlp} `{KE : Keccak} `{VR : VoteRlp} `{BL : Bls}.
Context `{HL : !LruApi Header} `{PL : !LruApi Address} `{RL : Rlp} `{SE : Secp256k1}.
Context `{TH : TxHashing} `{DA : DynAbi} `{AD : AddressDisplay} `{EV : Evm}.
Context `{VL : !LruApi (list Address * list VoteAddress)} `{TL : !LruApi Z}.
Variable self : Parlia CS.
Variable chain_id : Z.
Variable snapshot_by_hash : B256 → option Snapshot.
Variable header_by_hash_from_provider : B256 → option Header.
Variable reader : HeaderCacheReader.
Variable embedded : string → option Bytecode.
Variable breathe_interval : option Z.
(** The signers of the miner and of the verifier. *)
Variable global_signer signer_v : option (list Z).
Variable recover_signer recover_v : TransactionSigned → option Address.
Variable history_storage : Address * Bytecode.
(** The environment of the miner, and what is the verifier's own in its. *)
Variable bm : BlockEnv.
Variable difficulty_v : Z.
Variable prevrandao_v : option B256.
Variable basefee_v : Z.
Variable blob_v : option (Z * Z).
Variable base_parent_hash : B256.
Variable P : Db → Prop.
#[local] Notation Executor := (@Executor EV VL TL).
#[local] Notation ex := (@ex EV VL TL).
Implicit Types (sm sv s : Executor).

#[local] Notation bv := {|
  block_number := block_number bm; block_beneficiary := block_beneficiary bm; block_timestamp := block_timestamp bm;
  env_difficulty := difficulty_v; env_prevrandao := prevrandao_v; block_gas_limit := block_gas_limit bm;
  env_basefee := basefee_v; env_blob_excess_gas_and_price := blob_v |} (only parsing).
#[local] Notation miner f := (f global_signer recover_signer bm true) (only parsing).
#[local] Notation verifier f := (f signer_v recover_v bv false) (only parsing).
#[local] Notation agrees := (agrees P).

Hypothesis Hblind : blind (spec self) chain_id embedded bm bv P.

(** The verifier takes the transaction the miner signed. *)
Lemma agrees_next_tx t : agrees (sign_next_tx global_signer recover_signer t) (take_system_tx t).
Proof.
  intros sm a sm' HP H. unfold sign_next_tx in H. destruct global_signer as [gs|] eqn:Hgs; [|discriminate].
  apply ex_bind_inv in H as (signed & s1 & H1 & H). unfold lift in H1.
  destruct (sign_system_transaction _ _) as [signed'| | |] eqn:Hs; try discriminate. injection H1 as <- <-.
  apply ex_bind_inv in H as (r & s2 & H2 & H). unfold lift in H2.
  destruct (recover_signer signed') as [r'|]; [|discriminate]. injection H2 as <- <-.
  apply ex_bind_inv in H as (txs & s3 & H3 & H). injection H3 as <- <-.
  apply ex_bind_inv in H as (asm & s4 & H4 & H). injection H4 as <- <-.
  apply ex_bind_inv in H as (u & s5 & H5 & H). injection H5 as <- <-. injection H as <- <-.
  split; [done|]. exists [signed']. split; [done|]. intros sv rest [] Ht. unfold take_system_tx.
  rewrite ex_bind_eq. cbn [gets mbind comp_bind]. rewrite ex_bind_eq. cbn [gets mbind comp_bind]. rewrite Ht.
  cbn [app]. rewrite (sign_keeps_tx _ _ _ Hs), Z.eqb_refl. rewrite ex_bind_eq. cbn [modify mbind comp_bind].
  eexists. split; [reflexivity|]. split; [by split|]. split; [done|by split].
Qed.


(** A transaction of the node for a system contract. *)
Definition for_system (t : Transaction) : Prop := ∀ to, tx_to t = Some to → is_invoke_system_contract to = true.

Lemma agrees_transact t :
  for_system t →
  agrees (miner (transact_system_tx chain_id) t (block_beneficiary bm))
         (verifier (transact_system_tx chain_id) t (block_beneficiary bm)).
Proof.
  intros Ht. unfold transact_system_tx. apply agrees_gets_db. intros d Hd.
  apply agrees_lift_bind; [done|intros o _]. apply agrees_bind; [apply agrees_next_tx|].
  intros [signed|]; [|apply agrees_ret]. apply agrees_lift_bind; [done|]. intros to Hto.
  apply unwrap_Ret in Hto.
  match goal with |- Execution.agrees _ (lift (ok_or (transact _ _ ?e) _) ≫= _) _ => set (env := e) end.
  assert (Hc : node_call chain_id bm env) by (split; [by apply Ht|by split]).
  apply agrees_lift_bind; [by rewrite (blind_transact _ _ _ _ _ _ Hblind d env Hd Hc)|].
  intros [r st] Hr%ok_or_Ret. apply agrees_bind; [auto with bsc|intros gas]. apply agrees_push_receipt.
  by apply (blind_commit _ _ _ _ _ _ Hblind d env r st).
Qed.

Lemma agrees_transact_all txs :
  Forall (λ t, for_system (tx t)) txs →
  agrees (miner (transact_all chain_id) txs (block_beneficiary bm)) (verifier (transact_all chain_id) txs (block_beneficiary bm)).
Proof.
  induction 1 as [|t txs Ht _ IH]; cbn [transact_all]; [apply agrees_ret|].
  apply agrees_bind; [by apply agrees_transact|done].
Qed.

Lemma contracts_for_system (l : list Address) f :
  forallb is_invoke_system_contract l = true → (∀ c, tx_to (tx (f c)) = Some c) → Forall (λ t, for_system (tx t)) (f <$> l).
Proof.
  intros Hl Hf. rewrite forallb_forall in Hl. apply list.Forall_forall. intros t (c & -> & Hc)%list_elem_of_fmap to Hto.
  rewrite Hf in Hto. injection Hto as <-. by apply Hl, list_elem_of_In.
Qed.

#[local] Hint Extern 1 (agrees (transact_system_tx _ _ _ _ _ _ _) _) =>
  (apply agrees_transact; intros ? [= <-]; vm_compute; reflexivity) : bsc.

Lemma agrees_distribute_incoming :
  agrees (miner (distribute_incoming self chain_id) (block_beneficiary bm))
         (verifier (distribute_incoming self chain_id) (block_beneficiary bm)).
Proof.
  unfold distribute_incoming. apply agrees_gets_db. intros d Hd. apply agrees_lift_bind; [done|intros o _].
  cbv zeta. destruct (_ =? 0); [apply agrees_ret|]. destruct (_ <=? _); [apply agrees_panics|].
  apply agrees_lift_bind; [done|]. intros d' Hd'%ok_or_Ret.
  apply agrees_bind; [by apply agrees_set_db, (blind_fees _ _ _ _ _ _ Hblind d _ _ _ Hd Hd')|intros _]. agree.
Qed.
#[local] Hint Resolve agrees_distribute_incoming : bsc.

Lemma agrees_finality :
  agrees
    (distribute_finality_reward self chain_id snapshot_by_hash header_by_hash_from_provider reader
       global_signer recover_signer bm base_parent_hash true)
    (distribute_finality_reward self chain_id snapshot_by_hash header_by_hash_from_provider reader
       signer_v recover_v bv base_parent_hash false).
Proof. unfold distribute_finality_reward. agree. Qed.
#[local] Hint Resolve agrees_finality : bsc.

Lemma agrees_update_set n infos :
  agrees (miner (update_validator_set_v2 chain_id) n infos (block_beneficiary bm))
         (verifier (update_validator_set_v2 chain_id) n infos (block_beneficiary bm)).
Proof. unfold update_validator_set_v2. agree. Qed.
#[local] Hint Resolve agrees_update_set : bsc.

Lemma agrees_update_block n t p :
  agrees (update_block self breathe_interval n t p : ex bool) (update_block self breathe_interval n t p).
Proof. unfold update_block. agree. Qed.
#[local] Hint Resolve agrees_update_block : bsc.

Lemma agrees_elect :
  agrees
    (distribute_and_elect self chain_id snapshot_by_hash header_by_hash_from_provider reader breathe_interval
       global_signer recover_signer bm base_parent_hash true)
    (distribute_and_elect self chain_id snapshot_by_hash header_by_hash_from_provider reader breathe_interval
       signer_v recover_v bv base_parent_hash false).
Proof. unfold distribute_and_elect. agree. Qed.

Lemma agrees_slash sn :
  agrees (miner (slash_inturn self chain_id) sn) (verifier (slash_inturn self chain_id) sn).
Proof. unfold slash_inturn, slash_spoiled_validator. agree. Qed.

Lemma agrees_upgrade_each l p contracts :
  get_upgrade_system_contracts embedded (spec self) chain_id (block_number bm) (block_timestamp bm) p = Ret contracts →
  (∀ a c, (a, Some c) ∈ l → contracts !! a = Some (Some c)) →
  agrees (upgrade_each l : ex unit) (upgrade_each l).
Proof.
  intros Hc. induction l as [|[a [c|]] l IH]; intros Hl; cbn [upgrade_each]; [apply agrees_ret| |].
  - apply agrees_bind; [|intros _; apply IH; intros; apply Hl; by right]. unfold upgrade_system_contract.
    apply agrees_gets_db. intros d Hd. apply agrees_lift_bind; [done|intros account _].
    apply agrees_set_db. apply (blind_upgrade _ _ _ _ _ _ Hblind d p contracts a c _ Hd Hc). apply Hl. by left.
  - apply IH. intros; apply Hl; by right.
Qed.

Lemma agrees_try_update p :
  agrees
    (try_update_build_in_system_contract self chain_id embedded history_storage (block_number bm) (block_timestamp bm) p false : ex unit)
    (try_update_build_in_system_contract self chain_id embedded history_storage (block_number bm) (block_timestamp bm) p false).
Proof.
  unfold try_update_build_in_system_contract, upgrade_contracts. cbv zeta. destruct (is_feynman_active_at_timestamp _ _ _); [|apply agrees_ret].
  apply agrees_lift_bind; [done|]. intros contracts Hc. apply (agrees_upgrade_each _ p contracts).
  - destruct (get_upgrade_system_contracts _ _ _ _ _ _); by try injection Hc as <-.
  - intros a c Hin. by apply elem_of_map_to_list in Hin.
Qed.

(** What the miner can read from a state, the verifier can read. *)
Lemma eth_call_blind to data s :
  P (db s) → is_invoke_system_contract to = true → eth_call chain_id bm to data s = eth_call chain_id bv to data s.
Proof.
  intros HP Hto. unfold eth_call. rewrite !ex_bind_eq. cbn [gets mbind comp_bind]. cbn [block_gas_limit].
  match goal with |- context [transact bm _ ?e] => rewrite (blind_transact _ _ _ _ _ _ Hblind (db s) e HP) end; [done|].
  by split.
Qed.

Lemma validators_blind n s :
  P (db s) → get_current_validators self chain_id bm n s = get_current_validators self chain_id bv n s.
Proof.
  intros HP. unfold get_current_validators. destruct (is_luban_active_at_block _ _).
  - rewrite !ex_bind_eq, eth_call_blind; [done..|vm_compute; reflexivity].
  - destruct (get_current_validators_before_luban _ _) as [to data] eqn:Hto. rewrite !ex_bind_eq, eth_call_blind; [done..|].
    unfold get_current_validators_before_luban in Hto. injection Hto as <- _. vm_compute. reflexivity.
Qed.

Lemma turn_length_blind n t s :
  P (db s) → get_turn_length self chain_id bm n t s = get_turn_length self chain_id bv n t s.
Proof.
  intros HP. unfold get_turn_length. destruct (is_bohr_active_at_timestamp _ _ _); [|done].
  rewrite !ex_bind_eq, eth_call_blind; [done..|vm_compute; reflexivity].
Qed.

(** *** The end of a block *)

#[local] Notation finish_m :=
  (finish self chain_id snapshot_by_hash header_by_hash_from_provider reader embedded breathe_interval
     global_signer recover_signer history_storage bm base_parent_hash true).
#[local] Notation finish_v :=
  (finish self chain_id snapshot_by_hash header_by_hash_from_provider reader embedded breathe_interval
     signer_v recover_v history_storage bv base_parent_hash false).
#[local] Notation finalize_m :=
  (finalize_new_block self chain_id snapshot_by_hash header_by_hash_from_provider reader breathe_interval
     global_signer recover_signer bm base_parent_hash true).
#[local] Notation post_check_v :=
  (post_check_new_block self chain_id snapshot_by_hash header_by_hash_from_provider reader breathe_interval
     signer_v recover_v bv base_parent_hash false).

Lemma agrees_before_finish :
  agrees (before_finish self chain_id embedded history_storage bm true global_signer recover_signer)
         (before_finish self chain_id embedded history_storage bv false signer_v recover_v).
Proof.
  assert (Hg : Forall (λ t, for_system (tx t)) (genesis_contracts_txs chain_id)) by (by apply contracts_for_system).
  assert (Hf : Forall (λ t, for_system (tx t)) (feynman_contracts_txs chain_id)) by (by apply contracts_for_system).
  unfold before_finish, initialize_feynman_contracts, deploy_genesis_contracts.
  agree; eauto using agrees_try_update, agrees_transact_all.
Qed.

Lemma agrees_slash_if v sn :
  agrees (if negb (block_beneficiary bm =? v) then miner (slash_inturn self chain_id) sn else mret tt)
         (if negb (block_beneficiary bm =? v) then verifier (slash_inturn self chain_id) sn else mret tt).
Proof. destruct (negb _); [apply agrees_slash|apply agrees_ret]. Qed.

(** What the miner reads for the next epoch the verifier reads too. *)
Lemma readable_blind sn s : P (db s) → next_epoch_readable self chain_id bm sn s → next_epoch_readable self chain_id bv sn s.
Proof.
  intros HP [Hvals Hturn]. split; intros Hn.
  - destruct (Hvals Hn) as [vs Hvs]. exists vs. by rewrite <- validators_blind.
  - destruct (Hturn Hn) as [l Hl]. exists l. by rewrite <- turn_length_blind.
Qed.

(** The miner's and the verifier's last part. *)
Lemma finalize_agrees sm sm' sv h sn cur :
  P (db sm) → finalize_m sm = Ret (tt, sm') → snap sm = Some sn →
  (∀ v, inturn_validator (E:=BscBlockExecutionError) sn = Ret v →
    (difficulty h =? DIFF_INTURN) = (block_beneficiary bm =? v)) →
  header sv = Some h → number h = block_number bm → timestamp h = block_timestamp bm →
  snapshot_by_hash (hash_slow h) = Some cur → epoch_num cur = epoch_num sn →
  epoch_checks_pass self chain_id bv sv →
  ∃ new, assembled_system_txs sm' = assembled_system_txs sm ++ new
  ∧ (same sm sv → system_txs sv = new →
     ∃ sv', post_check_v sv = Ret (tt, sv') ∧ same sm' sv' ∧ system_txs sv' = []).
Proof.
  intros HP Hm Hsn Hdiff Hh Hn Ht Hcur Hep Hchecks.
  destruct (finalize_inv _ _ _ _ _ _ _ _ _ _ _ _ _ Hm Hsn) as (v & s1 & s2 & vals & turn & Hv & Hslash & Helect & -> & Hr).
  destruct (agrees_slash_if v sn _ _ _ HP Hslash) as (HP1 & n1 & Ha1 & Hv1).
  destruct (agrees_elect _ _ _ HP1 Helect) as (HP2 & n2 & Ha2 & Hv2).
  exists (n1 ++ n2). split; [cbn; by rewrite Ha2, Ha1, app_assoc|]. intros Hs Htx.
  destruct (Hv1 sv n2 Hs Htx) as (w1 & Hw1 & Hs1 & Ht1 & Hf1).
  destruct (Hv2 w1 [] Hs1 ltac:(by rewrite app_nil_r)) as (w2 & Hw2 & Hs2 & Ht2 & Hf2).
  destruct (Hchecks sv (frame_refl _)) as [Hc1 Hc2].
  assert (Hsnv : snap sv = Some sn) by (rewrite <- (same_snap _ _ Hs); done).
  apply (readable_blind _ _ HP2) in Hr. apply (readable_same _ _ _ _ _ w2) in Hr; [|by rewrite (same_db _ _ Hs2)].
  destruct (post_check_tail_ok self chain_id snapshot_by_hash bv w2 h sn cur Hn Ht Hcur Hep Ht2 Hr) as (vc & tc & Htail).
  exists (set_caches vc tc w2). split; [|destruct Hs2; by split].
  unfold post_check_new_block. rewrite ex_bind_eq, Hc1. cbn [mbind comp_bind]. rewrite ex_bind_eq, Hc2.
  cbn [mbind comp_bind]. rewrite ex_bind_eq. cbn [gets mbind comp_bind]. rewrite ex_bind_eq, Hh.
  cbn [lift unwrap mbind comp_bind]. rewrite ex_bind_eq, (Hdiff v Hv).
  assert (Hsl : (if negb (block_beneficiary bm =? v)
    then o ← gets snap; sn0 ← lift (unwrap o); verifier (slash_inturn self chain_id) sn0 else mret tt) sv = Ret (tt, w1)).
  { destruct (negb _); [|done]. rewrite ex_bind_eq. cbn [gets mbind comp_bind]. by rewrite ex_bind_eq, Hsnv. }
  rewrite Hsl. cbn [mbind comp_bind]. rewrite ex_bind_eq, Hw2. exact Htail.
Qed.

Lemma finish_agrees sm sm' sv h sn cur :
  P (db sm) → finish_m sm = Ret (tt, sm') →
  assembled_system_txs sm = [] → snap sm = Some sn →
  same sm sv → system_txs sv = assembled_system_txs sm' →
  header sv = Some h → number h = block_number bm → timestamp h = block_timestamp bm →
  (∀ v, inturn_validator (E:=BscBlockExecutionError) sn = Ret v →
    (difficulty h =? DIFF_INTURN) = (block_beneficiary bm =? v)) →
  snapshot_by_hash (hash_slow h) = Some cur → epoch_num cur = epoch_num sn →
  epoch_checks_pass self chain_id bv sv →
  ∃ sv', finish_v sv = Ret (tt, sv') ∧ same sm' sv' ∧ system_txs sv' = [].
Proof.
  intros HP Hm Hnil Hsn Hs Htx Hh Hn Ht Hdiff Hcur Hep Hchecks. rewrite finish_split in Hm.
  destruct (before_finish _ _ _ _ bm true _ _ sm) as [[[] s1]| | |] eqn:Hb; try discriminate. cbn [mbind comp_bind] in Hm.
  destruct (agrees_before_finish _ _ _ HP Hb) as (HP1 & n1 & Ha1 & Hv1).
  assert (Hsn1 : ∀ sv1, same s1 sv1 → snap sv1 = snap sm → snap s1 = Some sn)
    by (intros sv1 H1 H2; rewrite (same_snap _ _ H1); congruence).
  destruct (Hv1 (set_txs (n1 ++ []) [] sm) []) as (svx & _ & Hsx & _ & Hfx); [by split|done|].
  specialize (Hsn1 svx Hsx (frame_snap _ _ Hfx)).
  assert (Hfin : ∀ sv1, frame sv sv1 → ∃ new, assembled_system_txs sm' = n1 ++ new
    ∧ (same s1 sv1 → system_txs sv1 = new → ∃ sv', post_check_v sv1 = Ret (tt, sv') ∧ same sm' sv' ∧ system_txs sv' = [])).
  { intros sv1 Hf. destruct (finalize_agrees s1 sm' sv1 h sn cur) as (new & Hnew & Hfin); try done.
    - by rewrite (frame_header _ _ Hf).
    - intros s' Hf'. apply Hchecks. by eapply frame_trans.
    - exists new. split; [by rewrite Hnew, Ha1, Hnil|done]. }
  destruct (Hfin sv (frame_refl _)) as (new & Hnew & _). rewrite Hnew in Htx.
  destruct (Hv1 sv new Hs Htx) as (sv1 & Hsv1 & Hs1 & Ht1 & Hf1).
  destruct (Hfin sv1 Hf1) as (new' & Hnew' & Hpost). rewrite Hnew in Hnew'. apply app_inv_head in Hnew'.
  destruct (Hpost Hs1) as (sv' & Hsv' & Hs' & Htx'); [congruence|].
  exists sv'. split; [|done]. rewrite finish_split, Hsv1. exact Hsv'.
Qed.

End System.

Section Refinement.
Context `{FCA : ForkConditionApi} {CS : Type} `{!BscHardforks CS}.
Context `{SL : Sealable} `{AR : AttestationRlp} `{KE : Keccak} `{VR : VoteRlp} `{BL : Bls}.
Context `{HL : !LruApi Header} `{PL : !LruApi Address} `{RL : Rlp} `{SE : Secp256k1}.
Context `{TH : TxHashing} `{DA : DynAbi} `{AD : AddressDisplay} `{EV : Evm}.
Context `{VL : !LruApi (list Address * list VoteAddress)} `{TL : !LruApi Z}.
Variable self : Parlia CS.
Variable chain_id : Z.
Variable snapshot_by_hash : B256 → option Snapshot.
Variable header_by_hash_from_provider : B256 → option Header.
Variable reader : HeaderCacheReader.
Variable embedded : string → option Bytecode.
Variable breathe_interval : option Z.
Variable global_signer signer_v : option (list Z).
Variable recover_signer recover_v : TransactionSigned → option Address.
Variable history_storage : Address * Bytecode.
Variable bm bv : BlockEnv.
Variable base_parent_hash : B256.
Variable P : Db → Prop.
#[local] Notation finish block f g m :=
  (finish self chain_id snapshot_by_hash header_by_hash_from_provider reader embedded breathe_interval
     f g history_storage block base_parent_hash m).

(** C1. What a miner appends to a block, a verifier accepts, although the two
    execute the block in environments that differ in what contracts can read of
    its randomness and difficulty: if a miner finishes a block in its
    environment [bm] (upgrades of contracts, genesis and Feynman transactions,
    slashing, fees, finality rewards, election), then a verifier that reaches the
    end of the same block in the same state, in an environment [bv] with the
    same number, beneficiary, time and gas limit, finds the miner's
    transactions in it and a header whose difficulty says whether the proposer is
    in turn, finishes it too: it uses up exactly these transactions and ends in
    the same state, with the same gas and receipts.  Asked of the state are
    that no contract the node calls looks at what [bm] and [bv] differ in, and of
    the block that the checks of an epoch header pass and that the epoch length
    does not change at it. *)
Theorem mined_system_txs_accepted sm sm' sv h sn cur :
  same_block bm bv → blind (spec self) chain_id embedded bm bv P → P (db sm) →
  finish bm global_signer recover_signer true sm = Ret (tt, sm') →
  assembled_system_txs sm = [] → snap sm = Some sn →
  same sm sv → system_txs sv = assembled_system_txs sm' →
  header sv = Some h → number h = block_number bv → timestamp h = block_timestamp bv →
  (∀ v, inturn_validator (E:=BscBlockExecutionError) sn = Ret v →
    (difficulty h =? DIFF_INTURN) = (block_beneficiary bv =? v)) →
  snapshot_by_hash (hash_slow h) = Some cur → epoch_num cur = epoch_num sn →
  epoch_checks_pass self chain_id bv sv →
  ∃ sv', finish bv signer_v recover_v false sv = Ret (tt, sv') ∧ same sm' sv' ∧ system_txs sv' = [].
Proof.
  intros [En Eb Et Eg] Hblind HP. destruct bv as [n b t d r g f x]. cbn in En, Eb, Et, Eg. subst n b t g.
  intros. by eapply (finish_agrees _ _ _ _ _ _ _ global_signer signer_v recover_signer recover_v).
Qed.

End Refinement.
