(* ===== verification/ExecutionSpec.v ===== *)
(** * What executed blocks satisfy

    Theorems about the operations of [Execution.v] one by one: which system
    transactions an accepted block can hold, how the fees are split, the
    weights of the finality rewards, and the header of an epoch; and concrete
    blocks for them. *)

From S2P Require Import Prelude Hardforks Types Snapshot HeaderExtra Errors Timing VotePool Attestation SystemContracts Evm HertzPatch Execution.

Section Accepted.
Context `{FCA : ForkConditionApi} {CS : Type} `{!BscHardforks CS}.
Context `{SL : Sealable} `{AR : AttestationRlp} `{KE : Keccak} `{VR : VoteRlp} `{BL : Bls}.
Context `{HL : !LruApi Header} `{PL : !LruApi Address} `{RL : Rlp} `{SE : Secp256k1}.
Context `{TH : TxHashing} `{DA : DynAbi} `{AD : AddressDisplay} `{EV : Evm}.
Context `{VL : !LruApi (list Address * list VoteAddress)} `{TL : !LruApi Z}.
Variable self : Parlia CS.
Variable chain_id : Z.
Variable snapshot_by_hash : B256 → option Snapshot.
Variable header_by_hash_from_provider : B256 → option Header.
Variable reader : HeaderCacheReader.
Variable embedded : string → option Bytecode.
Variable breathe_interval : option Z.
Variable global_signer : option (list Z).
Variable recover_signer : TransactionSigned → option Address.
Variable history_storage : Address * Bytecode.
Variable block : BlockEnv.
Variable base_parent_hash : B256.
#[local] Notation Executor := (@Executor EV VL TL).
#[local] Notation ex := (@ex EV VL TL).
Implicit Types (sm sv s : Executor).

(** ** The system transactions of an accepted block *)

(** The transaction has the signature hash of one that the node itself builds:
    a call to a system contract without a gas price. *)
Definition node_built (t : TransactionSigned) : Prop :=
  ∃ nonce value input to, to ∈ SYSTEM_CONTRACTS_SET
    ∧ signature_hash (tx t) = signature_hash (system_tx chain_id nonce value input to).

(** The verifier takes some of the block's system transactions, each of them
    built by the node, and writes a receipt for each. *)
Definition consumes {A} (m : ex A) : Prop :=
  ∀ s a s', m s = Ret (a, s') →
  ∃ used, system_txs s = used ++ system_txs s' ∧ Forall node_built used
  ∧ length (receipts s') = (length (receipts s) + length used)%nat.

Lemma consumes_none {A} (m : ex A) :
  (∀ s a s', m s = Ret (a, s') → system_txs s' = system_txs s ∧ receipts s' = receipts s) → consumes m.
Proof.
  intros Hm s a s' H. destruct (Hm s a s' H) as [E1 E2]. exists []. rewrite E1, E2.
  split; [done|]. split; [constructor|cbn; lia].
Qed.

Lemma consumes_ret {A} (a : A) : consumes (mret a).
Proof. apply consumes_none. intros s a' s' H. by injection H as _ <-. Qed.
Lemma consumes_lift {A} (c : exec A) : consumes (lift c).
Proof. apply consumes_none. intros s a s' H. unfold lift in H. destruct c; try discriminate. by injection H as _ <-. Qed.
Lemma consumes_gets {A} (f : Executor → A) : consumes (gets f).
Proof. apply consumes_none. intros s a s' H. by injection H as _ <-. Qed.
Lemma consumes_fails {A} e : consumes (fails e : ex A).
Proof. by intros s a s' H. Qed.
Lemma consumes_panics {A} : consumes (panics : ex A).
Proof. by intros s a s' H. Qed.
Lemma consumes_modify f :
  (∀ s, system_txs (f s) = system_txs s ∧ receipts (f s) = receipts s) → consumes (modify f).
Proof. intros Hf. apply consumes_none. intros s a s' H. injection H as _ <-. apply Hf. Qed.

Lemma consumes_bind {A B} (m : ex A) (f : A → ex B) : consumes m → (∀ a, consumes (f a)) → consumes (m ≫= f).
Proof.
  intros Hm Hf s b s' (a & s1 & H1 & H2)%ex_bind_inv.
  destruct (Hm _ _ _ H1) as (u1 & E1 & F1 & L1). destruct (Hf _ _ _ _ H2) as (u2 & E2 & F2 & L2).
  exists (u1 ++ u2). split; [by rewrite E1, E2, app_assoc|]. split; [by apply Forall_app|].
  rewrite L2, L1, length_app. lia.
Qed.

Ltac consume :=
  repeat first
    [ progress (cbn beta iota)
    | match goal with |- consumes (_ ≫= _) => apply consumes_bind; [|intros] end
    | apply consumes_ret | apply consumes_lift | apply consumes_fails | apply consumes_panics | apply consumes_gets
    | apply consumes_modify; done
    | match goal with
      | |- consumes (match ?x with _ => _ end) => destruct x
      | |- consumes (if ?b then _ else _) => destruct b
      end ].

Lemma set_nonce_system_tx n value input to nonce :
  set_nonce (system_tx chain_id n value input to) nonce = system_tx chain_id nonce value input to.
Proof. reflexivity. Qed.

Lemma consumes_transact n value input to sender :
  to ∈ SYSTEM_CONTRACTS_SET →
  consumes (transact_system_tx chain_id global_signer recover_signer block false
              (system_tx chain_id n value input to) sender).
Proof.
  intros Hto s a s' H. unfold transact_system_tx in H.
  apply ex_bind_inv in H as (d & s1 & H1 & H). injection H1 as <- <-.
  apply ex_bind_inv in H as (o & s1 & H1 & H). unfold lift in H1. destruct (basic _ _) as [o'|]; [|discriminate].
  injection H1 as <- <-. rewrite set_nonce_system_tx in H.
  set (nonce := account_nonce _) in H.
  apply ex_bind_inv in H as (nt & s1 & Hn & H). unfold take_system_tx in Hn.
  apply ex_bind_inv in Hn as (txs & s2 & H2 & Hn). injection H2 as <- <-.
  apply ex_bind_inv in Hn as (asm & s2 & H2 & Hn). injection H2 as <- <-.
  assert (Hskip : ∀ s2, s2 = s → (mret tt : ex unit) s2 = Ret (a, s') → ∃ used,
    system_txs s = used ++ system_txs s' ∧ Forall node_built used
    ∧ length (receipts s') = (length (receipts s) + length used)%nat).
  { intros s2 -> Hs. injection Hs as _ <-. exists []. split; [done|]. split; [constructor|cbn; lia]. }
  destruct (system_txs s) as [|first rest] eqn:Htx.
  { destruct (bool_decide _); [|discriminate]. injection Hn as <- <-. exact (Hskip s eq_refl H). }
  destruct (Z.eqb_spec (signature_hash (system_tx chain_id nonce value input to)) (signature_hash (tx first))) as [He|He].
  2: { destruct (_ && _); [|discriminate]. injection Hn as <- <-. exact (Hskip s eq_refl H). }
  clear Hskip. apply ex_bind_inv in Hn as (u & s2 & H2 & Hn). injection H2 as _ <-. injection Hn as <- <-.
  apply ex_bind_inv in H as (to' & s2 & H2 & H). injection H2 as <- <-.
  apply ex_bind_inv in H as ([result st] & s2 & H2 & H). unfold lift in H2.
  destruct (transact _ _ _) as [[result' st']|]; [|discriminate]. injection H2 as <- <- <-.
  apply ex_bind_inv in H as (g & s2 & H2 & H). injection H2 as <- <-. injection H as _ <-.
  exists [first]. split; [done|]. split.
  - constructor; [|done]. exists nonce, value, input, to. by rewrite He.
  - cbn. rewrite length_app. cbn. lia.
Qed.

Lemma consumes_transact_all txs sender :
  (∀ t, t ∈ txs → ∃ n value input to, tx t = system_tx chain_id n value input to ∧ to ∈ SYSTEM_CONTRACTS_SET) →
  consumes (transact_all chain_id global_signer recover_signer block false txs sender).
Proof.
  induction txs as [|t txs IH]; intros Ht; cbn [transact_all]; [apply consumes_ret|].
  apply consumes_bind; [|intros; apply IH; intros; apply Ht; by right].
  destruct (Ht t) as (n & v & i & to & -> & Hto); [by left|]. by apply consumes_transact.
Qed.

Lemma contract_in_set :
  VALIDATOR_CONTRACT ∈ SYSTEM_CONTRACTS_SET ∧ SLASH_CONTRACT ∈ SYSTEM_CONTRACTS_SET
  ∧ SYSTEM_REWARD_CONTRACT ∈ SYSTEM_CONTRACTS_SET.
Proof. apply (bool_decide_unpack _). vm_compute. exact I. Qed.

Lemma built_txs t :
  t ∈ genesis_contracts_txs chain_id ++ feynman_contracts_txs chain_id →
  ∃ n value input to, tx t = system_tx chain_id n value input to ∧ to ∈ SYSTEM_CONTRACTS_SET.
Proof.
  intros Ht. unfold genesis_contracts_txs, feynman_contracts_txs in Ht. rewrite elem_of_app, !list_elem_of_fmap in Ht.
  assert (Hall : Forall (λ a, a ∈ SYSTEM_CONTRACTS_SET)
    ([VALIDATOR_CONTRACT; SLASH_CONTRACT; LIGHT_CLIENT_CONTRACT; RELAYER_HUB_CONTRACT; TOKEN_HUB_CONTRACT;
      RELAYER_INCENTIVIZE_CONTRACT; CROSS_CHAIN_CONTRACT] ++
     [STAKE_HUB_CONTRACT; GOVERNOR_CONTRACT; GOV_TOKEN_CONTRACT; TIMELOCK_CONTRACT;
      TOKEN_RECOVER_PORTAL_CONTRACT])) by (apply (bool_decide_unpack _); vm_compute; exact I).
  rewrite list.Forall_forall in Hall.
  destruct Ht as [(c & -> & Hc)|(c & -> & Hc)]; cbn [unsigned tx]; eexists _, _, _, c; (split; [reflexivity|]);
    apply Hall, elem_of_app; tauto.
Qed.

Lemma consumes_eth_call to data : consumes (eth_call chain_id block to data : ex _).
Proof. unfold eth_call. consume. Qed.

Lemma consumes_validators n hash : consumes (get_current_validators_with_cache self chain_id block n hash : ex _).
Proof.
  unfold get_current_validators_with_cache, get_current_validators. consume; apply consumes_eth_call.
Qed.

Lemma consumes_turn_length n t : consumes (get_turn_length self chain_id block n t : ex _).
Proof. unfold get_turn_length. consume. apply consumes_eth_call. Qed.

Lemma consumes_upgrade_each l : consumes (upgrade_each l : ex unit).
Proof. induction l as [|[a [c|]] l IH]; cbn [upgrade_each]; unfold upgrade_system_contract; consume; exact IH. Qed.

Lemma consumes_empty {A} (m : ex A) s a s' : consumes m → m s = Ret (a, s') → system_txs s = [] → system_txs s' = [].
Proof.
  intros Hm H He. destruct (Hm _ _ _ H) as (used & E & _). rewrite He in E. symmetry in E.
  by apply app_eq_nil in E as [_ E].
Qed.

Lemma post_check_uses_up s s' :
  post_check_new_block self chain_id snapshot_by_hash header_by_hash_from_provider reader breathe_interval
    global_signer recover_signer block base_parent_hash false s = Ret (tt, s') → system_txs s' = [].
Proof.
  intros H. unfold post_check_new_block in H.
  apply ex_bind_inv in H as (u1 & s1 & _ & H). apply ex_bind_inv in H as (u2 & s2 & _ & H).
  apply ex_bind_inv in H as (o & s3 & _ & H). apply ex_bind_inv in H as (h & s4 & _ & H).
  apply ex_bind_inv in H as (u3 & s5 & _ & H). apply ex_bind_inv in H as (u4 & s6 & _ & H).
  apply ex_bind_inv in H as (txs & s7 & H7 & H). injection H7 as <- <-.
  case_bool_decide as He; [|discriminate]. cbn [negb] in H.
  refine (consumes_empty _ _ _ _ _ H He).
  consume; first [apply consumes_validators|apply consumes_turn_length].
Qed.

(** C2. Nothing can be smuggled into a block as a system transaction: when a
    verifier accepts a block, its system transactions are used up, each of them
    has the signature hash of a transaction that the node itself builds (a call
    to a system contract without a gas price), and each has its receipt. *)
Theorem accepted_system_txs sv sv' :
  finish self chain_id snapshot_by_hash header_by_hash_from_provider reader embedded breathe_interval
    global_signer recover_signer history_storage block base_parent_hash false sv = Ret (tt, sv') →
  system_txs sv' = [] ∧ Forall node_built (system_txs sv)
  ∧ length (receipts sv') = (length (receipts sv) + length (system_txs sv))%nat.
Proof.
  intros H. assert (Hc : consumes
    (finish self chain_id snapshot_by_hash header_by_hash_from_provider reader embedded breathe_interval
       global_signer recover_signer history_storage block base_parent_hash false)).
  { unfold finish, try_update_build_in_system_contract, upgrade_contracts, apply_history_storage_account,
      initialize_feynman_contracts, deploy_genesis_contracts, post_check_new_block, verify_validators,
      verify_turn_length, slash_inturn, slash_spoiled_validator, distribute_and_elect, distribute_incoming,
      distribute_finality_reward, update_block, update_validator_set_v2, slash, distribute_to_system,
      distribute_to_validator, distribute_finality_reward_tx, update_validator_set_v2_tx.
    consume;
      first [ apply consumes_upgrade_each | apply consumes_validators | apply consumes_turn_length
            | apply consumes_transact; apply contract_in_set
            | apply consumes_transact_all; intros t Ht; apply built_txs, elem_of_app; tauto ]. }
  assert (He : system_txs sv' = []).
  { unfold finish in H. apply ex_bind_inv in H as (o & s1 & _ & H). apply ex_bind_inv in H as (p & s2 & _ & H).
    apply ex_bind_inv in H as (u1 & s3 & _ & H). apply ex_bind_inv in H as (u2 & s4 & _ & H).
    apply ex_bind_inv in H as (u3 & s5 & _ & H). exact (post_check_uses_up _ _ H). }
  destruct (Hc _ _ _ H) as (used & E1 & E2 & E3). rewrite He, app_nil_r in E1. by subst used.
Qed.

End Accepted.

(** ** Fees *)

Section Fees.
Context `{FCA : ForkConditionApi} {CS : Type} `{!BscHardforks CS} `{SE : Secp256k1}.
Context `{TH : TxHashing} `{DA : DynAbi} `{EV : Evm}.
Context `{VL : !LruApi (list Address * list VoteAddress)} `{TL : !LruApi Z}.
Variable self : Parlia CS.
Variable chain_id : Z.
Variable global_signer : option (list Z).
Variable recover_signer : TransactionSigned → option Address.
Variable block : BlockEnv.
#[local] Notation Executor := (@Executor EV VL TL).
#[local] Notation ex := (@ex EV VL TL).
Implicit Types (s : Executor).

(** The miner puts one signed transaction into the block. *)
Lemma miner_assembles t sender s s' :
  transact_system_tx chain_id global_signer recover_signer block true t sender s = Ret (tt, s') →
  ∃ signed n, assembled_system_txs s' = assembled_system_txs s ++ [signed] ∧ tx signed = set_nonce t n.
Proof.
  intros H. unfold transact_system_tx in H.
  apply ex_bind_inv in H as (d & s1 & H1 & H). injection H1 as <- <-.
  apply ex_bind_inv in H as (o & s1 & H1 & H). unfold lift in H1. destruct (basic _ _) as [o'|]; [|discriminate].
  injection H1 as <- <-. set (n := account_nonce _) in H.
  apply ex_bind_inv in H as (nt & s1 & Hn & H). unfold sign_next_tx in Hn.
  destruct global_signer as [gs|]; [|discriminate].
  apply ex_bind_inv in Hn as (signed & s2 & H2 & Hn). unfold lift in H2.
  destruct (sign_system_transaction _ _) as [signed'| | |] eqn:Hs; try discriminate. injection H2 as <- <-.
  apply ex_bind_inv in Hn as (r & s2 & H2 & Hn). unfold lift in H2.
  destruct (recover_signer signed'); [|discriminate]. injection H2 as <- <-.
  apply ex_bind_inv in Hn as (txs & s2 & H2 & Hn). injection H2 as <- <-.
  apply ex_bind_inv in Hn as (asm & s2 & H2 & Hn). injection H2 as <- <-.
  apply ex_bind_inv in Hn as (u & s2 & H2 & Hn). injection H2 as _ <-. injection Hn as <- <-.
  apply ex_bind_inv in H as (to' & s2 & H2 & H). unfold lift in H2. destruct (tx_to _); [|discriminate]. injection H2 as <- <-.
  apply ex_bind_inv in H as ([result st] & s2 & H2 & H). unfold lift in H2.
  destruct (transact _ _ _) as [[result' st']|]; [|discriminate]. injection H2 as <- <- <-.
  apply ex_bind_inv in H as (g & s2 & H2 & H). injection H2 as <- <-. injection H as <-.
  exists signed', n. split; [done|]. exact (sign_keeps_tx _ _ _ Hs).
Qed.

Definition sum (l : list Z) : Z := foldr Z.add 0 l.

Definition before_kepler : bool :=
  negb (is_kepler_active_at_timestamp (spec self) (block_number block) (block_timestamp block)).

(** C3. The fees collected at the system address are paid out to the last wei:
    the transactions the miner makes for them carry exactly the fees; one goes to
    the validator contract, and before Kepler at most one more to the system
    reward contract with a sixteenth of the fees.  Without fees there is no
    transaction. *)
Theorem fees_paid_out v s s' info :
  basic (db s) SYSTEM_ADDRESS = Some (Some info) → 0 <= balance info →
  distribute_incoming self chain_id global_signer recover_signer block true v s = Ret (tt, s') →
  ∃ new, assembled_system_txs s' = assembled_system_txs s ++ new
  ∧ sum (tx_value ∘ tx <$> new) = balance info
  ∧ ((balance info = 0 ∧ new = [])
     ∨ ∃ pre last, new = pre ++ [last] ∧ tx_to (tx last) = Some VALIDATOR_CONTRACT
       ∧ (pre = [] ∨ before_kepler = true ∧ ∃ t, pre = [t] ∧ tx_to (tx t) = Some SYSTEM_REWARD_CONTRACT
                     ∧ tx_value (tx t) = balance info / 16)).
Proof.
  intros Hb Hpos H. unfold distribute_incoming in H.
  apply ex_bind_inv in H as (d & s1 & H1 & H). injection H1 as <- <-.
  apply ex_bind_inv in H as (o & s1 & H1 & H). rewrite Hb in H1. injection H1 as <- <-.
  cbn [option_map default] in H. change (id (balance info)) with (balance info) in H.
  destruct (Z.eqb_spec (balance info) 0) as [He|Hne].
  { injection H as <-. exists []. rewrite app_nil_r, He. split; [done|]. split; [done|]. by left. }
  destruct (Z.leb_spec (2 ^ 128) (balance info)) as [|Hsmall]; [discriminate|].
  apply ex_bind_inv in H as (d & s1 & H1 & H). unfold lift in H1.
  destruct (increment_balance _ _ _) as [d'|]; [|discriminate]. injection H1 as <- <-.
  apply ex_bind_inv in H as (u & s1 & H1 & H). injection H1 as _ <-.
  apply ex_bind_inv in H as (o & s1 & H1 & H). unfold lift in H1. destruct (basic d' _) as [o'|]; [|discriminate].
  injection H1 as <- <-. apply ex_bind_inv in H as (r & s2 & Hr & H).
  destruct (miner_assembles _ _ _ _ H) as (last & n & Hl & Htx).
  set (s1 := set_db d' s) in *. fold before_kepler in Hr.
  assert (Hpre : ∃ pre, assembled_system_txs s2 = assembled_system_txs s ++ pre
    ∧ sum (tx_value ∘ tx <$> pre) + r = balance info
    ∧ (pre = [] ∨ before_kepler = true ∧ ∃ t, pre = [t] ∧ tx_to (tx t) = Some SYSTEM_REWARD_CONTRACT
                     ∧ tx_value (tx t) = balance info / 16)).
  { destruct before_kepler; [|injection Hr as <- <-; exists []; rewrite app_nil_r; split; [done|]; cbn; split; [lia|by left]].
    cbn [andb] in Hr. destruct (_ <? MAX_SYSTEM_REWARD).
    2: { injection Hr as <- <-. exists []. rewrite app_nil_r. split; [done|]. cbn. split; [lia|by left]. }
    rewrite Z.shiftr_div_pow2 in Hr by done. change (2 ^ SYSTEM_REWARD_PERCENT) with 16 in Hr.
    assert (Hw : wrapu 128 (balance info - balance info / 16) = balance info - balance info / 16)
      by (apply wrapu_small; split; [|]; pose proof (Z.div_le_upper_bound (balance info) 16 (balance info));
          pose proof (Z.div_pos (balance info) 16); lia).
    rewrite Hw in Hr. apply ex_bind_inv in Hr as (u' & s3 & H3 & Hr). injection Hr as <- <-.
    destruct (Z.ltb_spec 0 (balance info / 16)).
    - destruct u'. destruct (miner_assembles _ _ _ _ H3) as (t & m & Ht & Httx). exists [t].
      split; [done|]. cbn. rewrite Httx. cbn. split; [lia|]. right. split; [done|]. exists t. by rewrite Httx.
    - injection H3 as _ <-. exists []. rewrite app_nil_r. split; [done|]. cbn.
      pose proof (Z.div_pos (balance info) 16). split; [lia|by left]. }
  destruct Hpre as (pre & Hpre & Hsum & Hcase). exists (pre ++ [last]).
  split; [by rewrite Hl, Hpre, app_assoc|]. split.
  - rewrite fmap_app. unfold sum in *. rewrite foldr_app. cbn. rewrite Htx. cbn.
    assert (Hf : ∀ l x, foldr Z.add x l = foldr Z.add 0 l + x) by (induction l as [|y l IH]; intros; cbn; [lia|rewrite IH; lia]).
    rewrite Hf. lia.
  - right. exists pre, last. split; [done|]. by rewrite Htx.
Qed.

End Fees.

(** ** Finality rewards *)

Section Finality.
Context `{SL : Sealable} `{HL : !LruApi Header}.
Variable snapshot_by_hash : B256 → option Snapshot.
Variable header_by_hash_from_provider : B256 → option Header.
Variable reader : HeaderCacheReader.
Implicit Types (w : gmap Address Z) (l : list (Z * Address)).
#[local] Notation header_by_hash := (cached_header_by_hash header_by_hash_from_provider reader).

Definition weight w (v : Address) : Z := default 0 (w !! v).

(** The validators whose bit is set. *)
Definition voters (set : Z) l : list Address := (filter (λ e, e.1 ∈ ones set) l).*2.

Lemma weight_add v x w u :
  is_u 256 (weight w v + x) → weight (add_weight v x w) u = weight w u + (if bool_decide (u = v) then x else 0).
Proof.
  intros Hx. unfold weight, add_weight. case_bool_decide as Hu.
  - subst u. rewrite lookup_insert_eq. cbn [default]. change (id ?x) with x. by rewrite wrapu_small.
  - rewrite lookup_insert_ne by done. lia.
Qed.

Lemma count_votes_spec set l w :
  NoDup l.*2 → (∀ v, 0 <= weight w v < 2 ^ 255) →
  (∀ v, weight (count_votes set l w).1 v = weight w v + (if bool_decide (v ∈ voters set l) then 1 else 0))
  ∧ (count_votes set l w).2 = zlen (voters set l).
Proof.
  intros Hnd Hw. unfold count_votes, voters.
  induction l as [|[i v] l IH] using rev_ind; [cbn; split; [intros; rewrite bool_decide_false by (by intros ?%elem_of_nil); lia|done]|].
  rewrite fmap_app in Hnd. apply list.NoDup_app in Hnd as (Hnd & Hdis & _). destruct (IH Hnd) as [IH1 IH2].
  rewrite foldl_snoc, list.filter_app, fmap_app. cbn [fst snd].
  assert (Hv : v ∉ l.*2) by (intros Hin; apply (Hdis v Hin); by left).
  assert (Hnv : v ∉ (filter (λ e, e.1 ∈ ones set) l).*2).
  { intros (e & -> & He)%list_elem_of_fmap. apply list_elem_of_filter in He as [_ He]. apply Hv, list_elem_of_fmap. by exists e. }
  destruct (decide (i ∈ ones set)) as [Hi|Hi].
  - rewrite (bool_decide_true (i ∈ ones set)) by done.
    rewrite (filter_cons_True _ (i, v)) by done. cbn [fst snd].
    change (filter (λ e : Z * Address, e.1 ∈ ones set) []) with ([] : list (Z * Address)). split.
    + intros u. rewrite weight_add.
      2: { rewrite IH1, bool_decide_false by done. pose proof (Hw v). unfold is_u.
           change (2 ^ 255) with 57896044618658097711785492504343953926634992332820282019728792003956564819968 in *.
           change (2 ^ 256) with 115792089237316195423570985008687907853269984665640564039457584007913129639936. lia. }
      rewrite IH1. set (old := (filter (λ e, e.1 ∈ ones set) l).*2) in *. clearbody old.
      assert (Hin : u ∈ old ++ [(i, v)].*2 ↔ u ∈ old ∨ u = v)
        by (rewrite elem_of_app; cbn; by rewrite list_elem_of_singleton).
      rewrite (bool_decide_ext _ _ Hin). clear Hin IH IH1 IH2 Hw Hdis Hv.
      destruct (decide (u = v)) as [->|Hu].
      * rewrite (bool_decide_true (v = v) eq_refl), (bool_decide_true (v ∈ old ∨ v = v) (or_intror eq_refl)),
          (bool_decide_false (v ∈ old) Hnv). lia.
      * rewrite (bool_decide_false (u = v) Hu). destruct (decide (u ∈ old)) as [Ho|Ho].
        -- rewrite (bool_decide_true (u ∈ old ∨ u = v) (or_introl Ho)), (bool_decide_true (u ∈ old) Ho). lia.
        -- assert (Hn : ¬ (u ∈ old ∨ u = v)) by (intros [?|?]; contradiction).
           rewrite (bool_decide_false _ Hn), (bool_decide_false _ Ho). lia.
    + rewrite IH2. unfold zlen. rewrite length_app. change (length [(i, v)].*2) with 1%nat. lia.
  - rewrite (bool_decide_false (i ∈ ones set) Hi), (filter_cons_False _ (i, v) [] Hi).
    change (filter (λ e : Z * Address, e.1 ∈ ones set) []) with ([] : list (Z * Address)). rewrite app_nil_r.
    split; [exact IH1|exact IH2].
Qed.

(** C4. An attestation is worth one unit of finality reward to each validator
    that voted, and to the proposer of the block that carries it one for each
    vote beyond the quorum of two thirds; all other weights stay.  The
    validators are those of the parent of the attested block; too many bits are
    refused and a missing snapshot panics. *)
Theorem finality_weights attestation h w w' justified parent sn :
  header_by_hash (target_hash (att_data attestation)) = Some justified →
  header_by_hash (parent_hash justified) = Some parent →
  snapshot_by_hash (hash_slow parent) = Some sn →
  NoDup (validators sn) → zlen (validators sn) < 2 ^ 62 → (∀ v, 0 <= weight w v < 2 ^ 254) →
  process_attestation snapshot_by_hash header_by_hash_from_provider reader attestation h w = Ret w' →
  let voted := voters (vote_address_set attestation) (enumerate 0 (validators sn)) in
  let quorum := div_ceil (zlen (validators sn) * 2) 3 in
  ∀ v, weight w' v = weight w v + (if bool_decide (v ∈ voted) then 1 else 0)
                     + (if bool_decide (v = beneficiary h) then Z.max 0 (zlen voted - quorum) else 0).
Proof.
  intros Hj Hp Hs Hnd Hlen Hw H voted quorum v. unfold process_attestation in H.
  rewrite Hj in H. cbn [ok_or mbind comp_bind] in H. rewrite Hp in H. cbn [ok_or mbind comp_bind] in H.
  rewrite Hs in H. cbn [unwrap mbind comp_bind] in H. destruct (_ <? _); [discriminate|].
  destruct (count_votes_spec (vote_address_set attestation) (enumerate 0 (validators sn)) w) as [C1 C2].
  { by rewrite enumerate_snd. }
  { intros u. pose proof (Hw u). 
    change (2 ^ 255) with 57896044618658097711785492504343953926634992332820282019728792003956564819968.
    change (2 ^ 254) with 28948022309329048855892746252171976963317496166410141009864396001978282409984 in *. lia. }
  fold voted in C1, C2. destruct (count_votes _ _ w) as [w1 n]. cbn [fst snd] in *. subst n. injection H as <-.
  fold quorum. unfold COLLECT_ADDITIONAL_VOTES_REWARD_RATIO.
  assert (Hvl : 0 <= zlen voted <= zlen (validators sn)).
  { split; [apply zlen_nonneg|]. unfold voted, voters, zlen. rewrite length_fmap.
    etrans; [apply inj_le, (sublist_length _ _ (sublist_filter _ _))|]. by rewrite enumerate_length. }
  assert (Hquorum : 0 <= quorum) 
    by (pose proof (div_ceil_bounds (zlen (validators sn) * 2) 3 ltac:(lia)); unfold quorum; lia).
  destruct (Z.ltb_spec quorum (zlen voted)) as [Hq|Hq].
  - rewrite Z.div_mul by done. rewrite weight_add.
    + rewrite C1, Z.max_r by lia. done.
    + rewrite C1. pose proof (Hw (beneficiary h)). unfold is_u.
      change (2 ^ 254) with 28948022309329048855892746252171976963317496166410141009864396001978282409984 in *.
      change (2 ^ 256) with 115792089237316195423570985008687907853269984665640564039457584007913129639936.
      change (2 ^ 62) with 4611686018427387904 in *. destruct (bool_decide _); lia.
  - rewrite C1, Z.max_l by lia. destruct (bool_decide (v = _)); lia.
Qed.

End Finality.

(** ** The header of an epoch *)

Section Epoch.
Context `{FCA : ForkConditionApi} {CS : Type} `{!BscHardforks CS}.
Context `{AR : AttestationRlp} `{!AttestationRlpLaws AR} `{DA : DynAbi} `{EV : Evm}.
Context `{VL : !LruApi (list Address * list VoteAddress)} `{TL : !LruApi Z} `{!LruLaws Z TL}.
Variable self : Parlia CS.
Variable chain_id : Z.
Variable block : BlockEnv.
#[local] Notation Executor := (@Executor EV VL TL).
Implicit Types (s : Executor).

(** The map [check_new_block] makes of the validators and vote addresses. *)
Definition zipped (vals : list Address) (votes : list VoteAddress) : gmap Address VoteAddress :=
  foldl (λ m e, <[e.1 := e.2]> m) ∅ (zip vals votes).

Lemma foldl_insert_lookup (l : list (Address * VoteAddress)) (m : gmap Address VoteAddress) v a :
  NoDup l.*1 → (v, a) ∈ l → foldl (λ m e, <[e.1 := e.2]> m) m l !! v = Some a.
Proof.
  induction l as [|[v' a'] l IH] using rev_ind; [by intros _ ?%elem_of_nil|]. intros Hnd Hin.
  rewrite fmap_app in Hnd. apply list.NoDup_app in Hnd as (Hnd & Hdis & _). rewrite foldl_snoc. cbn [fst snd].
  apply elem_of_app in Hin as [Hin|Hin].
  - rewrite lookup_insert_ne; [by apply IH|]. intros ->. apply (Hdis v); [|by left].
    apply list_elem_of_fmap. by exists (v, a).
  - apply list_elem_of_singleton in Hin. injection Hin as -> ->. by rewrite lookup_insert_eq.
Qed.

Lemma zeros_lookup (l : list Address) v :
  v ∈ l → foldl (λ (m : gmap Address VoteAddress) v, <[v := 0]> m) ∅ l !! v = Some 0.
Proof.
  induction l as [|x l IH] using rev_ind; [by intros ?%elem_of_nil|]. intros Hin. rewrite foldl_snoc.
  destruct (decide (v = x)) as [->|Hne]; [by rewrite lookup_insert_eq|]. rewrite lookup_insert_ne by done.
  apply IH. apply elem_of_app in Hin as [?|Hin]; [done|]. by apply list_elem_of_singleton in Hin.
Qed.

(** The miner's and the verifier's maps agree on the validators. *)
Lemma maps_agree tr vals votes v :
  NoDup vals → length votes = length vals → v ∈ vals →
  (if tr : bool then foldl (λ m v, <[v := 0]> m) ∅ (sort vals) else zipped vals votes) !! v
  = vote_map tr vals votes !! v.
Proof.
  intros Hnd Hlen Hv. destruct tr.
  - rewrite zeros_lookup by (by rewrite elem_of_sort). symmetry. by apply zeros_lookup.
  - apply list_elem_of_lookup in Hv as [j Hj].
    destruct (lookup_lt_is_Some_2 votes j) as [a Ha]; [rewrite Hlen; by eapply lookup_lt_Some|].
    unfold zipped. rewrite (foldl_insert_lookup _ _ v a).
    + unfold vote_map. rewrite (proj1 (foldl_insert_vote_lookup votes vals 0 ∅ Hnd ltac:(lia)) j v Hj).
      change (Z.to_nat 0 + j)%nat with j. by rewrite Ha.
    + by rewrite fst_zip by lia.
    + apply list_elem_of_lookup. exists j. apply lookup_zip_Some. done.
Qed.

Lemma verify_validators_assembled cache sn vals votes att seal turn h h' s :
  epoch_input_ok sn vals votes seal h → luban_at self h = true →
  lru_entries cache !! parent_hash h = Some turn →
  (∀ a, att = Some a → zlen (rlp_encode_attestation a) < 2 ^ 32) →
  assemble_epoch_block self cache sn (Some (vals, votes)) att seal h = Ret h' →
  header s = Some h' → snap s = Some sn → current_validators s = Some (vals, zipped vals votes) →
  verify_validators self s = Ret (tt, s)
  ∧ get_turn_length_from_header self h' (epoch_num sn) = Ret (if bohr_at_header self h then Some turn else None)
  ∧ number h' = number h ∧ timestamp h' = timestamp h.
Proof.
  intros Hin Hl Hc Hatt Hasm Hh Hsn Hcur.
  destruct (assembled_layout self cache sn vals votes att seal turn h Hin Hl Hc Hatt) as [Hasm' L].
  rewrite Hasm in Hasm'. injection Hasm' as Hh'. destruct Hin as [Hep Hnd Hcnt Hlen _ _ _ _].
  set (w := written _ _) in *. set (tl := if bohr_at_header self h then _ else _) in *.
  assert (En : number h' = number h) by (by rewrite Hh'). assert (Et : timestamp h' = timestamp h) by (by rewrite Hh').
  split; [|split; [|done]].
  2: { rewrite Hh', (layout_turn self _ _ _ _ _ _ _ L) by done. f_equal.
       change (bohr_at_header self (set_extra_data _ h)) with (bohr_at_header self h).
       unfold tl. by destruct (bohr_at_header self h). }
  unfold verify_validators. rewrite ex_bind_eq. cbn [gets mbind comp_bind]. rewrite ex_bind_eq, Hh.
  cbn [lift unwrap mbind comp_bind]. rewrite ex_bind_eq. cbn [gets mbind comp_bind]. rewrite ex_bind_eq, Hsn.
  cbn [lift unwrap mbind comp_bind]. rewrite En, Hep. cbn [negb]. rewrite ex_bind_eq. cbn [gets mbind comp_bind].
  rewrite ex_bind_eq, Hcur. cbn [lift ok_or mbind comp_bind].
  unfold luban_at in Hl. rewrite Hl. set (tr := is_luban_transition_at_block _ _) in *.
  set (m := if tr then _ else _). rewrite ex_bind_eq.
  assert (Hm : ∀ v, v ∈ vals → m !! v = vote_map tr vals votes !! v) by (intros; by apply maps_agree).
  assert (Hw : written m vals = w).
  { unfold w, written. apply list_fmap_ext. intros i v Hv. rewrite Hm; [done|].
    rewrite <- elem_of_sort. by eapply list_elem_of_lookup_2. }
  rewrite mapM_entries by (intros; rewrite Hm by done; by apply vote_map_total).
  cbn [lift mbind comp_bind]. rewrite Hw, Hh', ex_bind_eq.
  rewrite (layout_validator_bytes self _ _ _ _ _ _ _ L) by done. cbn [lift mbind comp_bind].
  rewrite ex_bind_eq. cbn [lift unwrap mbind comp_bind]. by rewrite bool_decide_true by done.
Qed.

(** C5. The header with which the miner opens an epoch passes the verifier's
    checks: the validators and vote addresses it lists are found to be those of
    the contract, and its turn length passes exactly when the contract still
    has it after the transactions of the block.  A block that itself changes
    the turn length is refused, although its header holds the value of the
    parent, as the miner writes it. *)
Theorem epoch_header_accepted cache sn vals votes att seal turn h h' s now :
  epoch_input_ok sn vals votes seal h → luban_at self h = true →
  lru_entries cache !! parent_hash h = Some turn →
  (∀ a, att = Some a → zlen (rlp_encode_attestation a) < 2 ^ 32) →
  assemble_epoch_block self cache sn (Some (vals, votes)) att seal h = Ret h' →
  header s = Some h' → snap s = Some sn → current_validators s = Some (vals, zipped vals votes) →
  get_turn_length self chain_id block (number h) (timestamp h) s = Ret (now, s) →
  verify_validators self s = Ret (tt, s)
  ∧ verify_turn_length self chain_id block s
    = if bohr_at_header self h && negb (turn =? now)
      then Err (Validation MismatchingEpochTurnLengthError) else Ret (tt, s).
Proof.
  intros Hin Hl Hc Hatt Hasm Hh Hsn Hcur Hnow.
  destruct (verify_validators_assembled cache sn vals votes att seal turn h h' s Hin Hl Hc Hatt Hasm Hh Hsn Hcur)
    as (Hv & Ht & En & Et).
  split; [done|]. unfold verify_turn_length. rewrite ex_bind_eq. cbn [gets mbind comp_bind]. rewrite ex_bind_eq, Hh.
  cbn [lift unwrap mbind comp_bind]. rewrite ex_bind_eq. cbn [gets mbind comp_bind]. rewrite ex_bind_eq, Hsn.
  cbn [lift unwrap mbind comp_bind]. rewrite En, Et, (ei_epoch _ _ _ _ _ Hin). fold (bohr_at_header self h).
  destruct (bohr_at_header self h); [|done]. cbn [negb orb andb]. rewrite ex_bind_eq, Ht.
  cbn [map_err lift mbind comp_bind]. rewrite ex_bind_eq, Hnow. cbn [mbind comp_bind]. by destruct (turn =? now).
Qed.

End Epoch.

(** ** Witnesses *)

Section Witness.
Import RefHardforks RefLibraries RefMachine.
#[local] Existing Instance HeaderExtra.ref_hash.
#[local] Ltac ev := vm_compute; first [reflexivity | discriminate].

(** An ABI whose queries all read one word, and hashes of transactions. *)
#[local] Instance word_abi : DynAbi := {|
  abi_encode_input _ name _ := [Z.of_nat (String.length name)];
  abi_decode_output _ name l :=
    if String.eqb name "getMiningValidators"
    then Some [SolArray [SolAddress 10; SolAddress 20]; SolArray [SolBytes []; SolBytes []]]
    else Some [SolUint (List.hd 0 l)];
|}.
#[local] Instance field_hash : TxHashing := {|
  signature_hash t := tx_value t + 2 ^ 128 * (default 0 (tx_to t) + 2 ^ 64 * tx_nonce t);
  trie_hash t := tx_value (tx t);
|}.
#[local] Instance no_display : AddressDisplay := λ _, "".

(** The turn length is the first slot of the validator contract. *)
Definition turn_slot (d : State) (_ : list Z) : list Z := [default 0 (default ∅ (slots d !! VALIDATOR_CONTRACT) !! 0)].
#[local] Instance vm : Evm := machine turn_slot.

Definition account (n : Z) : AccountInfo :=
  {| balance := n; account_nonce := 3; code_hash := KECCAK_EMPTY; code := None |}.
Definition fee_state : State :=
  {| accounts := {[ SYSTEM_ADDRESS := account 1000; 10 := account 5 ]}; slots := {[ VALIDATOR_CONTRACT := {[ 0 := 16 ]} ]} |}.

Definition no_vals : LruMap (list Address * list VoteAddress) := (∅ : gmap B256 (list Address * list VoteAddress)).
Definition no_turns : LruMap Z := (∅ : gmap B256 Z).

(** An executor before the end of block 60000007, mined out of turn. *)
Definition before_end (expected : list TransactionSigned) (h : option Header) : Executor := {|
  db := fee_state; block_gas_used := 21000; receipts := []; system_txs := expected; assembled_system_txs := [];
  current_validators := None; max_elected_validators := None; validators_election_info := None;
  snap := Some (three 60000006); header := h; parent_header := Some (test_header 60000006 1768357806 60000005);
  shared_validators := None; shared_turn_length := None; validator_cache := no_vals; turn_length_cache := no_turns;
  onchain_nodeids := None |}.

Definition late_block : BlockEnv :=
  {| block_number := 60000007; block_beneficiary := 10; block_timestamp := 1768357808; env_difficulty := 0;
     env_prevrandao := Some 2; block_gas_limit := 40000000; env_basefee := 0; env_blob_excess_gas_and_price := None |}.
Definition late_header : Header := set_difficulty 1 (set_beneficiary 10 (test_header 60000007 1768357808 60000006)).
Definition next_snapshot (k : B256) : option Snapshot := Some (three 60000007).
Definition signer_key : list Z := be_encode 32 10.
Definition empty_reader : HeaderCacheReader :=
  {| blocknumber_to_header := (∅ : gmap Z Header); blockhash_to_header := (∅ : gmap Z Header) |}.
Definition no_header (k : B256) : option Header := None.
Definition no_code (k : string) : option Bytecode := None.

(** The executor a computation ends with. *)
Definition final (m : ex unit) (s : Executor) : Executor := match m s with Ret (_, s') => s' | _ => s end.
Definition succeeds (m : ex unit) (s : Executor) : bool := match m s with Ret _ => true | _ => false end.
Lemma final_ok m s : succeeds m s = true → m s = Ret (tt, final m s).
Proof. unfold succeeds, final. by destruct (m s) as [[[] s']| | |]. Qed.

Definition end_of (gs : option (list Z)) (is_miner : bool) : ex unit :=
  finish testnet_parlia 97 next_snapshot no_header empty_reader no_code None gs (λ _, Some 10) (7, []) late_block 5
    is_miner.

(** The environment the miner built the block in: its milliseconds instead of
    the difficulty. *)
Definition mining_block : BlockEnv :=
  {| block_number := 60000007; block_beneficiary := 10; block_timestamp := 1768357808; env_difficulty := 0;
     env_prevrandao := Some 750; block_gas_limit := 40000000; env_basefee := 0; env_blob_excess_gas_and_price := None |}.
Definition mined_end : Executor :=
  final (finish testnet_parlia 97 next_snapshot no_header empty_reader no_code None (Some signer_key) (λ _, Some 10)
           (7, []) mining_block 5 true) (before_end [] None).
Definition received : Executor := before_end (assembled_system_txs mined_end) (Some late_header).

Example mined_two : (λ t, (tx_to (tx t), tx_value (tx t))) <$> assembled_system_txs mined_end
  = [(Some SLASH_CONTRACT, 0); (Some VALIDATOR_CONTRACT, 1000)].
Proof. vm_compute. reflexivity. Qed.

Lemma mined_system_txs_accepted_witness :
  ∃ sv', end_of None false received = Ret (tt, sv') ∧ same mined_end sv' ∧ system_txs sv' = [].
Proof.
  apply (mined_system_txs_accepted testnet_parlia 97 next_snapshot no_header empty_reader no_code None
    (Some signer_key) None (λ _, Some 10) (λ _, Some 10) (7, []) mining_block late_block 5 (λ _, True)
    (before_end [] None) mined_end received late_header (three 60000006) (three 60000007)).
  - split; reflexivity.
  - split; intros; first [exact I|reflexivity].
  - exact I.
  - apply final_ok. vm_compute. reflexivity.
  - reflexivity.
  - reflexivity.
  - split; reflexivity.
  - reflexivity.
  - reflexivity.
  - reflexivity.
  - reflexivity.
  - intros v Hv. vm_compute in Hv. injection Hv as <-. vm_compute. reflexivity.
  - reflexivity.
  - vm_compute. reflexivity.
  - apply (no_epoch_checks testnet_parlia 97 late_block received late_header (three 60000006));
      [reflexivity|reflexivity|vm_compute; reflexivity].
Defined.

Definition accepted_end : Executor := final (end_of None false) received.

Lemma accepted_system_txs_witness :
  system_txs accepted_end = [] ∧ Forall (node_built 97) (system_txs received)
  ∧ length (receipts accepted_end) = (length (receipts received) + length (system_txs received))%nat.
Proof.
  apply (accepted_system_txs testnet_parlia 97 next_snapshot no_header empty_reader no_code None
    None (λ _, Some 10) (7, []) late_block 5 received accepted_end).
  apply final_ok. vm_compute. reflexivity.
Defined.

Definition paid_out : Executor :=
  final (distribute_incoming testnet_parlia 97 (Some signer_key) (λ _, Some 10) late_block true 10) (before_end [] None).

Lemma fees_paid_out_witness :
  ∃ new, assembled_system_txs paid_out = [] ++ new
  ∧ sum (tx_value ∘ tx <$> new) = 1000
  ∧ ((1000 = 0 ∧ new = [])
     ∨ ∃ pre last, new = pre ++ [last] ∧ tx_to (tx last) = Some VALIDATOR_CONTRACT
       ∧ (pre = [] ∨ before_kepler testnet_parlia late_block = true
                     ∧ ∃ t, pre = [t] ∧ tx_to (tx t) = Some SYSTEM_REWARD_CONTRACT ∧ tx_value (tx t) = 1000 / 16)).
Proof.
  apply (fees_paid_out testnet_parlia 97 (Some signer_key) (λ _, Some 10) late_block 10 (before_end [] None) paid_out
    (account 1000)).
  - reflexivity.
  - discriminate.
  - apply final_ok. vm_compute. reflexivity.
Defined.

(** All three validators vote for the block with hash 8. *)
Definition chain_header (k : B256) : option Header :=
  if k =? 8 then Some (test_header 8 20 7) else if k =? 7 then Some (test_header 7 10 6) else None.
Definition chain_snapshot (k : B256) : option Snapshot := Some (three 6).
Definition three_votes : VoteAttestation :=
  {| vote_address_set := 7; agg_signature := 0;
     att_data := {| source_number := 7; source_hash := 7; target_number := 8; target_hash := 8 |}; extra := [] |}.
Definition rewards : gmap Address Z :=
  match process_attestation chain_snapshot chain_header empty_reader three_votes (set_beneficiary 10 (test_header 9 30 8)) ∅ with
  | Ret w => w
  | _ => ∅
  end.

Lemma finality_weights_witness :
  weight rewards 10 = 0 + 1 + 1 ∧ weight rewards 20 = 0 + 1 + 0 ∧ weight rewards 40 = 0 + 0 + 0.
Proof.
  pose proof (finality_weights chain_snapshot chain_header empty_reader three_votes
    (set_beneficiary 10 (test_header 9 30 8)) ∅ rewards (test_header 8 20 7) (test_header 7 10 6) (three 6)) as H.
  split; [|split];
    (etrans; [apply H; [reflexivity|reflexivity|reflexivity| |ev| |vm_compute; reflexivity]|vm_compute; reflexivity];
     [apply (bool_decide_unpack _); vm_compute; exact I
     |intros v; unfold weight; rewrite lookup_empty; split; ev]).
Defined.

Example proposer_reward : map_to_list rewards = [(30, 1); (10, 2); (20, 1)].
Proof. vm_compute. reflexivity. Qed.

(** The epoch header of block 60000000 with turn length 16, received when the
    contract still says 16 and when the block has changed it to 8. *)
Definition epoch_block_header : Header :=
  match assemble_epoch_block testnet_parlia turn_cache (epoch_snap 1000) (Some ([30; 10; 20], [300; 100; 200]))
          None (replicate 65 1) epoch_header with
  | Ret h => h
  | _ => epoch_header
  end.
Definition epoch_start (turn : Z) : Executor := {|
  db := {| accounts := {[ 0 := account 0 ]}; slots := {[ VALIDATOR_CONTRACT := {[ 0 := turn ]} ]} |} : State;
  block_gas_used := 0; receipts := []; system_txs := []; assembled_system_txs := [];
  current_validators := Some ([30; 10; 20], zipped [30; 10; 20] [300; 100; 200]);
  max_elected_validators := None; validators_election_info := None;
  snap := Some (epoch_snap 1000); header := Some epoch_block_header; parent_header := None;
  shared_validators := None; shared_turn_length := None; validator_cache := no_vals; turn_length_cache := no_turns;
  onchain_nodeids := None |}.
Definition epoch_env : BlockEnv :=
  {| block_number := 60000000; block_beneficiary := 10; block_timestamp := 1768357800; env_difficulty := 0;
     env_prevrandao := Some 2; block_gas_limit := 40000000; env_basefee := 0; env_blob_excess_gas_and_price := None |}.

Lemma epoch_header_accepted_witness :
  (verify_validators testnet_parlia (epoch_start 8) = Ret (tt, epoch_start 8)
   ∧ verify_turn_length testnet_parlia 97 epoch_env (epoch_start 8) = Err (Validation MismatchingEpochTurnLengthError))
  ∧ verify_turn_length testnet_parlia 97 epoch_env (epoch_start 16) = Ret (tt, epoch_start 16).
Proof.
  assert (Hok : epoch_input_ok (epoch_snap 1000) [30; 10; 20] [300; 100; 200] (replicate 65 1) epoch_header).
  { split; [ev|apply (bool_decide_unpack _); vm_compute; exact I|split; ev|reflexivity| | |ev|ev];
      apply (bool_decide_unpack _); vm_compute; exact I. }
  assert (Hb : bohr_at_header testnet_parlia epoch_header = true) by ev.
  pose proof (λ now s, epoch_header_accepted testnet_parlia 97 epoch_env turn_cache (epoch_snap 1000) [30; 10; 20]
    [300; 100; 200] None (replicate 65 1) 16 epoch_header epoch_block_header s now Hok) as H.
  rewrite Hb in H. split.
  - apply (H 8 (epoch_start 8)); [ev|reflexivity|discriminate| |reflexivity|reflexivity|reflexivity|reflexivity].
    unfold epoch_block_header. vm_compute. reflexivity.
  - apply (H 16 (epoch_start 16)); [ev|reflexivity|discriminate| |reflexivity|reflexivity|reflexivity|reflexivity].
    unfold epoch_block_header. vm_compute. reflexivity.
Defined.

End Witness.
