(* ===== verification/Building.v ===== *)
(** * Building a block ([src/node/evm/config.rs], [assembler.rs], [builder.rs])

    The environment of the virtual machine for a block that is verified and for
    one that is built, the assembly of a built block and the builder's
    [finish]; the theorem that what this node builds passes its own validation,
    and a comparison of the two environments.

    Tries, the blob parameters of [alloy_eips], the state root and the gas
    limit calculation of reth are parameters. *)

From S2P Require Import Prelude Hardforks Types Snapshot HeaderExtra Errors Timing VotePool Attestation Validation Mining SystemContracts Evm HertzPatch Execution.

Definition EIP1559_INITIAL_BASE_FEE : Z := 0.
Definition EMPTY_WITHDRAWALS_HASH : B256 := 0x56e81f171bcc55a6ff8345e692c0f86e5b48e01b996cadc001622fb5e363b421.
Definition EMPTY_REQUESTS_HASH : B256 := 0xe3b0c44298fc1c149afbf4c8996fb92427ae41e4649b934ca495991b7852b855.

(** [alloy_eips::eip7840::BlobParams] and the next excess blob gas of a header. *)
Class BlobParamsApi := {
  BlobParams : Type;
  BlobParams_cancun : BlobParams;
  max_blob_count : BlobParams → Z;
  max_blobs_per_tx : BlobParams → Z;
  params_calc_blob_fee : BlobParams → Z → Z;
  next_block_excess_blob_gas_osaka : BlobParams → Z → Z → Z → Z;
  maybe_next_block_excess_blob_gas : Header → option BlobParams → option Z;
}.

(** ** Environments *)

Record CfgEnv := { cfg_chain_id : Z; cfg_spec : BscHardfork; cfg_max_blobs_per_tx : option Z }.

Record NextBlockEnvAttributes := {
  next_timestamp : Z;
  next_suggested_fee_recipient : Address;
  next_prev_randao : B256;
  next_gas_limit : Z;
  next_parent_beacon_block_root : option B256;
}.

Record BscBlockExecutionCtx := {
  ctx_parent_hash : B256;
  ctx_parent_beacon_block_root : option B256;
  ctx_block_header : option Header;
  ctx_is_miner : bool;
}.

(** revm's order of specifications has [MERGE] between [LONDON] and [SHANGHAI]. *)
Definition from_merge (s : SpecId) : bool := spec_index SHANGHAI <=? spec_index s.
Definition from_cancun (s : SpecId) : bool := spec_index CANCUN <=? spec_index s.

(** The attributes of the payload builder ([src/node/miner/payload.rs]);
    [limit] is [builder_config.gas_limit(parent_header.gas_limit)]. *)
Definition next_attributes (attributes : EthPayloadBuilderAttributes) (limit : Z) : NextBlockEnvAttributes :=
  {| next_timestamp := attr_timestamp attributes;
     next_suggested_fee_recipient := suggested_fee_recipient attributes;
     next_prev_randao := prev_randao attributes; next_gas_limit := limit;
     next_parent_beacon_block_root := attr_parent_beacon_block_root attributes |}.

Section Environment.
Context `{FCA : ForkConditionApi} {CS : Type} `{!BscHardforks CS} `{BP : BlobParamsApi} `{SL : Sealable}.
Variable chain_spec : CS.
Variable chain_id : Z.
Variable blob_params_at_timestamp : Z → option BlobParams.

Definition evm_env (h : Header) : CfgEnv * BlockEnv :=
  let blob_params := if is_cancun_active_at_timestamp chain_spec (number h) (timestamp h)
                     then blob_params_at_timestamp (timestamp h) else None in
  let spec := revm_spec_by_timestamp_and_block_number chain_spec (timestamp h) (number h) in
  let eth_spec := spec_id_of spec in
  ({| cfg_chain_id := chain_id; cfg_spec := spec;
      cfg_max_blobs_per_tx := max_blobs_per_tx <$> blob_params |},
   {| block_number := number h; block_beneficiary := beneficiary h; block_timestamp := timestamp h;
      env_difficulty := if from_merge eth_spec then 0 else difficulty h;
      env_prevrandao := if from_merge eth_spec then Some (difficulty h) else None;
      block_gas_limit := gas_limit h;
      env_basefee := default 0 (base_fee_per_gas h);
      env_blob_excess_gas_and_price :=
        excess ← excess_blob_gas h; params ← blob_params; Some (excess, params_calc_blob_fee params excess) |}).

(** The gas limit that the source scales at the London block is not used. *)
Definition next_evm_env (parent : Header) (attributes : NextBlockEnvAttributes) : CfgEnv * BlockEnv :=
  let n := add64 (number parent) 1 in
  let spec := revm_spec_by_timestamp_and_block_number chain_spec (next_timestamp attributes) n in
  let blob_params := blob_params_at_timestamp (next_timestamp attributes) in
  let excess_blob_gas :=
    match maybe_next_block_excess_blob_gas parent blob_params with
    | Some excess => Some excess
    | None => if from_cancun (spec_id_of spec) then Some 0 else None
    end in
  ({| cfg_chain_id := chain_id; cfg_spec := spec; cfg_max_blobs_per_tx := None |},
   {| block_number := n; block_beneficiary := next_suggested_fee_recipient attributes;
      block_timestamp := next_timestamp attributes; env_difficulty := 0;
      env_prevrandao := Some (next_prev_randao attributes);
      block_gas_limit := next_gas_limit attributes;
      env_basefee := EIP1559_INITIAL_BASE_FEE;
      env_blob_excess_gas_and_price :=
        (λ excess, (excess, params_calc_blob_fee (default BlobParams_cancun blob_params) excess)) <$> excess_blob_gas |}).

Definition context_for_block (h : Header) : BscBlockExecutionCtx :=
  {| ctx_parent_hash := parent_hash h; ctx_parent_beacon_block_root := parent_beacon_block_root h;
     ctx_block_header := Some h; ctx_is_miner := false |}.

Definition context_for_next_block (parent : Header) (attributes : NextBlockEnvAttributes) : BscBlockExecutionCtx :=
  {| ctx_parent_hash := hash_slow parent; ctx_parent_beacon_block_root := next_parent_beacon_block_root attributes;
     ctx_block_header := None; ctx_is_miner := true |}.

End Environment.

(** ** Assembling *)

Record BscBlock := { block_header : Header; block_transactions : list TransactionSigned }.

Section Assembler.
Context `{FCA : ForkConditionApi} {CS : Type} `{!BscHardforks CS} `{BP : BlobParamsApi} `{BC : BlobConstants}.
Context `{SL : Sealable} `{AR : AttestationRlp} `{KE : Keccak} `{VR : VoteRlp} `{BL : Bls}.
Context `{HL : !LruApi Header} `{PL : !LruApi Address} `{RL : Rlp} `{SE : Secp256k1}.
Context `{TH : TxHashing} `{DA : DynAbi} `{AD : AddressDisplay} `{EV : Evm}.
Context `{VL : !LruApi (list Address * list VoteAddress)} `{TL : !LruApi Z}.
Variable self : Parlia CS.
Variable chain_id : Z.
Variable blob_params_at_timestamp : Z → option BlobParams.
Variable snapshot_by_hash : B256 → option Snapshot.
Variable canonical_header_by_hash : B256 → option Header.

Variable reader : HeaderCacheReader.
Variable pool : VotePool.
Variable global_signer : option (list Z).

(** The roots and the bloom of the libraries, and the blob gas of a
    transaction. *)
Variable calculate_transaction_root : list TransactionSigned → B256.
Variable calculate_receipt_root : list Receipt → B256.
Variable logs_bloom_of : list Receipt → Z.
Variable tx_blob_gas_used : TransactionSigned → option Z.
Variable BEACON_NONCE : Z.

(** [self.extra_data] of the assembler is empty. *)
Definition unfinished_header (env : BlockEnv) (ctx : BscBlockExecutionCtx) (parent : Header)
    (transactions : list TransactionSigned) (receipts : list Receipt) (used : Z) (root : B256) : Header :=
  let n := block_number env in
  let t := block_timestamp env in
  let cancun := is_cancun_active_at_timestamp (spec self) n t in
  {| parent_hash := ctx_parent_hash ctx; ommers_hash := EMPTY_OMMER_ROOT_HASH;
     beneficiary := block_beneficiary env; state_root := root;
     transactions_root := calculate_transaction_root transactions;
     receipts_root := calculate_receipt_root receipts;
     withdrawals_root := if cancun then Some EMPTY_WITHDRAWALS_HASH else None;
     logs_bloom := logs_bloom_of receipts; timestamp := t;
     mix_hash := default 0 (env_prevrandao env); nonce := BEACON_NONCE;
     base_fee_per_gas := if is_london_active_at_block (spec self) n then Some (env_basefee env) else None;
     number := n; gas_limit := block_gas_limit env; difficulty := env_difficulty env;
     gas_used := used; extra_data := [];
     parent_beacon_block_root :=
       if cancun && is_bohr_active_at_timestamp (spec self) n t then Some ZERO else None;
     blob_gas_used :=
       if cancun then Some (foldl (λ sum tx, add64 sum (default 0 (tx_blob_gas_used tx))) 0 transactions) else None;
     excess_blob_gas :=
       if cancun then
         if is_cancun_active_at_timestamp (spec self) (number parent) (timestamp parent)
         then maybe_next_block_excess_blob_gas parent (blob_params_at_timestamp t)
         else Some (next_block_excess_blob_gas_osaka BlobParams_cancun 0 0 0)
       else None;
     requests_hash :=
       if cancun && is_prague_active_at_block_and_timestamp (spec self) n t then Some EMPTY_REQUESTS_HASH else None |}.

Definition assemble_block_bsc (vcache : LruMap (list Address * list VoteAddress)) (tcache : LruMap Z)
    (env : BlockEnv) (ctx : BscBlockExecutionCtx) (parent : Header) (transactions : list TransactionSigned)
    (receipts : list Receipt) (used : Z) (root : B256) : exec BscBlock :=
  let h := unfinished_header env ctx parent transactions receipts used root in
  parent_header ← ok_or (get_header_by_hash canonical_header_by_hash reader (parent_hash h)).1
                    (Msg "Failed to get header from global header reader");
  parent_snap ← ok_or (snapshot_by_hash (parent_hash h)) (Msg "Failed to get snapshot from snapshot provider");
  h ← map_err (λ _, Msg "Failed to finalize header: ")
        (finalize_new_header self chain_id snapshot_by_hash canonical_header_by_hash vcache tcache pool
           global_signer parent_snap parent_header h);
  Ret {| block_header := h; block_transactions := transactions |}.

(** ** Finishing *)

Variable embedded : string → option Bytecode.
Variable breathe_interval : option Z.
Variable recover_signer : TransactionSigned → option Address.
Variable history_storage : Address * Bytecode.
Variable state_root_of : Db → option B256.

(** The caches of the epoch get what the miner read for the next block. *)
Definition cache_epoch (hash : B256) (s : Executor) : Executor :=
  set_caches
    (match shared_validators s with Some v => lru_insert (validator_cache s) hash v | None => validator_cache s end)
    (match shared_turn_length s with Some t => lru_insert (turn_length_cache s) hash t | None => turn_length_cache s end)
    s.

(** [user_txs]: the transactions executed so far. *)
Definition assemble_executed (env : BlockEnv) (ctx : BscBlockExecutionCtx) (parent : Header)
    (user_txs : list TransactionSigned) : ex BscBlock := λ s,
  root ← ok_or (state_root_of (db s)) (Msg "state root");
  let transactions := user_txs ++ assembled_system_txs s in
  b ← assemble_block_bsc (validator_cache s) (turn_length_cache s) env ctx parent transactions
        (Execution.receipts s) (block_gas_used s) root;
  Ret (b, cache_epoch (hash_slow (block_header b)) s).

Definition builder_finish (env : BlockEnv) (ctx : BscBlockExecutionCtx) (parent : Header)
    (user_txs : list TransactionSigned) : ex BscBlock :=
  _ ← finish self chain_id snapshot_by_hash canonical_header_by_hash reader embedded breathe_interval
        global_signer recover_signer history_storage env (ctx_parent_hash ctx) (ctx_is_miner ctx);
  assemble_executed env ctx parent user_txs.

End Assembler.

(** * Proofs *)

Section OwnBlock.
Context `{FCA : ForkConditionApi} {CS : Type} `{BH : !BscHardforks CS} `{EL : !EthereumHardforksLaws CS}.
Context `{BP : BlobParamsApi} `{BC : BlobConstants} `{BCL : !BlobConstantsLaws BC}.
Context `{SL : Sealable} `{AR : AttestationRlp} `{ARL : !AttestationRlpLaws AR} `{KE : Keccak} `{VR : VoteRlp}.
Context `{BL : Bls} `{BLL : !BlsLaws BL} `{RL : Rlp} `{RLL : !RlpLaws RL} `{SE : Secp256k1} `{SEL : !Secp256k1Laws SE}.
Context `{VL : !LruApi (list Address * list VoteAddress)} `{VLL : !LruLaws _ VL}.
Context `{TL : !LruApi Z} `{TLL : !LruLaws Z TL} `{HL : !LruApi Header} `{EV : Evm}.
Variable self : Parlia CS.
Implicit Types (h parent : Header).

(** The check of the extra data that the miner lays out. *)
Lemma laid_out_extra_ok h vanity section tl ab seal :
  zlen vanity = 32 → zlen seal = 65 →
  (is_multiple_of (number h) (get_epoch_length self h) = true → luban_at self h = true ∧
   ∃ n entries, 0 < n < 256 ∧ section = [n] ++ entries ∧ zlen entries = n * 68) →
  check_header_extra self (set_extra_data (vanity ++ section ++ tl ++ ab ++ seal) h) = Ret tt.
Proof.
  intros Hv Hs He. set (hf := set_extra_data _ h).
  assert (Hep : is_multiple_of (number hf) (get_epoch_length self hf) = is_multiple_of (number h) (get_epoch_length self h)) by done.
  assert (Hlen : extra_len hf = 97 + zlen section + zlen tl + zlen ab).
  { unfold extra_len, hf. cbn [extra_data set_extra_data]. rewrite !zlen_app. lia. }
  pose proof (zlen_nonneg section). pose proof (zlen_nonneg tl). pose proof (zlen_nonneg ab).
  unfold check_header_extra, check_header_extra_len, get_validator_len_from_header.
  unfold EXTRA_VANITY_LEN, EXTRA_SEAL_LEN, VALIDATOR_NUMBER_SIZE, VALIDATOR_BYTES_LEN_AFTER_LUBAN.
  rewrite Hep, (proj2 (Z.ltb_ge (extra_len hf) 32)), (proj2 (Z.ltb_ge (extra_len hf) (32 + 65))) by lia.
  destruct (is_multiple_of _ _); cbn [negb]; [|done].
  destruct (He eq_refl) as (Hl & n & entries & Hn & -> & Hen).
  assert (Hlf : is_luban_active_at_block (spec self) (number hf) = true) by done. rewrite Hlf. cbn [negb].
  assert (Hi : index (E:=ParliaConsensusError) (extra_data hf) (32 + 1 - 1) = Ret n).
  { unfold hf. cbn [extra_data set_extra_data app]. apply index_app_middle. lia. }
  rewrite Hi. cbn [mbind comp_bind]. rewrite zlen_app, zlen_cons, zlen_nil in Hlen.
  rewrite (proj2 (Z.eqb_neq n 0)), (proj2 (Z.ltb_ge (extra_len hf) _)) by lia. cbn [orb mbind comp_bind andb negb].
  by rewrite (proj2 (Z.eqb_neq (n * 68) 0)) by lia.
Qed.

(** ** Blob gas *)

Variable tx_blob_gas_used : TransactionSigned → option Z.

(** Every transaction carries whole blobs. *)
Definition whole_blobs (txs : list TransactionSigned) : Prop :=
  ∀ t, t ∈ txs → 0 <= default 0 (tx_blob_gas_used t) ∧ default 0 (tx_blob_gas_used t) mod DATA_GAS_PER_BLOB = 0.

Definition total_blob_gas (txs : list TransactionSigned) : Z :=
  foldr (λ t sum, default 0 (tx_blob_gas_used t) + sum) 0 txs.

Lemma blob_gas_sum txs acc :
  whole_blobs txs → 0 <= acc → acc + total_blob_gas txs < 2 ^ 64 → acc mod DATA_GAS_PER_BLOB = 0 →
  foldl (λ sum t, add64 sum (default 0 (tx_blob_gas_used t))) acc txs = acc + total_blob_gas txs
  ∧ (acc + total_blob_gas txs) mod DATA_GAS_PER_BLOB = 0.
Proof.
  pose proof DATA_GAS_PER_BLOB_pos as Hpos. revert acc.
  induction txs as [|t txs IH]; intros acc Hw Ha Hlt Hmod; cbn [foldl total_blob_gas foldr] in *.
  - by rewrite Z.add_0_r.
  - destruct (Hw t ltac:(left)) as [Ht Hm]. assert (Hw' : whole_blobs txs) by (intros u Hu; apply Hw; by right).
    fold (total_blob_gas txs) in *.
    assert (0 <= total_blob_gas txs).
    { clear -Hw'. induction txs as [|u txs IH]; [done|]. cbn. destruct (Hw' u ltac:(left)).
      assert (0 <= total_blob_gas txs) by (apply IH; intros v Hv; apply Hw'; by right). unfold total_blob_gas in *. lia. }
    rewrite add64_small by (unfold is_u; lia).
    destruct (IH (acc + default 0 (tx_blob_gas_used t))) as [-> Hr]; [done|lia|lia| |].
    + by rewrite Z.add_mod, Hmod, Hm, Z.add_0_r, Z.mod_0_l by lia.
    + split; [lia|]. by rewrite Z.add_assoc.
Qed.

(** ** The block of this node *)

Variable chain_id : Z.
Variable blob_params_at_timestamp : Z → option BlobParams.
Variable snapshot_by_hash : B256 → option Snapshot.
Variable canonical_header_by_hash : B256 → option Header.
Variable canonical_header_by_number : Z → option Header.
Variable reader : HeaderCacheReader.
Variable calculate_transaction_root : list TransactionSigned → B256.
Variable calculate_receipt_root : list Receipt → B256.
Variable logs_bloom_of : list Receipt → Z.
Variable BEACON_NONCE : Z.
Variable header_default : Header.

#[local] Notation next_excess := (λ p t, maybe_next_block_excess_blob_gas p (blob_params_at_timestamp t)).
#[local] Notation new_header now parent signer :=
  (prepare_new_header self next_excess header_default now parent signer).

(** The header before it is finished, for the attributes [attrs]. *)
Definition header_for attrs limit parent txs receipts used root : Header :=
  let attributes := next_attributes attrs limit in
  unfinished_header self blob_params_at_timestamp calculate_transaction_root calculate_receipt_root logs_bloom_of
    tx_blob_gas_used BEACON_NONCE (next_evm_env (spec self) chain_id blob_params_at_timestamp parent attributes).2
    (context_for_next_block parent attributes) parent txs receipts used root.

(** The times of the chain are realistic, and preparing the block does not
    move it over the Bohr fork. *)
Record times_ok now snap parent signer nh : Prop := {
  to_now : is_u 62 (calculate_millisecond_timestamp parent + block_interval snap) ∧ is_u 62 now;
  to_bohr : bohr_block self nh = bohr_block self (new_header now parent signer);
  to_seconds : is_lorentz_active_at_timestamp (spec self) (number nh) (timestamp nh) = false →
    calculate_millisecond_timestamp parent mod 1000 = 0 ∧ block_interval snap mod 1000 = 0;
}.

(** The transactions fit: into the gas limit, and their blobs into the block;
    the excess blob gas counts whole blobs. *)
Record contents_ok h limit txs : Prop := {
  ct_gas : gas_used h <= limit;
  ct_blobs : whole_blobs txs;
  ct_total : total_blob_gas txs <= MAX_DATA_GAS_PER_BLOCK_DENCUN < 2 ^ 64;
  ct_excess : is_cancun_active_at_timestamp (spec self) (number h) (timestamp h) = true →
    ∃ e, excess_blob_gas h = Some e ∧ e mod DATA_GAS_PER_BLOB = 0;
}.

(** The schedule of the chain at the block: Bohr comes after Cancun, the block
    is an epoch block for the snapshot as for the chain, and epoch blocks come
    after Luban. *)
Record schedule_ok h snap : Prop := {
  sc_bohr : bohr_at_header self h = true →
    is_cancun_active_at_timestamp (spec self) (number h) (timestamp h) = true;
  sc_epoch : is_multiple_of (number h) (get_epoch_length self h) = is_multiple_of (number h) (epoch_num snap);
  sc_luban : is_multiple_of (number h) (epoch_num snap) = true → luban_at self h = true;
}.

Lemma prepared_parts fuel now snap parent signer attrs nh limit txs receipts used root :
  prepare_new_attributes (E:=BscBlockExecutionError) self next_excess header_default fuel now snap parent signer
    = Ret (attrs, nh) →
  let h := header_for attrs limit parent txs receipts used root in
  prepare_timestamp self (E:=BscBlockExecutionError) fuel now snap parent (new_header now parent signer) = Ret nh
  ∧ number h = number nh ∧ timestamp h = timestamp nh ∧ mix_hash h = mix_hash nh ∧ beneficiary h = beneficiary nh
  ∧ parent_hash h = hash_slow parent.
Proof.
  unfold prepare_new_attributes. intros (nh' & Hp & [= <- <-])%bind_Ret_inv. cbv zeta.
  assert (Hn : number nh' = add64 (number parent) 1).
  { unfold prepare_timestamp in Hp. apply bind_Ret_inv in Hp as (ms & _ & [= <-]). by case_match. }
  split_and!; try done. 
Qed.

Lemma header_for_fields attrs limit parent txs receipts used root snap :
  let h := header_for attrs limit parent txs receipts used root in
  contents_ok h limit txs → schedule_ok h snap →
  header_fields_ok self h ∧ (zero_beacon_root h = true → beacon_fields_present h).
Proof.
  cbv zeta. set (h := header_for _ _ _ _ _ _ _). intros [Hgas Hblobs [Htot Hmax] Hex] [Hbc _ _].
  assert (Hcl : is_cancun_active_at_timestamp (spec self) (number h) (timestamp h) = true →
                is_london_active_at_block (spec self) (number h) = true).
  { unfold is_cancun_active_at_timestamp. by intros [? _]%andb_true_iff. }
  destruct (blob_gas_sum txs 0 Hblobs) as [Hsum Hmod];
    [lia|lia|by apply Z.mod_0_l; pose proof DATA_GAS_PER_BLOB_pos; lia|].
  rewrite Z.add_0_l in Hsum, Hmod.
  assert (Hfee : is_london_active_at_block (spec self) (number h) = true → is_Some (base_fee_per_gas h)).
  { intros Hl. unfold h, header_for, unfinished_header in *. cbn [base_fee_per_gas number] in *. rewrite Hl. by eexists. }
  unfold bohr_at_header in Hbc.
  assert (Hroot : parent_beacon_block_root h
    = if is_bohr_active_at_timestamp (spec self) (number h) (timestamp h) then Some ZERO else None).
  { unfold h, header_for, unfinished_header in *. cbn [parent_beacon_block_root number timestamp] in *.
    destruct (is_bohr_active_at_timestamp _ _ _); [by rewrite Hbc|by rewrite andb_false_r]. }
  assert (Hblob : blob_gas_used h = if is_cancun_active_at_timestamp (spec self) (number h) (timestamp h)
                                    then Some (total_blob_gas txs) else None).
  { unfold h, header_for, unfinished_header. cbn [blob_gas_used number timestamp]. by rewrite Hsum. }
  assert (Hnone : is_cancun_active_at_timestamp (spec self) (number h) (timestamp h) = false → excess_blob_gas h = None).
  { unfold h, header_for, unfinished_header. cbn [excess_blob_gas number timestamp]. by intros ->. }
  split.
  - split; [done|done| | |done].
    + rewrite <- is_london_active_at_block_def. exact Hfee.
    + unfold blob_fields_ok. rewrite Hblob. destruct (is_cancun_active_at_timestamp _ _ _) eqn:Hc in |- *; [|by split; [|apply Hnone]].
      destruct (Hex Hc) as (e & He & Hem). by exists (total_blob_gas txs), e.
  - unfold zero_beacon_root, beacon_fields_present. rewrite Hroot.
    destruct (is_bohr_active_at_timestamp _ _ _) eqn:Hbohr; [intros _|discriminate]. specialize (Hbc eq_refl).
    destruct (Hex Hbc) as (e & He & _). rewrite Hblob, Hbc, He. split_and!; [exact (Hfee (Hcl Hbc))| |by eexists..].
    unfold h, header_for, unfinished_header in *. cbn [withdrawals_root number timestamp] in *. rewrite Hbc. by eexists.
Qed.

(** C9. What this node builds, it accepts: take the attributes that the miner
    prepares at the time [now], build a block from them (the environment of the
    next block, the header of the assembler, its finishing and sealing), with
    transactions that fit into the block, by a validator that may sign and on a
    chain in order.  Then assembling succeeds, and the sealed block passes the
    checks of its cascading fields, the validation of its header from its time
    on, and the validation before its execution. *)
Theorem own_block_valid fuel now signer attrs nh limit snap parent vcache tcache proposers pool secret txs receipts used root :
  let h := header_for attrs limit parent txs receipts used root in
  prepare_new_attributes (E:=BscBlockExecutionError) self next_excess header_default fuel now snap parent signer
    = Ret (attrs, nh) →
  snapshot_wf snap → zlen (validators snap) < 2 ^ 31 →
  times_ok now snap parent signer nh → contents_ok h limit txs → schedule_ok h snap →
  may_sign snap secret h → caches_ok self chain_id vcache tcache proposers snap parent h →
  chain_ok snapshot_by_hash canonical_header_by_hash reader pool snap parent →
  (get_header_by_hash canonical_header_by_hash reader (hash_slow parent)).1 = Some parent →
  snapshot_by_hash (hash_slow parent) = Some snap →
  let attributes := next_attributes attrs limit in
  ∃ hf, assemble_block_bsc self chain_id blob_params_at_timestamp snapshot_by_hash canonical_header_by_hash reader
    pool (Some secret) calculate_transaction_root calculate_receipt_root logs_bloom_of tx_blob_gas_used BEACON_NONCE
    vcache tcache (next_evm_env (spec self) chain_id blob_params_at_timestamp parent attributes).2
    (context_for_next_block parent attributes) parent txs receipts used root
  = Ret {| block_header := hf; block_transactions := txs |}
  ∧ verify_cascading_fields self chain_id snapshot_by_hash canonical_header_by_hash canonical_header_by_number
      reader fuel proposers hf parent snap = Ret tt
  ∧ (∀ t, calculate_millisecond_timestamp hf <= t → validate_header self t hf = Ret tt)
  ∧ validate_block_pre_execution self hf
      {| body_transactions_root := calculate_transaction_root txs; body_blob_gas_used := total_blob_gas txs |} = Ret tt.
Proof.
  cbv zeta. set (h := header_for _ _ _ _ _ _ _). intros Hprep Hwf Hn [Hnow Hbohr Hsec] Hct Hsc Hms Hca Hch Hparent Hsnap.
  destruct (prepared_parts fuel now snap parent signer attrs nh limit txs receipts used root Hprep)
    as (Hp & Hnum & Htime & Hmix & Hben & Hph). fold h in Hnum, Htime, Hmix, Hben, Hph.
  destruct (header_for_fields attrs limit parent txs receipts used root snap Hct Hsc) as [Hfields Hbeacon].
  fold h in Hfields, Hbeacon.
  assert (Hb : built_header self fuel now snap parent h).
  { split; [by exists (new_header now parent signer), nh|done| |done|done]. by rewrite Hnum, Htime. }
  destruct (finalize_ok self chain_id snapshot_by_hash canonical_header_by_hash canonical_header_by_number reader
    fuel now vcache tcache proposers pool secret snap parent h Hwf Hb Hms Hca Hch)
    as (d & vanity & section & tl & ab & seal & Hf & Hfin).
  set (hf := set_extra_data _ _) in Hfin. exists hf. split; [|split; [|split]].
  - unfold assemble_block_bsc. fold (header_for attrs limit parent txs receipts used root). fold h.
    rewrite Hph, Hparent. cbn [ok_or mbind comp_bind]. rewrite Hsnap. cbn [ok_or mbind comp_bind]. by rewrite Hfin.
  - destruct Hms as [_ Hin Hrec].
    by apply (finalized_cascading self chain_id snapshot_by_hash canonical_header_by_hash canonical_header_by_number
      reader fuel now vcache tcache proposers snap parent h d vanity section tl ab seal).
  - intros t Ht. apply validate_header_result. split_and!; [done| |by destruct Hfields].
    apply laid_out_extra_ok; [apply Hf|apply Hf|]. intros He.
    assert (He' : is_multiple_of (number h) (epoch_num snap) = true) by (rewrite <- (sc_epoch _ _ Hsc); exact He).
    split; [by apply (sc_luban _ _ Hsc)|]. by apply Hf, (sc_luban _ _ Hsc).
  - unfold validate_block_pre_execution. change (transactions_root hf) with (calculate_transaction_root txs).
    cbn [body_transactions_root]. rewrite Z.eqb_refl. cbn [negb].
    destruct (is_cancun_active_at_timestamp _ _ _) eqn:Hc; [|done].
    destruct Hfields as [_ _ _ Hbl _]. change (is_cancun_active_at_timestamp (spec self) (number h) (timestamp h) = true) in Hc.
    rewrite Hc in Hbl. destruct Hbl as (u & e & Hu & _). change (blob_gas_used hf) with (blob_gas_used h).
    rewrite Hu. cbn. by rewrite Z.eqb_refl.
Qed.

(** The environment a block is built in and the one it is verified in agree on
    the specification, the number, the beneficiary, the time, the gas limit, the
    base fee and, from the second Cancun block on, the blob fee; but not on
    what the opcode PREVRANDAO returns: the miner runs the transactions with
    the [mix_hash] (the milliseconds of the block), the verifier with the
    difficulty, so that they agree only if the two numbers are equal. *)
Theorem building_env_differs attrs limit parent txs receipts used root d x :
  let h := header_for attrs limit parent txs receipts used root in
  let hf := set_extra_data x (set_difficulty d h) in
  let '(cv, ev) := evm_env (spec self) chain_id blob_params_at_timestamp hf in
  let '(cb, eb) := next_evm_env (spec self) chain_id blob_params_at_timestamp parent (next_attributes attrs limit) in
  cfg_chain_id cv = cfg_chain_id cb ∧ cfg_spec cv = cfg_spec cb
  ∧ same_block eb ev ∧ env_basefee ev = env_basefee eb
  ∧ (is_cancun_active_at_timestamp (spec self) (number hf) (timestamp hf) = true →
     is_cancun_active_at_timestamp (spec self) (number parent) (timestamp parent) = true →
     is_Some (blob_params_at_timestamp (timestamp hf)) → is_Some (excess_blob_gas hf) →
     env_blob_excess_gas_and_price ev = env_blob_excess_gas_and_price eb)
  ∧ (from_merge (spec_id_of (cfg_spec cv)) = true →
     env_prevrandao ev = Some (difficulty hf) ∧ env_prevrandao eb = Some (mix_hash hf)
     ∧ (env_prevrandao ev = env_prevrandao eb ↔ difficulty hf = mix_hash hf)).
Proof.
  cbv zeta. cbn [evm_env next_evm_env]. split_and!; try done.
  - cbn. by destruct (is_london_active_at_block _ _).
  - cbn -[is_cancun_active_at_timestamp]. intros -> -> [p ->] [e He]. cbn [is_Some] in He.
    rewrite He. done.
  - cbn [cfg_spec env_prevrandao]. intros ->. split_and!; [done|done|]. split; [by intros [= ?]|by intros ->].
Qed.

End OwnBlock.

(** * Witness *)

Section Witness.
Import RefHardforks RefLibraries RefMachine.
#[local] Existing Instance HeaderExtra.ref_hash.
#[local] Ltac ev := vm_compute; first [reflexivity | discriminate].
#[local] Notation parent_header := Attestation.parent_header.

(** The constants of EIP-4844; a fee that ignores the excess and an excess blob
    gas that is carried over. *)
#[local] Instance ref_blob_constants : BlobConstants := {|
  DATA_GAS_PER_BLOB := 131072; MAX_DATA_GAS_PER_BLOCK_DENCUN := 786432;
  BLOB_GASPRICE_UPDATE_FRACTION := 3338477; BLOB_GASPRICE_UPDATE_FRACTION_PECTRA := 5007716;
  fake_exponential factor numerator denominator := factor;
  EMPTY_OMMER_ROOT_HASH := 1;
|}.
#[local] Instance ref_blob_constants_laws : BlobConstantsLaws ref_blob_constants.
Proof. by constructor. Qed.
#[local] Instance ref_blob_params : BlobParamsApi := {|
  BlobParams := unit; BlobParams_cancun := tt; max_blob_count _ := 6; max_blobs_per_tx _ := 6;
  params_calc_blob_fee _ _ := 1; next_block_excess_blob_gas_osaka _ _ _ _ := 0;
  maybe_next_block_excess_blob_gas h p := match p with Some _ => Some 0 | None => None end;
|}.
#[local] Instance example_machine : Evm := machine (λ _ _, []).

Definition example_params : Z → option BlobParams := Validation.blob_params_at_timestamp testnet_spec tt.
Definition example_snapshots (k : B256) : option Snapshot :=
  if k =? hash_slow parent_header then Some miner_snap else snapshots k.
Definition example_headers : HeaderCacheReader := {|
  blocknumber_to_header := (∅ : gmap Z Header);
  blockhash_to_header := (<[hash_slow parent_header := parent_header]> (<[hash_slow justified_header := justified_header]> ∅) : gmap Z Header) |}.
(** A transaction with one blob. *)
Definition blob_tx : TransactionSigned :=
  unsigned {| tx_type := Eip4844; tx_chain_id := Some 97; tx_nonce := 0; gas_price := 1; tx_gas_limit := 21000;
              tx_to := Some 5; tx_value := 0; tx_input := []; tx_more := [] |}.
Definition one_blob (t : TransactionSigned) : option Z := Some 131072.

Definition prepared : comp BscBlockExecutionError (EthPayloadBuilderAttributes * Header) :=
  prepare_new_attributes testnet_parlia (λ p t, maybe_next_block_excess_blob_gas p (example_params t))
    (test_header 0 0 0) 10 1768357801000 miner_snap parent_header miner_address.
Definition example_attributes : EthPayloadBuilderAttributes :=
  match prepared with
  | Ret (a, _) => a
  | _ => {| attr_parent := 0; attr_timestamp := 0; suggested_fee_recipient := 0; prev_randao := 0;
            attr_parent_beacon_block_root := None |}
  end.
Definition prepared_header : Header := match prepared with Ret (_, h) => h | _ => parent_header end.

Lemma prepared_ok : prepared = Ret (example_attributes, prepared_header).
Proof. vm_compute. reflexivity. Qed.

Lemma own_block_valid_witness :
  ∃ hf, assemble_block_bsc testnet_parlia 97 example_params example_snapshots no_headers example_headers example_pool
      (Some miner_key) (λ _, 2) (λ _, 3) (λ _, 0) one_blob 0 no_validators no_numbers
      (next_evm_env testnet_spec 97 example_params parent_header (next_attributes example_attributes 40000000)).2
      (context_for_next_block parent_header (next_attributes example_attributes 40000000)) parent_header [blob_tx] []
      21000 9
    = Ret {| block_header := hf; block_transactions := [blob_tx] |}
  ∧ verify_cascading_fields testnet_parlia 97 example_snapshots no_headers no_headers example_headers 10 no_numbers
      hf parent_header miner_snap = Ret tt
  ∧ (∀ t, calculate_millisecond_timestamp hf <= t → validate_header testnet_parlia t hf = Ret tt)
  ∧ validate_block_pre_execution testnet_parlia hf {| body_transactions_root := 2; body_blob_gas_used := 131072 |}
    = Ret tt.
Proof.
  apply (own_block_valid testnet_parlia one_blob 97 example_params example_snapshots no_headers no_headers
    example_headers (λ _, 2) (λ _, 3) (λ _, 0) 0 (test_header 0 0 0) 10 1768357801000 miner_address
    example_attributes prepared_header 40000000 miner_snap parent_header no_validators no_numbers no_numbers
    example_pool miner_key [blob_tx] [] 21000 9).
  - exact prepared_ok.
  - exact miner_snap_wf.
  - ev.
  - split; [split; split; ev|ev|]. intros Hl. vm_compute in Hl. discriminate Hl.
  - split; [ev| |split; ev|intros _; exists 0; split; ev].
    intros t Ht. split; ev.
  - split; [intros _; ev|ev|]. intros He. vm_compute in He. discriminate He.
  - apply miner_may_sign. ev.
  - apply miner_caches_ok. ev.
  - apply miner_chain_ok; ev.
  - ev.
  - ev.
Defined.

End Witness.
