(* ===== verification/Payload.v ===== *)
(** * Building payloads ([src/node/miner/payload.rs])

    The builder of a payload: the choice of transactions from the pool under
    the limits of gas, blobs and tips, the fees, and the sidecars of the block;
    and the job that builds payloads again while there is time and submits the
    best one.

    The transaction pool, its iterator of best transactions and the views of a
    transaction are interfaces, and so is the block builder, with what this
    file relies on as laws; the executor of the node is shown to satisfy them.
    Clocks, tasks and channels are the events of the job. *)

From S2P Require Import Prelude Hardforks Types Snapshot HeaderExtra Errors Timing VotePool Attestation Validation Mining SystemContracts Evm HertzPatch Handler Execution Building.

(** ** Interfaces *)

(** [alloy_consensus::Transaction]. *)
Class TxView := {
  effective_tip_per_gas : TransactionSigned → Z → option Z;
  blob_versioned_hashes : TransactionSigned → list B256;
  tx_blob_gas : TransactionSigned → option Z;
}.

(** A transaction of the pool: the consensus transaction and its sender. *)
Record PoolTx := { consensus : TransactionSigned; pool_sender : Address }.
Definition pool_gas_limit (t : PoolTx) : Z := tx_gas_limit (tx (consensus t)).
Definition is_eip4844 (t : TransactionSigned) : bool := bool_decide (tx_type (tx t) = SystemContracts.Eip4844).

(** [BlobTransactionSidecarVariant]. *)
Inductive SidecarVariant := Sidecar4844 (blobs : list Z) | Sidecar7594 (blobs : list Z).
Definition as_eip4844 (s : SidecarVariant) : option (list Z) :=
  match s with Sidecar4844 b => Some b | Sidecar7594 _ => None end.
Definition is_eip7594 (s : SidecarVariant) : bool := match s with Sidecar7594 _ => true | _ => false end.

(** [reth_transaction_pool::BestTransactions]. *)
Class BestTransactions (I : Type) := {
  best_next : I → option (PoolTx * I);
  mark_invalid : PoolTx → I → I;
  skip_blobs : I → I;
}.

(** The pool offers transactions it has validated, and [skip_blobs] removes
    the blob transactions from the rest. *)
Class BestTransactionsLaws (I : Type) `{BestTransactions I} `{TxView} : Prop := {
  best_gas_limit it t it' : best_next it = Some (t, it') → is_u 63 (pool_gas_limit t);
  best_blobs it t it' : best_next it = Some (t, it') → zlen (blob_versioned_hashes (consensus t)) < 2 ^ 32;
}.

(** Errors of the execution of a transaction: it is invalid, or anything else. *)
Inductive ExecutionError := InvalidTx (nonce_too_low : bool) | OtherError.

(** [reth_evm::execute::BlockBuilder] with what it is built from; [built] is
    the list of transactions executed so far. *)
Class BlockBuilder (B : Type) := {
  builder_env : B → BlockEnv;
  built : B → list TransactionSigned;
  builder_ok : B → Prop;
  apply_pre_execution : B → option B;
  execute_tx : PoolTx → B → comp ExecutionError Z * B;
  finish_block : B → option (BscBlock * B);
}.

Class BlockBuilderLaws (B : Type) `{BlockBuilder B} : Prop := {
  pre_execution_env b b' : builder_ok b → apply_pre_execution b = Some b' →
    builder_ok b' ∧ builder_env b' = builder_env b ∧ built b' = built b;
  execute_keeps t b r b' : builder_ok b → execute_tx t b = (r, b') → builder_ok b';
  execute_ok t b g b' : is_u 64 (pool_gas_limit t) → execute_tx t b = (Ret g, b') →
    built b' = built b ++ [consensus t] ∧ 0 <= g <= pool_gas_limit t;
  execute_err t b e b' : execute_tx t b = (Err e, b') → built b' = built b;
  execute_completes t b : completes (execute_tx t b).1;
  finish_transactions b blk b' : builder_ok b → finish_block b = Some (blk, b') →
    ∃ sys, block_transactions blk = built b ++ sys ∧ Forall (λ t, is_eip4844 t = false) sys;
}.

(** ** Building a payload *)

Inductive PayloadBuilderError :=
| StateUnavailable
| NoBuilder
| PreExecution
| MissingHeader
| PoolFailure
| Evm_error
| FinishFailure.
Notation build A := (comp PayloadBuilderError A).

Record BscBlobTransactionSidecar := {
  sidecar_inner : list Z;
  sidecar_block_number : Z;
  sidecar_block_hash : B256;
  sidecar_tx_index : Z;
  sidecar_tx_hash : B256;
}.

(** The block with its sidecars, and its fees; the executed state of the block
    is left out. *)
Record BscBuiltPayload := {
  payload_block : BscBlock;
  payload_sidecars : option (list BscBlobTransactionSidecar);
  payload_fees : Z;
}.

(** [config] and [min_gas_tip] of the arguments; [cancel] is an oracle. *)
Record BscBuildArguments := {
  parent_of : Header;
  attributes_of : EthPayloadBuilderAttributes;
  min_gas_tip : Z;
}.

(** The variables of the loop. *)
Record Selection {B : Type} := {
  sel_builder : B;
  cumulative_gas_used : Z;
  total_fees : Z;
  block_blob_count : Z;
  sidecars_map : gmap B256 SidecarVariant;
}.
Arguments Selection B : clear implicits.

Section Builder.
Context `{HA : HardforksApi} `{BC : BlobConstants} `{BP : BlobParamsApi} `{SL : Sealable} `{TH : TxHashing}.
Context `{TV : TxView} {I : Type} `{BT : !BestTransactions I} {B : Type} `{BB : !BlockBuilder B}.
Variable self : Parlia BscChainSpec.
Variable blob_params_at_timestamp : Z → option BlobParams.
(** [BREATHE_BLOCK_INTERVAL] of the environment, and whether the Osaka fork of
    the wrapped [ChainSpec] is active. *)
Variable breathe_interval : option Z.
Variable is_osaka_active_at_timestamp : Z → bool.
(** The pool: its best transactions for a base fee and a blob fee, and its blob
    store. *)
Variable best_transactions_with_attributes : Z → option Z → I.
Variable get_blob : B256 → build (option SidecarVariant).
(** The builder of [evm_config.builder_for_next_block] over the state of the
    parent, if that exists. *)
Variable state_by_block_hash : B256 → option unit.
Variable builder_for_next_block : Header → NextBlockEnvAttributes → option B.
(** [builder_config.gas_limit]. *)
Variable config_gas_limit : Z → Z.
(** [ctx.header]. *)
Variable mining_header : option Header.
(** The cancel flag, when the n-th transaction has been taken. *)
Variable is_cancelled : nat → bool.

Implicit Types (s : Selection B) (it : I).

(** What a transaction contributes once it is executed. *)
Definition include_tx (max_blobs base_fee : Z) (t : PoolTx) (sidecar : option SidecarVariant) (gas_used : Z)
    (b : B) it s : build (I * Selection B) :=
  let tx := consensus t in
  let blobs := if is_eip4844 tx then add64 (block_blob_count s) (zlen (blob_versioned_hashes tx)) else block_blob_count s in
  let it := if is_eip4844 tx && (blobs =? max_blobs) then skip_blobs it else it in
  miner_fee ← unwrap (effective_tip_per_gas tx base_fee);
  Ret (it,
    {| sel_builder := b; cumulative_gas_used := add64 (cumulative_gas_used s) gas_used;
       total_fees := wrapu 256 (total_fees s + wrapu 256 (miner_fee * gas_used));
       block_blob_count := blobs;
       sidecars_map := match sidecar with
                       | Some sc => <[trie_hash tx := sc]> (sidecars_map s)
                       | None => sidecars_map s
                       end |}).

(** The sidecar of a blob transaction, or nothing when it must be skipped. *)
Definition blob_sidecar (attributes : EthPayloadBuilderAttributes) (t : TransactionSigned) : build (option SidecarVariant) :=
  sidecar ← get_blob (trie_hash t);
  Ret (match sidecar with
       | None => None
       | Some sc =>
           if is_osaka_active_at_timestamp (attr_timestamp attributes)
           then if is_eip7594 sc then Some sc else None
           else if is_eip7594 sc then None else Some sc
       end).

(** The checks of a blob transaction: the outer [None] skips it, the inner one
    is a transaction without blobs. *)
Definition check_blobs (args : BscBuildArguments) (max_blobs : Z) (t : TransactionSigned) s
    : build (option (option SidecarVariant)) :=
  if is_eip4844 t then
    let tx_blob_count := zlen (blob_versioned_hashes t) in
    if max_blobs <? add64 (block_blob_count s) tx_blob_count then Ret None
    else if is_cancun_active_at_timestamp (spec self) (add64 (number (parent_of args)) 1) (attr_timestamp (attributes_of args))
            && (sub64 max_blobs (block_blob_count s) <? default 0 (tx_blob_gas t) / DATA_GAS_PER_BLOB)
    then Ret None
    else
      sidecar ← blob_sidecar (attributes_of args) t;
      Ret (option_map Some sidecar)
  else Ret (Some None).

(** One turn of the loop, for the transaction the iterator gave. *)
Definition consider (args : BscBuildArguments) (gas_limit base_fee max_blobs : Z) (t : PoolTx) it s
    : build (I * Selection B) :=
  let tx := consensus t in
  if is_nano_active_at_block (spec self) (add64 (number (parent_of args)) 1)
     && check_tx_basic_blacklist (pool_sender t) (tx_to (SystemContracts.tx tx))
  then Ret (mark_invalid t it, s)
  else if default 0 (effective_tip_per_gas tx base_fee) <? min_gas_tip args then Ret (it, s)
  else if gas_limit <? add64 (cumulative_gas_used s) (pool_gas_limit t) then Ret (mark_invalid t it, s)
  else
    sidecar ← check_blobs args max_blobs tx s;
    match sidecar with
    | None => Ret (mark_invalid t it, s)
    | Some sidecar =>
        let '(result, b) := execute_tx t (sel_builder s) in
        match result with
        | Ret gas_used => include_tx max_blobs base_fee t sidecar gas_used b it s
        | Err (InvalidTx _) =>
            Ret (mark_invalid t it,
                 {| sel_builder := b; cumulative_gas_used := cumulative_gas_used s; total_fees := total_fees s;
                    block_blob_count := block_blob_count s; sidecars_map := sidecars_map s |})
        | Err OtherError => Err Evm_error
        | Panic => Panic
        | OutOfFuel => OutOfFuel
        end
    end.

Fixpoint select_loop (fuel n : nat) (args : BscBuildArguments) (gas_limit base_fee max_blobs : Z) it s
    : build (Selection B) :=
  match fuel with
  | O => OutOfFuel
  | S fuel =>
      match best_next it with
      | None => Ret s
      | Some (t, it) =>
          if is_cancelled n then Ret s
          else
            '(it, s) ← consider args gas_limit base_fee max_blobs t it s;
            select_loop fuel (S n) args gas_limit base_fee max_blobs it s
      end
  end.

(** The sidecars of the finished block, in the order of its transactions. *)
Fixpoint block_sidecars (header : Header) (index : Z) (m : gmap B256 SidecarVariant) (txs : list TransactionSigned)
    : build (list BscBlobTransactionSidecar) :=
  match txs with
  | [] => Ret []
  | t :: txs =>
      if is_eip4844 t then
        sidecar ← unwrap (m !! trie_hash t);
        inner ← unwrap (as_eip4844 sidecar);
        rest ← block_sidecars header (index + 1) m txs;
        Ret ({| sidecar_inner := inner; sidecar_block_number := number header;
                sidecar_block_hash := hash_slow header; sidecar_tx_index := index;
                sidecar_tx_hash := trie_hash t |} :: rest)
      else block_sidecars header (index + 1) m txs
  end.

(** The builder on the state of the parent, with the start of the block
    executed. *)
Definition start_block (args : BscBuildArguments) : build B :=
  _ ← ok_or (state_by_block_hash (hash_slow (parent_of args))) StateUnavailable;
  b ← ok_or (builder_for_next_block (parent_of args)
               (next_attributes (attributes_of args) (config_gas_limit (gas_limit (parent_of args))))) NoBuilder;
  ok_or (apply_pre_execution b) PreExecution.

(** The gas left for the transactions of users. *)
Definition user_gas_limit (args : BscBuildArguments) (b : B) : build Z :=
  system_txs_gas ← estimate_gas_reserved_for_system_txs self breathe_interval (Some (timestamp (parent_of args)))
                     (add64 (number (parent_of args)) 1) (attr_timestamp (attributes_of args));
  Ret (saturating_sub (block_gas_limit (builder_env b)) system_txs_gas).

Definition current_blob_fee : build (option Z) :=
  header ← ok_or mining_header MissingHeader;
  if is_cancun_active_at_timestamp (spec self) (number header) (timestamp header)
  then match excess_blob_gas header with
       | Some excess =>
           if negb (excess =? 0) then fee ← calc_blob_fee (spec self) header; Ret (Some fee) else Ret None
       | None => Ret None
       end
  else Ret None.

Definition block_max_blobs (args : BscBuildArguments) : Z :=
  default 0 (max_blob_count <$> blob_params_at_timestamp (attr_timestamp (attributes_of args))).

Definition select_transactions (fuel : nat) (args : BscBuildArguments) (b : B) : build (Selection B) :=
  gas_limit ← user_gas_limit args b;
  blob_fee ← current_blob_fee;
  let base_fee := env_basefee (builder_env b) in
  let it := best_transactions_with_attributes base_fee (wrapu 64 <$> blob_fee) in
  select_loop fuel 0 args gas_limit base_fee (block_max_blobs args) it
    {| sel_builder := b; cumulative_gas_used := 0; total_fees := 0; block_blob_count := 0; sidecars_map := ∅ |}.

Definition seal_payload s : build BscBuiltPayload :=
  '(block, _) ← ok_or (finish_block (sel_builder s)) FinishFailure;
  sidecars ← block_sidecars (block_header block) 0 (sidecars_map s) (block_transactions block);
  Ret {| payload_block := block; payload_sidecars := Some sidecars; payload_fees := total_fees s |}.

Definition build_payload (fuel : nat) (args : BscBuildArguments) : build BscBuiltPayload :=
  b ← start_block args;
  s ← select_transactions fuel args b;
  seal_payload s.

Definition build_empty_payload (args : BscBuildArguments) : build BscBuiltPayload :=
  b ← start_block args;
  '(block, _) ← ok_or (finish_block b) FinishFailure;
  Ret {| payload_block := block; payload_sidecars := None; payload_fees := 0 |}.

End Builder.

(** * Proofs: the builder *)

Section BuilderProofs.
Context `{HA : HardforksApi} `{BC : BlobConstants} `{BP : BlobParamsApi} `{SL : Sealable} `{TH : TxHashing}.
Context `{TV : TxView} {I : Type} `{BT : !BestTransactions I} `{BTL : !BestTransactionsLaws I}.
Context {B : Type} `{BB : !BlockBuilder B} `{BBL : !BlockBuilderLaws B}.
Variable self : Parlia BscChainSpec.
Variable blob_params_at_timestamp : Z → option BlobParams.
Variable breathe_interval : option Z.
Variable is_osaka_active_at_timestamp : Z → bool.
Variable best_transactions_with_attributes : Z → option Z → I.
Variable get_blob : B256 → build (option SidecarVariant).
Variable state_by_block_hash : B256 → option unit.
Variable builder_for_next_block : Header → NextBlockEnvAttributes → option B.
Variable config_gas_limit : Z → Z.
Variable mining_header : option Header.
Variable is_cancelled : nat → bool.
Implicit Types (s : Selection B) (it : I) (inc : list (PoolTx * Z)).

#[local] Notation consider := (consider self is_osaka_active_at_timestamp get_blob).
#[local] Notation select_loop := (select_loop self is_osaka_active_at_timestamp get_blob is_cancelled).
#[local] Notation select_transactions := (select_transactions self blob_params_at_timestamp breathe_interval
  is_osaka_active_at_timestamp best_transactions_with_attributes get_blob mining_header is_cancelled).
#[local] Notation start_block := (start_block state_by_block_hash builder_for_next_block config_gas_limit).
#[local] Notation build_payload := (build_payload self blob_params_at_timestamp breathe_interval
  is_osaka_active_at_timestamp best_transactions_with_attributes get_blob state_by_block_hash builder_for_next_block
  config_gas_limit mining_header is_cancelled).

(** ** Included transactions *)

Definition gas_of inc : Z := foldr (λ x sum, x.2 + sum) 0 inc.
Definition blobs_of (txs : list TransactionSigned) : Z :=
  foldr (λ t sum, (if is_eip4844 t then zlen (blob_versioned_hashes t) else 0) + sum) 0 txs.
Definition fees_of (base_fee : Z) inc : Z :=
  foldr (λ x sum, default 0 (effective_tip_per_gas (consensus x.1) base_fee) * x.2 + sum) 0 inc.
Definition txs_of inc : list TransactionSigned := consensus <$> inc.*1.

Lemma gas_of_snoc inc x : gas_of (inc ++ [x]) = gas_of inc + x.2.
Proof. unfold gas_of. induction inc; cbn in *; lia. Qed.
Lemma fees_of_snoc f inc x :
  fees_of f (inc ++ [x]) = fees_of f inc + default 0 (effective_tip_per_gas (consensus x.1) f) * x.2.
Proof. unfold fees_of. induction inc as [|y inc IH]; cbn [foldr app] in *; [lia|rewrite IH; lia]. Qed.
Lemma blobs_of_snoc txs t :
  blobs_of (txs ++ [t]) = blobs_of txs + if is_eip4844 t then zlen (blob_versioned_hashes t) else 0.
Proof. unfold blobs_of. induction txs; cbn in *; lia. Qed.
Lemma txs_of_snoc inc x : txs_of (inc ++ [x]) = txs_of inc ++ [consensus x.1].
Proof. unfold txs_of. by rewrite !fmap_app. Qed.

(** What every included transaction satisfies. *)
Record fits (args : BscBuildArguments) (base_fee : Z) (x : PoolTx * Z) : Prop := {
  fit_allowed : is_nano_active_at_block (spec self) (add64 (number (parent_of args)) 1) = true →
    check_tx_basic_blacklist (pool_sender x.1) (tx_to (tx (consensus x.1))) = false;
  fit_tip : ∃ tip, effective_tip_per_gas (consensus x.1) base_fee = Some tip ∧ min_gas_tip args <= tip;
  fit_gas : 0 <= x.2 <= pool_gas_limit x.1;
}.

(** The sidecars that the payload of a time may carry. *)
Definition right_variant (t : Z) (sc : SidecarVariant) : Prop := is_eip7594 sc = is_osaka_active_at_timestamp t.

Record sel_ok (args : BscBuildArguments) (gas_limit base_fee max_blobs : Z) s inc : Prop := {
  so_builder : builder_ok (sel_builder s);
  so_built : built (sel_builder s) = txs_of inc;
  so_fits : Forall (fits args base_fee) inc;
  so_gas : cumulative_gas_used s = gas_of inc ∧ 0 <= gas_of inc <= gas_limit;
  so_fees : total_fees s = wrapu 256 (fees_of base_fee inc);
  so_blobs : block_blob_count s = blobs_of (txs_of inc) ∧ 0 <= blobs_of (txs_of inc) <= max_blobs;
  so_sidecars : ∀ t, t ∈ txs_of inc → is_eip4844 t = true → is_Some (sidecars_map s !! trie_hash t);
  so_variant : ∀ k sc, sidecars_map s !! k = Some sc → right_variant (attr_timestamp (attributes_of args)) sc;
}.

Lemma check_blobs_Ret args max_blobs t s r :
  check_blobs self is_osaka_active_at_timestamp get_blob args max_blobs t s = Ret (Some r) →
  if is_eip4844 t
  then add64 (block_blob_count s) (zlen (blob_versioned_hashes t)) <= max_blobs
       ∧ ∃ sc, r = Some sc ∧ right_variant (attr_timestamp (attributes_of args)) sc
  else r = None.
Proof.
  unfold check_blobs. destruct (is_eip4844 t); [|by intros [= <-]].
  destruct (Z.ltb_spec max_blobs (add64 (block_blob_count s) (zlen (blob_versioned_hashes t)))); [done|].
  destruct (_ && _); [done|]. intros (o & Ho & [= Hr])%bind_Ret_inv. split; [done|].
  apply bind_Ret_inv in Ho as (o' & _ & [= Ho]). unfold right_variant.
  destruct o' as [sc|]; [|by subst o]. destruct o as [sc'|]; [|done]. injection Hr as <-. exists sc'. split; [done|].
  destruct (is_osaka_active_at_timestamp _), (is_eip7594 sc) eqn:Hv; by simplify_eq.
Qed.

Lemma consider_ok args gas_limit base_fee max_blobs t it0 it it' s s' inc :
  gas_limit < 2 ^ 63 → max_blobs < 2 ^ 63 → best_next it0 = Some (t, it) →
  sel_ok args gas_limit base_fee max_blobs s inc →
  consider args gas_limit base_fee max_blobs t it s = Ret (it', s') →
  sel_ok args gas_limit base_fee max_blobs s' inc ∨ ∃ g, sel_ok args gas_limit base_fee max_blobs s' (inc ++ [(t, g)]).
Proof.
  intros Hg Hm Hbest Hok. pose proof (best_gas_limit _ _ _ Hbest) as Hgl. pose proof (best_blobs _ _ _ Hbest) as Hbl.
  change (2 ^ 63) with 9223372036854775808 in Hg, Hm. change (2 ^ 32) with 4294967296 in Hbl.
  assert (H63 : 0 <= pool_gas_limit t < 9223372036854775808) by exact Hgl.
  assert (Hgl64 : is_u 64 (pool_gas_limit t)) by (unfold is_u; change (2 ^ 64) with 18446744073709551616; lia).
  unfold Payload.consider. set (banned := _ && check_tx_basic_blacklist _ _). destruct banned eqn:Hbl'; [intros [= <- <-]; by left|].
  destruct (Z.ltb_spec (default 0 (effective_tip_per_gas (consensus t) base_fee)) (min_gas_tip args)) as [|Htip];
    [intros [= <- <-]; by left|].
  destruct (Z.ltb_spec gas_limit (add64 (cumulative_gas_used s) (pool_gas_limit t))) as [|Hgas];
    [intros [= <- <-]; by left|].
  intros ([sidecar|] & Hsc & Hk)%bind_Ret_inv; [|injection Hk as <- <-; by left].
  apply check_blobs_Ret in Hsc. destruct Hok as [Hbo Hb Hf [Hc Hg0] Hfe [Hbc Hb0] Hs Hv].
  destruct (execute_tx t (sel_builder s)) as [r b'] eqn:He. pose proof (execute_completes t (sel_builder s)) as Hcomp.
  rewrite He in Hcomp. destruct r as [g|[low|]| |]; try done.
  2: { injection Hk as <- <-. left. split; cbn; try done; [by eapply execute_keeps|by rewrite (execute_err _ _ _ _ He)]. }
  destruct (execute_ok _ _ _ _ Hgl64 He) as [Hb' Hg']. right. exists g.
  apply bind_Ret_inv in Hk as (tip & Hu & [= <- <-]). apply unwrap_Ret in Hu. rewrite Hu in Htip. cbn [default] in Htip.
  rewrite Hc, add64_small in Hgas by (unfold is_u; change (2 ^ 64) with 18446744073709551616; lia).
  pose proof (zlen_nonneg (blob_versioned_hashes (consensus t))) as Hl0.
  assert (Hblobs : (if is_eip4844 (consensus t) then add64 (block_blob_count s) (zlen (blob_versioned_hashes (consensus t)))
                    else block_blob_count s) = blobs_of (txs_of (inc ++ [(t, g)]))
                   ∧ 0 <= blobs_of (txs_of (inc ++ [(t, g)])) <= max_blobs).
  { rewrite txs_of_snoc, blobs_of_snoc. cbn [fst]. rewrite Hbc in Hsc |- *. destruct (is_eip4844 _); [|lia].
    rewrite add64_small in Hsc |- * by (unfold is_u; change (2 ^ 64) with 18446744073709551616; lia). lia. }
  split; cbn [sel_builder cumulative_gas_used total_fees block_blob_count sidecars_map].
  - by eapply execute_keeps.
  - by rewrite Hb', Hb, txs_of_snoc.
  - apply Forall_app. split; [done|]. apply Forall_singleton. split; cbn [fst snd]; [|by exists tip|lia].
    intros Hn. unfold banned in Hbl'. by rewrite Hn in Hbl'.
  - rewrite Hc, gas_of_snoc. cbn [snd]. rewrite add64_small by (unfold is_u; change (2 ^ 64) with 18446744073709551616; lia). lia.
  - rewrite Hfe, fees_of_snoc. cbn [fst snd]. rewrite Hu. cbn [default]. unfold wrapu.
    by rewrite <- Z.add_mod by (by apply Z.pow_nonzero).
  - exact Hblobs.
  - intros u Hin H4. rewrite txs_of_snoc in Hin. cbn [fst] in Hin. apply elem_of_app in Hin as [Hin|Hin%list_elem_of_singleton].
    + destruct sidecar as [sc|]; [|by apply Hs]. destruct (decide (trie_hash (consensus t) = trie_hash u)) as [->|Hne];
        [rewrite lookup_insert_eq; by eexists|rewrite lookup_insert_ne by done; by apply Hs].
    + subst u. rewrite H4 in Hsc. destruct Hsc as (_ & sc & -> & _). rewrite lookup_insert_eq. by eexists.
  - intros k sc Hk. destruct sidecar as [sc'|]; [|by eapply Hv].
    destruct (is_eip4844 (consensus t)); [destruct Hsc as (_ & ? & [= <-] & Hr)|done].
    apply lookup_insert_Some in Hk as [[_ <-]|[_ Hk]]; [done|by eapply Hv].
Qed.

Lemma select_loop_ok fuel n args gas_limit base_fee max_blobs it s s' inc :
  gas_limit < 2 ^ 63 → max_blobs < 2 ^ 63 →
  sel_ok args gas_limit base_fee max_blobs s inc →
  select_loop fuel n args gas_limit base_fee max_blobs it s = Ret s' →
  ∃ inc', sel_ok args gas_limit base_fee max_blobs s' inc'.
Proof.
  intros Hg Hm. revert n it s inc. induction fuel as [|fuel IH]; intros n it s inc Hok; [done|]. cbn [Payload.select_loop].
  destruct (best_next it) as [[t it1]|] eqn:Hb; [|intros [= <-]; by eexists].
  destruct (is_cancelled n); [intros [= <-]; by eexists|].
  intros ([it2 s2] & Hc & Hr)%bind_Ret_inv.
  destruct (consider_ok _ _ _ _ _ _ _ _ _ _ _ Hg Hm Hb Hok Hc) as [Hok'|[g Hok']]; by eapply IH in Hok'.
Qed.

(** ** The payload *)

(** A new builder has executed nothing, and its limits are realistic. *)
Record setup_ok : Prop := {
  su_fresh parent attrs b : builder_for_next_block parent attrs = Some b →
    builder_ok b ∧ built b = [] ∧ is_u 63 (block_gas_limit (builder_env b));
  su_blobs p : is_u 32 (max_blob_count p);
}.

Lemma start_block_ok args b :
  setup_ok → start_block args = Ret b → builder_ok b ∧ built b = [] ∧ is_u 63 (block_gas_limit (builder_env b)).
Proof.
  intros Hsu (? & _ & (b0 & Hb%ok_or_Ret & Hp%ok_or_Ret)%bind_Ret_inv)%bind_Ret_inv.
  destruct (su_fresh Hsu _ _ _ Hb) as (Hbo & H0 & Hl). by destruct (pre_execution_env _ _ Hbo Hp) as (? & -> & ->).
Qed.

Lemma block_max_blobs_ok args : setup_ok → 0 <= block_max_blobs blob_params_at_timestamp args < 2 ^ 63.
Proof.
  intros Hsu. unfold block_max_blobs. destruct (blob_params_at_timestamp _) as [p|]; cbn; [|lia].
  pose proof (su_blobs Hsu p) as Hp. unfold is_u in Hp. change (2 ^ 32) with 4294967296 in Hp. lia.
Qed.

(** What [select_transactions] chooses. *)
Lemma select_transactions_ok fuel args b s limit :
  setup_ok → start_block args = Ret b → user_gas_limit self breathe_interval args b = Ret limit →
  select_transactions fuel args b = Ret s →
  ∃ inc, sel_ok args limit (env_basefee (builder_env b)) (block_max_blobs blob_params_at_timestamp args) s inc.
Proof.
  intros Hsu Hb Hl. unfold Payload.select_transactions. rewrite Hl. cbn [mbind comp_bind].
  intros (fee & _ & Hs)%bind_Ret_inv. destruct (start_block_ok _ _ Hsu Hb) as (Hbo & Hb0 & Hgl).
  pose proof (block_max_blobs_ok args Hsu) as Hmb.
  assert (Hlim : 0 <= limit < 2 ^ 63).
  { unfold user_gas_limit in Hl. apply bind_Ret_inv in Hl as (g & Hg & [= <-]). unfold is_u, saturating_sub in *.
    assert (0 <= g); [|lia]. unfold estimate_gas_reserved_for_system_txs in Hg.
    destruct (_ && _); [apply bind_Ret_inv in Hg as ([] & _ & [= <-])|injection Hg as <-]; done. }
  eapply (select_loop_ok _ _ _ _ _ _ _ _ _ []) in Hs; [exact Hs|lia|lia|].
  split; cbn [sel_builder cumulative_gas_used total_fees block_blob_count sidecars_map].
  - exact Hbo.
  - exact Hb0.
  - constructor.
  - cbn. lia.
  - done.
  - cbn. lia.
  - by intros t ?%elem_of_nil.
  - intros k sc Hk. by rewrite lookup_empty in Hk.
Qed.

(** The blob transactions of a list, with their positions. *)
Definition blob_positions (txs : list TransactionSigned) : list (Z * TransactionSigned) :=
  filter (λ x, is_eip4844 x.2 = true) (enumerate 0 txs).

Lemma block_sidecars_ok h i m txs scs :
  block_sidecars h i m txs = Ret scs →
  (λ sc, (sidecar_tx_index sc, sidecar_tx_hash sc)) <$> scs
  = (λ x, (x.1, trie_hash x.2)) <$> filter (λ x, is_eip4844 x.2 = true) (enumerate i txs)
  ∧ Forall (λ sc, sidecar_block_hash sc = hash_slow h ∧ sidecar_block_number sc = number h) scs.
Proof.
  revert i scs. induction txs as [|t txs IH]; intros i scs; cbn [block_sidecars enumerate]; [by intros [= <-]|].
  rewrite filter_cons. destruct (is_eip4844 t) eqn:Ht; cbn [snd].
  - rewrite decide_True by done. intros (sc & _ & (inner & _ & (rest & Hr & [= <-])%bind_Ret_inv)%bind_Ret_inv)%bind_Ret_inv.
    destruct (IH _ _ Hr) as [He Hf]. split; [rewrite !fmap_cons; cbn; by rewrite He|by constructor].
  - rewrite decide_False by (rewrite Ht; discriminate). apply IH.
Qed.


(** ** Termination *)

(** The libraries answer: a tip exists at the base fee, the blob store
    completes, and the breathe interval is not zero. *)
Record libraries_ok (base_fee : Z) : Prop := {
  li_tip t : is_Some (effective_tip_per_gas t base_fee);
  li_blob h : completes (get_blob h);
  li_breathe : breathe_interval ≠ Some 0;
}.

Lemma consider_completes args gas_limit base_fee max_blobs t it s :
  libraries_ok base_fee → completes (consider args gas_limit base_fee max_blobs t it s).
Proof.
  intros [Htip Hblob _]. unfold Payload.consider. repeat (case_match; [done|]).
  apply completes_bind.
  - unfold check_blobs. repeat case_match; try done. apply completes_bind; [|by intros []].
    apply completes_bind; [apply Hblob|done].
  - intros [sidecar|] _; [|done]. pose proof (execute_completes t (sel_builder s)) as He.
    destruct (execute_tx t (sel_builder s)) as [[g|[low|]| |] b']; try done.
    unfold include_tx. apply completes_bind; [|done]. by destruct (Htip (consensus t)) as [tip ->].
Qed.

Lemma select_loop_ends k fuel n args gas_limit base_fee max_blobs it s :
  libraries_ok base_fee → is_cancelled k = true → (n <= k < n + fuel)%nat →
  completes (select_loop fuel n args gas_limit base_fee max_blobs it s).
Proof.
  intros Hli Hk. revert n it s. induction fuel as [|fuel IH]; intros n it s Hn; [lia|]. cbn [Payload.select_loop].
  destruct (best_next it) as [[t it1]|]; [|done]. destruct (is_cancelled n) eqn:Hc; [done|].
  apply completes_bind; [by apply consider_completes|]. intros [it2 s2] _. apply IH.
  assert (k ≠ n) by (intros ->; congruence). lia.
Qed.

Lemma block_sidecars_completes h i m txs :
  (∀ t, t ∈ txs → is_eip4844 t = true → ∃ sc, m !! trie_hash t = Some sc ∧ is_eip7594 sc = false) →
  completes (block_sidecars h i m txs).
Proof.
  revert i. induction txs as [|t txs IH]; intros i Hall; [done|]. cbn [block_sidecars].
  assert (Hrest : ∀ i, completes (block_sidecars h i m txs)) by (intros j; apply IH; intros u Hu; apply Hall; by right).
  destruct (is_eip4844 t) eqn:Ht; [|apply Hrest]. destruct (Hall t ltac:(left) Ht) as ([b|b] & -> & Hsc); [|done].
  cbn. apply completes_bind; [apply Hrest|done].
Qed.

Lemma block_sidecars_panics h i m txs :
  (∀ t, t ∈ txs → is_eip4844 t = true → ∃ sc, m !! trie_hash t = Some sc ∧ is_eip7594 sc = true) →
  Exists (λ t, is_eip4844 t = true) txs → block_sidecars h i m txs = Panic.
Proof.
  revert i. induction txs as [|t txs IH]; intros i Hall Hex; [by apply Exists_nil in Hex|]. cbn [block_sidecars].
  destruct (is_eip4844 t) eqn:Ht.
  - by destruct (Hall t ltac:(left) Ht) as ([b|b] & -> & Hsc).
  - apply Exists_cons in Hex as [Hex|Hex]; [congruence|]. apply IH; [intros u Hu; apply Hall; by right|done].
Qed.

Lemma user_gas_limit_completes args b : breathe_interval ≠ Some 0 → completes (user_gas_limit self breathe_interval args b).
Proof.
  intros Hb. apply completes_bind; [|done]. unfold estimate_gas_reserved_for_system_txs.
  destruct (_ && _); [|done]. apply completes_bind; [|done]. unfold is_breathe_block. destruct (_ =? 0); [done|].
  apply completes_bind; [|done]. unfold is_same_day_in_utc, div_u.
  assert (Hnz : (default SECONDS_PER_DAY breathe_interval =? 0) = false).
  { apply Z.eqb_neq. destruct breathe_interval as [z|]; cbn; [congruence|done]. }
  by rewrite !Hnz.
Qed.

Lemma current_blob_fee_completes : completes (current_blob_fee self mining_header).
Proof.
  apply completes_bind; [apply completes_ok_or|]. intros h _.
  destruct (is_cancun_active_at_timestamp (spec self) (number h) (timestamp h)) eqn:Hc; [|done].
  destruct (excess_blob_gas h); [|done]. destruct (negb _); [|done]. apply completes_bind; [|done].
  apply completes_bind; [|done]. unfold is_cancun_active_at_timestamp in Hc. apply andb_true_iff in Hc as [_ Hc].
  unfold get_update_fraction. repeat (case_match; try done).
Qed.


(** With Osaka every payload that includes a blob transaction makes the
    task panic: the loop takes only the new kind of sidecars, and the block's
    sidecars are made by unwrapping the old kind. *)
Theorem osaka_blobs_panic fuel args b s :
  setup_ok → is_osaka_active_at_timestamp (attr_timestamp (attributes_of args)) = true →
  start_block args = Ret b → select_transactions fuel args b = Ret s →
  is_Some (finish_block (sel_builder s)) → Exists (λ t, is_eip4844 t = true) (built (sel_builder s)) →
  build_payload fuel args = Panic.
Proof.
  intros Hsu Hos Hb Hs [[blk b'] Hfin] Hex.
  assert (∃ limit, user_gas_limit self breathe_interval args b = Ret limit) as [limit Hl].
  { unfold Payload.select_transactions in Hs. apply bind_Ret_inv in Hs as (l & Hl & _). by exists l. }
  destruct (select_transactions_ok _ _ _ _ _ Hsu Hb Hl Hs) as [inc [Hbo Hbu _ _ _ _ Hsc Hv]].
  destruct (finish_transactions _ _ _ Hbo Hfin) as (sys & Htx & Hnb).
  unfold Payload.build_payload. rewrite Hb. cbn [mbind comp_bind]. rewrite Hs. cbn [mbind comp_bind].
  unfold seal_payload. rewrite Hfin. cbn [ok_or mbind comp_bind]. rewrite block_sidecars_panics; [done| |].
  - intros t Hin H4. rewrite Htx in Hin. apply elem_of_app in Hin as [Hin|Hin].
    + rewrite Hbu in Hin. destruct (Hsc t Hin H4) as [sc Hsc']. exists sc. split; [done|]. by rewrite (Hv _ _ Hsc').
    + rewrite list.Forall_forall in Hnb. rewrite Hnb in H4 by done. discriminate.
  - rewrite Htx. apply Exists_app. by left.
Qed.

End BuilderProofs.

(** * The payload job

    The job runs in one task: its [select!] takes one ready event at a time.
    [try_build_tx] belongs to the job, whose own receiver keeps it open. *)

Inductive BscPayloadJobError := ResultChannelSendError | JobAborted | NoPayloadsAvailable.

(** A duration in nanoseconds. *)
Definition from_millis (ms : Z) : Z := ms * 1000000.
Definition TIME_MULTIPLIER : Z := 2.

(** Where the job waits: in the loop of builds; for new transactions, after a
    build that took [elapsed]; or it has returned. *)
Inductive Phase :=
| BuildLoop
| Waiting (elapsed payload_tx_count new_tx_count : Z)
| Returned (result : option BscPayloadJobError).

Record Job := {
  phase : Phase;
  try_build_queue : nat;
  join_set : nat;
  potential_payloads : list BscBuiltPayload;
  retries : Z;
  is_aborted : bool;
  cancelled : bool;
  submitted : list BscBuiltPayload;
}.

(** What a branch of the loops reacts to.  [Deadline true] is the test at the
    head of a loop, [Deadline false] the timer. *)
Inductive JobEvent :=
| Deadline (at_head : bool)
| TryBuild
| BuildDone (payload : BscBuiltPayload) (elapsed : Z)
| BuildFailed
| NothingToJoin
| NewTransaction (mining_delay : Z)
| AbortRequested.

(** [Iterator::max_by_key]: the last of the greatest. *)
Fixpoint max_by_fees (i : nat) (l : list BscBuiltPayload) (best : option (nat * BscBuiltPayload))
    : option (nat * BscBuiltPayload) :=
  match l with
  | [] => best
  | p :: l =>
      max_by_fees (S i) l
        (match best with
         | Some (j, q) => if payload_fees p <? payload_fees q then Some (j, q) else Some (i, p)
         | None => Some (i, p)
         end)
  end.

Definition pick_best_payload (payloads : list BscBuiltPayload) : option BscBuiltPayload :=
  match payloads with
  | [] => None
  | _ => '(best_index, _) ← max_by_fees 0 payloads None; payloads !! best_index
  end.

Section Job.
Variable is_inturn : bool.
(** The best bid for the parent and the empty payload when the job returns, and
    whether the receiver of results is alive. *)
Variable best_bid : option BscBuiltPayload.
Variable empty_payload : option BscBuiltPayload.
Variable result_open : bool.

Definition set_phase (ph : Phase) (j : Job) : Job :=
  {| phase := ph; try_build_queue := try_build_queue j; join_set := join_set j;
     potential_payloads := potential_payloads j; retries := retries j; is_aborted := is_aborted j;
     cancelled := cancelled j; submitted := submitted j |}.
Definition set_tasks (queue running : nat) (retries : Z) (j : Job) : Job :=
  {| phase := phase j; try_build_queue := queue; join_set := running; potential_payloads := potential_payloads j;
     retries := retries; is_aborted := is_aborted j; cancelled := cancelled j; submitted := submitted j |}.
Definition push_payload (p : BscBuiltPayload) (j : Job) : Job :=
  {| phase := phase j; try_build_queue := try_build_queue j; join_set := join_set j;
     potential_payloads := potential_payloads j ++ [p]; retries := retries j; is_aborted := is_aborted j;
     cancelled := cancelled j; submitted := submitted j |}.
Definition cancel_build (j : Job) : Job :=
  {| phase := phase j; try_build_queue := try_build_queue j; join_set := join_set j;
     potential_payloads := potential_payloads j; retries := retries j; is_aborted := is_aborted j;
     cancelled := true; submitted := submitted j |}.
Definition set_aborted (j : Job) : Job :=
  {| phase := phase j; try_build_queue := try_build_queue j; join_set := join_set j;
     potential_payloads := potential_payloads j; retries := retries j; is_aborted := true;
     cancelled := cancelled j; submitted := submitted j |}.

(** [result_tx.send]. *)
Definition submit (p : BscBuiltPayload) (j : Job) : Job :=
  if result_open then
    {| phase := Returned None; try_build_queue := try_build_queue j; join_set := join_set j;
       potential_payloads := []; retries := retries j; is_aborted := is_aborted j;
       cancelled := cancelled j; submitted := submitted j ++ [p] |}
  else set_phase (Returned (Some ResultChannelSendError)) j.

Definition try_return_best_payload (j : Job) : Job :=
  let j := match best_bid with Some bid => push_payload bid j | None => j end in
  match pick_best_payload (potential_payloads j) with
  | Some best_payload => submit best_payload j
  | None =>
      if is_inturn then
        match empty_payload with
        | Some empty_payload => submit empty_payload j
        | None => set_phase (Returned (Some NoPayloadsAvailable)) j
        end
      else set_phase (Returned (Some NoPayloadsAvailable)) j
  end.

(** [BscPayloadJob::new], and the first message of [start]. *)
Definition job_new : Job :=
  {| phase := BuildLoop; try_build_queue := 1; join_set := 0; potential_payloads := []; retries := 0;
     is_aborted := false; cancelled := false; submitted := [] |}.

(** The loop of builds: one event; [None]: it cannot happen in this state. *)
Definition building_step (e : JobEvent) (j : Job) : option Job :=
  match e with
  | Deadline at_head => Some (try_return_best_payload (if at_head then j else cancel_build j))
  | TryBuild =>
      match try_build_queue j with
      | O => None
      | S queue => Some (set_tasks queue (S (join_set j)) (retries j + 1) j)
      end
  | BuildDone payload elapsed =>
      match join_set j with
      | O => None
      | S running =>
          let j := set_tasks (try_build_queue j) running (retries j) j in
          if is_aborted j then Some (set_phase (Returned (Some JobAborted)) j)
          else Some (set_phase (Waiting elapsed (zlen (block_transactions (payload_block payload))) 0)
                       (push_payload payload j))
      end
  | BuildFailed =>
      match join_set j with
      | O => None
      | S running => Some (try_return_best_payload (set_tasks (try_build_queue j) running (retries j) j))
      end
  | NothingToJoin => match join_set j with O => Some j | S _ => None end
  | NewTransaction _ => None
  | AbortRequested => Some (set_phase (Returned (Some JobAborted)) (set_aborted (cancel_build j)))
  end.

(** The loop that waits for new transactions after a build. *)
Definition waiting_step (elapsed payload_tx_count new_tx_count : Z) (e : JobEvent) (j : Job) : option Job :=
  match e with
  | Deadline _ => Some (try_return_best_payload j)
  | AbortRequested => Some (set_phase (Returned (Some JobAborted)) (set_aborted (cancel_build j)))
  | NewTransaction mining_delay =>
      let new_tx_count := new_tx_count + 1 in
      if from_millis mining_delay <? elapsed then Some (try_return_best_payload j)
      else if (from_millis mining_delay <? elapsed * TIME_MULTIPLIER) || (payload_tx_count <=? new_tx_count)
      then Some (set_phase BuildLoop (set_tasks (S (try_build_queue j)) (join_set j) (retries j) j))
      else Some (set_phase (Waiting elapsed payload_tx_count new_tx_count) j)
  | TryBuild | BuildDone _ _ | BuildFailed | NothingToJoin => None
  end.

Definition job_step (e : JobEvent) (j : Job) : option Job :=
  match phase j with
  | Returned _ => None
  | BuildLoop => building_step e j
  | Waiting elapsed payload_tx_count new_tx_count => waiting_step elapsed payload_tx_count new_tx_count e j
  end.

Fixpoint job_run (events : list JobEvent) (j : Job) : option Job :=
  match events with
  | [] => Some j
  | e :: events => j ← job_step e j; job_run events j
  end.

End Job.

(** * Proofs: the job *)

(** ** The best payload *)

Lemma max_by_fees_spec i l best j p (all : list BscBuiltPayload) :
  (∀ k q, best = Some (k, q) → all !! k = Some q) → (∀ n q, l !! n = Some q → all !! (i + n)%nat = Some q) →
  max_by_fees i l best = Some (j, p) →
  all !! j = Some p ∧ (∀ q, q ∈ l → payload_fees q <= payload_fees p)
  ∧ (∀ k q, best = Some (k, q) → payload_fees q <= payload_fees p).
Proof.
  revert i best. induction l as [|x l IH]; intros i best Hb Hl; cbn [max_by_fees].
  - intros ->. split_and!; [by apply Hb|by intros q ?%elem_of_nil|]. intros k q [= _ <-]. lia.
  - set (best' := match best with Some (j, q) => _ | None => _ end). intros Hm.
    assert (Hx : all !! i = Some x) by (rewrite <- (Nat.add_0_r i); by apply Hl).
    assert (Hb' : ∃ k q, best' = Some (k, q) ∧ all !! k = Some q ∧ payload_fees x <= payload_fees q
                    ∧ ∀ k' q', best = Some (k', q') → payload_fees q' <= payload_fees q).
    { unfold best'. destruct best as [[k q]|]; [|by exists i, x; split_and!; [..|lia|]].
      destruct (Z.ltb_spec (payload_fees x) (payload_fees q)).
      - exists k, q. split_and!; [done|by apply Hb|lia|]. intros ? ? [= _ <-]. lia.
      - exists i, x. split_and!; [done|done|lia|]. intros ? ? [= _ <-]. lia. }
    destruct Hb' as (k & q & Hbest & Hk & Hxq & Hold). rewrite Hbest in Hm. apply IH in Hm as (Hj & Hall & Hq).
    + pose proof (Hq k q eq_refl). split_and!; [done| |].
      * intros y [->|Hy]%elem_of_cons; [lia|by apply Hall].
      * intros k' q' H'. apply Hold in H'. lia.
    + by intros ? ? [= <- <-].
    + intros n y Hy. replace (S i + n)%nat with (i + S n)%nat by lia. by apply Hl.
Qed.

Lemma max_by_fees_some i l x : is_Some (max_by_fees i l (Some x)).
Proof. revert i x. induction l as [|p l IH]; intros i [k q]; cbn; [by eexists|]. case_match; apply IH. Qed.

Lemma pick_best_payload_spec l :
  match pick_best_payload l with
  | Some p => p ∈ l ∧ ∀ q, q ∈ l → payload_fees q <= payload_fees p
  | None => l = []
  end.
Proof.
  destruct l as [|x l]; [done|]. unfold pick_best_payload. destruct (max_by_fees_some 1 l (0%nat, x)) as [[j p] Hm].
  change (max_by_fees 0 (x :: l) None) with (max_by_fees 1 l (Some (0%nat, x))). rewrite Hm. cbn [mbind option_bind].
  change (max_by_fees 0 (x :: l) None = Some (j, p)) in Hm.
  destruct (max_by_fees_spec 0 (x :: l) None j p (x :: l)) as (Hj & Hall & _); [done|done|done|].
  rewrite Hj. split; [by eapply list_elem_of_lookup_2|done].
Qed.

(** ** The outcome of a job *)

Section JobProofs.
Variable is_inturn : bool.
Variable best_bid empty_payload : option BscBuiltPayload.
Variable result_open : bool.
#[local] Notation job_step := (job_step is_inturn best_bid empty_payload result_open).
#[local] Notation job_run := (job_run is_inturn best_bid empty_payload result_open).
#[local] Notation try_return := (try_return_best_payload is_inturn best_bid empty_payload result_open).

(** The payloads of the finished builds, and all that can be submitted. *)
Fixpoint payloads_of (events : list JobEvent) : list BscBuiltPayload :=
  match events with
  | [] => []
  | BuildDone p _ :: events => p :: payloads_of events
  | _ :: events => payloads_of events
  end.
Definition candidates (payloads : list BscBuiltPayload) : list BscBuiltPayload := payloads ++ option_list best_bid.

Lemma payloads_of_app l k : payloads_of (l ++ k) = payloads_of l ++ payloads_of k.
Proof. induction l as [|[] l IH]; cbn; by rewrite ?IH. Qed.

Definition outcome (events : list JobEvent) (payloads : list BscBuiltPayload) (sent : list BscBuiltPayload)
    (r : option BscPayloadJobError) : Prop :=
  match r with
  | None => ∃ p, sent = [p] ∧ result_open = true
      ∧ ((p ∈ candidates payloads ∧ ∀ q, q ∈ candidates payloads → payload_fees q <= payload_fees p)
         ∨ candidates payloads = [] ∧ is_inturn = true ∧ empty_payload = Some p)
  | Some JobAborted => sent = [] ∧ AbortRequested ∈ events
  | Some ResultChannelSendError => sent = [] ∧ result_open = false
  | Some NoPayloadsAvailable =>
      sent = [] ∧ candidates payloads = [] ∧ (is_inturn = true → empty_payload = None)
  end.

Record job_ok (events : list JobEvent) (j : Job) : Prop := {
  jo_running : match phase j with
    | Returned r => outcome events (payloads_of events) (submitted j) r
    | BuildLoop => (try_build_queue j + join_set j = 1)%nat
    | Waiting _ _ _ => (try_build_queue j + join_set j = 0)%nat
    end;
  jo_open : match phase j with
    | Returned _ => True
    | _ => submitted j = [] ∧ is_aborted j = false ∧ potential_payloads j = payloads_of events
    end;
}.

Lemma submit_ok events p j :
  submitted j = [] →
  ((p ∈ candidates (payloads_of events) ∧ ∀ q, q ∈ candidates (payloads_of events) → payload_fees q <= payload_fees p)
   ∨ candidates (payloads_of events) = [] ∧ is_inturn = true ∧ empty_payload = Some p) →
  job_ok events (submit result_open p j) ∧ ∃ r, phase (submit result_open p j) = Returned r.
Proof.
  intros Hs Hp. unfold submit. destruct result_open eqn:Ho; cbn; (split; [split; cbn|by eexists]); try done.
  exists p. rewrite Hs. by split_and!.
Qed.

Lemma try_return_ok events j :
  submitted j = [] → potential_payloads j = payloads_of events →
  job_ok events (try_return j) ∧ ∃ r, phase (try_return j) = Returned r.
Proof.
  intros Hs Hp. unfold try_return_best_payload. set (j' := match best_bid with Some _ => _ | None => _ end).
  assert (Hj' : submitted j' = [] ∧ potential_payloads j' = candidates (payloads_of events)).
  { unfold j', candidates. destruct best_bid; cbn; rewrite Hp, ?app_nil_r; done. }
  destruct Hj' as [Hs' Hc]. pose proof (pick_best_payload_spec (potential_payloads j')) as Hpick. rewrite Hc in *.
  destruct (pick_best_payload _) as [p|]; [apply submit_ok; [done|by left]|].
  destruct is_inturn eqn:Hin; [destruct empty_payload as [ep|] eqn:He; [apply submit_ok; [done|by right]|]|];
    (split; [split; cbn|by eexists]); try done; by rewrite Hin.
Qed.

Lemma job_step_ok events e j j' :
  job_ok events j → job_step e j = Some j' → job_ok (events ++ [e]) j'.
Proof.
  intros [Hr Ho] Hs. unfold Payload.job_step, building_step, waiting_step in Hs.
  destruct (phase j) as [|elapsed n k|r] eqn:Hph; [destruct Ho as (Hsub & Hab & Hpot)..|done].
  - destruct e as [head| |p el| | |d|].
    + injection Hs as <-. apply try_return_ok; destruct head; cbn; try done;
        by rewrite payloads_of_app; cbn; rewrite app_nil_r.
    + destruct (try_build_queue j) as [|q] eqn:Hq; [done|]. injection Hs as <-.
      split; cbn; rewrite Hph; [lia|]. by rewrite payloads_of_app; cbn; rewrite app_nil_r.
    + destruct (join_set j) as [|k] eqn:Hk; [done|]. cbn in Hs. rewrite Hab in Hs. injection Hs as <-.
      split; cbn; [lia|]. by rewrite payloads_of_app, Hpot.
    + destruct (join_set j) as [|k] eqn:Hk; [done|]. injection Hs as <-.
      apply try_return_ok; cbn; [done|]. by rewrite payloads_of_app; cbn; rewrite app_nil_r.
    + destruct (join_set j) eqn:Hk; [|done]. injection Hs as <-.
      split; rewrite Hph; [lia|]. by rewrite payloads_of_app; cbn; rewrite app_nil_r.
    + done.
    + injection Hs as <-. split; cbn; [|done]. split; [done|]. apply elem_of_app. right. by left.
  - destruct e as [head| |p el| | |d|]; try done.
    + injection Hs as <-. apply try_return_ok; [done|]. by rewrite payloads_of_app; cbn; rewrite app_nil_r.
    + cbv zeta in Hs. destruct (from_millis d <? elapsed); [|destruct (_ || _)]; injection Hs as <-.
      * apply try_return_ok; [done|]. by rewrite payloads_of_app; cbn; rewrite app_nil_r.
      * split; cbn; [lia|]. by rewrite payloads_of_app; cbn; rewrite app_nil_r.
      * split; cbn; [lia|]. by rewrite payloads_of_app; cbn; rewrite app_nil_r.
    + injection Hs as <-. split; cbn; [|done]. split; [done|]. apply elem_of_app. right. by left.
Qed.

Lemma job_run_ok before events j j' :
  job_ok before j → job_run events j = Some j' → job_ok (before ++ events) j'.
Proof.
  revert before j. induction events as [|e events IH]; intros before j Hj; cbn [Payload.job_run].
  - intros [= <-]. by rewrite app_nil_r.
  - intros (j1 & He & Hrun)%bind_Some. rewrite (cons_middle e before events), app_assoc. eapply IH; [|done].
    by eapply job_step_ok.
Qed.

(** C12. A payload job has at most one build queued or running, and submits at
    most once, when it returns: the payload with the highest fees among all it
    built and the best bid, or, when there is none and the validator is in
    turn, the empty block; nothing after an abort.  While it has not returned,
    the deadline makes it return. *)
Theorem job_outcome events j :
  job_run events job_new = Some j →
  match phase j with
  | Returned r => outcome events (payloads_of events) (submitted j) r
  | _ => (try_build_queue j + join_set j <= 1)%nat ∧ submitted j = []
      ∧ ∀ at_head, ∃ j' r, job_step (Deadline at_head) j = Some j' ∧ phase j' = Returned r
        ∧ r ≠ Some JobAborted ∧ outcome events (payloads_of events) (submitted j') r
  end.
Proof.
  intros Hrun. destruct (job_run_ok [] events job_new j) as [Hr Ho]; [by split|done|]. cbn [app] in *.
  destruct (phase j) as [|elapsed n k|r] eqn:Hph; [..|done]; destruct Ho as (Hsub & _ & Hpot).
  all: split_and!; [lia|done|]; intros head; unfold Payload.job_step, building_step, waiting_step; rewrite Hph.
  - destruct (try_return_ok events (if head then j else cancel_build j)) as [[Hok _] [r Hp]]; [by destruct head..|].
    eexists _, r. rewrite Hp in Hok. split_and!; [done|done| |exact Hok]. intros ->. 
    revert Hp. unfold try_return_best_payload, submit. repeat (case_match; cbn; try done).
  - destruct (try_return_ok events j) as [[Hok _] [r Hp]]; [done..|].
    eexists _, r. rewrite Hp in Hok. split_and!; [done|done| |exact Hok]. intros ->.
    revert Hp. unfold try_return_best_payload, submit. repeat (case_match; cbn; try done).
Qed.

End JobProofs.

(** * A small builder

    A pool that is a list and a builder that counts 21000 gas for each
    transaction, for the examples of this file and its clients. *)
Module RefBuilder.

#[export] Instance ref_blob_constants : BlobConstants := {|
  DATA_GAS_PER_BLOB := 131072; MAX_DATA_GAS_PER_BLOCK_DENCUN := 786432;
  BLOB_GASPRICE_UPDATE_FRACTION := 3338477; BLOB_GASPRICE_UPDATE_FRACTION_PECTRA := 5007716;
  fake_exponential factor numerator denominator := factor;
  EMPTY_OMMER_ROOT_HASH := 1;
|}.
#[export] Instance ref_blob_params : BlobParamsApi := {|
  BlobParams := unit; BlobParams_cancun := tt; max_blob_count _ := 1; max_blobs_per_tx _ := 6;
  params_calc_blob_fee _ _ := 1; next_block_excess_blob_gas_osaka _ _ _ _ := 0;
  maybe_next_block_excess_blob_gas h p := match p with Some _ => Some 0 | None => None end;
|}.

#[export] Instance field_hash : TxHashing := {| signature_hash t := tx_value t; trie_hash t := tx_value (tx t) |}.

(** The whole gas price above the base fee is the tip; a blob transaction has
    one blob. *)
#[export] Instance ref_view : TxView := {|
  effective_tip_per_gas t base_fee := Some (gas_price (tx t) - base_fee);
  blob_versioned_hashes t := if is_eip4844 t then [1] else [];
  tx_blob_gas t := if is_eip4844 t then Some 131072 else None;
|}.

(** A pool is a list of transactions with a small gas limit. *)
#[export] Instance ref_best : BestTransactions (list PoolTx) := {|
  best_next it := match it with
                  | t :: it => if (0 <=? pool_gas_limit t) && (pool_gas_limit t <? 2 ^ 63) then Some (t, it) else None
                  | [] => None
                  end;
  mark_invalid t it := filter (λ u, pool_sender u ≠ pool_sender t) it;
  skip_blobs it := filter (λ u, is_eip4844 (consensus u) = false) it;
|}.
#[export] Instance ref_best_laws : BestTransactionsLaws (list PoolTx).
Proof.
  split; intros [|u it] t it'; cbn [best_next ref_best]; try done;
    destruct ((0 <=? pool_gas_limit u) && (pool_gas_limit u <? 2 ^ 63)) eqn:Hu; intros [= <- <-].
  - apply andb_true_iff in Hu as [?%Z.leb_le ?%Z.ltb_lt]. by split.
  - by cbn; destruct (is_eip4844 _).
Qed.

(** A builder for which a transaction costs 21000 gas. *)
#[export] Instance ref_builder : BlockBuilder (BlockEnv * list TransactionSigned) := {|
  builder_env := fst; built := snd; builder_ok _ := True; apply_pre_execution b := Some b;
  execute_tx t b := if 21000 <=? pool_gas_limit t then (Ret 21000, (b.1, b.2 ++ [consensus t]))
                    else (Err (InvalidTx false), b);
  finish_block b := Some ({| block_header := Attestation.parent_header; block_transactions := b.2 |}, b);
|}.
#[export] Instance ref_builder_laws : BlockBuilderLaws (BlockEnv * list TransactionSigned).
Proof.
  split; cbn.
  - by intros b b' _ [= <-].
  - done.
  - intros t b g b' _. destruct (Z.leb_spec 21000 (pool_gas_limit t)); [intros [= <- <-]|done]. cbn. split; [done|lia].
  - intros t b e b'. by destruct (21000 <=? _); intros [= <- <-].
  - intros t b. by destruct (21000 <=? _).
  - intros b blk b' _ [= <- <-]. exists []. by rewrite app_nil_r.
Qed.

End RefBuilder.

(** * Witnesses *)

Section Witnesses.
Import RefHardforks RefLibraries RefBuilder.
#[local] Existing Instance HeaderExtra.ref_hash.
#[local] Notation parent_header := Attestation.parent_header.

Definition pool_tx (ty : TxType) (from price : Z) : PoolTx :=
  {| consensus := unsigned {| tx_type := ty; tx_chain_id := Some 97; tx_nonce := 0; gas_price := price;
                              tx_gas_limit := 30000; tx_to := Some 5; tx_value := from; tx_input := []; tx_more := [] |};
     pool_sender := from |}.

(** The best transactions: of a blacklisted sender, with a blob, underpriced,
    with a second blob, and a plain one. *)
Definition example_pool_txs : list PoolTx :=
  [pool_tx Legacy 0x489A8756C18C0b8B24EC2a2b9FF3D4d447F79BEc 9; pool_tx Eip4844 11 8; pool_tx Legacy 12 1;
   pool_tx Eip4844 13 7; pool_tx Legacy 14 6].
Definition example_args : BscBuildArguments :=
  {| parent_of := parent_header;
     attributes_of := {| attr_parent := hash_slow parent_header; attr_timestamp := timestamp parent_header + 1;
                         suggested_fee_recipient := 10; prev_randao := 0; attr_parent_beacon_block_root := None |};
     min_gas_tip := 2 |}.
Definition first_builder (h : Header) (attrs : NextBlockEnvAttributes) : option (BlockEnv * list TransactionSigned) :=
  Some ({| block_number := number h + 1; block_beneficiary := next_suggested_fee_recipient attrs;
           block_timestamp := next_timestamp attrs; env_difficulty := 0; env_prevrandao := None;
           block_gas_limit := 30000000; env_basefee := 0; env_blob_excess_gas_and_price := None |}, []).
#[local] Notation old_sidecar := (λ _ : B256, Ret (Some (Sidecar4844 [7])) : build (option SidecarVariant)).
#[local] Notation new_sidecar := (λ _ : B256, Ret (Some (Sidecar7594 [7])) : build (option SidecarVariant)).
Definition one_blob_params (t : Z) : option BlobParams := Some tt.
Definition state_known (h : B256) : option unit := Some tt.
Definition example_build (osaka : bool) (store : B256 → build (option SidecarVariant)) (cancelled : nat → bool)
    (fuel : nat) : build BscBuiltPayload :=
  build_payload testnet_parlia one_blob_params None (λ _, osaka) (λ _ _, example_pool_txs) store state_known
    first_builder (λ l, l) (Some parent_header) cancelled fuel example_args.

Lemma first_builder_ok : setup_ok first_builder.
Proof. split; [by intros h a b [= <-]|by intros p]. Qed.



Definition chosen (osaka : bool) : build (Selection (BlockEnv * list TransactionSigned)) :=
  match first_builder parent_header (next_attributes (attributes_of example_args) 8000000) with
  | Some b => select_transactions testnet_parlia one_blob_params None (λ _, osaka) (λ _ _, example_pool_txs)
                new_sidecar (Some parent_header) (λ _, false) 10 example_args b
  | None => Panic
  end.

Lemma osaka_blobs_panic_witness : example_build true new_sidecar (λ _, false) 10 = Panic.
Proof.
  destruct (first_builder parent_header (next_attributes (attributes_of example_args) 8000000)) as [b|] eqn:Hb;
    [|discriminate].
  destruct (chosen true) as [s| | |] eqn:Hs; try (vm_compute in Hs; discriminate).
  unfold chosen in Hs. rewrite Hb in Hs.
  apply (osaka_blobs_panic testnet_parlia one_blob_params None (λ _, true) (λ _ _, example_pool_txs)
    new_sidecar state_known first_builder (λ l, l) (Some parent_header) (λ _, false) 10 example_args b s).
  - exact first_builder_ok.
  - reflexivity.
  - change (ok_or (first_builder parent_header (next_attributes (attributes_of example_args) 8000000)) NoBuilder ≫= (λ b, Ret b)
      = Ret b). rewrite Hb. reflexivity.
  - exact Hs.
  - by eexists.
  - injection Hb as <-. vm_compute in Hs. injection Hs as <-. apply Exists_exists.
    exists (consensus (pool_tx Eip4844 11 8)). split; [by left|reflexivity].
Defined.

(** Two builds, an abort that comes too late, and a better bid. *)
Definition payload_worth (fees : Z) : BscBuiltPayload :=
  {| payload_block := {| block_header := parent_header; block_transactions := [] |};
     payload_sidecars := None; payload_fees := fees |}.
Definition example_events : list JobEvent :=
  [TryBuild; BuildDone (payload_worth 5) 10000000; NewTransaction 15; TryBuild; BuildDone (payload_worth 7) 20000000;
   Deadline true].

Lemma job_outcome_witness :
  ∃ j, job_run true (Some (payload_worth 9)) None true example_events job_new = Some j
  ∧ submitted j = [payload_worth 9].
Proof.
  destruct (job_run true (Some (payload_worth 9)) None true example_events job_new) as [j|] eqn:Hj; [|vm_compute in Hj; discriminate].
  exists j. split; [reflexivity|]. pose proof (job_outcome true (Some (payload_worth 9)) None true example_events j Hj) as Ho.
  assert (Hph : phase j = Returned None) by (vm_compute in Hj; injection Hj as <-; reflexivity).
  rewrite Hph in Ho. destruct Ho as (p & -> & _ & [[Hin Hmax]|[Hc _]]); [|discriminate Hc].
  assert (H9 : 9 <= payload_fees p) by (apply (Hmax (payload_worth 9)); right; right; left).
  f_equal. cbn [candidates payloads_of example_events option_list app] in Hin.
  repeat (apply elem_of_cons in Hin as [->|Hin]; [first [reflexivity | cbn in H9; lia]|]). by apply elem_of_nil in Hin.
Defined.

End Witnesses.
