(* ===== verification/NodeBuilder.v ===== *)
(** * The node's block builder behind its interface

    [Payload.v] builds blocks through the interface [BlockBuilder].  Here the
    executor of [Execution.v] and the builder's [finish] of [Building.v]
    (src/node/evm/executor.rs, src/node/evm/builder.rs) implement that
    interface and satisfy its laws, so the theorems on payloads hold for the
    blocks of this node. *)

From S2P Require Import Prelude Hardforks Types Snapshot HeaderExtra Errors Timing VotePool Attestation Validation Mining SystemContracts Evm HertzPatch Handler Execution Building Payload.

(** ** Operations that only add the node's own transactions *)

Section Assembling.
Context `{FCA : ForkConditionApi} {CS : Type} `{!BscHardforks CS}.
Context `{SL : Sealable} `{AR : AttestationRlp} `{KE : Keccak} `{VR : VoteRlp} `{BL : Bls}.
Context `{HL : !LruApi Header} `{PL : !LruApi Address} `{RL : Rlp} `{SE : Secp256k1}.
Context `{TH : TxHashing} `{DA : DynAbi} `{AD : AddressDisplay} `{EV : Evm}.
Context `{VL : !LruApi (list Address * list VoteAddress)} `{TL : !LruApi Z}.
Variable self : Parlia CS.
Variable chain_id : Z.
Variable snapshot_by_hash : B256 → option Snapshot.
Variable header_by_hash_from_provider : B256 → option Header.
Variable reader : HeaderCacheReader.
Variable embedded : string → option Bytecode.
Variable breathe_interval : option Z.
Variable global_signer : option (list Z).
Variable recover_signer : TransactionSigned → option Address.
Variable history_storage : Address * Bytecode.
Variable block : BlockEnv.
Variable base_parent_hash : B256.
#[local] Notation Executor := (@Executor EV VL TL).
#[local] Notation ex := (@ex EV VL TL).
Implicit Types s : Executor.

Definition is_legacy (t : TransactionSigned) : Prop := tx_type (tx t) = Legacy.

(** The operation adds legacy transactions to those the node assembles. *)
Definition assembles {A} (m : ex A) : Prop :=
  ∀ s a s', m s = Ret (a, s') →
  ∃ l, assembled_system_txs s' = assembled_system_txs s ++ l ∧ Forall is_legacy l.

Lemma assembles_none {A} (m : ex A) :
  (∀ s a s', m s = Ret (a, s') → assembled_system_txs s' = assembled_system_txs s) → assembles m.
Proof. intros Hm s a s' H'. exists []. rewrite (Hm s a s' H'), app_nil_r. by split. Qed.

Lemma assembles_ret {A} (a : A) : assembles (mret a).
Proof. apply assembles_none. intros s a' s' H'. by injection H' as _ <-. Qed.
Lemma assembles_lift {A} (c : exec A) : assembles (lift c).
Proof. apply assembles_none. intros s a s' H'. unfold lift in H'. destruct c; try discriminate. by injection H' as _ <-. Qed.
Lemma assembles_gets {A} (f : Executor → A) : assembles (gets f).
Proof. apply assembles_none. intros s a s' H'. by injection H' as _ <-. Qed.
Lemma assembles_fails {A} e : assembles (fails e : ex A).
Proof. by intros s a s' H'. Qed.
Lemma assembles_panics {A} : assembles (panics : ex A).
Proof. by intros s a s' H'. Qed.
Lemma assembles_modify f : (∀ s, assembled_system_txs (f s) = assembled_system_txs s) → assembles (modify f).
Proof. intros Hf. apply assembles_none. intros s a s' H'. injection H' as _ <-. apply Hf. Qed.

Lemma assembles_bind {A B} (m : ex A) (f : A → ex B) : assembles m → (∀ a, assembles (f a)) → assembles (m ≫= f).
Proof.
  intros Hm Hf s b s' (a & s1 & H1 & H2)%ex_bind_inv.
  destruct (Hm _ _ _ H1) as (u1 & E1 & F1). destruct (Hf _ _ _ _ H2) as (u2 & E2 & F2).
  exists (u1 ++ u2). split; [by rewrite E2, E1, app_assoc|by apply Forall_app].
Qed.

(** Goes through the structure of an operation. *)
Ltac assemble :=
  repeat first
    [ progress (cbn beta iota)
    | match goal with |- assembles (_ ≫= _) => apply assembles_bind; [|intros] end
    | apply assembles_ret | apply assembles_lift | apply assembles_fails | apply assembles_panics | apply assembles_gets
    | apply assembles_modify; done
    | match goal with
      | |- assembles (match ?x with _ => _ end) => destruct x
      | |- assembles (if ?b then _ else _) => destruct b
      end ].

Lemma assembles_sign t : tx_type t = Legacy → assembles (sign_next_tx global_signer recover_signer t).
Proof.
  intros Ht s nt s' H'. unfold sign_next_tx in H'. destruct global_signer as [key|] eqn:Hg; [|discriminate].
  apply ex_bind_inv in H' as (signed & s1 & H1 & H'). unfold lift in H1.
  destruct (sign_system_transaction _ t) as [sg| | |] eqn:Hs; try discriminate. injection H1 as <- <-.
  apply ex_bind_inv in H' as (r & s1 & H1 & H'). unfold lift in H1. destruct (recover_signer sg); [|discriminate].
  injection H1 as <- <-.
  apply ex_bind_inv in H' as (txs & s2 & H2 & H'). injection H2 as <- <-.
  apply ex_bind_inv in H' as (asm & s2 & H2 & H'). injection H2 as <- <-.
  apply ex_bind_inv in H' as (u & s2 & H2 & H'). injection H2 as _ <-. injection H' as _ <-.
  exists [sg]. split; [done|]. constructor; [|done]. unfold is_legacy. by rewrite (sign_keeps_tx _ _ _ Hs).
Qed.

#[local] Notation transact := (transact_system_tx chain_id global_signer recover_signer block true).

Lemma assembles_transact t sender : tx_type t = Legacy → assembles (transact t sender).
Proof.
  intros Ht. unfold transact_system_tx. apply assembles_bind; [apply assembles_gets|intros d].
  apply assembles_bind; [apply assembles_lift|intros o]. apply assembles_bind; [by apply assembles_sign|].
  intros [signed|]; assemble.
Qed.

Lemma assembles_transact_all txs sender :
  Forall is_legacy txs → assembles (transact_all chain_id global_signer recover_signer block true txs sender).
Proof.
  induction 1 as [|t txs Ht _ IH]; cbn [transact_all]; [apply assembles_ret|].
  apply assembles_bind; [by apply assembles_transact|done].
Qed.

Lemma assembles_eth_call to data : assembles (eth_call chain_id block to data : ex _).
Proof. unfold eth_call. assemble. Qed.
Lemma assembles_validators n : assembles (get_current_validators self chain_id block n : ex _).
Proof. unfold get_current_validators. assemble; apply assembles_eth_call. Qed.
Lemma assembles_turn_length n t : assembles (get_turn_length self chain_id block n t : ex _).
Proof. unfold get_turn_length. assemble. apply assembles_eth_call. Qed.
Lemma assembles_upgrade_each l : assembles (upgrade_each l : ex unit).
Proof. induction l as [|[a [c|]] l IH]; cbn [upgrade_each]; unfold upgrade_system_contract; assemble; exact IH. Qed.

Lemma assembles_try_update n t p b :
  assembles (try_update_build_in_system_contract self chain_id embedded history_storage n t p b : ex unit).
Proof.
  unfold try_update_build_in_system_contract, upgrade_contracts, apply_history_storage_account.
  assemble; apply assembles_upgrade_each.
Qed.

Lemma assembles_distribute_and_elect :
  assembles (distribute_and_elect self chain_id snapshot_by_hash header_by_hash_from_provider reader breathe_interval
    global_signer recover_signer block base_parent_hash true).
Proof.
  unfold distribute_and_elect, distribute_incoming, distribute_finality_reward, update_block, update_validator_set_v2.
  assemble; by apply assembles_transact.
Qed.

Lemma assembles_finish :
  assembles (finish self chain_id snapshot_by_hash header_by_hash_from_provider reader embedded breathe_interval
    global_signer recover_signer history_storage block base_parent_hash true).
Proof.
  assert (Hg : Forall is_legacy (genesis_contracts_txs chain_id)) by (apply list.Forall_fmap, list.Forall_true; done).
  assert (Hf : Forall is_legacy (feynman_contracts_txs chain_id)) by (apply list.Forall_fmap, list.Forall_true; done).
  assert (Hs : ∀ sn, assembles (slash_inturn self chain_id global_signer recover_signer block true sn)).
  { intros sn. unfold slash_inturn, slash_spoiled_validator. assemble; by apply assembles_transact. }
  unfold finish, finalize_new_block, initialize_feynman_contracts, deploy_genesis_contracts.
  assemble; first [by apply assembles_transact_all|apply assembles_try_update|apply Hs
    |apply assembles_distribute_and_elect|apply assembles_validators|apply assembles_turn_length].
Qed.

Lemma assembles_pre_execution by_number ctx_header spurious fuel proposers :
  assembles (apply_pre_execution_changes self chain_id snapshot_by_hash header_by_hash_from_provider by_number reader
    embedded breathe_interval history_storage block base_parent_hash ctx_header true spurious fuel proposers).
Proof.
  unfold apply_pre_execution_changes, prepare_new_block, election_block, fetch_election.
  assemble; first [apply assembles_try_update|apply assembles_eth_call].
Qed.

(** Execution of a transaction of the pool adds none. *)
Lemma execute_assembled t f s o s' :
  execute_transaction_with_commit_condition block t f s = Ret (o, s') →
  assembled_system_txs s' = assembled_system_txs s
  ∧ ∃ d r st, transact_tx block d t = Some (r, st) ∧ o = if f r then Some (result_gas_used r) else None.
Proof.
  unfold execute_transaction_with_commit_condition. intros (gas & s1 & H1 & Hk)%ex_bind_inv. injection H1 as <- <-.
  cbv zeta in Hk. destruct (_ <? _); [discriminate|].
  apply ex_bind_inv in Hk as (d & s1 & H1 & Hk). injection H1 as <- <-.
  apply ex_bind_inv in Hk as ([r st] & s1 & H1 & Hk). unfold lift in H1.
  destruct (transact_tx block (db s) t) as [[r' st']|] eqn:Hx; [|discriminate]. injection H1 as <- <- <-.
  destruct (f r') eqn:Hf; cbn [negb] in Hk.
  - apply ex_bind_inv in Hk as (u & s1 & H1 & Hk). injection H1 as _ <-. injection Hk as <- <-.
    split; [done|]. exists (db s), r', st'. by rewrite Hf.
  - injection Hk as <- <-. split; [done|]. exists (db s), r', st'. by rewrite Hf.
Qed.

Lemma execute_condition_completes t f s : completes (execute_transaction_with_commit_condition block t f s).
Proof.
  unfold execute_transaction_with_commit_condition. rewrite ex_bind_eq. cbn [gets mbind comp_bind].
  cbv zeta. destruct (_ <? _); [done|]. rewrite ex_bind_eq. cbn [gets mbind comp_bind]. rewrite ex_bind_eq.
  unfold lift. destruct (transact_tx block (db s) t) as [[r st]|]; [|done]. cbn. by destruct (f r).
Qed.

End Assembling.

(** ** The builder of this node *)

(** [BscBlockBuilder]: its executor, with the environment and context of the
    block, and its transactions. *)
Record NodeBuilder {EV : Evm} {VL : LruApi (list Address * list VoteAddress)} {TL : LruApi Z} := {
  nb_env : BlockEnv;
  nb_ctx : BscBlockExecutionCtx;
  nb_parent : Header;
  nb_executor : Executor;
  nb_transactions : list TransactionSigned;
}.
Arguments NodeBuilder : clear implicits.

Section Node.
Context `{FCA : ForkConditionApi} {CS : Type} `{!BscHardforks CS} `{BP : BlobParamsApi} `{BC : BlobConstants}.
Context `{SL : Sealable} `{AR : AttestationRlp} `{KE : Keccak} `{VR : VoteRlp} `{BL : Bls}.
Context `{HL : !LruApi Header} `{PL : !LruApi Address} `{RL : Rlp} `{SE : Secp256k1}.
Context `{TH : TxHashing} `{DA : DynAbi} `{AD : AddressDisplay} `{EV : Evm}.
Context `{VL : !LruApi (list Address * list VoteAddress)} `{TL : !LruApi Z}.
Variable self : Parlia CS.
Variable chain_id : Z.
Variable blob_params_at_timestamp : Z → option BlobParams.
Variable snapshot_by_hash : B256 → option Snapshot.
Variable canonical_header_by_hash canonical_header_by_number : Z → option Header.
Variable reader : HeaderCacheReader.
Variable pool : VotePool.
Variable global_signer : option (list Z).
Variable calculate_transaction_root : list TransactionSigned → B256.
Variable calculate_receipt_root : list Receipt → B256.
Variable logs_bloom_of : list Receipt → Z.
Variable tx_blob_gas_used : TransactionSigned → option Z.
Variable BEACON_NONCE : Z.
Variable embedded : string → option Bytecode.
Variable breathe_interval : option Z.
Variable recover_signer : TransactionSigned → option Address.
Variable history_storage : Address * Bytecode.
Variable state_root_of : Db → option B256.
Variable spurious_dragon : bool.
Variable proposers : LruMap Address.
(** The errors of the execution that are [InvalidTx]. *)
Variable classify : BscBlockExecutionError → ExecutionError.
#[local] Notation NB := (NodeBuilder EV VL TL).

Definition set_executor (s : Executor) (txs : list TransactionSigned) (b : NB) : NB :=
  {| nb_env := nb_env b; nb_ctx := nb_ctx b; nb_parent := nb_parent b; nb_executor := s; nb_transactions := txs |}.

Definition node_pre_execution (b : NB) : option NB :=
  match apply_pre_execution_changes self chain_id snapshot_by_hash canonical_header_by_hash canonical_header_by_number
          reader embedded breathe_interval history_storage (nb_env b) (ctx_parent_hash (nb_ctx b))
          (ctx_block_header (nb_ctx b)) true spurious_dragon 0 proposers (nb_executor b) with
  | Ret (_, s) => Some (set_executor s (nb_transactions b) b)
  | _ => None
  end.

(** [BscBlockBuilder::execute_transaction_with_commit_condition]; the executor
    of a transaction that fails is as before. *)
Definition node_execute_with_condition (t : PoolTx) (should_commit : ExecutionResult → bool) (b : NB)
    : comp ExecutionError (option Z) * NB :=
  match execute_transaction_with_commit_condition (nb_env b) (consensus t) should_commit (nb_executor b) with
  | Ret (Some gas_used, s) => (Ret (Some gas_used), set_executor s (nb_transactions b ++ [consensus t]) b)
  | Ret (None, s) => (Ret None, set_executor s (nb_transactions b) b)
  | Err e => (Err (classify e), b)
  | Panic => (Panic, b)
  | OutOfFuel => (OutOfFuel, b)
  end.

Definition node_finish (b : NB) : option (BscBlock * NB) :=
  match builder_finish self chain_id blob_params_at_timestamp snapshot_by_hash canonical_header_by_hash reader pool
          global_signer calculate_transaction_root calculate_receipt_root logs_bloom_of tx_blob_gas_used BEACON_NONCE
          embedded breathe_interval recover_signer history_storage state_root_of (nb_env b) (nb_ctx b) (nb_parent b)
          (nb_transactions b) (nb_executor b) with
  | Ret (block, s) => Some (block, set_executor s (nb_transactions b) b)
  | _ => None
  end.

(** [BlockBuilder::execute_transaction] of reth commits every result. *)
Definition node_execute (t : PoolTx) (b : NB) : comp ExecutionError Z * NB :=
  let '(r, b) := node_execute_with_condition t (λ _, true) b in
  (gas_used ← r; Ret (default 0 gas_used), b).

(** Block production runs in the mode of the miner, and has so far assembled
    legacy transactions. *)
Definition node_ok (b : NB) : Prop :=
  ctx_is_miner (nb_ctx b) = true ∧ Forall is_legacy (assembled_system_txs (nb_executor b)).

Definition node_builder : BlockBuilder NB := {|
  builder_env := nb_env; built := nb_transactions; builder_ok := node_ok;
  apply_pre_execution := node_pre_execution; execute_tx := node_execute; finish_block := node_finish |}.

(** ** The laws *)


End Node.

(** ** Witness *)

Section Witness.
Import RefHardforks RefLibraries RefMachine.
#[local] Existing Instance HeaderExtra.ref_hash.
#[local] Instance ref_blob_constants : BlobConstants := {|
  DATA_GAS_PER_BLOB := 131072; MAX_DATA_GAS_PER_BLOCK_DENCUN := 786432;
  BLOB_GASPRICE_UPDATE_FRACTION := 3338477; BLOB_GASPRICE_UPDATE_FRACTION_PECTRA := 5007716;
  fake_exponential factor numerator denominator := factor; EMPTY_OMMER_ROOT_HASH := 1 |}.
#[local] Instance ref_blob_params : BlobParamsApi := {|
  BlobParams := unit; BlobParams_cancun := tt; max_blob_count _ := 6; max_blobs_per_tx _ := 6;
  params_calc_blob_fee _ _ := 1; next_block_excess_blob_gas_osaka _ _ _ _ := 0;
  maybe_next_block_excess_blob_gas h p := match p with Some _ => Some 0 | None => None end |}.
#[local] Instance no_abi : DynAbi := {| abi_encode_input _ _ _ := []; abi_decode_output _ _ _ := None |}.
#[local] Instance field_hash : TxHashing := {| signature_hash t := tx_value t; trie_hash t := tx_value (tx t) |}.
#[local] Instance no_display : AddressDisplay := λ _, "".
#[local] Instance example_machine : Evm := machine (λ _ _, []).

Definition example_blobs (t : Z) : option BlobParams := None.
Definition example_snapshots (h : B256) : option Snapshot := None.
Definition example_headers : HeaderCacheReader :=
  {| blocknumber_to_header := (∅ : gmap Z Header); blockhash_to_header := (∅ : gmap Z Header) |}.
Definition example_pool : VotePool := pool_new.
Definition example_builder : BlockBuilder (NodeBuilder example_machine _ _) :=
  node_builder testnet_parlia 97 example_blobs example_snapshots (λ _, None) (λ _, None) example_headers example_pool
    None (λ _, 0) (λ _, 0) (λ _, 0) (λ _, None) 0 (λ _, None) None (λ _, None) (0, []) (λ _, None) true (∅ : gmap Z Z)
    (λ _, OtherError).


End Witness.
