(* ===== verification/BidSimulator.v ===== *)
(** * Bids of builders ([src/node/miner/bid_simulator.rs])

    Accepting the bids of builders, simulating them into payloads, merging
    transactions of the pool into them, and the worker that drives this
    ([MevWorkWorker] of [src/node/miner/bsc_miner.rs]).

    The worker is one task: a simulation is never interleaved with another
    event of it.  The flag that interrupts a simulation is shared between the
    copies of a bid, so it is an entry of a store. *)

From S2P Require Import Prelude Hardforks Types Snapshot HeaderExtra Errors Timing VotePool Attestation Validation Mining SystemContracts Evm HertzPatch Handler Execution Building Payload.

Definition NO_INTERRUPT_LEFT_OVER : Z := 500.
Definition PAY_BID_TX_GAS_LIMIT : Z := 25000.
Definition TX_GAS : Z := 21000.
Definition DELAY_LEFT_OVER : Z := 50.

Record Bid := {
  builder : Address;
  bid_block_number : Z;
  bid_parent_hash : B256;
  bid_txs : list TransactionSigned;
  bid_blob_sidecars : gmap B256 (list Z);
  un_revertible : list B256;
  bid_gas_used : Z;
  bid_gas_fee : Z;
  builder_fee : Z;
  committed : bool;
  bid_hash : B256;
  interrupt_flag : positive;
}.

Record BidRuntime := {
  bid : Bid;
  parent_snapshot : Snapshot;
  mining_header : Header;
  parent_header : Header;
  attributes : EthPayloadBuilderAttributes;
  expected_block_reward : Z;
  expected_validator_reward : Z;
  packed_block_reward : Z;
  packed_validator_reward : Z;
  gas_used : Z;
  gas_fee : Z;
  system_balance : Z;
  blob_sidecars : list BscBlobTransactionSidecar;
  rt_blob_count : Z;
  bsc_payload : option BscBuiltPayload;
}.

(** The maps of the simulator, and the flags that are set. *)
Record Simulator := {
  best_bid_to_run : gmap B256 Bid;
  simulating_bid : gmap B256 Bid;
  best_bid : gmap B256 BidRuntime;
  pending_bid : gset (Z * Address * B256);
  interrupted : gset positive;
}.

Inductive BidFailure :=
| NoState
| GasLimitExceeded
| BuilderFailure
| PreExecutionFailure
| InvalidSignature
| BidInterrupted
| BlobLimitExceeded
| InvalidTransaction
| ExecutionFailure
| InsertBlobFailure
| InvalidReward
| GasPriceTooLow
| NoPayBidTx
| FinishFailed
| UnRevertibleFailed.
Notation sim A := (comp BidFailure A).

Definition simulator_new : Simulator :=
  {| best_bid_to_run := ∅; simulating_bid := ∅; best_bid := ∅; pending_bid := ∅; interrupted := ∅ |}.

(** Updates of one map. *)
Definition set_best_bid_to_run (m : gmap B256 Bid) (s : Simulator) : Simulator :=
  {| best_bid_to_run := m; simulating_bid := simulating_bid s; best_bid := best_bid s;
     pending_bid := pending_bid s; interrupted := interrupted s |}.
Definition set_simulating_bid (m : gmap B256 Bid) (s : Simulator) : Simulator :=
  {| best_bid_to_run := best_bid_to_run s; simulating_bid := m; best_bid := best_bid s;
     pending_bid := pending_bid s; interrupted := interrupted s |}.
Definition set_best_bid (m : gmap B256 BidRuntime) (s : Simulator) : Simulator :=
  {| best_bid_to_run := best_bid_to_run s; simulating_bid := simulating_bid s; best_bid := m;
     pending_bid := pending_bid s; interrupted := interrupted s |}.
Definition interrupt (flag : positive) (s : Simulator) : Simulator :=
  {| best_bid_to_run := best_bid_to_run s; simulating_bid := simulating_bid s; best_bid := best_bid s;
     pending_bid := pending_bid s; interrupted := {[flag]} ∪ interrupted s |}.

(** ** Pending bids

    The key of a bid is the text of its three parts. *)
Definition check_pending_bid (block_number : Z) (builder : Address) (bid_hash : B256) (s : Simulator) : bool :=
  negb (bool_decide ((block_number, builder, bid_hash) ∈ pending_bid s)).

Definition add_pending_bid (block_number : Z) (builder : Address) (bid_hash : B256) (s : Simulator) : Simulator :=
  {| best_bid_to_run := best_bid_to_run s; simulating_bid := simulating_bid s; best_bid := best_bid s;
     pending_bid := {[(block_number, builder, bid_hash)]} ∪ pending_bid s; interrupted := interrupted s |}.

(** The block number is the first part of the key. *)
Definition clear (block_number : Z) (s : Simulator) : Simulator :=
  let min_block_number := saturating_sub block_number 5 in
  {| best_bid_to_run := filter (λ e, min_block_number <= bid_block_number e.2) (best_bid_to_run s);
     simulating_bid := filter (λ e, min_block_number <= bid_block_number e.2) (simulating_bid s);
     best_bid := filter (λ e, min_block_number <= bid_block_number (bid e.2)) (best_bid s);
     pending_bid := filter (λ k, min_block_number <= k.1.1) (pending_bid s);
     interrupted := interrupted s |}.

(** ** Runtimes *)

Definition runtime_new (b : Bid) (attrs : EthPayloadBuilderAttributes) (snap : Snapshot) (parent header : Header)
    : BidRuntime :=
  {| bid := b; parent_snapshot := snap; mining_header := header; parent_header := parent; attributes := attrs;
     expected_block_reward := 0; expected_validator_reward := 0; packed_block_reward := 0;
     packed_validator_reward := 0; gas_used := 0; gas_fee := 0; system_balance := 0; blob_sidecars := [];
     rt_blob_count := 0; bsc_payload := None |}.

Definition set_expected (block validator : Z) (rt : BidRuntime) : BidRuntime :=
  {| bid := bid rt; parent_snapshot := parent_snapshot rt; mining_header := mining_header rt;
     parent_header := parent_header rt; attributes := attributes rt; expected_block_reward := block;
     expected_validator_reward := validator; packed_block_reward := packed_block_reward rt;
     packed_validator_reward := packed_validator_reward rt; gas_used := gas_used rt; gas_fee := gas_fee rt;
     system_balance := system_balance rt; blob_sidecars := blob_sidecars rt; rt_blob_count := rt_blob_count rt;
     bsc_payload := bsc_payload rt |}.
Definition set_packed (block validator : Z) (rt : BidRuntime) : BidRuntime :=
  {| bid := bid rt; parent_snapshot := parent_snapshot rt; mining_header := mining_header rt;
     parent_header := parent_header rt; attributes := attributes rt;
     expected_block_reward := expected_block_reward rt; expected_validator_reward := expected_validator_reward rt;
     packed_block_reward := block; packed_validator_reward := validator; gas_used := gas_used rt;
     gas_fee := gas_fee rt; system_balance := system_balance rt; blob_sidecars := blob_sidecars rt;
     rt_blob_count := rt_blob_count rt; bsc_payload := bsc_payload rt |}.
Definition set_usage (used fee balance blobs : Z) (sidecars : list BscBlobTransactionSidecar) (rt : BidRuntime)
    : BidRuntime :=
  {| bid := bid rt; parent_snapshot := parent_snapshot rt; mining_header := mining_header rt;
     parent_header := parent_header rt; attributes := attributes rt;
     expected_block_reward := expected_block_reward rt; expected_validator_reward := expected_validator_reward rt;
     packed_block_reward := packed_block_reward rt; packed_validator_reward := packed_validator_reward rt;
     gas_used := used; gas_fee := fee; system_balance := balance; blob_sidecars := sidecars;
     rt_blob_count := blobs; bsc_payload := bsc_payload rt |}.
Definition set_payload (p : BscBuiltPayload) (rt : BidRuntime) : BidRuntime :=
  {| bid := bid rt; parent_snapshot := parent_snapshot rt; mining_header := mining_header rt;
     parent_header := parent_header rt; attributes := attributes rt;
     expected_block_reward := expected_block_reward rt; expected_validator_reward := expected_validator_reward rt;
     packed_block_reward := packed_block_reward rt; packed_validator_reward := packed_validator_reward rt;
     gas_used := gas_used rt; gas_fee := gas_fee rt; system_balance := system_balance rt;
     blob_sidecars := blob_sidecars rt; rt_blob_count := rt_blob_count rt; bsc_payload := Some p |}.
Definition commit_mark (rt : BidRuntime) : BidRuntime :=
  let b := bid rt in
  {| bid := {| builder := builder b; bid_block_number := bid_block_number b; bid_parent_hash := bid_parent_hash b;
               bid_txs := bid_txs b; bid_blob_sidecars := bid_blob_sidecars b; un_revertible := un_revertible b;
               bid_gas_used := bid_gas_used b; bid_gas_fee := bid_gas_fee b; builder_fee := builder_fee b;
               committed := true; bid_hash := bid_hash b; interrupt_flag := interrupt_flag b |};
     parent_snapshot := parent_snapshot rt; mining_header := mining_header rt;
     parent_header := parent_header rt; attributes := attributes rt;
     expected_block_reward := expected_block_reward rt; expected_validator_reward := expected_validator_reward rt;
     packed_block_reward := packed_block_reward rt; packed_validator_reward := packed_validator_reward rt;
     gas_used := gas_used rt; gas_fee := gas_fee rt; system_balance := system_balance rt;
     blob_sidecars := blob_sidecars rt; rt_blob_count := rt_blob_count rt; bsc_payload := bsc_payload rt |}.

Definition is_expected_better_than (rt other : BidRuntime) : bool :=
  (expected_block_reward other <=? expected_block_reward rt)
  && (expected_validator_reward other <=? expected_validator_reward rt).

(** The share of the validator, in [U256]. *)
Definition commission_of (reward validator_commission : Z) : Z := wrapu 256 (reward * validator_commission) / 10000.

Definition new_bid_runtime (b : Bid) (validator_commission : Z) (attrs : EthPayloadBuilderAttributes)
    (snap : Snapshot) (parent header : Header) : option BidRuntime :=
  let expected_validator_reward := commission_of (bid_gas_fee b) validator_commission in
  if expected_validator_reward <? builder_fee b then None
  else Some (set_expected (bid_gas_fee b) (expected_validator_reward - builder_fee b)
               (runtime_new b attrs snap parent header)).

Definition pack_reward (validator_commission : Z) (rt : BidRuntime) : BidRuntime :=
  set_packed (system_balance rt)
    (wrapu 256 (commission_of (system_balance rt) validator_commission - builder_fee (bid rt))) rt.

Definition valid_reward (rt : BidRuntime) : bool :=
  (expected_block_reward rt <=? packed_block_reward rt) && (expected_validator_reward rt <=? packed_validator_reward rt).

(** ** Simulation *)

Section Simulate.
Context `{HA : HardforksApi} `{BC : BlobConstants} `{BP : BlobParamsApi} `{SL : Sealable} `{TH : TxHashing}.
Context `{TV : TxView} {B : Type} `{BB : !BlockBuilder B}.
Variable self : Parlia BscChainSpec.
Variable blob_params_at_timestamp : Z → option BlobParams.
Variable breathe_interval : option Z.
Variable validator_commission : Z.
Variable greedy_merge : bool.
Variable min_gas_price : Z.
Variable recover_signer : TransactionSigned → option Address.
(** The pool: its best transactions, and whether its blob store takes a
    sidecar. *)
Variable best_transactions : Z → option Z → list PoolTx.
Variable insert_blob : B256 → bool.
(** The values of a [HashMap], in some order. *)
Variable into_values : gmap Address (list PoolTx) → list (list PoolTx).
Variable state_by_block_hash : B256 → option unit.
Variable builder_for_next_block : Header → NextBlockEnvAttributes → option B.
Variable config_gas_limit : Z → Z.
(** [execution_result.receipts], after [finish]. *)
Variable receipts_success : B → list bool.
(** The clock, the draw of the delay, and whether the merge still has time at
    its n-th transaction. *)
Variable now draw : Z.
Variable in_time : Z → nat → bool.
(** The interrupt flag of the bid during the simulation. *)
Variable is_interrupted : bool.

Definition recover_all (txs : list TransactionSigned) : sim (list PoolTx) :=
  mapM (λ t, a ← ok_or (recover_signer t) InvalidSignature; Ret {| consensus := t; pool_sender := a |}) txs.

(** What an executed transaction adds to the runtime. *)
Definition account_tx (index : nat) (base_fee tx_gas_used : Z) (t : PoolTx) (rt : BidRuntime) : sim BidRuntime :=
  let tx := consensus t in
  let sidecars :=
    if is_eip4844 tx then
      match bid_blob_sidecars (bid rt) !! trie_hash tx with
      | Some sidecar =>
          blob_sidecars rt ++ [{| sidecar_inner := sidecar; sidecar_block_number := bid_block_number (bid rt);
                                  sidecar_block_hash := ZERO; sidecar_tx_index := Z.of_nat index;
                                  sidecar_tx_hash := trie_hash tx |}]
      | None => blob_sidecars rt
      end
    else blob_sidecars rt in
  tip ← unwrap (effective_tip_per_gas tx base_fee);
  Ret (set_usage (add64 (gas_used rt) tx_gas_used)
         (wrapu 256 (gas_fee rt + wrapu 256 (wrapu 256 (tip + base_fee) * tx_gas_used)))
         (wrapu 256 (system_balance rt + wrapu 256 (tip * tx_gas_used))) (rt_blob_count rt) sidecars rt).

(** One transaction of a bid ([from_pool = false]) or of the pool. *)
Definition commit_one (from_pool : bool) (index : nat) (max_blobs base_fee block_gas_limit : Z) (t : PoolTx)
    (rt : BidRuntime) (b : B) : sim (BidRuntime * B) :=
  let tx := consensus t in
  if is_interrupted then Err BidInterrupted
  else if from_pool && (block_gas_limit <? add64 (gas_used rt) (pool_gas_limit t)) then Ret (rt, b)
  else
    let blobs := if is_eip4844 tx then add64 (rt_blob_count rt) (zlen (blob_versioned_hashes tx)) else rt_blob_count rt in
    if is_eip4844 tx && (max_blobs <? blobs) then (if from_pool then Ret (rt, b) else Err BlobLimitExceeded)
    else
      let rt := set_usage (gas_used rt) (gas_fee rt) (system_balance rt) blobs (blob_sidecars rt) rt in
      let '(result, b) := execute_tx t b in
      match result with
      | Ret tx_gas_used =>
          let stored := bool_decide (bid_blob_sidecars (bid rt) !! trie_hash tx = None) || insert_blob (trie_hash tx) in
          if is_eip4844 tx && negb stored then (if from_pool then Ret (rt, b) else Err InsertBlobFailure)
          else rt ← account_tx index base_fee tx_gas_used t rt; Ret (rt, b)
      | Err (InvalidTx _) => if from_pool then Ret (rt, b) else Err InvalidTransaction
      | Err OtherError => if from_pool then Ret (rt, b) else Err ExecutionFailure
      | Panic => Panic
      | OutOfFuel => OutOfFuel
      end.

Fixpoint commit_loop (from_pool : bool) (delay_ms : Z) (index : nat) (max_blobs base_fee block_gas_limit : Z)
    (txs : list PoolTx) (rt : BidRuntime) (b : B) : sim (BidRuntime * B) :=
  match txs with
  | [] => Ret (rt, b)
  | t :: txs =>
      if from_pool && (negb (in_time delay_ms index) || (sub64 block_gas_limit (gas_used rt) <? TX_GAS)) then Ret (rt, b)
      else
        '(rt, b) ← commit_one from_pool index max_blobs base_fee block_gas_limit t rt b;
        commit_loop from_pool delay_ms (S index) max_blobs base_fee block_gas_limit txs rt b
  end.

Definition commit_transaction_recovered (txs : list PoolTx) (block_gas_limit : Z) (from_pool : bool) (delay_ms : Z)
    (rt : BidRuntime) (b : B) : sim (BidRuntime * B) :=
  let max_blobs := default 0 (max_blob_count <$> blob_params_at_timestamp (attr_timestamp (attributes rt))) in
  commit_loop from_pool delay_ms 0 max_blobs (env_basefee (builder_env b)) block_gas_limit txs rt b.

Definition commit_transaction (bid_txs : list TransactionSigned) (block_gas_limit : Z) (rt : BidRuntime) (b : B)
    : sim (BidRuntime * B) :=
  recovered_txs ← recover_all bid_txs;
  commit_transaction_recovered recovered_txs block_gas_limit false 0 rt b.

(** *** Merging transactions of the pool *)

(** What follows the last transaction of the sender that is in the bid. *)
Fixpoint after_bid_txs (bid_tx_hashes : list B256) (txs : list PoolTx) : list PoolTx :=
  match txs with
  | [] => []
  | t :: rest =>
      if existsb (λ u, bool_decide (trie_hash (consensus u) ∈ bid_tx_hashes)) rest
      then after_bid_txs bid_tx_hashes rest
      else if bool_decide (trie_hash (consensus t) ∈ bid_tx_hashes) then rest else txs
  end.

Definition by_sender (txs : list PoolTx) : gmap Address (list PoolTx) :=
  foldl (λ m t, <[pool_sender t := default [] (m !! pool_sender t) ++ [t]]> m) ∅ txs.

Definition pending_txs (bid_txs : list TransactionSigned) (best_tx_list : list PoolTx) : list PoolTx :=
  mjoin (into_values (after_bid_txs (trie_hash <$> bid_txs) <$> by_sender best_tx_list)).

Definition fill_tx_from_pool (bid_txs : list TransactionSigned) (block_gas_limit delay_ms : Z) (rt : BidRuntime) (b : B)
    : sim (BidRuntime * B) :=
  blob_fee ← (if is_cancun_active_at_timestamp (spec self) (number (parent_header rt)) (timestamp (parent_header rt))
              then match excess_blob_gas (mining_header rt) with
                   | Some excess =>
                       if negb (excess =? 0) then fee ← calc_blob_fee (spec self) (mining_header rt); Ret (Some fee)
                       else Ret None
                   | None => Ret None
                   end
              else Ret None);
  let best_tx_list := best_transactions (env_basefee (builder_env b)) (wrapu 64 <$> blob_fee) in
  commit_transaction_recovered (pending_txs bid_txs best_tx_list) block_gas_limit true delay_ms rt b.

Definition merge_pool (bid_txs : list TransactionSigned) (block_gas_limit : Z) (rt : BidRuntime) (b : B)
    : sim (BidRuntime * B) :=
  let delay_ms := delay_for_mining self now draw (parent_snapshot rt) (mining_header rt) (DELAY_LEFT_OVER + 20) in
  if greedy_merge && (0 <? delay_ms) then
    '(rt, b) ← fill_tx_from_pool bid_txs block_gas_limit delay_ms rt b;
    Ret (pack_reward validator_commission rt, b)
  else Ret (rt, b).

(** *** The simulation of a bid *)

(** The builder, and the gas limit of the bid's transactions. *)
Definition start_bid (rt : BidRuntime) : sim (B * Z) :=
  _ ← ok_or (state_by_block_hash (hash_slow (parent_header rt))) NoState;
  let gas_limit := config_gas_limit (gas_limit (parent_header rt)) in
  system_txs_gas ← estimate_gas_reserved_for_system_txs self breathe_interval (Some (timestamp (parent_header rt)))
                     (add64 (number (parent_header rt)) 1) (attr_timestamp (attributes rt));
  if sub64 (sub64 gas_limit system_txs_gas) PAY_BID_TX_GAS_LIMIT <? bid_gas_used (bid rt) then Err GasLimitExceeded
  else
    b ← ok_or (builder_for_next_block (parent_header rt) (next_attributes (attributes rt) gas_limit)) BuilderFailure;
    let block_gas_limit :=
      saturating_sub (saturating_sub (Evm.block_gas_limit (builder_env b)) system_txs_gas) PAY_BID_TX_GAS_LIMIT in
    b ← ok_or (apply_pre_execution b) PreExecutionFailure;
    Ret (b, block_gas_limit).

Definition check_rewards (rt : BidRuntime) : sim unit :=
  if negb (valid_reward rt) then Err InvalidReward
  else if negb (gas_used rt =? 0) && (gas_fee rt / gas_used rt <? min_gas_price) then Err GasPriceTooLow
  else Ret tt.

(** The finished block with the sidecars of the bid. *)
Definition seal_bid (rt : BidRuntime) (b : B) : sim BidRuntime :=
  '(block, b) ← ok_or (finish_block b) FinishFailed;
  if existsb (λ x, negb x.1 && bool_decide (trie_hash x.2 ∈ un_revertible (bid rt)))
       (zip (receipts_success b) (block_transactions block))
  then Err UnRevertibleFailed
  else
    let sidecars := (λ sc, {| sidecar_inner := sidecar_inner sc; sidecar_block_number := sidecar_block_number sc;
                              sidecar_block_hash := hash_slow (block_header block);
                              sidecar_tx_index := sidecar_tx_index sc; sidecar_tx_hash := sidecar_tx_hash sc |})
                    <$> blob_sidecars rt in
    let rt := set_usage (gas_used rt) (gas_fee rt) (system_balance rt) (rt_blob_count rt) sidecars rt in
    Ret (set_payload {| payload_block := block; payload_sidecars := Some sidecars; payload_fees := gas_fee rt |} rt).

Definition run_bid (rt : BidRuntime) : sim BidRuntime :=
  let txs_except_last := removelast (bid_txs (bid rt)) in
  '(b, block_gas_limit) ← start_bid rt;
  '(rt, b) ← commit_transaction txs_except_last block_gas_limit rt b;
  let rt := pack_reward validator_commission rt in
  _ ← check_rewards rt;
  '(rt, b) ← merge_pool txs_except_last block_gas_limit rt b;
  pay_bid_tx ← ok_or (list.last (bid_txs (bid rt))) NoPayBidTx;
  '(rt, b) ← commit_transaction [pay_bid_tx] (Z.min (block_gas_limit + PAY_BID_TX_GAS_LIMIT) U64_MAX) rt b;
  seal_bid rt b.

End Simulate.

(** ** The simulator *)

Section Simulator.
(** [run interrupted rt]: the simulation of a bid whose flag has this value. *)
Variable run : bool → BidRuntime → sim BidRuntime.
Variable bid_receiving : bool.

Definition keep_best (parent_hash : B256) (rt : BidRuntime) (s : Simulator) : Simulator * bool :=
  match best_bid s !! parent_hash with
  | Some best =>
      if packed_block_reward best <? packed_block_reward rt
      then (set_best_bid (<[parent_hash := rt]> (best_bid s)) s, true)
      else (s, false)
  | None => (set_best_bid (<[parent_hash := rt]> (best_bid s)) s, true)
  end.

(** A simulation that fails returns without touching the maps again. *)
Definition bid_simulate {E} (rt : BidRuntime) (s : Simulator) : comp E Simulator :=
  if negb bid_receiving then Ret s
  else
    let parent_hash := bid_parent_hash (bid rt) in
    let s := set_simulating_bid (<[parent_hash := bid rt]> (simulating_bid s)) s in
    match run (bool_decide (interrupt_flag (bid rt) ∈ interrupted s)) rt with
    | Ret rt =>
        let '(s, success) := keep_best parent_hash rt s in
        let s := set_simulating_bid (delete parent_hash (simulating_bid s)) s in
        Ret (if success then s else set_best_bid_to_run (delete parent_hash (best_bid_to_run s)) s)
    | Err _ => Ret s
    | Panic => Panic
    | OutOfFuel => OutOfFuel
    end.

Definition get_best_bid (parent_hash : B256) (s : Simulator) : option BidRuntime := best_bid s !! parent_hash.

Context `{FCA : ForkConditionApi} {CS : Type} `{!BscHardforks CS} `{SL : Sealable}.
Variable self : Parlia CS.
Variable validator_commission : Z.
Variable validator_address : Address.
Variable snapshot_by_hash : B256 → option Snapshot.
Variable maybe_next_block_excess_blob_gas : Header → Z → option Z.
Variable header_default : Header.
(** The canonical chain: a header, and the number of the finalized block. *)
Variable header_by_hash : B256 → option Header.
Variable finalized_block_number : option Z.
Variable fuel : nat.
Variable now draw : Z.

(** The runtime to commit, and whether to: the new bid, the one that was to be
    run, or none. *)
Definition choose_bid (best : option Bid) (runtime_of : Bid → option BidRuntime) (bid_runtime : BidRuntime)
    : option (BidRuntime * bool) :=
  match best with
  | None => Some (bid_runtime, true)
  | Some best_bid =>
      best_bid_runtime ← runtime_of best_bid;
      Some (if is_expected_better_than bid_runtime best_bid_runtime then (bid_runtime, true)
            else if negb (committed best_bid) then (best_bid_runtime, true)
            else (bid_runtime, false))
  end.

Definition commit_bid (bid_runtime : BidRuntime) : BidRuntime := commit_mark bid_runtime.

(** After the choice. *)
Definition start_run (parent_snap : Snapshot) (header : Header) (parent_hash : B256) (bid_runtime : BidRuntime)
    (s : Simulator) : option BidRuntime * Simulator :=
  let s := set_best_bid_to_run (<[bid_parent_hash (bid bid_runtime) := bid bid_runtime]> (best_bid_to_run s)) s in
  match simulating_bid s !! parent_hash with
  | Some simulating =>
      let delay_ms := delay_for_mining self now draw parent_snap header DELAY_LEFT_OVER in
      if (NO_INTERRUPT_LEFT_OVER <=? delay_ms) || (delay_ms =? 0)
      then (Some (commit_bid bid_runtime), interrupt (interrupt_flag simulating) s)
      else (None, s)
  | None => (Some (commit_bid bid_runtime), s)
  end.

Definition commit_new_bid {E} (b : Bid) (s : Simulator) : comp E (option BidRuntime * Simulator) :=
  if negb (check_pending_bid (bid_block_number b) (builder b) (bid_hash b) s) then Ret (None, s)
  else
    let s := add_pending_bid (bid_block_number b) (builder b) (bid_hash b) s in
    match finalized_block_number with
    | None => Ret (None, s)
    | Some final_block_number =>
        if bid_block_number b <=? final_block_number then Ret (None, s)
        else
          match header_by_hash (bid_parent_hash b), snapshot_by_hash (bid_parent_hash b) with
          | Some parent, Some snap =>
              '(attrs, header) ← prepare_new_attributes self maybe_next_block_excess_blob_gas header_default fuel now snap
                                   parent validator_address;
              let runtime_of := λ b, new_bid_runtime b validator_commission attrs snap parent header in
              match runtime_of b with
              | None => Ret (None, s)
              | Some bid_runtime =>
                  match choose_bid (best_bid_to_run s !! bid_parent_hash b) runtime_of bid_runtime with
                  | None => Ret (None, s)
                  | Some (bid_runtime, to_commit) =>
                      if to_commit then Ret (start_run snap header (bid_parent_hash b) bid_runtime s)
                      else Ret (None, s)
                  end
              end
          | _, _ => Ret (None, s)
          end
    end.

End Simulator.

(** ** The worker

    Bids wait in the global queue, requests to simulate in the channel of the
    worker; each branch of its [select!] is one event. *)
Record Worker := { bid_queue : list Bid; requests : list BidRuntime; simulator : Simulator }.

Inductive WorkerEvent :=
| BidPushed (b : Bid)
| BidPopped
| SimulateNext
| ClearOld (last_block_number : Z).

Section Worker.
Context {E : Type}.
Variable simulate : BidRuntime → Simulator → comp E Simulator.
(** The n-th event sees the chain and the clock of its time. *)
Variable commit : nat → Bid → Simulator → comp E (option BidRuntime * Simulator).

Definition get_bid_and_send (n : nat) (w : Worker) : comp E Worker :=
  match bid_queue w with
  | [] => Ret w
  | b :: rest =>
      '(req, s) ← commit n b (simulator w);
      Ret {| bid_queue := rest; requests := requests w ++ option_list req; simulator := s |}
  end.

Definition worker_step (n : nat) (e : WorkerEvent) (w : Worker) : comp E Worker :=
  match e with
  | BidPushed b => Ret {| bid_queue := bid_queue w ++ [b]; requests := requests w; simulator := simulator w |}
  | BidPopped => get_bid_and_send n w
  | SimulateNext =>
      match requests w with
      | [] => Ret w
      | rt :: rest =>
          s ← simulate rt (simulator w);
          Ret {| bid_queue := bid_queue w; requests := rest; simulator := s |}
      end
  | ClearOld last_block_number =>
      Ret {| bid_queue := bid_queue w; requests := requests w; simulator := clear last_block_number (simulator w) |}
  end.

Fixpoint worker_run (n : nat) (events : list WorkerEvent) (w : Worker) : comp E Worker :=
  match events with
  | [] => Ret w
  | e :: events => w ← worker_step n e w; worker_run (S n) events w
  end.

End Worker.

(** * Proofs: simulation *)

(** A tip is a [u128]. *)
Class TxViewLaws `(TxView) : Prop := {
  tip_u128 t base_fee tip : effective_tip_per_gas t base_fee = Some tip → is_u 128 tip;
}.

Section SimulateProofs.
Context `{HA : HardforksApi} `{BC : BlobConstants} `{BP : BlobParamsApi} `{SL : Sealable} `{TH : TxHashing}.
Context `{TV : TxView} `{TVL : !TxViewLaws TV} {B : Type} `{BB : !BlockBuilder B} `{BBL : !BlockBuilderLaws B}.
Variable self : Parlia BscChainSpec.
Variable blob_params_at_timestamp : Z → option BlobParams.
Variable breathe_interval : option Z.
Variable validator_commission : Z.
Variable greedy_merge : bool.
Variable min_gas_price : Z.
Variable recover_signer : TransactionSigned → option Address.
Variable best_transactions : Z → option Z → list PoolTx.
Variable insert_blob : B256 → bool.
Variable into_values : gmap Address (list PoolTx) → list (list PoolTx).
Variable state_by_block_hash : B256 → option unit.
Variable builder_for_next_block : Header → NextBlockEnvAttributes → option B.
Variable config_gas_limit : Z → Z.
Variable receipts_success : B → list bool.
Variable now draw : Z.
Variable in_time : Z → nat → bool.
Variable is_interrupted : bool.
Implicit Types (rt : BidRuntime) (b : B) (t : PoolTx).

#[local] Notation commit_one := (commit_one insert_blob is_interrupted).
#[local] Notation commit_loop := (commit_loop insert_blob in_time is_interrupted).
#[local] Notation run_bid := (run_bid self blob_params_at_timestamp breathe_interval validator_commission greedy_merge
  min_gas_price recover_signer best_transactions insert_blob into_values state_by_block_hash builder_for_next_block
  config_gas_limit receipts_success now draw in_time is_interrupted).

(** The gas limit of a transaction is a [u64]. *)
Definition well_typed t : Prop := is_u 64 (pool_gas_limit t).

(** The parts of a runtime that its simulation keeps. *)
Record same_bid rt rt' : Prop := {
  sb_bid : bid rt' = bid rt;
  sb_expected : expected_block_reward rt' = expected_block_reward rt
    ∧ expected_validator_reward rt' = expected_validator_reward rt;
  sb_packed : packed_block_reward rt' = packed_block_reward rt ∧ packed_validator_reward rt' = packed_validator_reward rt;
  sb_header : parent_header rt' = parent_header rt ∧ attributes rt' = attributes rt;
}.

Lemma same_bid_refl rt : same_bid rt rt.
Proof. by split. Qed.
Lemma same_bid_trans rt1 rt2 rt3 : same_bid rt1 rt2 → same_bid rt2 rt3 → same_bid rt1 rt3.
Proof. intros [A1 [B1 C1] [D1 E1] [F1 G1]] [A2 [B2 C2] [D2 E2] [F2 G2]]. split; split_and?; congruence. Qed.
Lemma same_bid_usage u f s n sc rt : same_bid rt (set_usage u f s n sc rt).
Proof. by split. Qed.

(** The balance after [n] transactions; the bound keeps [U256] from wrapping. *)
Definition balance_within (n : Z) rt : Prop := 0 <= system_balance rt <= n * 2 ^ 192.

(** What committing transactions does. *)
Record commits (n : Z) (rt : BidRuntime) (b : B) (rt' : BidRuntime) (b' : B) (txs : list TransactionSigned) : Prop := {
  co_same : same_bid rt rt';
  co_builder : builder_ok b';
  co_balance : system_balance rt <= system_balance rt' ∧ balance_within n rt';
  co_built : built b' = built b ++ txs;
}.

Lemma account_tx_ok n index base_fee g t rt rt' :
  0 <= n < 2 ^ 32 → balance_within n rt → is_u 64 g → account_tx index base_fee g t rt = Ret rt' →
  same_bid rt rt' ∧ system_balance rt <= system_balance rt' ∧ balance_within (n + 1) rt'.
Proof.
  unfold account_tx, balance_within, is_u. intros Hn Hb Hg (tip & Htip%unwrap_Ret & [= <-])%bind_Ret_inv.
  pose proof (tip_u128 _ _ _ Htip) as Ht. unfold is_u in Ht. split; [apply same_bid_usage|]. cbn [system_balance set_usage].
  assert (Hprod : 0 <= tip * g <= 2 ^ 192).
  { change (2 ^ 192) with (2 ^ 128 * 2 ^ 64). split; [nia|]. apply Z.mul_le_mono_nonneg; lia. }
  generalize dependent (tip * g). intros p Hp.
  change (2 ^ 192) with 6277101735386680763835789423207666416102355444464034512896 in *.
  change (2 ^ 32) with 4294967296 in Hn.
  rewrite (wrapu_small 256 p), wrapu_small; [lia|..]; unfold is_u;
    change (2 ^ 256) with 115792089237316195423570985008687907853269984665640564039457584007913129639936; lia.
Qed.

Lemma commit_one_ok n from_pool index max_blobs base_fee limit t rt b rt' b' :
  0 <= n < 2 ^ 32 → balance_within n rt → builder_ok b → well_typed t →
  commit_one from_pool index max_blobs base_fee limit t rt b = Ret (rt', b') →
  is_interrupted = false
  ∧ ∃ txs, commits (n + 1) rt b rt' b' txs ∧ (txs = [consensus t] ∨ from_pool = true ∧ (txs = [] ∨ txs = [consensus t])).
Proof.
  intros Hn Hbal Hb Ht. unfold BidSimulator.commit_one. destruct is_interrupted; [done|]. intros Hk. split; [done|].
  assert (Hstay : ∀ rt2 b2, same_bid rt rt2 → system_balance rt2 = system_balance rt → builder_ok b2 → built b2 = built b →
            from_pool = true → ∃ txs, commits (n + 1) rt b rt2 b2 txs
              ∧ (txs = [consensus t] ∨ from_pool = true ∧ (txs = [] ∨ txs = [consensus t]))).
  { intros rt2 b2 Hs Hbal2 Hb2 Hbu Hfp. exists []. split; [|by right; split; [|left]].
    split; [done|done| |by rewrite Hbu, app_nil_r]. unfold balance_within in *. rewrite Hbal2. lia. }
  destruct from_pool; cbn [andb] in Hk.
  1: destruct (limit <? _); [injection Hk as <- <-; by apply Hstay|].
  all: destruct (is_eip4844 _ && (max_blobs <? _)); [first [discriminate|injection Hk as <- <-; by apply Hstay]|].
  all: set (rt1 := set_usage _ _ _ _ _ rt) in Hk; destruct (execute_tx t b) as [r b1] eqn:Hx.
  all: assert (Hb1 : builder_ok b1) by (by eapply execute_keeps).
  all: destruct r as [g|[low|]| |]; try discriminate.
  2, 3: injection Hk as <- <-; apply Hstay; [apply same_bid_usage|done|done|by eapply execute_err|done].
  all: destruct (execute_ok _ _ _ _ Ht Hx) as [Hbu Hg].
  all: assert (Hcount : ∀ rt2, account_tx index base_fee g t rt1 = Ret rt2 → commits (n + 1) rt b rt2 b1 [consensus t]) by
    (intros rt2 Ha; apply (account_tx_ok n) in Ha as (Hs & Hle & Hbw); [|done|done|unfold well_typed, is_u in *; lia];
     split; [eapply same_bid_trans; [apply same_bid_usage|exact Hs]|done|done|done]).
  all: destruct (_ && negb _); [first [discriminate|injection Hk as <- <-]|apply bind_Ret_inv in Hk as (rt2 & Ha & [= <- <-])].
  - exists [consensus t]. split; [|by right; split; [|right]].
    split; [apply same_bid_usage|done| |done]. unfold balance_within in *. cbn. lia.
  - exists [consensus t]. split; [by apply Hcount|by left].
  - exists [consensus t]. split; [by apply Hcount|by left].
Qed.

Lemma commits_refl n rt b : builder_ok b → balance_within n rt → commits n rt b rt b [].
Proof. intros Hb Hw. split; [apply same_bid_refl|done|by split|by rewrite app_nil_r]. Qed.

Lemma commits_trans n1 n2 rt1 b1 rt2 b2 rt3 b3 l1 l2 :
  commits n1 rt1 b1 rt2 b2 l1 → commits n2 rt2 b2 rt3 b3 l2 → commits n2 rt1 b1 rt3 b3 (l1 ++ l2).
Proof.
  intros [S1 B1 [L1 W1] E1] [S2 B2 [L2 W2] E2]. split; [by eapply same_bid_trans|done| |by rewrite E2, E1, app_assoc].
  split; [lia|done].
Qed.

Lemma commits_widen n m rt b rt' b' l : n <= m → commits n rt b rt' b' l → commits m rt b rt' b' l.
Proof.
  intros Hn [S1 B1 [L1 W1] E1]. split; [done|done| |done]. split; [done|]. unfold balance_within in *. nia.
Qed.

Lemma commit_loop_ok n from_pool delay index max_blobs base_fee limit txs rt b rt' b' :
  0 <= n → n + zlen txs < 2 ^ 32 → balance_within n rt → builder_ok b → Forall well_typed txs →
  commit_loop from_pool delay index max_blobs base_fee limit txs rt b = Ret (rt', b') →
  ∃ l, commits (n + zlen txs) rt b rt' b' l ∧ l `sublist_of` (consensus <$> txs)
  ∧ (from_pool = false → l = consensus <$> txs ∧ (txs ≠ [] → is_interrupted = false)).
Proof.
  revert n index rt b. induction txs as [|t txs IH]; intros n index rt b H0 Hn Hbal Hb Hty; cbn [BidSimulator.commit_loop].
  { intros [= <- <-]. exists []. unfold zlen. cbn [length]. rewrite Z.add_0_r. split; [by apply commits_refl|done]. }
  apply Forall_cons_iff in Hty as [Ht Hty]. rewrite zlen_cons in Hn |- *. pose proof (zlen_nonneg txs) as Hz.
  destruct (from_pool && _) eqn:Hstop.
  { intros [= <- <-]. exists []. split; [|split; [apply sublist_nil_l|by intros ->]].
    eapply commits_widen; [|by apply commits_refl]. lia. }
  intros ([rt1 b1] & H1 & Hrest)%bind_Ret_inv.
  destruct (commit_one_ok n _ _ _ _ _ _ _ _ _ _ ltac:(lia) Hbal Hb Ht H1) as (Hint & l1 & Hc1 & Hl1).
  destruct Hc1 as [S1 B1 [L1 W1] E1].
  destruct (IH (n + 1) (S index) rt1 b1) as (l2 & Hc2 & Hs2 & Hl2); [lia|lia|done|done|done|done|].
  exists (l1 ++ l2). split; [|split].
  - replace (n + (1 + zlen txs)) with (n + 1 + zlen txs) by lia. eapply commits_trans; [by split|done].
  - destruct Hl1 as [->|[_ [->| ->]]]; cbn; [by apply sublist_skip|by apply sublist_cons|by apply sublist_skip].
  - intros Hfp. destruct (Hl2 Hfp) as [-> _]. split; [|done].
    destruct Hl1 as [->|[Hfp' _]]; [done|congruence].
Qed.

Lemma recover_all_ok txs l : recover_all recover_signer txs = Ret l → consensus <$> l = txs.
Proof.
  unfold recover_all. revert l. induction txs as [|u txs IH]; intros l; cbn [mapM]; [by intros [= <-]|].
  intros (x & Hx & Hl)%bind_Ret_inv. apply bind_Ret_inv in Hx as (a & _ & [= <-]).
  apply bind_Ret_inv in Hl as (l' & Hl & [= <-]). rewrite fmap_cons. cbn. f_equal. by apply IH.
Qed.

(** The transactions of a bid, in full. *)
Lemma commit_transaction_ok n txs limit rt b rt' b' :
  0 <= n → n + zlen txs < 2 ^ 32 → balance_within n rt → builder_ok b → Forall (λ u, is_u 64 (tx_gas_limit (tx u))) txs →
  commit_transaction blob_params_at_timestamp recover_signer insert_blob in_time is_interrupted txs limit rt b = Ret (rt', b') →
  commits (n + zlen txs) rt b rt' b' txs ∧ (txs ≠ [] → is_interrupted = false).
Proof.
  intros H0 Hn Hbal Hb Hty (l & Hrec & Hl)%bind_Ret_inv. apply recover_all_ok in Hrec.
  assert (Hlen : zlen l = zlen txs) by (unfold zlen; by rewrite <- Hrec, length_fmap).
  apply (commit_loop_ok n) in Hl as (l' & Hc & _ & Hall); [|done|by rewrite Hlen|done|done|].
  - destruct (Hall eq_refl) as [-> Hint]. rewrite Hlen, Hrec in Hc. split; [done|]. intros Htx. apply Hint. intros ->.
    cbn in Hrec. by subst txs.
  - rewrite <- Hrec in Hty. exact (proj1 (list.Forall_fmap _ _ _) Hty).
Qed.

(** *** The price of a bid *)

(** Executing transactions one after another, with the gas that each used. *)
Inductive executed : list PoolTx → B → B → list Z → Prop :=
| executed_nil b : executed [] b b []
| executed_cons t l b b1 b2 g gs :
    execute_tx t b = (Ret g, b1) → executed l b1 b2 gs → executed (t :: l) b b2 (g :: gs).

Definition total (l : list Z) : Z := foldr Z.add 0 l.

(** What a transaction pays for each unit of gas. *)
Definition unit_price (base_fee : Z) t : Z := default 0 (effective_tip_per_gas (consensus t) base_fee) + base_fee.

(** The fee of executed transactions for each unit of gas that they used is at
    least the minimal price: the sums are the 64-bit and 256-bit sums. *)
Definition priced (base_fee : Z) (l : list PoolTx) (gs : list Z) : Prop :=
  let used := wrapu 64 (total gs) in
  let fees := wrapu 256 (total (zip_with (λ t g, unit_price base_fee t * g) l gs)) in
  used = 0 ∨ min_gas_price <= fees / used.

Lemma account_tx_price index base_fee g t rt rt' :
  account_tx index base_fee g t rt = Ret rt' →
  gas_used rt' = wrapu 64 (gas_used rt + g) ∧ gas_fee rt' = wrapu 256 (gas_fee rt + unit_price base_fee t * g).
Proof.
  unfold account_tx, unit_price, wrapu, add64. intros (tip & Htip%unwrap_Ret & [= <-])%bind_Ret_inv. rewrite Htip.
  split; [done|]. cbn [gas_fee set_usage default]. by rewrite Zmult_mod_idemp_l, Zplus_mod_idemp_r.
Qed.

Lemma commit_one_price index max_blobs base_fee limit t rt b rt' b' :
  commit_one false index max_blobs base_fee limit t rt b = Ret (rt', b') →
  ∃ g, execute_tx t b = (Ret g, b') ∧ gas_used rt' = wrapu 64 (gas_used rt + g)
    ∧ gas_fee rt' = wrapu 256 (gas_fee rt + unit_price base_fee t * g).
Proof.
  unfold BidSimulator.commit_one. destruct is_interrupted; [done|]. cbn [andb].
  destruct (is_eip4844 _ && (max_blobs <? _)); [done|]. destruct (execute_tx t b) as [[g|[low|]| |] b1]; try done.
  destruct (_ && negb _); [done|]. intros (rt2 & Ha%account_tx_price & [= <- <-])%bind_Ret_inv. by exists g.
Qed.

Lemma wrapu_chain w x y z : wrapu w (wrapu w (x + y) + z) = wrapu w (x + (y + z)).
Proof. unfold wrapu. rewrite Zplus_mod_idemp_l. f_equal. lia. Qed.

Lemma commit_loop_price delay index max_blobs base_fee limit l rt b rt' b' :
  is_u 64 (gas_used rt) → is_u 256 (gas_fee rt) →
  commit_loop false delay index max_blobs base_fee limit l rt b = Ret (rt', b') →
  ∃ gs, executed l b b' gs ∧ gas_used rt' = wrapu 64 (gas_used rt + total gs)
    ∧ gas_fee rt' = wrapu 256 (gas_fee rt + total (zip_with (λ t g, unit_price base_fee t * g) l gs)).
Proof.
  revert index rt b. induction l as [|t l IH]; intros index rt b Hu Hf; cbn [BidSimulator.commit_loop andb].
  { intros [= <- <-]. exists []. cbn. rewrite !Z.add_0_r, !wrapu_small by done. split; [constructor|done]. }
  intros ([rt1 b1] & (g & Hx & Hg1 & Hf1)%commit_one_price & Hrest)%bind_Ret_inv.
  destruct (IH (S index) rt1 b1) as (gs & Hgs & Hg2 & Hf2); [rewrite Hg1|rewrite Hf1|exact Hrest|];
    [by apply wrapu_is_u..|].
  exists (g :: gs). split; [by econstructor|]. cbn [zip_with total foldr].
  by rewrite Hg2, Hf2, Hg1, Hf1, !wrapu_chain.
Qed.

Lemma commit_transaction_price txs limit rt b rt' b' :
  is_u 64 (gas_used rt) → is_u 256 (gas_fee rt) →
  commit_transaction blob_params_at_timestamp recover_signer insert_blob in_time is_interrupted txs limit rt b = Ret (rt', b') →
  ∃ l gs, consensus <$> l = txs ∧ executed l b b' gs ∧ gas_used rt' = wrapu 64 (gas_used rt + total gs)
    ∧ gas_fee rt' = wrapu 256 (gas_fee rt + total (zip_with (λ t g, unit_price (env_basefee (builder_env b)) t * g) l gs)).
Proof.
  intros Hu Hf (l & Hrec%recover_all_ok & Hl)%bind_Ret_inv.
  apply commit_loop_price in Hl as (gs & Hgs); [by exists l, gs|done|done].
Qed.

(** ** A simulated bid *)

Record pool_ok : Prop := {
  po_values m : into_values m ≡ₚ (map_to_list m).*2;
  po_pending f g txs : let l := pending_txs into_values txs (best_transactions f g) in
    Forall well_typed l ∧ zlen l < 2 ^ 31;
}.

Record bid_typed (d : Bid) : Prop := {
  bt_txs : Forall (λ u, is_u 64 (tx_gas_limit (tx u))) (bid_txs d) ∧ zlen (bid_txs d) < 2 ^ 30;
  bt_fees : is_u 256 (bid_gas_fee d) ∧ is_u 256 (builder_fee d);
}.

(** What the validator keeps of a reward. *)
Definition share (reward : Z) (d : Bid) : Z := reward * validator_commission / 10000 - builder_fee d.

(** The rewards that are packed for the runtime's balance are exact. *)
Lemma pack_reward_exact n rt :
  0 <= validator_commission <= 10000 → 0 <= n < 2 ^ 32 → balance_within n rt → 0 <= builder_fee (bid rt) →
  bid_gas_fee (bid rt) <= system_balance rt → builder_fee (bid rt) <= bid_gas_fee (bid rt) * validator_commission / 10000 →
  let rt' := pack_reward validator_commission rt in
  packed_block_reward rt' = system_balance rt ∧ packed_validator_reward rt' = share (system_balance rt) (bid rt)
  ∧ share (bid_gas_fee (bid rt)) (bid rt) <= packed_validator_reward rt'.
Proof.
  intros Hc Hn Hb Hf Hg Hle. cbv zeta. unfold pack_reward, commission_of, share. cbn [packed_block_reward packed_validator_reward set_packed].
  unfold balance_within in Hb. set (s := system_balance rt) in *. set (g := bid_gas_fee (bid rt)) in *.
  set (f := builder_fee (bid rt)) in *.
  assert (Hs : 0 <= s * validator_commission < 2 ^ 250).
  { change (2 ^ 192) with 6277101735386680763835789423207666416102355444464034512896 in Hb.
    change (2 ^ 32) with 4294967296 in Hn.
    change (2 ^ 250) with 1809251394333065553493296640760748560207343510400633813116524750123642650624.
    split; [nia|]. assert (s <= 4294967296 * 6277101735386680763835789423207666416102355444464034512896) by nia. nia. }
  rewrite (wrapu_small 256 (s * validator_commission)).
  2: { unfold is_u. change (2 ^ 256) with (2 ^ 250 * 64). lia. }
  assert (Hmono : g * validator_commission / 10000 <= s * validator_commission / 10000).
  { apply Z.div_le_mono; [lia|]. apply Z.mul_le_mono_nonneg_r; lia. }
  assert (Hd : 0 <= s * validator_commission / 10000 <= s * validator_commission).
  { split; [apply Z.div_pos; lia|]. apply Z.div_le_upper_bound; lia. }
  generalize dependent (s * validator_commission / 10000). intros q Hmono Hd.
  rewrite wrapu_small; [split_and!; [done|done|lia]|]. unfold is_u. change (2 ^ 256) with (2 ^ 250 * 64). lia.
Qed.

Lemma start_bid_ok rt b limit :
  setup_ok builder_for_next_block →
  start_bid self breathe_interval state_by_block_hash builder_for_next_block config_gas_limit rt = Ret (b, limit) →
  builder_ok b ∧ built b = [].
Proof.
  intros Hsu (? & _ & Hk)%bind_Ret_inv. apply bind_Ret_inv in Hk as (gas & _ & Hk). cbv zeta in Hk.
  destruct (_ <? _); [discriminate|]. apply bind_Ret_inv in Hk as (b0 & Hb0%ok_or_Ret & Hk).
  apply bind_Ret_inv in Hk as (b1 & Hb1%ok_or_Ret & [= <- _]).
  destruct (su_fresh _ Hsu _ _ _ Hb0) as (Ho & He & _). by destruct (pre_execution_env _ _ Ho Hb1) as (? & _ & ->).
Qed.

(** *** The merged transactions *)

Lemma after_bid_txs_spec hs l : after_bid_txs hs l `sublist_of` l ∧ ∀ u, u ∈ after_bid_txs hs l → trie_hash (consensus u) ∉ hs.
Proof.
  induction l as [|x l [IHs IHn]]; cbn [after_bid_txs]; [split; [done|by intros u ?%elem_of_nil]|].
  destruct (existsb _ l) eqn:He; [split; [by apply sublist_cons|done]|].
  assert (Hl : ∀ u, u ∈ l → trie_hash (consensus u) ∉ hs).
  { intros u Hu Hin. apply not_true_iff_false in He. apply He, existsb_exists. exists u.
    split; [by apply list_elem_of_In|by apply bool_decide_eq_true]. }
  case_bool_decide as Hx; [split; [by apply sublist_cons|done]|].
  split; [done|]. intros u [->|Hu]%elem_of_cons; [done|by apply Hl].
Qed.

Lemma pending_not_in_bid txs best u :
  pool_ok → u ∈ pending_txs into_values txs best → trie_hash (consensus u) ∉ trie_hash <$> txs.
Proof.
  intros Hp (l & Hu & Hl)%list_elem_of_join. rewrite (po_values Hp) in Hl.
  apply list_elem_of_fmap in Hl as ([a l'] & -> & Hl). apply elem_of_map_to_list in Hl.
  rewrite lookup_fmap in Hl. destruct (by_sender best !! a) as [l0|]; [|discriminate]. injection Hl as <-.
  by apply after_bid_txs_spec in Hu.
Qed.

Lemma merge_pool_ok n txs limit rt b rt' b' :
  pool_ok → 0 <= n < 2 ^ 31 → balance_within n rt → builder_ok b →
  merge_pool self blob_params_at_timestamp validator_commission greedy_merge best_transactions insert_blob into_values
    now draw in_time is_interrupted txs limit rt b = Ret (rt', b') →
  rt' = rt ∧ b' = b
  ∨ greedy_merge = true ∧ ∃ l rt1, commits (n + 2 ^ 31) rt b rt1 b' l ∧ rt' = pack_reward validator_commission rt1
    ∧ ∀ u, u ∈ l → trie_hash u ∉ trie_hash <$> txs.
Proof.
  intros Hp Hn Hbal Hb. unfold merge_pool. cbv zeta. set (delay := delay_for_mining _ _ _ _ _ _).
  destruct (greedy_merge && (0 <? delay)) eqn:Hg; [|intros [= <- <-]; by left].
  apply andb_true_iff in Hg as [Hg _].
  intros ([rt1 b1] & Hf & [= <- <-])%bind_Ret_inv. unfold fill_tx_from_pool in Hf.
  apply bind_Ret_inv in Hf as (fee & _ & Hf). cbv zeta in Hf. set (pend := pending_txs _ _ _) in Hf.
  destruct (po_pending Hp (env_basefee (builder_env b)) (wrapu 64 <$> fee) txs) as [Hty Hlen]. fold pend in Hty, Hlen.
  change (2 ^ 31) with 2147483648 in *. pose proof (zlen_nonneg pend) as Hz.
  apply (commit_loop_ok n) in Hf as (l & Hc & Hsub & _); [|lia|change (2 ^ 32) with 4294967296; lia|done|done|done].
  right. split; [done|]. exists l, rt1. split_and!; [eapply commits_widen; [|exact Hc]; lia|done|].
  intros u Hu. eapply elem_of_submseteq in Hu; [|by apply sublist_submseteq]. apply list_elem_of_fmap in Hu as (t & -> & Ht).
  by eapply pending_not_in_bid.
Qed.

(** ** What a simulated bid is worth *)

Lemma new_bid_runtime_ok d attrs snap parent header rt :
  0 <= validator_commission → bid_typed d →
  new_bid_runtime d validator_commission attrs snap parent header = Some rt →
  bid rt = d ∧ system_balance rt = 0 ∧ expected_block_reward rt = bid_gas_fee d ∧ gas_used rt = 0 ∧ gas_fee rt = 0
  ∧ builder_fee d <= commission_of (bid_gas_fee d) validator_commission.
Proof.
  intros Hc Hd. unfold new_bid_runtime. destruct (Z.ltb_spec (commission_of (bid_gas_fee d) validator_commission) (builder_fee d));
    [discriminate|]. by intros [= <-].
Qed.

(** The claims of a bid hold for the rewards that are packed for it. *)
Definition worth (d : Bid) rt : Prop :=
  bid_gas_fee d <= packed_block_reward rt ∧ packed_validator_reward rt = share (packed_block_reward rt) d
  ∧ 0 <= share (bid_gas_fee d) d <= packed_validator_reward rt.

Lemma commission_exact x : 0 <= x → x * validator_commission < 2 ^ 256 → 0 <= validator_commission →
  commission_of x validator_commission = x * validator_commission / 10000.
Proof. intros Hx Hm Hc. unfold commission_of. rewrite wrapu_small; [done|]. unfold is_u. nia. Qed.

Lemma packed_worth n d rt :
  0 <= validator_commission <= 10000 → 0 <= n < 2 ^ 32 → balance_within n rt → bid_typed d → bid rt = d →
  builder_fee d <= commission_of (bid_gas_fee d) validator_commission → bid_gas_fee d <= system_balance rt →
  worth d (pack_reward validator_commission rt).
Proof.
  intros Hc Hn Hb [_ [[Hg _] [Hf _]]] Hd Hcomm Hle.
  assert (Hsmall : bid_gas_fee d * validator_commission < 2 ^ 256).
  { unfold balance_within in Hb.
    change (2 ^ 192) with 6277101735386680763835789423207666416102355444464034512896 in Hb.
    change (2 ^ 32) with 4294967296 in Hn.
    change (2 ^ 256) with 115792089237316195423570985008687907853269984665640564039457584007913129639936.
    assert (system_balance rt <= 4294967296 * 6277101735386680763835789423207666416102355444464034512896) by nia. nia. }
  rewrite commission_exact in Hcomm by (try done; lia).
  destruct (pack_reward_exact n rt) as (E1 & E2 & E3); [done|done|done|by rewrite Hd|by rewrite Hd|by rewrite Hd|].
  rewrite Hd in E2, E3. unfold worth. rewrite E1, E2 in *. split_and!; [done|done| |done]. unfold share. lia.
Qed.

Lemma seal_bid_ok rt b rt' :
  builder_ok b → seal_bid receipts_success rt b = Ret rt' →
  ∃ block b' sys, finish_block b = Some (block, b')
  ∧ block_transactions block = built b ++ sys ∧ Forall (λ u, is_eip4844 u = false) sys
  ∧ (∃ p, bsc_payload rt' = Some p ∧ payload_block p = block)
  ∧ bid rt' = bid rt ∧ packed_block_reward rt' = packed_block_reward rt
  ∧ packed_validator_reward rt' = packed_validator_reward rt
  ∧ ∀ i u, block_transactions block !! i = Some u → trie_hash u ∈ un_revertible (bid rt) →
      receipts_success b' !! i ≠ Some false.
Proof.
  intros Hb ([block b'] & Hf%ok_or_Ret & Hk)%bind_Ret_inv.
  destruct (existsb _ _) eqn:He; [discriminate|]. injection Hk as <-.
  destruct (finish_transactions _ _ _ Hb Hf) as (sys & Htx & Hs).
  exists block, b', sys. split_and!; try done; [by eexists|]. intros i u Hu Hin Hr.
  apply not_true_iff_false in He. apply He, existsb_exists. exists (false, u). split; [|by cbn; apply bool_decide_eq_true].
  apply list_elem_of_In, (list_elem_of_lookup_2 _ i). apply lookup_zip_with_Some. by exists false, u.
Qed.


(** An interrupted bid is not simulated. *)
Lemma interrupted_fails rt rt' : is_interrupted = true → run_bid rt ≠ Ret rt'.
Proof.
  intros Hi Hrun. apply bind_Ret_inv in Hrun as ([b0 limit] & _ & Hrun).
  apply bind_Ret_inv in Hrun as ([rt1 b1] & _ & Hrun). apply bind_Ret_inv in Hrun as ([] & _ & Hrun).
  apply bind_Ret_inv in Hrun as ([rt2 b2] & _ & Hrun). apply bind_Ret_inv in Hrun as (pay & _ & Hrun).
  apply bind_Ret_inv in Hrun as ([rt3 b3] & H3 & _). unfold commit_transaction in H3.
  apply bind_Ret_inv in H3 as (l & Hl & H3). apply recover_all_ok in Hl. destruct l as [|t l]; [done|].
  unfold commit_transaction_recovered in H3. cbn [BidSimulator.commit_loop andb] in H3.
  apply bind_Ret_inv in H3 as (x & Hx & _). unfold BidSimulator.commit_one in Hx. by rewrite Hi in Hx.
Qed.

End SimulateProofs.

(** * Proofs: the worker *)

Section WorkerProofs.
Context `{FCA : ForkConditionApi} {CS : Type} `{!BscHardforks CS} `{SL : Sealable}.
Variable run : bool → BidRuntime → sim BidRuntime.
Variable bid_receiving : bool.
Variable self : Parlia CS.
Variable validator_commission : Z.
Variable validator_address : Address.
Variable maybe_next_block_excess_blob_gas : Header → Z → option Z.
Variable header_default : Header.
Variable fuel : nat.
(** What the n-th event of the worker sees. *)
Variable snapshot_at : nat → B256 → option Snapshot.
Variable header_at : nat → B256 → option Header.
Variable finalized_at : nat → option Z.
Variable now_at draw_at : nat → Z.
Implicit Types (s : Simulator) (w : Worker) (rt : BidRuntime) (d a : Bid).

Definition simulate {E} : BidRuntime → Simulator → comp E Simulator := bid_simulate run bid_receiving.
Definition commit {E} (n : nat) : Bid → Simulator → comp E (option BidRuntime * Simulator) :=
  commit_new_bid self validator_commission validator_address (snapshot_at n) maybe_next_block_excess_blob_gas
    header_default (header_at n) (finalized_at n) fuel (now_at n) (draw_at n).
#[local] Notation worker_step := (worker_step simulate commit).
#[local] Notation worker_run := (worker_run simulate commit).

(** ** Simulations *)

(** What a simulation does to the maps: other parents are untouched, and at its
    own parent it is ignored, fails, or succeeds. *)
Inductive simulated rt s s' : Prop :=
| sim_ignored : s' = s → simulated rt s s'
| sim_failed :
    s' = set_simulating_bid (<[bid_parent_hash (bid rt) := bid rt]> (simulating_bid s)) s → simulated rt s s'
| sim_done rt' :
    run (bool_decide (interrupt_flag (bid rt) ∈ interrupted s)) rt = Ret rt' →
    best_bid s' = best_bid (keep_best (bid_parent_hash (bid rt)) rt' s).1 →
    (∀ q, q ≠ bid_parent_hash (bid rt) →
       best_bid_to_run s' !! q = best_bid_to_run s !! q ∧ simulating_bid s' !! q = simulating_bid s !! q) →
    interrupted s' = interrupted s →
    (∀ q b, best_bid_to_run s' !! q = Some b → best_bid_to_run s !! q = Some b) →
    simulated rt s s'.

Lemma bid_simulate_cases {E} rt s s' : (simulate rt s : comp E Simulator) = Ret s' → simulated rt s s'.
Proof.
  unfold simulate, bid_simulate. cbv zeta. destruct bid_receiving; cbn [negb]; [|intros [= <-]; by apply sim_ignored].
  set (s1 := set_simulating_bid _ s). change (interrupted s1) with (interrupted s).
  destruct (run _ rt) as [rt'|e| |] eqn:Hrun; try discriminate; [|intros [= <-]; by apply sim_failed].
  destruct (keep_best (bid_parent_hash (bid rt)) rt' s1) as [s2 success] eqn:Hk.
  assert (Hs2 : best_bid s2 = best_bid (keep_best (bid_parent_hash (bid rt)) rt' s).1 ∧ simulating_bid s2 = simulating_bid s1
     ∧ best_bid_to_run s2 = best_bid_to_run s ∧ interrupted s2 = interrupted s).
  { unfold keep_best in *. change (best_bid s1) with (best_bid s) in Hk.
    destruct (best_bid s !! _) as [best|]; [destruct (_ <? _)|]; by injection Hk as <- _. }
  destruct Hs2 as (E1 & E2 & E3 & E4). intros [= <-]. eapply sim_done; [exact Hrun|by destruct success|..|by destruct success|].
  - intros q Hq. destruct success; cbn; rewrite E2, E3; cbn.
    + by rewrite lookup_delete_ne, lookup_insert_ne by congruence.
    + by rewrite !lookup_delete_ne, lookup_insert_ne by congruence.
  - intros q b. destruct success; cbn; rewrite E3; [done|]. by intros [_ Hb]%lookup_delete_Some.
Qed.

Lemma keep_best_ok p rt s q best :
  best_bid s !! q = Some best →
  ∃ best', best_bid (keep_best p rt s).1 !! q = Some best' ∧ packed_block_reward best <= packed_block_reward best'
    ∧ (best' = best ∨ best' = rt).
Proof.
  intros Hb. unfold keep_best. destruct (decide (q = p)) as [->|Hq].
  - rewrite Hb. destruct (Z.ltb_spec (packed_block_reward best) (packed_block_reward rt)); cbn.
    + rewrite lookup_insert_eq. exists rt. split_and!; [done|lia|by right].
    + exists best. split_and!; [done|lia|by left].
  - destruct (best_bid s !! p) as [old|]; [destruct (_ <? _)|]; cbn; rewrite ?lookup_insert_ne by done;
      exists best; (split_and!; [done|lia|by left]).
Qed.

Lemma keep_best_from p rt s q best' :
  best_bid (keep_best p rt s).1 !! q = Some best' → best_bid s !! q = Some best' ∨ best' = rt.
Proof.
  unfold keep_best. destruct (best_bid s !! p) as [old|]; [destruct (_ <? _)|]; cbn; try (intros; by left).
  all: intros [[_ <-]|[_ Hb]]%lookup_insert_Some; [by right|by left].
Qed.

(** ** Commits *)

(** What committing a bid can do. *)
Inductive committed_bid d s s' (req : option BidRuntime) : Prop :=
| com_ignored :
    best_bid_to_run s' = best_bid_to_run s → simulating_bid s' = simulating_bid s → best_bid s' = best_bid s →
    interrupted s' = interrupted s → req = None → committed_bid d s s' req
| com_chosen attrs snap parent header rt chosen :
    new_bid_runtime d validator_commission attrs snap parent header = Some rt →
    choose_bid (best_bid_to_run s !! bid_parent_hash d)
      (λ b, new_bid_runtime b validator_commission attrs snap parent header) rt = Some (chosen, true) →
    best_bid_to_run s' = <[bid_parent_hash (bid chosen) := bid chosen]> (best_bid_to_run s) →
    simulating_bid s' = simulating_bid s → best_bid s' = best_bid s →
    (∀ rt', req = Some rt' → rt' = commit_mark chosen
       ∧ ∀ sim, simulating_bid s !! bid_parent_hash d = Some sim → interrupt_flag sim ∈ interrupted s') →
    interrupted s ⊆ interrupted s' →
    committed_bid d s s' req.

Lemma commit_cases {E} n d s s' req :
  (commit n d s : comp E (option BidRuntime * Simulator)) = Ret (req, s') → committed_bid d s s' req.
Proof.
  unfold commit, commit_new_bid. destruct (negb _); [intros [= <- <-]; by apply com_ignored|]. cbv zeta.
  destruct (finalized_at n) as [fin|]; [|intros [= <- <-]; by apply com_ignored].
  destruct (_ <=? fin); [intros [= <- <-]; by apply com_ignored|].
  destruct (header_at n _) as [parent|]; [|intros [= <- <-]; by apply com_ignored].
  destruct (snapshot_at n _) as [snap|]; [|intros [= <- <-]; by apply com_ignored].
  intros ([attrs header] & _ & Hk)%bind_Ret_inv. revert Hk.
  destruct (new_bid_runtime d _ attrs snap parent header) as [rt|] eqn:Hrt; [|intros [= <- <-]; by apply com_ignored].
  change (best_bid_to_run (add_pending_bid _ _ _ s)) with (best_bid_to_run s).
  destruct (choose_bid _ _ rt) as [[chosen [|]]|] eqn:Hch; [|intros [= <- <-]; by apply com_ignored..].
  intros [= Hs]. eapply com_chosen; [exact Hrt|exact Hch|..]; revert Hs; unfold start_run; cbn [simulating_bid set_best_bid_to_run add_pending_bid].
  all: destruct (simulating_bid s !! bid_parent_hash d) as [sm|] eqn:Hsim; [destruct (_ || _)|]; intros [= <- <-]; try done.
  all: cbn [interrupted interrupt set_best_bid_to_run add_pending_bid].
  - intros rt' [= <-]. split; [done|]. intros sim [= <-]. set_solver.
  - intros rt' [= <-]. by split.
  - set_solver.
Qed.

(** ** The best bid *)

Lemma clear_best k s q best :
  best_bid (clear k s) !! q = Some best ↔ best_bid s !! q = Some best ∧ saturating_sub k 5 <= bid_block_number (bid best).
Proof. unfold clear. cbn [best_bid]. rewrite map_lookup_filter_Some. done. Qed.

Lemma commit_keeps_best {E} n d s s' req :
  (commit n d s : comp E (option BidRuntime * Simulator)) = Ret (req, s') → best_bid s' = best_bid s.
Proof. intros Hc. by destruct (commit_cases _ _ _ _ _ Hc). Qed.

(** The best bids after an event: each comes from before or from a simulation
    that succeeded. *)
Lemma worker_step_best {E} n e w w' q :
  (worker_step n e w : comp E Worker) = Ret w' →
  (∀ best', best_bid (simulator w') !! q = Some best' →
     best_bid (simulator w) !! q = Some best' ∨ ∃ i rt, run i rt = Ret best')
  ∧ ∀ best, best_bid (simulator w) !! q = Some best →
     (∀ k, e = ClearOld k → saturating_sub k 5 <= bid_block_number (bid best)) →
     ∃ best', best_bid (simulator w') !! q = Some best' ∧ packed_block_reward best <= packed_block_reward best'.
Proof.
  assert (Hsame : ∀ s s', best_bid s' = best_bid s →
    (∀ best', best_bid s' !! q = Some best' → best_bid s !! q = Some best' ∨ ∃ i rt, run i rt = Ret best')
    ∧ ∀ best, best_bid s !! q = Some best → ∃ best', best_bid s' !! q = Some best' ∧ packed_block_reward best <= packed_block_reward best').
  { intros s s' ->. split; [by left|]. intros best Hb. exists best. split; [done|lia]. }
  destruct e as [d| | |k]; cbn [BidSimulator.worker_step].
  - intros [= <-]. destruct (Hsame _ (simulator w) eq_refl) as [A C]. split; [exact A|]. intros best Hb _. by apply C.
  - unfold get_bid_and_send. destruct (bid_queue w) as [|d rest].
    { intros [= <-]. destruct (Hsame _ (simulator w) eq_refl) as [A C]. split; [exact A|]. intros best Hb _. by apply C. }
    intros ([req s'] & Hc & [= <-])%bind_Ret_inv. cbn [simulator].
    destruct (Hsame _ _ (commit_keeps_best _ _ _ _ _ Hc)) as [A C]. split; [exact A|]. intros best Hb _. by apply C.
  - destruct (requests w) as [|rt rest].
    { intros [= <-]. destruct (Hsame _ (simulator w) eq_refl) as [A C]. split; [exact A|]. intros best Hb _. by apply C. }
    intros (s' & Hs & [= <-])%bind_Ret_inv. cbn [simulator].
    destruct (bid_simulate_cases _ _ _ Hs) as [->| ->|rt' Hrun Hbest _ _ _].
    1, 2: destruct (Hsame (simulator w) (simulator w) eq_refl) as [A C]; split; [exact A|intros best Hb _; by apply C].
    rewrite Hbest. split.
    + intros best' [Hb| ->]%keep_best_from; [by left|right]. by eexists _, _.
    + intros best Hb _. destruct (keep_best_ok (bid_parent_hash (bid rt)) rt' _ _ _ Hb) as (best' & ? & ? & _). by exists best'.
  - intros [= <-]. cbn [simulator]. split.
    + intros best' [Hb _]%clear_best. by left.
    + intros best Hb Hk. exists best. split; [|lia]. apply clear_best. split; [done|]. by apply Hk.
Qed.

(** C15. While the bids of a block number [m] are not cleared away, the best bid
    for a parent only gets better: whatever bids are pushed, committed,
    simulated and dropped, its reward never decreases, and every best bid is
    the result of a simulation that succeeded. *)
Theorem best_bid_only_improves {E} m n events w w' q best :
  (worker_run n events w : comp E Worker) = Ret w' →
  (∀ k, ClearOld k ∈ events → saturating_sub k 5 <= m) →
  (∀ i rt rt', run i rt = Ret rt' → m <= bid_block_number (bid rt')) →
  (∀ q best, best_bid (simulator w) !! q = Some best → m <= bid_block_number (bid best)) →
  best_bid (simulator w) !! q = Some best →
  ∃ best', best_bid (simulator w') !! q = Some best' ∧ packed_block_reward best <= packed_block_reward best'
  ∧ (best' = best ∨ ∃ i rt, run i rt = Ret best').
Proof.
  revert n w best. induction events as [|e events IH]; intros n w best; cbn [BidSimulator.worker_run].
  { intros [= <-] _ _ _ Hb. exists best. split_and!; [done|lia|by left]. }
  intros (w1 & H1 & Hr)%bind_Ret_inv Hclear Hnum Hold Hb.
  destruct (worker_step_best _ _ _ _ q H1) as [Hfrom Hkeep].
  destruct (Hkeep best Hb) as (best1 & Hb1 & Hle).
  { intros k ->. specialize (Hclear k ltac:(left)). specialize (Hold _ _ Hb). lia. }
  destruct (IH _ _ best1 Hr) as (best' & Hb' & Hle' & Hor); [..|exact Hb1|].
  - intros k Hk. apply Hclear. by right.
  - done.
  - intros q' b' Hq'. destruct (worker_step_best _ _ _ _ q' H1) as [Hf _].
    destruct (Hf _ Hq') as [?|(i & rt & Hrun)]; [by eapply Hold|by eapply Hnum].
  - exists best'. split_and!; [done|lia|]. destruct Hor as [->|?]; [|by right].
    destruct (Hfrom _ Hb1) as [Hb2|?]; [|by right]. left. congruence.
Qed.

(** ** A claim that cannot be met *)

(** The bid [d] is expected to be better than [a]. *)
Definition outbids d a : Prop :=
  bid_gas_fee a <= bid_gas_fee d
  ∧ commission_of (bid_gas_fee a) validator_commission - builder_fee a
    <= commission_of (bid_gas_fee d) validator_commission - builder_fee d.

(** A copy of a bid, which shares its flag. *)
Definition copy_of d a : Prop := interrupt_flag d = interrupt_flag a ∧ bid_block_number d = bid_block_number a.

(** After a failed simulation of [a]: it is still the bid to run for its parent
    and the one under simulation, and only interrupted requests wait there. *)
Record stuck_on a w : Prop := {
  st_to_run : best_bid_to_run (simulator w) !! bid_parent_hash a = Some a;
  st_simulating : ∃ a', simulating_bid (simulator w) !! bid_parent_hash a = Some a' ∧ copy_of a' a;
  st_requests rt : rt ∈ requests w → bid_parent_hash (bid rt) = bid_parent_hash a →
    copy_of (bid rt) a ∧ interrupt_flag a ∈ interrupted (simulator w);
  st_queue d : d ∈ bid_queue w → bid_parent_hash d = bid_parent_hash a → ¬ outbids d a;
  st_keys q b : best_bid_to_run (simulator w) !! q = Some b → bid_parent_hash b = q;
}.

Lemma new_bid_runtime_expected d attrs snap parent header rt :
  new_bid_runtime d validator_commission attrs snap parent header = Some rt →
  bid rt = d ∧ expected_block_reward rt = bid_gas_fee d
  ∧ expected_validator_reward rt = commission_of (bid_gas_fee d) validator_commission - builder_fee d.
Proof. unfold new_bid_runtime. destruct (_ <? _); [discriminate|]. by intros [= <-]. Qed.

Lemma stuck_commit {E} a n d s' req w :
  committed a = false → stuck_on a w → d ∈ bid_queue w →
  (commit n d (simulator w) : comp E (option BidRuntime * Simulator)) = Ret (req, s') →
  best_bid_to_run s' !! bid_parent_hash a = Some a
  ∧ (∀ q b, best_bid_to_run s' !! q = Some b → bid_parent_hash b = q)
  ∧ simulating_bid s' = simulating_bid (simulator w) ∧ interrupted (simulator w) ⊆ interrupted s'
  ∧ ∀ rt, req = Some rt → bid_parent_hash (bid rt) = bid_parent_hash a →
      copy_of (bid rt) a ∧ interrupt_flag a ∈ interrupted s'.
Proof.
  intros Hnc [Hrun (a' & Hsim & Hflag & _) _ Hq Hkeys] Hd Hc.
  destruct (commit_cases _ _ _ _ _ Hc) as [E1 E2 E3 E4 ->|attrs snap parent header rt chosen Hrt Hch E1 E2 E3 Hreq Hsub].
  { rewrite E1, E2, E4. by split_and!. }
  destruct (new_bid_runtime_expected _ _ _ _ _ _ Hrt) as (Hbid & Hblk & Hval).
  assert (Hins : ∀ q b, best_bid_to_run s' !! q = Some b → bid_parent_hash b = q).
  { intros q b. rewrite E1. intros [[<- <-]|[_ Hb]]%lookup_insert_Some; [done|by apply Hkeys]. }
  destruct (decide (bid_parent_hash d = bid_parent_hash a)) as [Hp|Hp].
  - rewrite Hp, Hrun in Hch. unfold choose_bid in Hch.
    apply bind_Some in Hch as (art & Hart & Hch).
    destruct (new_bid_runtime_expected _ _ _ _ _ _ Hart) as (Habid & Hablk & Haval).
    assert (Hnb : is_expected_better_than rt art = false).
    { apply not_true_iff_false. unfold is_expected_better_than. rewrite andb_true_iff, !Z.leb_le, Hblk, Hval, Hablk, Haval.
      intros Ho. by apply (Hq d Hd Hp). }
    rewrite Hnb, Hnc in Hch. cbn [negb] in Hch. injection Hch as <-. rewrite Habid in E1.
    split_and!; [by rewrite E1, lookup_insert_eq|done|done|done|]. intros rt' Heq Hp'. destruct (Hreq _ Heq) as [-> Hint].
    unfold copy_of. cbn. rewrite Habid. split; [done|]. rewrite <- Hflag. apply Hint. by rewrite Hp.
  - assert (Hcp : bid_parent_hash (bid chosen) = bid_parent_hash d).
    { unfold choose_bid in Hch. destruct (best_bid_to_run (simulator w) !! bid_parent_hash d) as [b|] eqn:Hb.
      - apply bind_Some in Hch as (brt & Hbrt & Hch). destruct (new_bid_runtime_expected _ _ _ _ _ _ Hbrt) as (Hbb & _ & _).
        destruct (is_expected_better_than rt brt); [injection Hch as <-; by rewrite Hbid|].
        destruct (negb _); [|discriminate]. injection Hch as <-. rewrite Hbb. by apply Hkeys.
      - injection Hch as <-. by rewrite Hbid. }
    split_and!; [by rewrite E1, Hcp, lookup_insert_ne|done|done|done|].
    intros rt' Heq Hp'. destruct (Hreq _ Heq) as [-> _]. cbn in Hp'. congruence.
Qed.

(** The events that keep the claim in place. *)
Definition harmless a (e : WorkerEvent) : Prop :=
  match e with
  | BidPushed d => bid_parent_hash d = bid_parent_hash a → ¬ outbids d a
  | ClearOld k => saturating_sub k 5 <= bid_block_number a
  | _ => True
  end.

Hypothesis interrupted_run : ∀ rt rt', run true rt ≠ Ret rt'.

Lemma stuck_simulate {E} a rt rest w s' :
  requests w = rt :: rest → stuck_on a w → (simulate rt (simulator w) : comp E Simulator) = Ret s' →
  stuck_on a {| bid_queue := bid_queue w; requests := rest; simulator := s' |}
  ∧ best_bid s' !! bid_parent_hash a = best_bid (simulator w) !! bid_parent_hash a.
Proof.
  intros Hreq Hst Hs. pose proof Hst as [Hrun (a' & Hsim & Hcopy) Hrq Hq Hkeys]. rewrite Hreq in Hrq.
  assert (Hrest : ∀ r, r ∈ rest → bid_parent_hash (bid r) = bid_parent_hash a →
            copy_of (bid r) a ∧ interrupt_flag a ∈ interrupted (simulator w)) by (intros r Hr; apply Hrq; by right).
  destruct (bid_simulate_cases _ _ _ Hs) as [->| ->|rt' Hret Hbest Hother Hint Hsub].
  - split; [|done]. split; cbn; [done|by exists a'|exact Hrest|done|done].
  - split; [|done]. split; cbn; [done| |exact Hrest|done|done].
    destruct (decide (bid_parent_hash (bid rt) = bid_parent_hash a)) as [Hp|Hp].
    + rewrite Hp, lookup_insert_eq. destruct (Hrq rt ltac:(left) Hp) as [Hc _]. by exists (bid rt).
    + rewrite lookup_insert_ne by done. by exists a'.
  - destruct (decide (bid_parent_hash (bid rt) = bid_parent_hash a)) as [Hp|Hp].
    { destruct (Hrq rt ltac:(left) Hp) as [[Hf _] Hin]. rewrite Hf, bool_decide_true in Hret by done.
      by apply interrupted_run in Hret. }
    destruct (Hother (bid_parent_hash a)) as [E1 E2]; [congruence|]. split.
    + split; cbn; [by rewrite E1|rewrite E2; by exists a'|by rewrite Hint|done|].
      intros q b Hb. apply Hkeys. by apply Hsub.
    + rewrite Hbest. unfold keep_best.
      destruct (best_bid (simulator w) !! bid_parent_hash (bid rt)); [destruct (_ <? _)|]; cbn; by rewrite ?lookup_insert_ne.
Qed.

Lemma stuck_step {E} a n e w w' :
  committed a = false → stuck_on a w → harmless a e → (worker_step n e w : comp E Worker) = Ret w' →
  stuck_on a w' ∧ ∀ best, best_bid (simulator w') !! bid_parent_hash a = Some best →
                    best_bid (simulator w) !! bid_parent_hash a = Some best.
Proof.
  intros Hnc Hst He. destruct e as [d| | |k]; cbn [BidSimulator.worker_step].
  - intros [= <-]. split; [|done]. destruct Hst as [Hrun Hsim Hrq Hq Hkeys]. split; cbn; try done.
    intros d' [Hd|Hd%list_elem_of_singleton]%elem_of_app; [by apply Hq|subst d'; exact He].
  - unfold get_bid_and_send. destruct (bid_queue w) as [|d rest] eqn:Hbq; [by intros [= <-]|].
    intros ([req s'] & Hc & [= <-])%bind_Ret_inv.
    destruct (stuck_commit (E:=E) a n d s' req w Hnc Hst) as (H1 & H2 & H3 & H4 & H5); [rewrite Hbq; by left|exact Hc|].
    cbn [simulator]. rewrite (commit_keeps_best _ _ _ _ _ Hc). split; [|done].
    destruct Hst as [Hrun Hsim Hrq Hq Hkeys]. split; cbn; [done|by rewrite H3| |intros d' Hd; apply Hq; rewrite Hbq; by right|done].
    intros rt [Hr|Hr]%elem_of_app Hp.
    + destruct (Hrq rt Hr Hp) as [? Hin]. split; [done|by apply H4].
    + destruct req as [rt'|]; cbn in Hr; [apply list_elem_of_singleton in Hr as ->; by apply H5|by apply elem_of_nil in Hr].
  - destruct (requests w) as [|rt rest] eqn:Hreq; [by intros [= <-]|].
    intros (s' & Hs & [= <-])%bind_Ret_inv. destruct (stuck_simulate (E:=E) a rt rest w s' Hreq Hst Hs) as [Hst' Hb].
    split; [exact Hst'|]. cbn. by rewrite Hb.
  - intros [= <-]. destruct Hst as [Hrun (a' & Hsim & Hc) Hrq Hq Hkeys]. cbn [harmless] in He. split.
    + split; cbn; try done.
      * apply map_lookup_filter_Some. by split.
      * exists a'. split; [|done]. apply map_lookup_filter_Some. split; [done|]. destruct Hc as [_ Hn]. cbn. lia.
      * intros q b [Hb _]%map_lookup_filter_Some. by apply Hkeys.
    + intros best [Hb _]%clear_best. exact Hb.
Qed.

(** A bid that fails its simulation (for example because its claimed fee is
    too high) stays the one to run for its parent: until a bid comes that
    claims at least as much, every other bid for that parent is dropped in its
    favour, and its own repetitions are interrupted, so no bid becomes the best
    one, however many are sent. *)
Theorem failed_bid_blocks_others {E} a n events w w' :
  committed a = false → stuck_on a w → (∀ e, e ∈ events → harmless a e) →
  (worker_run n events w : comp E Worker) = Ret w' →
  best_bid (simulator w) !! bid_parent_hash a = None →
  best_bid (simulator w') !! bid_parent_hash a = None ∧ best_bid_to_run (simulator w') !! bid_parent_hash a = Some a.
Proof.
  intros Hnc. revert n w. induction events as [|e events IH]; intros n w Hst Hh; cbn [BidSimulator.worker_run].
  - intros [= <-] Hb. split; [done|apply Hst].
  - intros (w1 & H1 & Hr)%bind_Ret_inv Hb. destruct (stuck_step (E:=E) a n e w w1 Hnc Hst (Hh e ltac:(left)) H1) as [Hst1 Hb1].
    eapply IH; [exact Hst1|intros e' He'; apply Hh; by right|exact Hr|].
    destruct (best_bid (simulator w1) !! bid_parent_hash a) as [best|]; [|done]. by rewrite (Hb1 best eq_refl) in Hb.
Qed.

End WorkerProofs.

(** * Witnesses *)

Section Witnesses.
Import RefHardforks RefLibraries RefBuilder.
#[local] Existing Instance HeaderExtra.ref_hash.
#[local] Notation parent := Attestation.parent_header.
#[local] Instance wrapped_view : TxView := {|
  effective_tip_per_gas t base_fee := Some (wrapu 128 (gas_price (tx t) - base_fee));
  blob_versioned_hashes t := []; tx_blob_gas t := None |}.
#[local] Instance wrapped_view_laws : TxViewLaws wrapped_view.
Proof. split. intros t f tip [= <-]. by apply wrapu_is_u. Qed.

Definition example_tx (value price : Z) : TransactionSigned :=
  unsigned {| tx_type := Legacy; tx_chain_id := Some 97; tx_nonce := 0; gas_price := price; tx_gas_limit := 21000;
              tx_to := Some 5; tx_value := value; tx_input := []; tx_more := [] |}.
Definition from (a : Address) (t : TransactionSigned) : PoolTx := {| consensus := t; pool_sender := a |}.

(** A bid of one transaction and the payment that claims [fee]. *)
Definition example_bid (n : Z) (flag : positive) (fee : Z) : Bid :=
  {| builder := n; bid_block_number := 60000001; bid_parent_hash := hash_slow parent;
     bid_txs := [example_tx 1 5; example_tx 2 0]; bid_blob_sidecars := ∅; un_revertible := [1]; bid_gas_used := 42000;
     bid_gas_fee := fee; builder_fee := 10; committed := false; bid_hash := n; interrupt_flag := flag |}.
Definition example_attrs : EthPayloadBuilderAttributes :=
  {| attr_parent := hash_slow parent; attr_timestamp := timestamp parent + 1; suggested_fee_recipient := 10;
     prev_randao := 0; attr_parent_beacon_block_root := None |}.
Definition example_params (t : Z) : option BlobParams := None.

(** The pool has the bid's transaction, and another one of the same sender. *)
Definition example_best (base_fee : Z) (blob_fee : option Z) : list PoolTx :=
  [from 7 (example_tx 1 5); from 7 (example_tx 3 4)].
Definition values_of (m : gmap Address (list PoolTx)) : list (list PoolTx) := (map_to_list m).*2.
Definition example_builder (h : Header) (attrs : NextBlockEnvAttributes) : option (BlockEnv * list TransactionSigned) :=
  Some ({| block_number := number h + 1; block_beneficiary := next_suggested_fee_recipient attrs;
           block_timestamp := next_timestamp attrs; env_difficulty := 0; env_prevrandao := None;
           Evm.block_gas_limit := 30000000; env_basefee := 0; env_blob_excess_gas_and_price := None |}, []).
Definition known_state (h : B256) : option unit := Some tt.
Definition example_run (interrupted : bool) (rt : BidRuntime) : sim BidRuntime :=
  run_bid testnet_parlia example_params None 100 true 5 (λ t, Some 7) example_best (λ _, true) values_of known_state
    example_builder (λ _, 30000000) (λ _, [true; true; true]) 0 0 (λ _ _, true) interrupted rt.

Lemma example_pending f g txs :
  pending_txs values_of txs (example_best f g) = after_bid_txs (trie_hash <$> txs) (example_best f g).
Proof.
  unfold pending_txs, values_of, by_sender, example_best. cbn [foldl pool_sender from].
  rewrite insert_insert_eq, lookup_insert_eq, lookup_empty. cbn [default id app].
  rewrite fmap_insert, fmap_empty, insert_empty, map_to_list_singleton. cbn [fmap list_fmap snd mjoin list_join].
  by rewrite app_nil_r.
Qed.

Lemma example_pool_ok : pool_ok example_best values_of.
Proof.
  split; [done|]. intros f g txs. cbv zeta. rewrite example_pending.
  destruct (after_bid_txs_spec (trie_hash <$> txs) (example_best f g)) as [Hsub _]. split.
  - apply list.Forall_forall. intros u Hu. eapply elem_of_submseteq in Hu; [|by apply sublist_submseteq].
    repeat (apply elem_of_cons in Hu as [->|Hu]; [by split|]). by apply elem_of_nil in Hu.
  - apply sublist_length in Hsub. unfold zlen. change (2 ^ 31) with 2147483648.
    change (length (example_best f g)) with 2%nat in Hsub. lia.
Qed.

Lemma example_builder_ok : setup_ok example_builder.
Proof. split; [by intros h a b [= <-]|by intros p]. Qed.


(** A simulation that accepts claims up to 1000, from block 60000001 on. *)
Definition toy_run (interrupted : bool) (rt : BidRuntime) : sim BidRuntime :=
  if interrupted then Err BidInterrupted
  else if bid_block_number (bid rt) <? 60000001 then Err GasLimitExceeded
  else if 1000 <? bid_gas_fee (bid rt) then Err InvalidReward
  else Ret (set_packed (bid_gas_fee (bid rt)) 0 rt).
Definition toy_worker (n : nat) (events : list WorkerEvent) (w : Worker) : comp unit Worker :=
  worker_run (simulate toy_run true)
    (commit testnet_parlia 1000 10 (λ p t, None) (test_header 0 0 0) 10 (λ _ _, Some (three 60000000))
       (λ _ _, Some parent) (λ _, Some 0) (λ _, 1768357801000) (λ _, 0)) n events w.
Definition idle : Worker := {| bid_queue := []; requests := []; simulator := simulator_new |}.
Definition honest : Bid := example_bid 2 2 900.
Definition false_claim : Bid := example_bid 1 1 5000.

Definition ran (c : comp unit Worker) : Worker := match c with Ret w => w | _ => idle end.
Definition after_false_claim : Worker := ran (toy_worker 0 [BidPushed false_claim; BidPopped; SimulateNext] idle).

Definition after_honest : Worker := ran (toy_worker 0 [BidPushed honest; BidPopped; SimulateNext] idle).
Definition honest_events : list WorkerEvent := [BidPushed honest; BidPopped; SimulateNext; ClearOld 60000000].
Definition after_both : Worker := ran (toy_worker 3 honest_events after_false_claim).

(** Alone the honest bid becomes the best one; after the false claim it does
    not. *)
Lemma failed_bid_blocks_others_witness :
  packed_block_reward <$> (best_bid (simulator after_honest) !! hash_slow parent) = Some 900
  ∧ best_bid (simulator after_both) !! hash_slow parent = None.
Proof.
  split; [vm_compute; reflexivity|].
  assert (Hw : toy_worker 3 honest_events after_false_claim = Ret after_both) by (vm_compute; reflexivity).
  unfold toy_worker in Hw.
  refine (proj1 (failed_bid_blocks_others toy_run true testnet_parlia 1000 10 (λ p t, None) (test_header 0 0 0) 10
    (λ _ _, Some (three 60000000)) (λ _ _, Some parent) (λ _, Some 0) (λ _, 1768357801000) (λ _, 0) _
    false_claim 3 _ after_false_claim after_both _ _ _ Hw _)).
  - intros rt rt'. discriminate.
  - reflexivity.
  - split.
    + vm_compute. reflexivity.
    + exists (bid (commit_mark (runtime_new false_claim example_attrs (three 60000000) parent parent))).
      split; [vm_compute; reflexivity|by split].
    + intros rt Hr. assert (Hn : requests after_false_claim = []) by (vm_compute; reflexivity).
      rewrite Hn in Hr. destruct (proj1 (elem_of_nil _) Hr).
    + intros d Hd. assert (Hn : bid_queue after_false_claim = []) by (vm_compute; reflexivity).
      rewrite Hn in Hd. destruct (proj1 (elem_of_nil _) Hd).
    + assert (Hn : best_bid_to_run (simulator after_false_claim) = {[hash_slow parent := false_claim]}) by (vm_compute; reflexivity).
      rewrite Hn. intros q b [<- <-]%lookup_singleton_Some. reflexivity.
  - intros e He. apply elem_of_cons in He as [->|He].
    { intros _ [Hf _]. vm_compute in Hf. exact (Hf eq_refl). }
    apply elem_of_cons in He as [->|He]; [exact I|]. apply elem_of_cons in He as [->|He]; [exact I|].
    apply elem_of_cons in He as [->|He]; [vm_compute; discriminate|destruct (proj1 (elem_of_nil _) He)].
  - vm_compute. reflexivity.
Defined.

Definition more_events : list WorkerEvent := [BidPushed (example_bid 3 3 950); BidPopped; SimulateNext; ClearOld 60000000].
Definition after_second : Worker := ran (toy_worker 3 more_events after_honest).

Lemma best_bid_only_improves_witness :
  ∃ best best', best_bid (simulator after_honest) !! hash_slow parent = Some best ∧ packed_block_reward best = 900
  ∧ best_bid (simulator after_second) !! hash_slow parent = Some best' ∧ 900 <= packed_block_reward best'.
Proof.
  assert (Hf : packed_block_reward <$> (best_bid (simulator after_honest) !! hash_slow parent) = Some 900) by (vm_compute; reflexivity).
  destruct (best_bid (simulator after_honest) !! hash_slow parent) as [best|] eqn:Hb; [|discriminate].
  injection Hf as Hf.
  assert (Hw' : toy_worker 3 more_events after_honest = Ret after_second) by (vm_compute; reflexivity).
  unfold toy_worker in Hw'.
  destruct (best_bid_only_improves toy_run true testnet_parlia 1000 10 (λ p t, None) (test_header 0 0 0) 10
    (λ _ _, Some (three 60000000)) (λ _ _, Some parent) (λ _, Some 0) (λ _, 1768357801000) (λ _, 0)
    60000001 3 more_events after_honest after_second (hash_slow parent) best Hw') as (best' & Hb' & Hle & _).
  - intros k Hk. apply elem_of_cons in Hk as [Hk|Hk]; [discriminate Hk|].
    apply elem_of_cons in Hk as [Hk|Hk]; [discriminate Hk|]. apply elem_of_cons in Hk as [Hk|Hk]; [discriminate Hk|].
    apply elem_of_cons in Hk as [Hk|Hk]; [injection Hk as ->; vm_compute; discriminate|destruct (proj1 (elem_of_nil _) Hk)].
  - intros i rt rt' Hr. unfold toy_run in Hr. destruct i; [discriminate|].
    destruct (Z.ltb_spec (bid_block_number (bid rt)) 60000001) as [|Hge]; [discriminate|].
    destruct (1000 <? _); [discriminate|]. injection Hr as <-. exact Hge.
  - intros q b Hq. apply elem_of_map_to_list in Hq.
    assert (Hn : (λ e, bid_block_number (bid e.2)) <$> map_to_list (best_bid (simulator after_honest)) = [60000001])
      by (vm_compute; reflexivity).
    assert (Hin : bid_block_number (bid b) ∈ (λ e, bid_block_number (bid e.2)) <$> map_to_list (best_bid (simulator after_honest)))
      by (apply list_elem_of_fmap; exists (q, b); split; [reflexivity|exact Hq]).
    rewrite Hn in Hin. apply list_elem_of_singleton in Hin. rewrite Hin. apply Z.le_refl.
  - exact Hb.
  - exists best, best'. split; [reflexivity|]. split; [exact Hf|]. split; [exact Hb'|]. rewrite <- Hf. exact Hle.
Defined.

End Witnesses.
