(* ===== verification/MevApi.v ===== *)
(** * Bids over RPC ([src/rpc/mev.rs], the bid queue of [src/shared.rs])

    The methods of the [mev] namespace: decoding and checking a bid, the
    recovery of the builder that signed it, the whitelist of builders and the
    queue from which the worker of [BidSimulator.v] takes its bids.

    JSON decoding is that of the RPC library: the arguments arrive typed.  The
    decoders of transactions are parameters. *)

From S2P Require Import Prelude Hardforks Types Snapshot HeaderExtra Precompiles SystemContracts Evm HertzPatch Handler Execution Building Payload BidSimulator.

Record RawBid := {
  raw_block_number : Z;
  raw_parent_hash : B256;
  raw_txs : list (list Z);
  raw_un_revertible : list B256;
  raw_gas_used : Z;
  raw_gas_fee : Z;
  raw_builder_fee : option Z;
}.

Record BidArgs := {
  raw_bid : RawBid;
  signature : list Z;
  pay_bid_tx : list Z;
  pay_bid_tx_gas_used : Z;
}.

Record DecodedTransaction := { decoded_tx : TransactionSigned; sidecar : option (list Z) }.

Record MevParams := {
  p_validator_commission : Z;
  p_bid_simulation_left_over : Z;
  p_no_interrupt_left_over : Z;
  p_max_bids_per_builder : Z;
  p_gas_ceil : Z;
  p_gas_price : Z;
  p_builder_fee_ceil : Z;
  p_version : string;
}.

Inductive DecodeError := EmptyTransaction | DecodeFailed | WrongChainId | NoSigner | TooManyUnRevertible.
Inductive BuilderError := SignatureLength | BadMessage | BadRecoveryId | BadSignature | NoPublicKey.
Inductive RpcError :=
| ParentNotFound
| ParentHashMismatch
| BidSignature (e : BuilderError)
| BuilderNotRegistered
| ValidatorNotInturn
| ZeroGas
| BuilderFeeTooHigh
| PayBidTxEmpty
| PayBidTxGasTooHigh
| InvalidBid (e : DecodeError)
| QueueNotInitialized.
Notation rpc A := (comp RpcError A).

(** The configuration of the API, and its shared state: the whitelist, the
    queue of bids if it is initialised, and the flags that were handed out. *)
Record MevConfig := {
  validator_address : Address;
  validator_commission : Z;
  bid_simulation_left_over : Z;
  no_interrupt_left_over : Z;
  max_bids_per_builder : Z;
  gas_ceil : Z;
  min_gas_price : Z;
  builder_fee_ceil : Z;
  version : string;
}.
Record MevState := {
  allowed_builders : gset Address;
  bid_package_queue : option (list Bid);
  next_flag : positive;
}.

(** ** The queue of bids ([src/shared.rs]) *)

Definition set_queue (q : option (list Bid)) (s : MevState) : MevState :=
  {| allowed_builders := allowed_builders s; bid_package_queue := q; next_flag := next_flag s |}.
Definition set_builders (b : gset Address) (s : MevState) : MevState :=
  {| allowed_builders := b; bid_package_queue := bid_package_queue s; next_flag := next_flag s |}.

(** A [OnceLock] is set once. *)
Definition init_bid_package_queue (s : MevState) : MevState :=
  match bid_package_queue s with None => set_queue (Some []) s | Some _ => s end.
Definition push_bid_package (package : Bid) (s : MevState) : option MevState :=
  q ← bid_package_queue s; Some (set_queue (Some (q ++ [package])) s).
Definition pop_bid_package (s : MevState) : option Bid * MevState :=
  match bid_package_queue s with
  | Some (b :: q) => (Some b, set_queue (Some q) s)
  | _ => (None, s)
  end.
Definition bid_package_queue_len (s : MevState) : Z := default 0 (zlen <$> bid_package_queue s).

(** ** The whitelist *)

Definition is_builder_allowed (builder : Address) (s : MevState) : bool := bool_decide (builder ∈ allowed_builders s).
Definition add_builder_internal (builder : Address) (s : MevState) : bool * MevState :=
  (negb (is_builder_allowed builder s), set_builders ({[builder]} ∪ allowed_builders s) s).
Definition remove_builder_internal (builder : Address) (s : MevState) : bool * MevState :=
  (is_builder_allowed builder s, set_builders (allowed_builders s ∖ {[builder]}) s).

Section Api.
Context `{SL : Sealable} `{KE : Keccak} `{RL : Rlp} `{SE : Secp256k1} `{TH : TxHashing}.
Variable config : MevConfig.
Variable chain_id : Z.
Variable snapshot_by_hash : B256 → option Snapshot.
Variable get_header_by_number : Z → option Header.
(** [TransactionSigned::decode], [TxEip4844WithSidecar] of a payload, and the
    recovery of a signer. *)
Variable decode : list Z → option TransactionSigned.
Variable try_decode_blob_tx_with_sidecar : list Z → option (TransactionSigned * list Z).
Variable recover_signer : TransactionSigned → option Address.
Variable mev_running : bool.

(** ** Transactions *)

Definition check_chain_and_signer (t : TransactionSigned) : comp DecodeError unit :=
  match tx_chain_id (tx t) with
  | Some tx_chain_id => if negb (tx_chain_id =? chain_id) then Err WrongChainId else
                          _ ← ok_or (recover_signer t) NoSigner; Ret tt
  | None => _ ← ok_or (recover_signer t) NoSigner; Ret tt
  end.

Definition parse_transaction (tx_bytes : list Z) : comp DecodeError TransactionSigned :=
  t ← ok_or (decode tx_bytes) DecodeFailed;
  _ ← check_chain_and_signer t;
  Ret t.

Definition decode_transaction_with_sidecar (tx_bytes : list Z) : comp DecodeError DecodedTransaction :=
  match tx_bytes with
  | [] => Err EmptyTransaction
  | tx_type :: payload =>
      let plain := t ← parse_transaction tx_bytes; Ret {| decoded_tx := t; sidecar := None |} in
      if 0xc0 <? tx_type then plain
      else if tx_type =? 3 then
        match try_decode_blob_tx_with_sidecar payload with
        | Some (t, sidecar) => _ ← check_chain_and_signer t; Ret {| decoded_tx := t; sidecar := Some sidecar |}
        | None => plain
        end
      else plain
  end.

(** The transactions of a bid, with the sidecars by their hashes. *)
Fixpoint decode_txs (txs : list (list Z)) (acc : list TransactionSigned * gmap B256 (list Z))
    : comp DecodeError (list TransactionSigned * gmap B256 (list Z)) :=
  match txs with
  | [] => Ret acc
  | b :: txs =>
      d ← decode_transaction_with_sidecar b;
      let sidecars := match sidecar d with
                      | Some sc => <[trie_hash (decoded_tx d) := sc]> acc.2
                      | None => acc.2
                      end in
      decode_txs txs (acc.1 ++ [decoded_tx d], sidecars)
  end.

Definition to_bid (args : BidArgs) (builder : Address) (bid_hash : B256) (flag : positive) : comp DecodeError Bid :=
  '(txs, sidecars) ← decode_txs (raw_txs (raw_bid args)) ([], ∅);
  if zlen txs <? zlen (raw_un_revertible (raw_bid args)) then Err TooManyUnRevertible
  else
    '(txs, sidecars) ← (if bool_decide (pay_bid_tx args = []) then Ret (txs, sidecars)
                        else decode_txs [pay_bid_tx args] (txs, sidecars));
    Ret {| BidSimulator.builder := builder; bid_block_number := raw_block_number (raw_bid args);
           bid_parent_hash := raw_parent_hash (raw_bid args); bid_txs := txs; bid_blob_sidecars := sidecars;
           un_revertible := raw_un_revertible (raw_bid args); bid_gas_used := raw_gas_used (raw_bid args);
           bid_gas_fee := raw_gas_fee (raw_bid args); builder_fee := default 0 (raw_builder_fee (raw_bid args));
           committed := false; bid_hash := bid_hash; interrupt_flag := flag |}.

(** ** The builder of a bid *)

(** [Vec<Bytes>] and [Vec<B256>] in RLP: the header of the list and its items. *)
Definition rlp_list (items : list (list Z)) : list Z :=
  rlp_list_header (zlen (mjoin items)) ++ mjoin items.

Definition calculate_raw_bid_hash (r : RawBid) : B256 :=
  let builder_fee := default 0 (raw_builder_fee r) in
  let txs := rlp_list (rlp_bytes <$> raw_txs r) in
  let hashes := rlp_list ((λ h, rlp_bytes (be_encode 32 h)) <$> raw_un_revertible r) in
  let parent := be_encode 32 (raw_parent_hash r) in
  let payload_length :=
    rlp_uint_length (raw_block_number r) + rlp_bytes_length parent + zlen txs + zlen hashes
    + rlp_uint_length (raw_gas_used r) + rlp_uint_length (raw_gas_fee r) + rlp_uint_length builder_fee in
  keccak256 (rlp_list_header payload_length ++ rlp_uint (raw_block_number r) ++ rlp_bytes parent ++ txs ++ hashes
             ++ rlp_uint (raw_gas_used r) ++ rlp_uint (raw_gas_fee r) ++ rlp_uint builder_fee).

Definition recover_builder_address (r : RawBid) (signature : list Z) : comp BuilderError Address :=
  if negb (zlen signature =? 65) then Err SignatureLength
  else
    message ← ok_or (from_digest_slice (be_encode 32 (calculate_raw_bid_hash r))) BadMessage;
    recovery_id ← index signature 64;
    let recovery_id_value := if 27 <=? recovery_id then recovery_id - 27 else recovery_id in
    recovery_id ← ok_or (recovery_id_try_from recovery_id_value) BadRecoveryId;
    sig_bytes ← slice signature 0 64;
    recoverable_sig ← ok_or (from_compact sig_bytes recovery_id) BadSignature;
    public_key ← ok_or (recover_ecdsa message recoverable_sig) NoPublicKey;
    key ← slice_from (serialize_uncompressed public_key) 1;
    tail ← slice_from (be_encode 32 (keccak256 key)) 12;
    Ret (be_decode tail).

(** ** The methods *)

(** The checks of a bid, up to its conversion; the hash is that of the bid. *)
Definition check_bid (bid : BidArgs) (s : MevState) : rpc Address :=
  let r := raw_bid bid in
  parent_header ← ok_or (get_header_by_number (saturating_sub (raw_block_number r) 1)) ParentNotFound;
  if negb (raw_parent_hash r =? hash_slow parent_header) then Err ParentHashMismatch
  else
    builder ← map_err BidSignature (recover_builder_address r (signature bid));
    if negb (is_builder_allowed builder s) then Err BuilderNotRegistered
    else
      _ ← match snapshot_by_hash (hash_slow parent_header) with
          | Some snapshot =>
              inturn ← is_inturn snapshot (validator_address config);
              if negb inturn then Err ValidatorNotInturn else Ret tt
          | None => Ret tt
          end;
      if (raw_gas_fee r =? 0) || (raw_gas_used r =? 0) then Err ZeroGas
      else if (match raw_builder_fee r with Some fee => raw_gas_fee r <? fee | None => false end) then Err BuilderFeeTooHigh
      else if bool_decide (pay_bid_tx bid = []) || (pay_bid_tx_gas_used bid =? 0) then Err PayBidTxEmpty
      else if PAY_BID_TX_GAS_LIMIT <? pay_bid_tx_gas_used bid then Err PayBidTxGasTooHigh
      else Ret builder.

Definition send_bid (bid : BidArgs) (s : MevState) : rpc (B256 * MevState) :=
  builder ← check_bid bid s;
  let bid_hash := calculate_raw_bid_hash (raw_bid bid) in
  bid_obj ← map_err InvalidBid (to_bid bid builder bid_hash (next_flag s));
  let s := {| allowed_builders := allowed_builders s; bid_package_queue := bid_package_queue s;
              next_flag := Pos.succ (next_flag s) |} in
  s ← ok_or (push_bid_package bid_obj s) QueueNotInitialized;
  Ret (bid_hash, s).

(** Milliseconds are returned as nanoseconds. *)
Definition params : MevParams :=
  {| p_validator_commission := validator_commission config;
     p_bid_simulation_left_over := mul64 (bid_simulation_left_over config) 1000000;
     p_no_interrupt_left_over := mul64 (no_interrupt_left_over config) 1000000;
     p_max_bids_per_builder := max_bids_per_builder config; p_gas_ceil := gas_ceil config;
     p_gas_price := min_gas_price config; p_builder_fee_ceil := builder_fee_ceil config;
     p_version := version config |}.
Definition running : bool := mev_running.
Definition has_builder (builder : Address) (s : MevState) : bool := is_builder_allowed builder s.
Definition add_builder (builder : Address) (s : MevState) : bool * MevState := add_builder_internal builder s.
Definition remove_builder (builder : Address) (s : MevState) : bool * MevState := remove_builder_internal builder s.

End Api.

(** * Proofs *)

Section Proofs.
Context `{SL : Sealable} `{KE : Keccak} `{RL : Rlp} `{SE : Secp256k1} `{SEL : !Secp256k1Laws SE} `{TH : TxHashing}.
Variable config : MevConfig.
Variable chain_id : Z.
Variable snapshot_by_hash : B256 → option Snapshot.
Variable get_header_by_number : Z → option Header.
Variable decode : list Z → option TransactionSigned.
Variable try_decode_blob_tx_with_sidecar : list Z → option (TransactionSigned * list Z).
Variable recover_signer : TransactionSigned → option Address.

#[local] Notation decode_tx := (decode_transaction_with_sidecar chain_id decode try_decode_blob_tx_with_sidecar recover_signer).
#[local] Notation decode_txs := (decode_txs chain_id decode try_decode_blob_tx_with_sidecar recover_signer).
#[local] Notation send_bid := (send_bid config chain_id snapshot_by_hash get_header_by_number decode
  try_decode_blob_tx_with_sidecar recover_signer).
#[local] Notation check_bid := (check_bid config snapshot_by_hash get_header_by_number).

(** The decoders give typed transactions. *)
Definition decoders_typed : Prop :=
  (∀ b t, decode b = Some t → is_u 64 (tx_gas_limit (tx t)))
  ∧ ∀ b t sc, try_decode_blob_tx_with_sidecar b = Some (t, sc) → is_u 64 (tx_gas_limit (tx t)).

(** A transaction that a bid may contain: for this chain, with a signer. *)
Definition admissible (t : TransactionSigned) : Prop :=
  (∀ c, tx_chain_id (tx t) = Some c → c = chain_id) ∧ is_Some (recover_signer t) ∧ is_u 64 (tx_gas_limit (tx t)).

Lemma check_chain_ok t :
  check_chain_and_signer chain_id recover_signer t = Ret tt →
  (∀ c, tx_chain_id (tx t) = Some c → c = chain_id) ∧ is_Some (recover_signer t).
Proof.
  unfold check_chain_and_signer. destruct (tx_chain_id (tx t)) as [c|].
  - destruct (Z.eqb_spec c chain_id) as [->|]; [|done]. intros (a & Ha%ok_or_Ret & _)%bind_Ret_inv.
    split; [by intros c [= <-]|by eexists].
  - intros (a & Ha%ok_or_Ret & _)%bind_Ret_inv. split; [done|by eexists].
Qed.

Lemma decode_tx_ok b d : decoders_typed → decode_tx b = Ret d → admissible (decoded_tx d).
Proof.
  intros [Hd Hs]. unfold decode_transaction_with_sidecar. destruct b as [|ty payload]; [done|]. cbv zeta.
  assert (Hplain : (t ← parse_transaction chain_id decode recover_signer (ty :: payload);
                    Ret {| decoded_tx := t; sidecar := None |}) = Ret d → admissible (decoded_tx d)).
  { intros (t & Ht & [= <-])%bind_Ret_inv. apply bind_Ret_inv in Ht as (t' & Hdec%ok_or_Ret & Ht).
    apply bind_Ret_inv in Ht as ([] & Hc & [= <-]). cbn. destruct (check_chain_ok _ Hc). split_and!; try done. by eapply Hd. }
  destruct (0xc0 <? ty); [exact Hplain|]. destruct (ty =? 3); [|exact Hplain].
  destruct (try_decode_blob_tx_with_sidecar payload) as [[t sc]|] eqn:Hblob; [|exact Hplain].
  intros ([] & Hc & [= <-])%bind_Ret_inv. cbn. destruct (check_chain_ok _ Hc). split_and!; try done. by eapply Hs.
Qed.

(** The transactions that encoded transactions hold, one for one. *)
Definition decodes (bs : list (list Z)) (txs : list TransactionSigned) : Prop :=
  Forall2 (λ b t, ∃ d, decode_tx b = Ret d ∧ decoded_tx d = t) bs txs.

Lemma decode_txs_ok bs txs m txs' m' :
  decoders_typed → decode_txs bs (txs, m) = Ret (txs', m') →
  ∃ new, txs' = txs ++ new ∧ decodes bs new ∧ Forall admissible new.
Proof.
  intros Hty. revert txs m. induction bs as [|b bs IH]; intros txs m; cbn [MevApi.decode_txs].
  - intros [= <- <-]. exists []. rewrite app_nil_r. by repeat constructor.
  - intros (d & Hd & Hr)%bind_Ret_inv. apply IH in Hr as (new & -> & Hdec & Hall). exists (decoded_tx d :: new).
    cbn [fst]. split; [by rewrite <- app_assoc|]. split; [|constructor; [by eapply decode_tx_ok|done]].
    constructor; [by exists d|done].
Qed.

(** What an accepted bid brings into the queue. *)
Record queued_bid (args : BidArgs) (s : MevState) (d : Bid) : Prop := {
  qb_typed : bid_typed d;
  qb_fresh : committed d = false ∧ interrupt_flag d = next_flag s;
  qb_builder : recover_builder_address (raw_bid args) (signature args) = Ret (BidSimulator.builder d)
    ∧ BidSimulator.builder d ∈ allowed_builders s;
  qb_parent : ∃ h, get_header_by_number (saturating_sub (bid_block_number d) 1) = Some h ∧ bid_parent_hash d = hash_slow h;
  qb_fees : 0 < bid_gas_fee d ∧ builder_fee d <= bid_gas_fee d;
  qb_txs : Forall admissible (bid_txs d) ∧ ∃ txs pay, bid_txs d = txs ++ [pay]
    ∧ decodes (raw_txs (raw_bid args)) txs ∧ decodes [pay_bid_tx args] [pay];
  qb_claims : bid_block_number d = raw_block_number (raw_bid args) ∧ bid_gas_used d = raw_gas_used (raw_bid args)
    ∧ bid_gas_fee d = raw_gas_fee (raw_bid args) ∧ builder_fee d = default 0 (raw_builder_fee (raw_bid args))
    ∧ un_revertible d = raw_un_revertible (raw_bid args);
  qb_un_revertible : zlen (un_revertible d) < zlen (bid_txs d);
}.

(** The arguments are within their types. *)
Record args_typed (args : BidArgs) : Prop := {
  at_gas_fee : is_u 256 (raw_gas_fee (raw_bid args));
  at_builder_fee f : raw_builder_fee (raw_bid args) = Some f → is_u 256 f;
  at_txs : zlen (raw_txs (raw_bid args)) < 2 ^ 29;
}.

Lemma check_bid_ok args s b :
  check_bid args s = Ret b →
  (∃ h, get_header_by_number (saturating_sub (raw_block_number (raw_bid args)) 1) = Some h
        ∧ raw_parent_hash (raw_bid args) = hash_slow h)
  ∧ recover_builder_address (raw_bid args) (signature args) = Ret b ∧ b ∈ allowed_builders s
  ∧ raw_gas_fee (raw_bid args) ≠ 0 ∧ (∀ f, raw_builder_fee (raw_bid args) = Some f → f <= raw_gas_fee (raw_bid args))
  ∧ pay_bid_tx args ≠ [].
Proof.
  intros (h & Hh%ok_or_Ret & Hk)%bind_Ret_inv.
  destruct (Z.eqb_spec (raw_parent_hash (raw_bid args)) (hash_slow h)) as [Hp|]; [|discriminate]. cbn [negb] in Hk.
  apply bind_Ret_inv in Hk as (b' & Hb & Hk). unfold is_builder_allowed in Hk.
  case_bool_decide as Hin; [|discriminate]. cbn [negb] in Hk. apply bind_Ret_inv in Hk as ([] & _ & Hk).
  destruct (Z.eqb_spec (raw_gas_fee (raw_bid args)) 0); [discriminate|]. destruct (_ =? 0); [discriminate|]. cbn [orb] in Hk.
  destruct (match raw_builder_fee (raw_bid args) with Some _ => _ | None => _ end) eqn:Hf; [discriminate|].
  case_bool_decide as Hpay; [discriminate|]. destruct (_ =? 0); [discriminate|]. destruct (_ <? _); [discriminate|].
  injection Hk as <-. split_and!; try done; [by exists h|by destruct (recover_builder_address _ _); simplify_eq/=|].
  intros f Hfee. rewrite Hfee in Hf. by apply Z.ltb_ge in Hf.
Qed.

(** C16. What [mev_sendBid] accepts is well formed: the queue grows by one bid,
    signed by a builder of the whitelist, on the canonical parent of its number;
    its numbers are those of the request and within their types; its transactions
    are those of the request in their order and then the payment of the request,
    each decoded from its bytes, for this chain and with a signer; the builder's
    fee is at most its positive gas fee, and its interrupt flag is new.  So the simulator's
    conditions on a bid hold for every bid that comes from the queue. *)
Theorem accepted_bid_typed args s h s' :
  decoders_typed → args_typed args → send_bid args s = Ret (h, s') →
  ∃ q d, bid_package_queue s = Some q ∧ bid_package_queue s' = Some (q ++ [d]) ∧ queued_bid args s d
  ∧ bid_hash d = h ∧ next_flag s' = Pos.succ (next_flag s).
Proof.
  intros Hty [Hgf Hbf Hn] (b & Hc & Hk)%bind_Ret_inv. destruct (check_bid_ok _ _ _ Hc) as ((hd & Hh & Hp) & Hrec & Hin & H0 & Hfee & Hpay).
  apply bind_Ret_inv in Hk as (d & Hd & Hk). apply bind_Ret_inv in Hk as (s2 & Hs2%ok_or_Ret & [= <- <-]).
  unfold push_bid_package in Hs2. cbn [bid_package_queue] in Hs2. apply bind_Some in Hs2 as (q & Hq & [= <-]).
  exists q, d. split; [done|]. split; [done|].
  destruct (to_bid _ _ _ _ args b _ (next_flag s)) as [d'|e| |] eqn:Hto; try discriminate. injection Hd as ->.
  apply bind_Ret_inv in Hto as ([txs m] & Htxs & Hto). destruct (Z.ltb_spec (zlen txs) (zlen (raw_un_revertible (raw_bid args)))); [discriminate|].
  rewrite bool_decide_false in Hto by done. apply bind_Ret_inv in Hto as ([txs2 m2] & Hpt & Hto).
  destruct (decode_txs_ok _ _ _ _ _ Hty Htxs) as (new & Enew & Hdec & Hall). cbn [app] in Enew. subst new.
  destruct (decode_txs_ok _ _ _ _ _ Hty Hpt) as (last & -> & Hdec1 & Hall1).
  pose proof (Forall2_length Hdec) as Hlen. pose proof (Forall2_length Hdec1) as Hl1.
  destruct last as [|pay [|]]; try discriminate Hl1. injection Hto as <-.
  assert (Hadm : Forall admissible (txs ++ [pay])) by (by apply Forall_app).
  split; [|done]. split; cbn; try done.
  - split; cbn.
    + split; [revert Hadm; apply Forall_impl; by intros t (_ & _ & Ht)|]. rewrite zlen_app. unfold zlen in *. rewrite <- Hlen. cbn [length].
      change (2 ^ 29) with 536870912 in Hn. change (2 ^ 30) with 1073741824. lia.
    + split; [done|]. destruct (raw_builder_fee (raw_bid args)) as [f|]; [by apply Hbf|by split].
  - by exists hd.
  - split; [destruct Hgf; lia|]. destruct (raw_builder_fee (raw_bid args)) as [f|]; [by apply Hfee|destruct Hgf; cbn; lia].
  - split; [done|]. by exists txs, pay.
  - rewrite zlen_app. unfold zlen at 3. cbn [length]. lia.
Qed.

(** ** A signed bid *)

(** The signature of a bid with a key, with the recovery identifier as [secp256k1]
    gives it or as Ethereum writes it. *)
Definition sign_bid (ethereum : bool) (r : RawBid) (k : SecretKey) : list Z :=
  let s := sign_ecdsa_recoverable (from_digest (be_encode 32 (calculate_raw_bid_hash r))) k in
  (serialize_compact s).2
  ++ [recovery_id_to_i32 (serialize_compact s).1 + if ethereum then 27 else 0].

Lemma signed_bid_recovers ethereum r k :
  (∀ i : RecoveryId, recovery_id_to_i32 i < 4) →
  recover_builder_address r (sign_bid ethereum r k) = Ret (address_of_key (public_key_of k)).
Proof.
  intros Hid. unfold recover_builder_address, sign_bid. set (s := sign_ecdsa_recoverable _ k).
  pose proof (serialize_compact_length s) as Hlen. set (v := recovery_id_to_i32 _ + _).
  assert (Hv : (if 27 <=? v then v - 27 else v) = recovery_id_to_i32 (serialize_compact s).1).
  { unfold v. pose proof (Hid (serialize_compact s).1). pose proof (recovery_id_byte (serialize_compact s).1) as [? _].
    destruct ethereum; destruct (Z.leb_spec 27 (recovery_id_to_i32 (serialize_compact s).1 + 27)),
      (Z.leb_spec 27 (recovery_id_to_i32 (serialize_compact s).1 + 0)); lia. }
  rewrite zlen_snoc, Hlen. cbn [Z.eqb negb Z.add Pos.add Pos.eqb].
  rewrite from_digest_slice_ok by apply zlen_be_encode. cbn [ok_or mbind comp_bind].
  rewrite index_app_middle by done. cbn [mbind comp_bind]. rewrite Hv, recovery_id_roundtrip. cbn [ok_or mbind comp_bind].
  rewrite slice_prefix by done. cbn [mbind comp_bind]. rewrite compact_roundtrip. cbn [ok_or mbind comp_bind].
  unfold s. rewrite recover_sign. cbn [ok_or mbind comp_bind]. apply key_bytes_address.
Qed.

Lemma decode_txs_total bs acc :
  Forall (λ b, ∃ d, decode_tx b = Ret d) bs → ∃ new m, decode_txs bs acc = Ret (acc.1 ++ new, m) ∧ length new = length bs.
Proof.
  intros Hall. revert acc. induction Hall as [|b bs [d Hd] _ IH]; intros acc; cbn [MevApi.decode_txs].
  - exists [], acc.2. rewrite app_nil_r. by destruct acc.
  - rewrite Hd. cbn [mbind comp_bind]. match goal with |- context [MevApi.decode_txs _ _ _ _ bs ?a] => destruct (IH a) as (new & m & -> & Hl) end.
    exists (decoded_tx d :: new), m. cbn [fst]. rewrite <- app_assoc. split; [done|by cbn; rewrite Hl].
Qed.

(** An honest bid: the parent is canonical, its builder is allowed and signed
    it, the validator is in turn if its snapshot is known, the fees are sound and
    every transaction decodes. *)
Record honest_bid (args : BidArgs) (s : MevState) (ethereum : bool) (k : SecretKey) : Prop := {
  hb_parent : ∃ h, get_header_by_number (saturating_sub (raw_block_number (raw_bid args)) 1) = Some h
    ∧ raw_parent_hash (raw_bid args) = hash_slow h
    ∧ ∀ snap, snapshot_by_hash (hash_slow h) = Some snap → is_inturn (E:=RpcError) snap (validator_address config) = Ret true;
  hb_signature : signature args = sign_bid ethereum (raw_bid args) k;
  hb_builder : address_of_key (public_key_of k) ∈ allowed_builders s;
  hb_gas : 0 < raw_gas_fee (raw_bid args) ∧ 0 < raw_gas_used (raw_bid args);
  hb_fee f : raw_builder_fee (raw_bid args) = Some f → f <= raw_gas_fee (raw_bid args);
  hb_pay : pay_bid_tx args ≠ [] ∧ 0 < pay_bid_tx_gas_used args <= PAY_BID_TX_GAS_LIMIT;
  hb_txs : Forall (λ b, ∃ d, decode_tx b = Ret d) (raw_txs (raw_bid args) ++ [pay_bid_tx args]);
  hb_un_revertible : zlen (raw_un_revertible (raw_bid args)) <= zlen (raw_txs (raw_bid args));
}.

Lemma honest_bid_checked args s ethereum k :
  (∀ i : RecoveryId, recovery_id_to_i32 i < 4) → honest_bid args s ethereum k →
  check_bid args s = Ret (address_of_key (public_key_of k)).
Proof.
  intros Hid [(h & Hh & Hp & Hturn) Hsig Hin [Hfee Hused] Hbf [Hpay [Hpg Hpl]] _ _]. unfold MevApi.check_bid.
  rewrite Hh. cbn [ok_or mbind comp_bind]. rewrite Hp, Z.eqb_refl, Hsig. cbn [negb].
  rewrite signed_bid_recovers by done. cbn [map_err mbind comp_bind]. unfold is_builder_allowed.
  rewrite bool_decide_true by done. cbn [negb].
  assert (Ht : match snapshot_by_hash (hash_slow h) with
               | Some snap => inturn ← is_inturn snap (validator_address config);
                              if negb inturn then Err ValidatorNotInturn else Ret tt
               | None => Ret tt
               end = Ret tt).
  { destruct (snapshot_by_hash (hash_slow h)) as [snap|]; [|done]. by rewrite (Hturn snap eq_refl). }
  rewrite Ht. cbn [mbind comp_bind]. rewrite !(proj2 (Z.eqb_neq _ 0)) by lia. cbn [orb].
  rewrite bool_decide_false by done. rewrite (proj2 (Z.ltb_ge PAY_BID_TX_GAS_LIMIT _)) by lia. cbn [orb].
  destruct (raw_builder_fee (raw_bid args)) as [f|] eqn:Hf; [|done]. by rewrite (proj2 (Z.ltb_ge _ _)) by by apply Hbf.
Qed.

(** Taking [n] bids from the queue. *)
Fixpoint pop_bids (n : nat) (s : MevState) : MevState :=
  match n with O => s | S n => pop_bids n (pop_bid_package s).2 end.

Lemma pop_bids_queue q r s : bid_package_queue s = Some (q ++ r) → bid_package_queue (pop_bids (length q) s) = Some r.
Proof.
  revert s. induction q as [|b q IH]; intros s Hs; [done|]. cbn [length pop_bids]. apply IH.
  unfold pop_bid_package. cbn [app] in Hs. by rewrite Hs.
Qed.

(** An honest bid reaches the simulator: when the builder is allowed and
    signs the hash of the bid with its key, in either convention for the
    recovery byte, [mev_sendBid] recovers the builder's address, returns the hash
    and queues the bid behind those before it, from where [pop_bid_package]
    takes it after exactly those. *)
Theorem honest_bid_accepted args s q ethereum k :
  (∀ i : RecoveryId, recovery_id_to_i32 i < 4) → honest_bid args s ethereum k → bid_package_queue s = Some q →
  ∃ s' b, send_bid args s = Ret (calculate_raw_bid_hash (raw_bid args), s')
  ∧ (pop_bid_package (pop_bids (length q) s')).1 = Some b
  ∧ BidSimulator.builder b = address_of_key (public_key_of k) ∧ bid_hash b = calculate_raw_bid_hash (raw_bid args)
  ∧ zlen (bid_txs b) = zlen (raw_txs (raw_bid args)) + 1 ∧ bid_gas_fee b = raw_gas_fee (raw_bid args)
  ∧ un_revertible b = raw_un_revertible (raw_bid args).
Proof.
  intros Hid Hb Hq. unfold MevApi.send_bid. rewrite (honest_bid_checked _ _ _ _ Hid Hb). cbn [mbind comp_bind].
  pose proof (hb_un_revertible _ _ _ _ Hb) as Hur. pose proof (proj1 (hb_pay _ _ _ _ Hb)) as Hpay.
  destruct (proj1 (Forall_app _ _ _) (hb_txs _ _ _ _ Hb)) as [Htxs Hptx]. clear Hb. unfold to_bid.
  destruct (decode_txs_total _ ([], ∅) Htxs) as (txs & m & -> & Hl). cbn [mbind comp_bind app fst].
  unfold zlen at 1. rewrite Hl. change (Z.of_nat _) with (zlen (raw_txs (raw_bid args))). rewrite (proj2 (Z.ltb_ge _ _)) by done.
  rewrite bool_decide_false by done. destruct (decode_txs_total _ (txs, m) Hptx) as (pay & m' & -> & Hl').
  cbn [mbind comp_bind map_err fst push_bid_package bid_package_queue]. rewrite Hq. cbn [mbind option_bind ok_or comp_bind].
  match goal with |- context [set_queue (Some (q ++ [?b])) ?s0] => exists (set_queue (Some (q ++ [b])) s0), b end.
  split; [done|]. split_and!; try done.
  - unfold pop_bid_package. rewrite (pop_bids_queue q) with (r := [_]) by reflexivity. done.
  - cbn. rewrite zlen_app. unfold zlen. by rewrite Hl, Hl'.
Qed.

End Proofs.

(** * Witnesses *)

Section Witnesses.
Import RefLibraries RefBuilder.
#[local] Existing Instance HeaderExtra.ref_hash.
#[local] Notation parent := Attestation.parent_header.

(** Transactions are their first byte, which is the key and the sender. *)
Definition example_decode (b : list Z) : option TransactionSigned :=
  x ← head b; Some (BidSimulator.example_tx x 5).
Definition example_blob (b : list Z) : option (TransactionSigned * list Z) := None.
Definition example_signer (t : TransactionSigned) : option Address := Some 7.
Definition example_header (n : Z) : option Header := if n =? number parent then Some parent else None.
Definition example_config : MevConfig :=
  {| validator_address := 10; validator_commission := 100; bid_simulation_left_over := 50; no_interrupt_left_over := 250;
     max_bids_per_builder := 2; gas_ceil := 30000000; min_gas_price := 1; builder_fee_ceil := 0; version := "1.0" |}.
Definition example_raw : RawBid :=
  {| raw_block_number := number parent + 1; raw_parent_hash := hash_slow parent; raw_txs := [[1]; [3; 2]];
     raw_un_revertible := [9]; raw_gas_used := 42000; raw_gas_fee := 1000; raw_builder_fee := Some 10 |}.
Definition builder_key : SecretKey := 1234 : Z.
Definition example_args (r : RawBid) : BidArgs :=
  {| raw_bid := r; signature := sign_bid true r builder_key; pay_bid_tx := [4]; pay_bid_tx_gas_used := 21000 |}.
Definition listening : MevState :=
  {| allowed_builders := {[address_of_key (public_key_of builder_key)]}; bid_package_queue := Some []; next_flag := 1 |}.
Definition example_send (args : BidArgs) (s : MevState) : rpc (B256 * MevState) :=
  send_bid example_config 97 (λ _, None) example_header example_decode example_blob example_signer args s.

(** The state after the bid. *)
Definition first_bid : MevState := match example_send (example_args example_raw) listening with Ret (_, s) => s | _ => listening end.

Lemma example_decode_typed b t : example_decode b = Some t → is_u 64 (tx_gas_limit (tx t)).
Proof.
  intros (x & _ & Ht)%bind_Some. apply (inj Some) in Ht as <-.
  change (is_u 64 21000). by split.
Qed.

Lemma example_args_typed : args_typed (example_args example_raw).
Proof.
  split; cbn [raw_bid example_args example_raw raw_gas_fee raw_builder_fee raw_txs].
  - split; [done|vm_compute; reflexivity].
  - intros f Hf. apply (inj Some) in Hf as <-. split; [done|vm_compute; reflexivity].
  - vm_compute. reflexivity.
Qed.

Lemma accepted_bid_typed_witness :
  ∃ q d, bid_package_queue first_bid = Some (q ++ [d]) ∧ BidSimulator.builder d ∈ allowed_builders listening
  ∧ bid_typed d ∧ next_flag first_bid = 2%positive.
Proof.
  assert (Hok : (if example_send (example_args example_raw) listening is Ret _ then true else false) = true) by (vm_compute; reflexivity).
  destruct (example_send (example_args example_raw) listening) as [[h s']| | |] eqn:Hs; try discriminate Hok.
  assert (Hf : first_bid = s') by (unfold first_bid; by rewrite Hs). unfold example_send in Hs.
  destruct (accepted_bid_typed example_config 97 (λ _, None) example_header example_decode example_blob example_signer
    (example_args example_raw) listening h s') as (q & d & _ & Hq & [Hty _ [_ Hb] _ _ _ _ _] & _ & Hn); [| |exact Hs|].
  - split; [|by intros b t sc]. exact example_decode_typed.
  - exact example_args_typed.
  - exists q, d. rewrite Hf. split; [exact Hq|]. split; [exact Hb|]. split; [exact Hty|exact Hn].
Defined.

(** A queue that already holds a bid. *)
Definition busy : MevState := set_queue (Some [BidSimulator.example_bid 1 1 5]) listening.

Lemma honest_bid_accepted_witness :
  ∃ s' b, example_send (example_args example_raw) busy = Ret (calculate_raw_bid_hash example_raw, s')
  ∧ (pop_bid_package (pop_bids 1 s')).1 = Some b ∧ zlen (bid_txs b) = 3
  ∧ BidSimulator.builder b = address_of_key (public_key_of builder_key).
Proof.
  destruct (honest_bid_accepted example_config 97 (λ _, None) example_header example_decode example_blob example_signer
    (example_args example_raw) busy [BidSimulator.example_bid 1 1 5] true builder_key) as (s' & b & Hs & Hp & Hb & _ & Htx & _); [|split|reflexivity|].
  - by intros [].
  - exists parent. split; [reflexivity|]. split; [reflexivity|]. by intros snap.
  - reflexivity.
  - exact (proj2 (elem_of_singleton (C:=gset Address) _ _) eq_refl).
  - by split.
  - by intros f [= <-].
  - by split.
  - repeat constructor; eexists; reflexivity.
  - vm_compute. discriminate.
  - exists s', b. split; [exact Hs|]. split; [exact Hp|]. split; [exact Htx|exact Hb].
Defined.

End Witnesses.
