(* ===== verification/Shared.v ===== *)
(** * State shared by the components ([src/shared.rs])

    The cache of full blocks that answers range requests, and the trait through
    which the miner and the import service reach the fork choice.  The other
    globals of the file are handles set once; the components that read them take
    them as parameters, the queue of bids is in [MevApi.v]. *)

From S2P Require Import Prelude Hardforks Types Snapshot HeaderExtra SystemContracts ForkChoice Evm Execution Building.

(** ** The fork choice behind its trait *)

(** [ForkChoiceEngineTrait]: both operations may change the engine's cache. *)
Class ForkChoiceEngineTrait := {
  Engine : Type;
  engine_update : Header → Engine → comp ParliaConsensusErr unit * Engine;
  engine_is_need_reorg : Header → Header → Engine → comp ParliaConsensusErr bool * Engine;
}.

Section Engine.
Context `{FCA : ForkConditionApi} {CS : Type} `{!BscHardforks CS} `{SL : Sealable}.
Context `{TC : !LruApi (option Z)}.
Variable spec : CS.
Variable snapshot_by_hash : option (B256 → option Snapshot).
Variable query_td : Z → B256 → comp ParliaConsensusErr (option Z).
Variable fork_choice_updated : ForkchoiceState → option string.
Variable best_number : comp ParliaConsensusErr Z.
Variable header_by_number : Z → comp ParliaConsensusErr (option Header).
Variable draw : bool.

(** [BscForkChoiceEngine] implements the trait. *)
Definition bsc_fork_choice_engine : ForkChoiceEngineTrait := {|
  Engine := LruMap (option Z);
  engine_update header cache :=
    let '(r, cache) := update_forkchoice spec snapshot_by_hash query_td fork_choice_updated best_number
                         header_by_number draw header cache in
    (_ ← r; Ret tt, cache);
  engine_is_need_reorg incoming current cache :=
    engine_need_reorg spec snapshot_by_hash query_td draw incoming current cache;
|}.

End Engine.

(** ** Caches that keep their order

    [lru::LruCache], [schnellru::LruMap] and [reth::network::cache::LruCache]
    where what they evict matters: the entries, the most recent first.  A read
    makes its entry the most recent one, a peek does not, and an insertion drops
    the oldest entry beyond the capacity. *)
Class OrderedLru (V : Type) := {
  OLru : Type;
  olru_new : Z → OLru;
  olru_peek : OLru → Z → option V;
  olru_get : OLru → Z → option V * OLru;
  olru_put : OLru → Z → V → OLru;
  olru_capacity : OLru → Z;
  olru_order : OLru → list (Z * V);
}.
Arguments OLru V {_}.

Definition assoc {V} (l : list (Z * V)) (k : Z) : option V :=
  snd <$> (list_find (λ e, e.1 = k) l ≫= λ p, Some p.2).
Definition without {V} (k : Z) (l : list (Z * V)) : list (Z * V) := filter (λ e, e.1 ≠ k) l.

Class OrderedLruLaws V `(OrderedLru V) : Prop := {
  olru_new_order n : olru_order (olru_new n) = [] ∧ olru_capacity (olru_new n) = n;
  olru_peek_value c k : olru_peek c k = assoc (olru_order c) k;
  olru_get_value c k : (olru_get c k).1 = assoc (olru_order c) k;
  olru_get_order c k :
    olru_order (olru_get c k).2
    = match assoc (olru_order c) k with Some v => (k, v) :: without k (olru_order c) | None => olru_order c end
    ∧ olru_capacity (olru_get c k).2 = olru_capacity c;
  olru_put_order c k v :
    olru_order (olru_put c k v) = take (Z.to_nat (olru_capacity c)) ((k, v) :: without k (olru_order c))
    ∧ olru_capacity (olru_put c k v) = olru_capacity c;
}.

(** ** The cache of full blocks *)

Definition BODY_CACHE_CAPACITY : Z := 512.

Section BodyCache.
Context `{SL : Sealable} `{BC : !LruApi BscBlock} `{NC : !LruApi B256}.

Record BodyCache := { by_hash : LruMap BscBlock; by_number : LruMap B256 }.

Definition cache_full_block (block : BscBlock) (self : BodyCache) : BodyCache :=
  let hash := hash_slow (block_header block) in
  {| by_hash := lru_insert (by_hash self) hash block;
     by_number := lru_insert (by_number self) (number (block_header block)) hash |}.

Definition get_cached_block_by_hash (hash : B256) (self : BodyCache) : option BscBlock * BodyCache :=
  let '(o, m) := lru_get (by_hash self) hash in
  (o, {| by_hash := m; by_number := by_number self |}).

Definition get_cached_block_by_number (n : Z) (self : BodyCache) : option BscBlock * BodyCache :=
  let '(h_ref, m) := lru_get (by_number self) n in
  let self := {| by_hash := by_hash self; by_number := m |} in
  match h_ref with
  | Some h => get_cached_block_by_hash h self
  | None => (None, self)
  end.

End BodyCache.

(** * Proofs *)

Section Proofs.
Context `{SL : Sealable} `{BC : !LruApi BscBlock} `{NC : !LruApi B256} `{BL : !LruLaws BscBlock BC} `{NL : !LruLaws B256 NC}.
Implicit Types (c : BodyCache) (b : BscBlock).

(** Blocks are filed under their hashes, and hashes under the number of a block
    with this hash, among the headers that were [seen]. *)
Record coherent (seen : Header → Prop) (c : BodyCache) : Prop := {
  co_hash h b : lru_entries (by_hash c) !! h = Some b → hash_slow (block_header b) = h ∧ seen (block_header b);
  co_number n h : lru_entries (by_number c) !! n = Some h → ∃ x, hash_slow x = h ∧ number x = n ∧ seen x;
}.

(** The hashes of the headers that were seen do not collide. *)
Definition no_collision (seen : Header → Prop) : Prop :=
  ∀ x y, seen x → seen y → hash_slow x = hash_slow y → x = y.

(** The entries of [c'] are among those of [c]. *)
Definition cached_in c c' : Prop :=
  lru_entries (by_hash c) = lru_entries (by_hash c') ∧ lru_entries (by_number c) = lru_entries (by_number c').

#[export] Instance cached_in_equivalence : Equivalence cached_in.
Proof. split; [by intros c|by intros c c' []|intros c c' c'' [] []; split; congruence]. Qed.

#[export] Instance coherent_proper seen : Proper (cached_in ==> iff) (coherent seen).
Proof.
  intros c c' [E1 E2]. split; intros [Hh Hn]; split.
  - by rewrite <- E1.
  - by rewrite <- E2.
  - by rewrite E1.
  - by rewrite E2.
Qed.

Lemma get_by_hash_spec h c :
  (get_cached_block_by_hash h c).1 = lru_entries (by_hash c) !! h ∧ cached_in (get_cached_block_by_hash h c).2 c.
Proof.
  unfold get_cached_block_by_hash. pose proof (lru_get_value (by_hash c) h) as Hv.
  pose proof (lru_get_entries (by_hash c) h) as He. destruct (lru_get (by_hash c) h) as [o m]. cbn in *. by subst.
Qed.

Lemma get_by_number_spec n c :
  (get_cached_block_by_number n c).1 = (h ← lru_entries (by_number c) !! n; lru_entries (by_hash c) !! h)
  ∧ cached_in (get_cached_block_by_number n c).2 c.
Proof.
  unfold get_cached_block_by_number. pose proof (lru_get_value (by_number c) n) as Hv.
  pose proof (lru_get_entries (by_number c) n) as He. destruct (lru_get (by_number c) n) as [o m]. cbn [fst snd] in *. subst o.
  destruct (lru_entries (by_number c) !! n) as [h|]; [|by split].
  destruct (get_by_hash_spec h {| by_hash := by_hash c; by_number := m |}) as [-> [E1 E2]].
  split; [done|]. split; [exact E1|by rewrite E2].
Qed.

Lemma cache_full_block_coherent seen b c :
  seen (block_header b) → coherent seen c → coherent seen (cache_full_block b c).
Proof.
  intros Hs [Hh Hn]. split.
  - intros h b' Hb. pose proof (lookup_weaken _ _ _ _ Hb (lru_insert_entries _ _ _)) as Hw.
    destruct (decide (h = hash_slow (block_header b))) as [->|Hne].
    + rewrite lookup_insert_eq in Hw. by injection Hw as <-.
    + rewrite lookup_insert_ne in Hw by done. by apply Hh.
  - intros n h Hb. pose proof (lookup_weaken _ _ _ _ Hb (lru_insert_entries _ _ _)) as Hw.
    destruct (decide (n = number (block_header b))) as [->|Hne].
    + rewrite lookup_insert_eq in Hw. injection Hw as <-. by exists (block_header b).
    + rewrite lookup_insert_ne in Hw by done. by apply Hn.
Qed.

(** A block that the cache gives has the hash that was asked for, or, when
    hashes do not collide, the number. *)
Lemma cached_by_hash_sound seen h c b :
  coherent seen c → (get_cached_block_by_hash h c).1 = Some b → hash_slow (block_header b) = h.
Proof. intros [Hh _]. rewrite (proj1 (get_by_hash_spec h c)). intros Hb. apply (Hh _ _ Hb). Qed.

Lemma cached_by_number_sound seen n c b :
  no_collision seen → coherent seen c → (get_cached_block_by_number n c).1 = Some b → number (block_header b) = n.
Proof.
  intros Hinj [Hh Hn]. rewrite (proj1 (get_by_number_spec n c)). intros (h & Hh' & Hb)%bind_Some.
  destruct (Hn _ _ Hh') as (x & Hx & <- & Hsx). destruct (Hh _ _ Hb) as [Hbh Hsb].
  by rewrite (Hinj _ _ Hsb Hsx (eq_trans Hbh (eq_sym Hx))).
Qed.

End Proofs.

(** ** Ordered caches *)

Section Ordered.
Context {V : Type}.
Implicit Types (l : list (Z * V)) (k : Z).

Lemma assoc_cons e l k : assoc (e :: l) k = if decide (e.1 = k) then Some e.2 else assoc l k.
Proof. unfold assoc. cbn. destruct (decide (e.1 = k)); [done|]. by destruct (list_find _ l) as [[]|]. Qed.

Lemma assoc_None l k : assoc l k = None ↔ k ∉ l.*1.
Proof.
  induction l as [|e l IH]; [split; [intros _; apply not_elem_of_nil|done]|].
  rewrite assoc_cons, fmap_cons, not_elem_of_cons. case_decide; [split; [done|intros [? _]; congruence]|].
  rewrite IH. split; [intros; split; congruence|tauto].
Qed.

Lemma assoc_elem l k v : assoc l k = Some v → (k, v) ∈ l.
Proof.
  induction l as [|[k' v'] l IH]; [done|]. rewrite assoc_cons. cbn. case_decide; [|right; auto].
  intros [= ->]. subst. left.
Qed.

Lemma without_fresh l k : k ∉ l.*1 → without k l = l.
Proof.
  intros Hk. unfold without. induction l as [|e l IH]; [done|]. apply not_elem_of_cons in Hk as [Hne Hk].
  rewrite filter_cons_True by (intros Heq; by apply Hne). f_equal. by apply IH.
Qed.

Lemma without_keys l k : (without k l).*1 = filter (λ x, x ≠ k) l.*1.
Proof.
  unfold without. induction l as [|e l IH]; [done|]. rewrite fmap_cons, !filter_cons.
  repeat case_decide; try done. by rewrite fmap_cons, IH.
Qed.

End Ordered.

Section OrderedLru.
Context {V : Type} `{OL : !OrderedLru V} `{LL : !OrderedLruLaws V OL}.
Implicit Types (c : OLru V) (k : Z).

(** The key is among the [n] most recent ones. *)
Definition within (n : nat) k c : Prop := k ∈ take n (olru_order c).*1.

Lemma within_mono n m k c : (n <= m)%nat → within n k c → within m k c.
Proof. intros Hn. unfold within. rewrite !elem_of_take. intros (i & Hi & Hl). exists i. split; [done|lia]. Qed.

Lemma within_assoc n k c : within n k c → is_Some (assoc (olru_order c) k).
Proof.
  unfold within. rewrite elem_of_take. intros (i & Hi & _). destruct (assoc (olru_order c) k) eqn:Ha; [by eexists|].
  apply assoc_None in Ha. destruct Ha. by apply list_elem_of_lookup_2 in Hi.
Qed.

Lemma filter_take_elem n k k' (l : list Z) : k ≠ k' → k ∈ take n l → k ∈ take n (filter (λ x, x ≠ k') l).
Proof.
  intros Hk. revert n. induction l as [|x l IH]; intros [|n] Hin; cbn [take] in Hin; try by (apply elem_of_nil in Hin).
  rewrite filter_cons. apply elem_of_cons in Hin as [->|Hin].
  - rewrite decide_True by done. left.
  - case_decide; [right; by apply IH|]. specialize (IH n Hin). rewrite elem_of_take in *.
    destruct IH as (i & Hi & Hl). exists i. split; [done|lia].
Qed.

(** An insertion is the most recent one and moves the others by at most one. *)
Lemma put_within_new k v c : 0 < olru_capacity c → within 1 k (olru_put c k v).
Proof.
  intros Hc. unfold within. rewrite (proj1 (olru_put_order c k v)), fmap_take, take_take.
  replace (1 `min` Z.to_nat (olru_capacity c))%nat with 1%nat by lia. left.
Qed.

Lemma put_within_old n k k' v c :
  (Z.of_nat (S n) <= olru_capacity c) → within n k c → within (S n) k (olru_put c k' v).
Proof.
  intros Hc. unfold within. rewrite (proj1 (olru_put_order c k' v)), fmap_take, take_take.
  replace (S n `min` Z.to_nat (olru_capacity c))%nat with (S n) by lia. rewrite fmap_cons, without_keys. cbn [fst take].
  intros Hin. destruct (decide (k = k')) as [->|Hne]; [left|right]. by apply filter_take_elem.
Qed.

(** A read too. *)
Lemma get_within n k k' c : within n k c → within (S n) k (olru_get c k').2.
Proof.
  unfold within. rewrite (proj1 (olru_get_order c k')). destruct (assoc (olru_order c) k') as [v|].
  - intros Hin. rewrite fmap_cons, without_keys. cbn [fst take].
    destruct (decide (k = k')) as [->|Hne]; [left|right]. by apply filter_take_elem.
  - apply within_mono. lia.
Qed.

(** *** How long an entry is kept *)

Definition keys_distinct c : Prop := NoDup (olru_order c).*1.

(** The entry of [k] is [v], and the keys that are more recent are in [S]. *)
Definition kept k (v : V) (S : gset Z) c : Prop :=
  ∃ l1 l2, olru_order c = l1 ++ (k, v) :: l2 ∧ list_to_set l1.*1 ⊆ S.

Lemma NoDup_keys_without k (l : list (Z * V)) : NoDup l.*1 → NoDup (without k l).*1.
Proof. intros Hl. rewrite without_keys. by apply list.NoDup_filter. Qed.

Lemma not_elem_without k (l : list (Z * V)) : k ∉ (without k l).*1.
Proof. rewrite without_keys. intros [Hk _]%list_elem_of_filter. done. Qed.

Lemma put_distinct k v c : keys_distinct c → keys_distinct (olru_put c k v).
Proof.
  unfold keys_distinct. intros Hc. rewrite (proj1 (olru_put_order c k v)), fmap_take.
  eapply sublist_NoDup; [|apply sublist_take]. rewrite fmap_cons. apply list.NoDup_cons.
  split; [apply not_elem_without|by apply NoDup_keys_without].
Qed.

Lemma get_distinct k c : keys_distinct c → keys_distinct (olru_get c k).2.
Proof.
  unfold keys_distinct. intros Hc. rewrite (proj1 (olru_get_order c k)). destruct (assoc _ k); [|done].
  rewrite fmap_cons. apply list.NoDup_cons. split; [apply not_elem_without|by apply NoDup_keys_without].
Qed.

Lemma kept_assoc k v S c : keys_distinct c → kept k v S c → assoc (olru_order c) k = Some v.
Proof.
  unfold keys_distinct. intros Hd (l1 & l2 & He & _). rewrite He in *. clear He.
  induction l1 as [|e l1 IH]; cbn [app] in *; rewrite assoc_cons; [by rewrite decide_True|].
  rewrite fmap_cons in Hd. apply list.NoDup_cons in Hd as [He Hd]. rewrite decide_False; [by apply IH|].
  intros <-. apply He. rewrite fmap_app, fmap_cons. apply elem_of_app. right. left.
Qed.

Lemma kept_mono k v S S' c : S ⊆ S' → kept k v S c → kept k v S' c.
Proof. intros HS (l1 & l2 & He & Hl). exists l1, l2. split; [done|set_solver]. Qed.

(** What becomes the most recent is in front of it. *)
Lemma kept_front k k' (v w : V) (S : gset Z) (l1 l2 : list (Z * V)) :
  k ≠ k' → list_to_set l1.*1 ⊆ S →
  (k', w) :: without k' (l1 ++ (k, v) :: l2) = ((k', w) :: without k' l1) ++ (k, v) :: without k' l2
  ∧ list_to_set ((k', w) :: without k' l1).*1 ⊆ ({[k']} ∪ S : gset Z).
Proof.
  intros Hne Hl. split.
  - unfold without. rewrite list.filter_app, filter_cons_True by done. done.
  - rewrite fmap_cons, list_to_set_cons, without_keys. apply union_mono_l. intros x Hx.
    apply Hl. apply elem_of_list_to_set in Hx. apply list_elem_of_filter in Hx as [_ Hx]. by apply elem_of_list_to_set.
Qed.

Lemma put_kept_new k v c : 0 < olru_capacity c → kept k v ∅ (olru_put c k v).
Proof.
  intros Hc. destruct (Z.to_nat (olru_capacity c)) as [|n] eqn:Hn; [lia|].
  exists [], (take n (without k (olru_order c))). split; [|done]. by rewrite (proj1 (olru_put_order c k v)), Hn.
Qed.

Lemma put_kept k k' v w S c :
  keys_distinct c → kept k v S c → k ≠ k' → Z.of_nat (size ({[k']} ∪ S)) < olru_capacity c →
  kept k v ({[k']} ∪ S) (olru_put c k' w).
Proof.
  unfold keys_distinct. intros Hd (l1 & l2 & He & Hl) Hne Hsize. unfold kept. rewrite (proj1 (olru_put_order c k' w)), He in *.
  destruct (kept_front k k' v w S l1 l2 Hne Hl) as [-> Hsub]. set (front := (k', w) :: without k' l1) in *.
  exists front, (take (Z.to_nat (olru_capacity c) - length front - 1) (without k' l2)). split; [|done].
  assert (Hlen : (length front <= size (({[k']} : gset Z) ∪ S))%nat).
  { rewrite <- (length_fmap fst front), <- (size_list_to_set (C:=gset Z)); [by apply subseteq_size|].
    unfold front. rewrite fmap_cons. apply list.NoDup_cons. split; [apply not_elem_without|]. apply NoDup_keys_without.
    rewrite fmap_app in Hd. by apply list.NoDup_app in Hd as [? _]. }
  rewrite take_app_ge by lia. f_equal. destruct (Z.to_nat (olru_capacity c) - length front)%nat as [|m] eqn:Hm; [lia|].
  cbn [take]. f_equal. f_equal. lia.
Qed.

Lemma get_kept k k' v S c : kept k v S c → k ≠ k' → kept k v ({[k']} ∪ S) (olru_get c k').2.
Proof.
  intros Hk Hne. destruct (assoc (olru_order c) k') as [w|] eqn:Ha.
  - destruct Hk as (l1 & l2 & He & Hl). unfold kept. rewrite (proj1 (olru_get_order c k')), Ha, He.
    destruct (kept_front k k' v w S l1 l2 Hne Hl) as [-> Hsub]. by eexists _, _.
  - revert Hk. intros (l1 & l2 & He & Hl). exists l1, l2.
    rewrite (proj1 (olru_get_order c k')), Ha. split; [done|set_solver].
Qed.

End OrderedLru.

Module RefLru.

#[export] Instance ref_ordered_lru V : OrderedLru V := {|
  OLru := Z * list (Z * V);
  olru_new n := (n, []);
  olru_peek c k := assoc c.2 k;
  olru_get c k := match assoc c.2 k with Some v => (Some v, (c.1, (k, v) :: without k c.2)) | None => (None, c) end;
  olru_put c k v := (c.1, take (Z.to_nat c.1) ((k, v) :: without k c.2));
  olru_capacity c := c.1;
  olru_order c := c.2;
|}.
#[export] Instance ref_ordered_lru_laws V : OrderedLruLaws V (ref_ordered_lru V).
Proof.
  split; [by intros n|by intros c k| | |by intros c k v].
  - intros [n l] k. cbn -[assoc without]. by destruct (assoc l k).
  - intros [n l] k. cbn -[assoc without]. by destruct (assoc l k).
Qed.

End RefLru.
