(* ===== verification/BscProtocol.v ===== *)
(** * The [bsc] subprotocol ([src/node/network/bsc_protocol/],
      [blocks_by_range.rs], [votes.rs], [evn.rs], [evn_peers.rs])

    Packets and their encoding, the stream of a connection as a function of what
    arrives between two polls, the answer to a range request from the cache of
    [Shared.v], the registry of peers, the requests and broadcasts that go
    through it, and the enhanced validator network.  The derived RLP codecs are
    parameters, and so are the clock and the network. *)

From S2P Require Import Prelude Hardforks Types VotePool SystemContracts Evm Execution Building Shared.

(** ** Packets *)

Definition BSC_MESSAGE_COUNT_V1 : Z := 2.
Definition BSC_MESSAGE_COUNT_V2 : Z := 4.
Inductive BscProtoMessageId := Capability | Votes | GetBlocksByRange | BlocksByRange.
Definition message_id (m : BscProtoMessageId) : Z :=
  match m with Capability => 0 | Votes => 1 | GetBlocksByRange => 2 | BlocksByRange => 3 end.
Definition protocol_message_count (version : Z) : Z :=
  if version =? 1 then BSC_MESSAGE_COUNT_V1 else if version =? 2 then BSC_MESSAGE_COUNT_V2 else BSC_MESSAGE_COUNT_V1.

Definition MAX_REQUEST_RANGE_BLOCKS_COUNT : Z := 64.

Record BscCapPacket := { protocol_version : Z; cap_extra : list Z }.
Record GetBlocksByRangePacket := {
  request_id : Z;
  start_block_height : Z;
  start_block_hash : B256;
  count : Z;
}.
Record BlocksByRangePacket := { answered_id : Z; blocks : list BscBlock }.

(** [alloy_rlp]: [Header::decode] gives the kind, the length of the payload and
    the rest, and fails when the rest is shorter than the payload; the derived codecs of the packets read one item and ignore what
    follows it. *)
Class PacketRlp := {
  rlp_decode_header : list Z → option (bool * Z * list Z);
  rlp_decode_uint : list Z → option (Z * list Z);
  rlp_encode_votes : list VoteEnvelope → list Z;
  rlp_decode_votes : list Z → option (list VoteEnvelope);
  rlp_encode_request : GetBlocksByRangePacket → list Z;
  rlp_decode_request : list Z → option GetBlocksByRangePacket;
  rlp_encode_blocks : BlocksByRangePacket → list Z;
  rlp_decode_blocks : list Z → option BlocksByRangePacket;
}.
Class PacketRlpLaws `(RL : Rlp) `(PR : PacketRlp) : Prop := {
  rlp_header_roundtrip n rest :
    0 <= n <= zlen rest → rlp_decode_header (rlp_list_header n ++ rest) = Some (true, n, rest);
  rlp_header_short n rest : zlen rest < n < 2 ^ 64 → rlp_decode_header (rlp_list_header n ++ rest) = None;
  rlp_uint_roundtrip z rest : is_u 64 z → rlp_decode_uint (rlp_uint z ++ rest) = Some (z, rest);
  rlp_uint_byte z : 0 <= z < 128 → zlen (rlp_uint z) = 1;
  rlp_votes_roundtrip v rest : rlp_decode_votes (rlp_encode_votes v ++ rest) = Some v;
  rlp_request_roundtrip p rest : rlp_decode_request (rlp_encode_request p ++ rest) = Some p;
  rlp_blocks_roundtrip p rest : rlp_decode_blocks (rlp_encode_blocks p ++ rest) = Some p;
}.

Inductive RlpError := InputTooShort | UnexpectedString | CustomError | DecoderError.
Notation decoded A := (comp RlpError A).

Section Packets.
Context `{RL : Rlp} `{PR : PacketRlp}.

(** The message identifier, as a raw byte. *)
Definition read_id (m : BscProtoMessageId) (buf : list Z) : decoded (list Z) :=
  match buf with
  | [] => Err InputTooShort
  | id :: buf => if negb (id =? message_id m) then Err CustomError else Ret buf
  end.

Definition encode_cap (p : BscCapPacket) : list Z :=
  let protocol_version_encoded := rlp_uint (protocol_version p) in
  let payload_length := zlen protocol_version_encoded + zlen (cap_extra p) in
  message_id Capability :: rlp_list_header payload_length ++ protocol_version_encoded ++ cap_extra p.

(** [payload_length - 1] takes the version to be one byte. *)
Definition decode_cap (buf : list Z) : decoded BscCapPacket :=
  buf ← read_id Capability buf;
  '(is_list, payload_length, buf) ← ok_or (rlp_decode_header buf) DecoderError;
  if negb is_list then Err UnexpectedString
  else
    '(version, buf) ← ok_or (rlp_decode_uint buf) DecoderError;
    let remaining_len := sub64 payload_length 1 in
    if zlen buf <? remaining_len then Err InputTooShort
    else extra ← slice buf 0 remaining_len; Ret {| protocol_version := version; cap_extra := extra |}.

Definition encode_votes (votes : list VoteEnvelope) : list Z := message_id Votes :: rlp_encode_votes votes.
Definition decode_votes (buf : list Z) : decoded (list VoteEnvelope) :=
  buf ← read_id Votes buf; ok_or (rlp_decode_votes buf) CustomError.
Definition encode_request (p : GetBlocksByRangePacket) : list Z := message_id GetBlocksByRange :: rlp_encode_request p.
Definition decode_request (buf : list Z) : decoded GetBlocksByRangePacket :=
  buf ← read_id GetBlocksByRange buf; ok_or (rlp_decode_request buf) DecoderError.
Definition encode_blocks (p : BlocksByRangePacket) : list Z := message_id BlocksByRange :: rlp_encode_blocks p.
Definition decode_blocks (buf : list Z) : decoded BlocksByRangePacket :=
  buf ← read_id BlocksByRange buf; ok_or (rlp_decode_blocks buf) DecoderError.

End Packets.

(** ** Answering a range request *)

Section Range.
Context `{SL : Sealable} `{BC : !LruApi BscBlock} `{NC : !LruApi B256}.

Fixpoint walk_parents (remaining : nat) (current_block : option BscBlock) (cache : BodyCache) : list BscBlock * BodyCache :=
  match current_block, remaining with
  | Some block, S remaining =>
      let parent_hash := parent_hash (block_header block) in
      let '(next, cache) := if negb (parent_hash =? ZERO) then get_cached_block_by_hash parent_hash cache else (None, cache) in
      let '(rest, cache) := walk_parents remaining next cache in
      (block :: rest, cache)
  | _, _ => ([], cache)
  end.

Definition build_blocks_by_range_response (req : GetBlocksByRangePacket) (cache : BodyCache)
    : BlocksByRangePacket * BodyCache :=
  let '(current_block, cache) :=
    if negb (start_block_hash req =? ZERO) then get_cached_block_by_hash (start_block_hash req) cache
    else get_cached_block_by_number (start_block_height req) cache in
  let '(blocks, cache) := walk_parents (Z.to_nat (Z.min (count req) MAX_REQUEST_RANGE_BLOCKS_COUNT)) current_block cache in
  ({| answered_id := request_id req; blocks := blocks |}, cache).

End Range.

(** ** A connection *)

(** Times are in milliseconds. *)
Definition HANDSHAKE_TIMEOUT : Z := 5000.
Definition PENDING_REQ_TTL : Z := 15000.
Definition PRUNE_INTERVAL : Z := 5000.

(** The other end of a request, a [oneshot] channel. *)
Definition Waiter : Type := positive.
Inductive BscCommand :=
| SendCapability (version : Z) (extra : list Z)
| SendVotes (votes : list VoteEnvelope)
| SendRequest (req : GetBlocksByRangePacket) (tx : Waiter)
| SendBlocks (packet : BlocksByRangePacket).

Record BscProtocolConnection := {
  handshake_deadline : option Z;
  handshake_completed : bool;
  initial_capability : option BscCommand;
  pending_range_reqs : gmap Z (Waiter * Z);
  proto_version : Z;
  last_prune : Z;
}.

(** What a connection shares with the node: the votes, the cache of blocks and
    the answers handed to the waiters. *)
Record Shared `{BC : !LruApi BscBlock} `{NC : !LruApi B256} := {
  votes : VotePool;
  body_cache : BodyCache;
  delivered : list (Waiter * BlocksByRangePacket);
}.

(** What a poll returns: a frame to send, the end of the stream, or nothing. *)
Inductive Poll := Frame (bytes : list Z) | Ended | Pending.

Definition connection_new (version now : Z) : BscProtocolConnection :=
  {| handshake_deadline := Some (now + HANDSHAKE_TIMEOUT); handshake_completed := false;
     initial_capability := Some (SendCapability version [0]); pending_range_reqs := ∅;
     proto_version := version; last_prune := now |}.

Definition set_pending (m : gmap Z (Waiter * Z)) (prune : Z) (c : BscProtocolConnection) : BscProtocolConnection :=
  {| handshake_deadline := handshake_deadline c; handshake_completed := handshake_completed c;
     initial_capability := initial_capability c; pending_range_reqs := m; proto_version := proto_version c;
     last_prune := prune |}.
Definition complete_handshake (c : BscProtocolConnection) : BscProtocolConnection :=
  {| handshake_deadline := None; handshake_completed := true; initial_capability := initial_capability c;
     pending_range_reqs := pending_range_reqs c; proto_version := proto_version c; last_prune := last_prune c |}.
Definition take_initial (c : BscProtocolConnection) : BscProtocolConnection :=
  {| handshake_deadline := handshake_deadline c; handshake_completed := handshake_completed c;
     initial_capability := None; pending_range_reqs := pending_range_reqs c; proto_version := proto_version c;
     last_prune := last_prune c |}.

Section Connection.
Context `{SL : Sealable} `{BC : !LruApi BscBlock} `{NC : !LruApi B256} `{KE : Keccak} `{VR : VoteRlp}.
Context `{RL : Rlp} `{PR : PacketRlp}.
(** The time of the poll, and whether a waiter has gone ([tx.is_closed()]). *)
Variable now : Z.
Variable is_closed : Waiter → bool.

Definition prune_pending_requests (c : BscProtocolConnection) : BscProtocolConnection :=
  if now - last_prune c <? PRUNE_INTERVAL then c
  else set_pending (filter (λ e, is_closed e.2.1 = false ∧ now - e.2.2 <= PENDING_REQ_TTL) (pending_range_reqs c)) now c.

Definition encode_command (cmd : BscCommand) : list Z :=
  match cmd with
  | SendCapability version extra => encode_cap {| protocol_version := version; cap_extra := extra |}
  | SendVotes votes => encode_votes votes
  | SendRequest req _ => encode_request req
  | SendBlocks packet => encode_blocks packet
  end.

(** The next command of the queue. *)
Definition poll_outgoing_commands (commands : list BscCommand) (c : BscProtocolConnection)
    : option (list Z) * list BscCommand * BscProtocolConnection :=
  let c := prune_pending_requests c in
  match commands with
  | [] => (None, [], c)
  | SendRequest req tx :: commands =>
      (Some (encode_request req), commands,
       set_pending (<[request_id req := (tx, now)]> (pending_range_reqs c)) (last_prune c) c)
  | other :: commands => (Some (encode_command other), commands, c)
  end.

(** [None]: the stream ends. *)
Definition handle_handshake_frame (frame : list Z) (c : BscProtocolConnection) : option BscProtocolConnection :=
  if (match handshake_deadline c with Some deadline => deadline <=? now | None => false end) then None
  else if negb (bool_decide (head frame = Some (message_id Capability))) then None
  else
    match decode_cap frame with
    | Ret pkt => if negb (protocol_version pkt =? proto_version c) then None else Some (complete_handshake c)
    | _ => None
    end.

(** The answer to a frame, if there is one. *)
Definition handle_protocol_message (frame : list Z) (c : BscProtocolConnection) (w : Shared)
    : option (list Z) * BscProtocolConnection * Shared :=
  match head frame with
  | Some msg_id =>
      if msg_id =? message_id Votes then
        match decode_votes frame with
        | Ret packet =>
            (None, c, {| votes := handle_votes_broadcast packet (votes w); body_cache := body_cache w; delivered := delivered w |})
        | _ => (None, c, w)
        end
      else if msg_id =? message_id GetBlocksByRange then
        match decode_request frame with
        | Ret req =>
            if (count req =? 0) || (MAX_REQUEST_RANGE_BLOCKS_COUNT <? count req) then (None, c, w)
            else
              let '(resp, cache) := build_blocks_by_range_response req (body_cache w) in
              (Some (encode_command (SendBlocks resp)), c,
               {| votes := votes w; body_cache := cache; delivered := delivered w |})
        | _ => (None, c, w)
        end
      else if msg_id =? message_id BlocksByRange then
        match decode_blocks frame with
        | Ret res =>
            match pending_range_reqs c !! answered_id res with
            | Some (waiter, _) =>
                (None, set_pending (delete (answered_id res) (pending_range_reqs c)) (last_prune c) c,
                 {| votes := votes w; body_cache := body_cache w;
                    delivered := if is_closed waiter then delivered w else delivered w ++ [(waiter, res)] |})
            | None => (None, c, w)
            end
        | _ => (None, c, w)
        end
      else (None, c, w)
  | None => (None, c, w)
  end.

(** The loop of [poll_next] over the frames that have arrived; [gone]: after
    them the peer has closed the connection. *)
Fixpoint poll_frames (gone : bool) (commands : list BscCommand) (frames : list (list Z)) (c : BscProtocolConnection) (w : Shared)
    : Poll * list BscCommand * list (list Z) * BscProtocolConnection * Shared :=
  let '(encoded, commands, c) := poll_outgoing_commands commands c in
  match encoded with
  | Some encoded_command => (Frame encoded_command, commands, frames, c, w)
  | None =>
      match frames with
      | [] => (if gone then Ended else Pending, commands, [], c, w)
      | [] :: frames => poll_frames gone commands frames c w
      | frame :: frames =>
          let c := prune_pending_requests c in
          if negb (handshake_completed c) then
            match handle_handshake_frame frame c with
            | Some c => poll_frames gone commands frames c w
            | None => (Ended, commands, frames, c, w)
            end
          else
            let '(response, c, w) := handle_protocol_message frame c w in
            match response with
            | Some response => (Frame response, commands, frames, c, w)
            | None => poll_frames gone commands frames c w
            end
      end
  end.

Definition poll_next (gone : bool) (commands : list BscCommand) (frames : list (list Z)) (c : BscProtocolConnection) (w : Shared)
    : Poll * list BscCommand * list (list Z) * BscProtocolConnection * Shared :=
  match initial_capability c with
  | Some initial_cmd => (Frame (encode_command initial_cmd), commands, frames, take_initial c, w)
  | None => poll_frames gone commands frames c w
  end.

End Connection.

(** ** The life of a connection

    Between two polls commands are queued and frames arrive. *)
Record PollInput := {
  poll_time : Z;
  poll_closed : Waiter → bool;
  peer_gone : bool;
  new_commands : list BscCommand;
  new_frames : list (list Z);
}.

Record Endpoint `{BC : !LruApi BscBlock} `{NC : !LruApi B256} := {
  conn : BscProtocolConnection;
  commands : list BscCommand;
  frames : list (list Z);
  shared : Shared;
  sent : list (list Z);
  ended : bool;
}.

Section Endpoint.
Context `{SL : Sealable} `{BC : !LruApi BscBlock} `{NC : !LruApi B256} `{KE : Keccak} `{VR : VoteRlp}.
Context `{RL : Rlp} `{PR : PacketRlp}.

Definition endpoint_new (version now : Z) (w : Shared) : Endpoint :=
  {| conn := connection_new version now; commands := []; frames := []; shared := w; sent := []; ended := false |}.

Definition poll_endpoint (i : PollInput) (e : Endpoint) : Endpoint :=
  if ended e then e
  else
    let '(r, cmds, fs, c, w) :=
      poll_next (poll_time i) (poll_closed i) (peer_gone i) (commands e ++ new_commands i) (frames e ++ new_frames i)
        (conn e) (shared e) in
    {| conn := c; commands := cmds; frames := fs; shared := w;
       sent := match r with Frame f => sent e ++ [f] | _ => sent e end;
       ended := match r with Ended => true | _ => false end |}.

Definition poll_all (inputs : list PollInput) (e : Endpoint) : Endpoint := foldl (λ e i, poll_endpoint i e) e inputs.

End Endpoint.

(** ** The registry of peers ([registry.rs]) *)

Definition PeerId : Type := Z.

(** The peers with the handles of their channels; [channel_open]: the
    connection still takes commands. *)
Record Registry := {
  registered : gset PeerId;
  proxyed_peer_ids : gset PeerId;
  req_counter : Z;
}.

Definition register_peer (peer : PeerId) (r : Registry) : Registry :=
  {| registered := {[peer]} ∪ registered r; proxyed_peer_ids := proxyed_peer_ids r; req_counter := req_counter r |}.
Definition list_registered_peers (r : Registry) : list PeerId := elements (registered r).
Definition has_registered_peer (peer : PeerId) (r : Registry) : bool := bool_decide (peer ∈ registered r).
Definition initialize_proxyed_peers (peer_ids : list PeerId) (r : Registry) : Registry :=
  {| registered := registered r; proxyed_peer_ids := list_to_set peer_ids; req_counter := req_counter r |}.
Definition is_proxyed_peer (peer_id : PeerId) (r : Registry) : bool := bool_decide (peer_id ∈ proxyed_peer_ids r).

Inductive RequestError := InvalidCount | NotRegistered | SendFailed | RemoteError | Canceled | TimedOut.

(** What comes of a request that was sent: the answer, or why there is none. *)
Definition Answer : Type := comp RequestError BlocksByRangePacket.

Section Registry.
Variable channel_open : PeerId → bool.

(** The command for the peer, and the registry with the next identifier. *)
Definition request_blocks_by_range (peer : PeerId) (start_height : Z) (start_hash : B256) (n : Z) (tx : Waiter) (r : Registry)
    : comp RequestError (PeerId * BscCommand) * Registry :=
  if (n =? 0) || (MAX_REQUEST_RANGE_BLOCKS_COUNT <? n) then (Err InvalidCount, r)
  else if negb (has_registered_peer peer r) then (Err NotRegistered, r)
  else
    let packet := {| request_id := req_counter r; start_block_height := start_height; start_block_hash := start_hash; count := n |} in
    let r := {| registered := registered r; proxyed_peer_ids := proxyed_peer_ids r; req_counter := add64 (req_counter r) 1 |} in
    (if channel_open peer then Ret (peer, SendRequest packet tx) else Err SendFailed, r).

(** What goes to the import service, oldest block first; its channel, if there is
    one, is unbounded. *)
Definition import_response (import_sender : bool) (peer : PeerId) (answer : Answer) : comp RequestError (list (BscBlock * PeerId)) :=
  resp ← answer;
  Ret (if import_sender then (λ b, (b, peer)) <$> reverse (blocks resp) else []).

(** *** Broadcasting votes *)

Record PeerInfo := { best_number : option Z; best_td : option Z }.

(** The two halves of the big-endian bytes. *)
Definition u256_to_u128 (v : Z) : option Z :=
  let be := be_encode 32 v in
  if be_decode (take 16 be) =? 0 then Some (be_decode (drop 16 be)) else None.

Definition delta_td_threshold : Z := 20.

Definition allow_broadcast (is_evn : bool) (info : option PeerInfo) (local_best_td : option Z) (local_best_number : Z)
    (peer : PeerId) (r : Registry) : bool :=
  (is_evn || is_proxyed_peer peer r)
  || match info with
     | None => true
     | Some info =>
         match best_number info with
         | Some peer_latest => Z.abs (local_best_number - peer_latest) <=? delta_td_threshold
         | None =>
             match local_best_td, best_td info with
             | Some local_td, Some peer_td =>
                 match u256_to_u128 peer_td with
                 | Some peer_td => Z.abs (local_td - peer_td) <=? delta_td_threshold
                 | None => false
                 end
             | _, _ => true
             end
         end
     end.

(** The peers that get the votes; those that have gone leave the registry. *)
Definition broadcast_votes (is_evn : PeerId → bool) (peer_info_map : PeerId → option PeerInfo) (local_best_td : option Z)
    (local_best_number : option Z) (votes : list VoteEnvelope) (r : Registry) : list (PeerId * BscCommand) * Registry :=
  let allowed := filter (λ peer, allow_broadcast (is_evn peer) (peer_info_map peer) local_best_td
                                   (default 0 local_best_number) peer r = true) (elements (registered r)) in
  let to_remove := filter (λ peer, channel_open peer = false) allowed in
  ((λ peer, (peer, SendVotes votes)) <$> filter (λ peer, channel_open peer = true) allowed,
   {| registered := registered r ∖ list_to_set to_remove; proxyed_peer_ids := proxyed_peer_ids r; req_counter := req_counter r |}).

End Registry.

(** ** The enhanced validator network ([evn.rs], [evn_peers.rs]) *)

Inductive EvnMarkReason := Whitelist | OnchainValidator.
Record EvnPeerInfo := { is_evn : bool; reason : option EvnMarkReason }.
Record EvnConfig := {
  evn_enabled : bool;
  disable_tx_broadcast_forbidden : bool;
  whitelist_nodeids : list string;
  proxyed_validators : list Address;
  nodeids_to_add : list B256;
  nodeids_to_remove : list B256;
}.
Record EvnState := {
  evn_config : option EvnConfig;
  evn_synced : bool;
  nodeids_action_applied : bool;
  evn_peers : gmap PeerId EvnPeerInfo;
  onchain_nodeids : gset string;
}.

Section Evn.
(** [hex(keccak256(peer))], and the variable [BSC_EVN_ENABLED]. *)
Variable peer_id_to_node_id : PeerId → string.
Variable hex_of : B256 → string.
Variable env_enabled : bool.

Definition set_evn_peers (m : gmap PeerId EvnPeerInfo) (s : EvnState) : EvnState :=
  {| evn_config := evn_config s; evn_synced := evn_synced s; nodeids_action_applied := nodeids_action_applied s;
     evn_peers := m; onchain_nodeids := onchain_nodeids s |}.
Definition mark_evn (why : EvnMarkReason) (peer : PeerId) (s : EvnState) : EvnState :=
  set_evn_peers (<[peer := {| is_evn := true; reason := Some why |}]> (evn_peers s)) s.

Definition mark_evn_if_whitelisted (peer : PeerId) (s : EvnState) : EvnState :=
  match evn_config s with
  | None => s
  | Some cfg =>
      if negb (evn_enabled cfg) || bool_decide (whitelist_nodeids cfg = []) then s
      else if bool_decide (peer_id_to_node_id peer ∈ whitelist_nodeids cfg) then mark_evn Whitelist peer s else s
  end.
Definition mark_evn_onchain (peer : PeerId) (s : EvnState) : EvnState := mark_evn OnchainValidator peer s.
Definition is_evn_peer (peer : PeerId) (s : EvnState) : bool := default false (is_evn <$> evn_peers s !! peer).
Definition evn_snapshot (s : EvnState) : list (PeerId * EvnPeerInfo) := map_to_list (evn_peers s).
Definition update_onchain_nodeids (ids : list B256) (s : EvnState) : EvnState :=
  {| evn_config := evn_config s; evn_synced := evn_synced s; nodeids_action_applied := nodeids_action_applied s;
     evn_peers := evn_peers s; onchain_nodeids := list_to_set (hex_of <$> ids) ∪ onchain_nodeids s |}.

Definition is_evn_enabled (s : EvnState) : bool :=
  match evn_config s with Some cfg => evn_enabled cfg | None => env_enabled end.
(** Once set it stays set. *)
Definition set_evn_synced (synced : bool) (s : EvnState) : EvnState :=
  if synced then
    {| evn_config := evn_config s; evn_synced := true; nodeids_action_applied := nodeids_action_applied s;
       evn_peers := evn_peers s; onchain_nodeids := onchain_nodeids s |}
  else s.
Definition is_evn_ready (s : EvnState) : bool := is_evn_enabled s && evn_synced s.

(** The list of identifiers to add and to remove, once. *)
Definition take_nodeids_actions_once (s : EvnState) : option (list B256 * list B256) * EvnState :=
  match evn_config s with
  | None => (None, s)
  | Some cfg =>
      if bool_decide (nodeids_to_add cfg = []) && bool_decide (nodeids_to_remove cfg = []) then (None, s)
      else if nodeids_action_applied s then (None, s)
      else
        (Some (nodeids_to_add cfg, nodeids_to_remove cfg),
         {| evn_config := evn_config s; evn_synced := evn_synced s; nodeids_action_applied := true;
            evn_peers := evn_peers s; onchain_nodeids := onchain_nodeids s |})
  end.

(** One refresh: the registered peers whose identifier is on chain. *)
Definition refresh_evn_peers (r : Registry) (s : EvnState) : EvnState :=
  foldl (λ s peer, if bool_decide (peer_id_to_node_id peer ∈ onchain_nodeids s) then mark_evn_onchain peer s else s)
    s (elements (registered r)).

(** The extension of the upgrade status that is sent in the handshake. *)
Definition disable_peer_tx_broadcast (s : EvnState) : bool :=
  is_evn_ready s && negb (default false (disable_tx_broadcast_forbidden <$> evn_config s)).

(** [BscConnectionHandler::into_connection], for both versions. *)
Definition into_connection (version now : Z) (peer : PeerId) (r : Registry) (s : EvnState)
    : BscProtocolConnection * Registry * EvnState * bool :=
  let r := register_peer peer r in
  let s := mark_evn_if_whitelisted peer s in
  (connection_new version now, r, s, is_evn_peer peer s).

End Evn.

(** * Proofs *)

Section RangeProofs.
Context `{SL : Sealable} `{BC : !LruApi BscBlock} `{NC : !LruApi B256} `{BL : !LruLaws BscBlock BC} `{NL : !LruLaws B256 NC}.
Implicit Types (cache : BodyCache) (b : BscBlock).

Lemma cached_in_hash cache cache' h :
  cached_in cache cache' → lru_entries (Shared.by_hash cache) !! h = lru_entries (Shared.by_hash cache') !! h.
Proof. by intros [-> _]. Qed.

(** Each block is the one the cache has for its child's parent; the walk ends
    at a block without one, or when enough blocks are found. *)
Inductive ancestry (cache : BodyCache) : nat → option BscBlock → list BscBlock → Prop :=
| ancestry_full o : ancestry cache 0 o []
| ancestry_none n : ancestry cache n None []
| ancestry_block n b l :
    ancestry cache n (if parent_hash (block_header b) =? ZERO then None
                      else lru_entries (Shared.by_hash cache) !! parent_hash (block_header b)) l →
    ancestry cache (S n) (Some b) (b :: l).

Lemma ancestry_proper cache cache' n o l : cached_in cache cache' → ancestry cache n o l → ancestry cache' n o l.
Proof. intros Hc. induction 1; econstructor. by rewrite <- (cached_in_hash _ _ _ Hc). Qed.

Lemma walk_parents_ok n o cache :
  ancestry cache n o (walk_parents n o cache).1 ∧ cached_in (walk_parents n o cache).2 cache.
Proof.
  revert o cache. induction n as [|n IH]; intros o cache; [destruct o; (split; [constructor|reflexivity])|].
  destruct o as [b|]; [|split; [constructor|reflexivity]]. cbn [walk_parents].
  set (h := parent_hash (block_header b)).
  destruct (get_by_hash_spec h cache) as [Hv Hc]. destruct (get_cached_block_by_hash h cache) as [o1 cache1] eqn:Hg.
  cbn [fst snd] in Hv, Hc. destruct (Z.eqb_spec h ZERO) as [Hz|Hz]; cbn [negb].
  - destruct (IH None cache) as [Ha Hi]. destruct (walk_parents n None cache) as [l c]. split; [|done].
    constructor. fold h. by rewrite Hz.
  - destruct (IH o1 cache1) as [Ha Hi]. destruct (walk_parents n o1 cache1) as [l c]. cbn [fst snd] in *.
    split; [|by rewrite Hi]. constructor. fold h. rewrite (proj2 (Z.eqb_neq h ZERO) Hz), <- Hv.
    by apply (ancestry_proper _ _ _ _ _ Hc).
Qed.

Lemma ancestry_length cache n o l : ancestry cache n o l → (length l <= n)%nat.
Proof. induction 1; cbn; lia. Qed.

(** The first block of an answer and its source. *)
Definition start_of (req : GetBlocksByRangePacket) cache : option BscBlock :=
  if start_block_hash req =? ZERO
  then h ← lru_entries (Shared.by_number cache) !! start_block_height req; lru_entries (Shared.by_hash cache) !! h
  else lru_entries (Shared.by_hash cache) !! start_block_hash req.

Lemma response_ok req cache :
  let '(resp, cache') := build_blocks_by_range_response req cache in
  answered_id resp = request_id req ∧ cached_in cache' cache
  ∧ ancestry cache (Z.to_nat (Z.min (count req) MAX_REQUEST_RANGE_BLOCKS_COUNT)) (start_of req cache) (blocks resp).
Proof.
  unfold build_blocks_by_range_response. set (n := Z.to_nat _).
  destruct (if negb (start_block_hash req =? ZERO) then _ else _) as [o cache1] eqn:Hs.
  assert (Ho : o = start_of req cache ∧ cached_in cache1 cache).
  { unfold start_of. destruct (start_block_hash req =? ZERO); cbn [negb] in Hs.
    - destruct (get_by_number_spec (start_block_height req) cache) as [Hv Hc]. rewrite Hs in Hv, Hc. by split.
    - destruct (get_by_hash_spec (start_block_hash req) cache) as [Hv Hc]. rewrite Hs in Hv, Hc. by split. }
  destruct Ho as [-> Hc]. destruct (walk_parents_ok n (start_of req cache) cache1) as [Ha Hi].
  destruct (walk_parents n _ cache1) as [l c]. cbn [fst snd] in *. split_and!; [done|by rewrite Hi|].
  by apply (ancestry_proper _ _ _ _ _ Hc).
Qed.

(** An answer to a range request is a piece of one chain: it starts with the
    block that was asked for, by its hash or by the number the cache has for it,
    every block is followed by its parent, it holds at most as many blocks as
    were asked for and at most 64, and it ends early only where the cache lacks
    the parent or the chain begins. *)
Theorem range_response_is_chain seen req cache :
  no_collision seen → coherent seen cache → 0 <= count req →
  let resp := (build_blocks_by_range_response req cache).1 in
  answered_id resp = request_id req ∧ zlen (blocks resp) <= Z.min (count req) MAX_REQUEST_RANGE_BLOCKS_COUNT
  ∧ (∀ b, head (blocks resp) = Some b →
      if start_block_hash req =? ZERO then number (block_header b) = start_block_height req
      else hash_slow (block_header b) = start_block_hash req)
  ∧ (∀ i b p, blocks resp !! i = Some b → blocks resp !! S i = Some p →
      hash_slow (block_header p) = parent_hash (block_header b))
  ∧ (∀ b, list.last (blocks resp) = Some b → zlen (blocks resp) < Z.min (count req) MAX_REQUEST_RANGE_BLOCKS_COUNT →
      parent_hash (block_header b) = ZERO ∨ (get_cached_block_by_hash (parent_hash (block_header b)) cache).1 = None).
Proof.
  intros Hinj Hco Hn. pose proof (response_ok req cache) as Hr. destruct (build_blocks_by_range_response req cache) as [resp cache'].
  destruct Hr as (Hid & _ & Ha). cbn [fst]. split; [done|]. remember (Z.to_nat _) as n eqn:Hnat. split.
  { apply ancestry_length in Ha. unfold zlen. unfold MAX_REQUEST_RANGE_BLOCKS_COUNT in *. lia. }
  split.
  { intros b Hb. assert (Hs : start_of req cache = Some b) by (destruct Ha; [done..|by injection Hb as <-]).
    unfold start_of in Hs. destruct (Z.eqb_spec (start_block_hash req) ZERO).
    - apply (cached_by_number_sound seen _ cache); [done|done|]. by rewrite (proj1 (get_by_number_spec _ _)).
    - apply (cached_by_hash_sound seen _ cache); [done|]. by rewrite (proj1 (get_by_hash_spec _ _)). }
  assert (Hlen : Z.min (count req) MAX_REQUEST_RANGE_BLOCKS_COUNT = Z.of_nat n)
    by (unfold MAX_REQUEST_RANGE_BLOCKS_COUNT in *; lia). rewrite Hlen. clear Hlen Hnat Hid.
  induction Ha as [|n|n b l Hl [IH1 IH2]]; [split; [by intros []|done]..|]. split.
  - intros [|i] b1 p Hb Hp; cbn in Hb, Hp; [|by eapply IH1]. injection Hb as <-.
    destruct l as [|p' l]; [done|]. injection Hp as <-. inversion Hl as [| |? ? ? _ Ho]; subst.
    destruct (_ =? ZERO); [done|]. by apply (co_hash _ _ Hco).
  - intros b1 Hb1 Hlt. destruct l as [|p l].
    + injection Hb1 as <-. inversion Hl as [o Hz|? Ho|]; subst; [unfold zlen in Hlt; cbn in Hlt; lia|].
      destruct (Z.eqb_spec (parent_hash (block_header b)) ZERO); [by left|right]. by rewrite (proj1 (get_by_hash_spec _ _)).
    + apply IH2; [done|]. rewrite zlen_cons in Hlt. lia.
Qed.

End RangeProofs.

Section ConnectionProofs.
Context `{SL : Sealable} `{BC : !LruApi BscBlock} `{NC : !LruApi B256} `{KE : Keccak} `{VR : VoteRlp}.
Context `{RL : Rlp} `{PR : PacketRlp} `{PL : !PacketRlpLaws RL PR}.
Implicit Types (c : BscProtocolConnection) (w : Shared) (e : Endpoint).

(** *** Round trips of the packets *)

Lemma decode_cap_encode version extra :
  0 <= version < 128 → zlen extra < 2 ^ 62 →
  decode_cap (encode_cap {| protocol_version := version; cap_extra := extra |})
  = Ret {| protocol_version := version; cap_extra := extra |}.
Proof.
  intros Hv He. unfold encode_cap, decode_cap. cbn [protocol_version cap_extra read_id message_id].
  rewrite Z.eqb_refl. cbn [negb mbind comp_bind]. rewrite rlp_header_roundtrip
    by (rewrite zlen_app; split; [apply Z.add_nonneg_nonneg; apply zlen_nonneg|lia]). cbn [ok_or mbind comp_bind negb].
  rewrite rlp_uint_roundtrip by (unfold is_u; change (2 ^ 64) with 18446744073709551616; lia). cbn [ok_or mbind comp_bind]. rewrite rlp_uint_byte by done.
  pose proof (zlen_nonneg extra).
  assert (Hs : sub64 (1 + zlen extra) 1 = zlen extra)
    by (rewrite sub64_small by (unfold is_u; change (2 ^ 62) with 4611686018427387904 in He; change (2 ^ 64) with 18446744073709551616; lia); lia).
  rewrite Hs, (proj2 (Z.ltb_ge _ _)) by lia. rewrite slice_Ret by lia. cbn [mbind comp_bind].
  change (Z.to_nat 0) with 0%nat. rewrite Z.sub_0_r, drop_0, take_ge; [done|]. unfold zlen. lia.
Qed.

Lemma decode_request_encode p : decode_request (encode_request p) = Ret p.
Proof.
  unfold decode_request, encode_request. cbn [read_id message_id Z.eqb Pos.eqb negb mbind comp_bind].
  by rewrite <- (app_nil_r (rlp_encode_request p)), rlp_request_roundtrip.
Qed.
Lemma decode_blocks_encode p : decode_blocks (encode_blocks p) = Ret p.
Proof.
  unfold decode_blocks, encode_blocks. cbn [read_id message_id Z.eqb Pos.eqb negb mbind comp_bind].
  by rewrite <- (app_nil_r (rlp_encode_blocks p)), rlp_blocks_roundtrip.
Qed.

(** *** The handshake *)

Definition received (inputs : list PollInput) : list (list Z) := mjoin (new_frames <$> inputs).
Definition nonempty (fs : list (list Z)) : list (list Z) := filter (λ f, f ≠ []) fs.

(** The frame that completes the handshake of [version]. *)
Definition capability_frame (version : Z) (f : list Z) : Prop :=
  ∃ pkt, decode_cap f = Ret pkt ∧ protocol_version pkt = version.

(** A connection before the handshake: nothing but empty frames was read. *)
Record waiting (version deadline : Z) c : Prop := {
  wt_version : proto_version c = version;
  wt_deadline : handshake_deadline c = Some deadline;
  wt_open : handshake_completed c = false;
}.

Lemma prune_keeps now closed c :
  let c' := prune_pending_requests now closed c in
  handshake_deadline c' = handshake_deadline c ∧ handshake_completed c' = handshake_completed c
  ∧ proto_version c' = proto_version c ∧ initial_capability c' = initial_capability c.
Proof. unfold prune_pending_requests. by destruct (_ <? _). Qed.

Lemma outgoing_keeps now closed cmds c :
  let c' := (poll_outgoing_commands now closed cmds c).2 in
  handshake_deadline c' = handshake_deadline c ∧ handshake_completed c' = handshake_completed c
  ∧ proto_version c' = proto_version c ∧ initial_capability c' = initial_capability c.
Proof.
  pose proof (prune_keeps now closed c) as Hp. unfold poll_outgoing_commands. cbv zeta in *.
  by destruct cmds as [|[] cmds].
Qed.

Lemma handshake_frame_ok now version deadline frame c c' :
  waiting version deadline c → handle_handshake_frame now frame c = Some c' →
  capability_frame version frame ∧ now < deadline ∧ handshake_completed c' = true ∧ initial_capability c' = initial_capability c.
Proof.
  intros [Hv Hd Ho]. unfold handle_handshake_frame. rewrite Hd.
  destruct (Z.leb_spec deadline now); [done|]. destruct (negb _); [done|].
  destruct (decode_cap frame) as [pkt| | |] eqn:Hc; try done. destruct (Z.eqb_spec (protocol_version pkt) (proto_version c)); [|done].
  intros [= <-]. split_and!; try done. exists pkt. split; [done|]. congruence.
Qed.

Lemma message_keeps closed frame c w :
  let c' := (handle_protocol_message closed frame c w).1.2 in
  handshake_completed c' = handshake_completed c ∧ initial_capability c' = initial_capability c.
Proof. unfold handle_protocol_message. repeat (case_match; cbn; try done). Qed.

(** After the handshake it stays done. *)
Lemma poll_frames_done now closed gone cmds fs c w :
  handshake_completed c = true →
  let '(_, _, _, c', _) := poll_frames now closed gone cmds fs c w in
  handshake_completed c' = true ∧ initial_capability c' = initial_capability c.
Proof.
  revert cmds c w. induction fs as [|f fs IH]; intros cmds c w Hc; cbn [poll_frames].
  all: destruct (outgoing_keeps now closed cmds c) as (_ & Ho1 & _ & Hi1);
    destruct (poll_outgoing_commands now closed cmds c) as [[[enc|] cmds1] c1]; cbn [snd] in *; try (split; congruence).
  destruct f as [|byte f].
  { pose proof (IH cmds1 c1 w ltac:(congruence)) as Hi. destruct (poll_frames _ _ _ cmds1 fs c1 w) as [[[[? ?] ?] ?] ?].
    destruct Hi. split; congruence. }
  destruct (prune_keeps now closed c1) as (_ & Ho2 & _ & Hi2). rewrite Ho2, Ho1, Hc. cbn [negb].
  pose proof (message_keeps closed (byte :: f) (prune_pending_requests now closed c1) w) as [Hm1 Hm2].
  destruct (handle_protocol_message _ _ _ _) as [[[resp|] c3] w3]; cbn [fst snd] in *; [split; congruence|].
  pose proof (IH cmds1 c3 w3 ltac:(congruence)) as Hi. destruct (poll_frames _ _ _ cmds1 fs c3 w3) as [[[[? ?] ?] ?] ?].
  destruct Hi. split; congruence.
Qed.

(** What a poll that begins before the handshake leaves: either it is still to
    come and only empty frames were read, or its frame was the first that was
    not empty. *)
Lemma poll_frames_handshake now closed gone cmds fs c w version deadline :
  waiting version deadline c →
  let '(r, _, fs', c', w') := poll_frames now closed gone cmds fs c w in
  initial_capability c' = initial_capability c
  ∧ ((w' = w ∧ (r = Ended ∨ waiting version deadline c' ∧ nonempty fs = nonempty fs'))
     ∨ (handshake_completed c' = true ∧ now < deadline
        ∧ ∃ f rest, nonempty fs = f :: rest ∧ capability_frame version f)).
Proof.
  revert cmds c w. induction fs as [|frame fs IH]; intros cmds c w [Hv Hd Ho]; cbn [poll_frames].
  all: destruct (outgoing_keeps now closed cmds c) as (Hd1 & Ho1 & Hv1 & Hi1);
    destruct (poll_outgoing_commands now closed cmds c) as [[[enc|] cmds1] c1]; cbn [snd] in *.
  all: assert (Hw1 : waiting version deadline c1) by (split; congruence).
  - split; [done|]. left. split; [done|]. by right.
  - split; [done|]. left. split; [done|]. right. by split.
  - split; [done|]. left. split; [done|]. by right.
  - destruct frame as [|byte frame].
    { pose proof (IH cmds1 c1 w Hw1) as Hih. destruct (poll_frames _ _ _ cmds1 fs c1 w) as [[[[r cmds2] fs2] c2] w2].
      by rewrite Hi1 in Hih. }
    destruct (prune_keeps now closed c1) as (Hd2 & Ho2 & Hv2 & Hi2). set (c2 := prune_pending_requests now closed c1) in *.
    assert (Hw2 : waiting version deadline c2) by (destruct Hw1; split; congruence).
    rewrite (wt_open _ _ _ Hw2). cbn [negb]. destruct (handle_handshake_frame now (byte :: frame) c2) as [c3|] eqn:Hf.
    + destruct (handshake_frame_ok _ _ _ _ _ _ Hw2 Hf) as (Hcap & Hnow & Hdone & Hi3).
      pose proof (poll_frames_done now closed gone cmds1 fs c3 w Hdone) as He. destruct (poll_frames _ _ _ cmds1 fs c3 w) as [[[[r cmds4] fs4] c4] w4].
      destruct He as [He1 He2]. split; [congruence|]. right. split_and!; [done|done|]. exists (byte :: frame), (nonempty fs). by split.
    + split; [congruence|]. left. split; [done|]. by left.
Qed.

(** The state of an endpoint after [inputs]. *)
Record endpoint_ok (version now0 : Z) (w0 : Shared) (inputs : list PollInput) e : Prop := {
  eo_first : (initial_capability (conn e) = Some (SendCapability version [0]) ∧ sent e = [])
    ∨ (initial_capability (conn e) = None ∧ head (sent e) = Some (encode_command (SendCapability version [0])));
  eo_shared :
    (shared e = w0 ∧ (ended e = true ∨ (waiting version (now0 + HANDSHAKE_TIMEOUT) (conn e)
                                        ∧ nonempty (frames e) = nonempty (received inputs))))
    ∨ (handshake_completed (conn e) = true
       ∧ ∃ f rest i, nonempty (received inputs) = f :: rest ∧ capability_frame version f
         ∧ i ∈ inputs ∧ poll_time i < now0 + HANDSHAKE_TIMEOUT);
}.

Lemma nonempty_app l k : nonempty (l ++ k) = nonempty l ++ nonempty k.
Proof. apply list.filter_app. Qed.
Lemma received_snoc inputs i : received (inputs ++ [i]) = received inputs ++ new_frames i.
Proof. unfold received. rewrite fmap_app, join_app. cbn. by rewrite app_nil_r. Qed.

Lemma more_input version now0 inputs i :
  (∃ f rest j, nonempty (received inputs) = f :: rest ∧ capability_frame version f
     ∧ j ∈ inputs ∧ poll_time j < now0 + HANDSHAKE_TIMEOUT) →
  ∃ f rest j, nonempty (received (inputs ++ [i])) = f :: rest ∧ capability_frame version f
     ∧ j ∈ inputs ++ [i] ∧ poll_time j < now0 + HANDSHAKE_TIMEOUT.
Proof.
  intros (f & rest & j & Hn & Hc & Hj & Ht). rewrite received_snoc, nonempty_app, Hn.
  exists f, (rest ++ nonempty (new_frames i)), j. split_and!; try done. apply elem_of_app. by left.
Qed.

Lemma poll_endpoint_ok version now0 w0 inputs i e :
  endpoint_ok version now0 w0 inputs e → endpoint_ok version now0 w0 (inputs ++ [i]) (poll_endpoint i e).
Proof.
  intros [Hf Hs]. unfold poll_endpoint. destruct (ended e) eqn:Hend.
  { split; [done|]. destruct Hs as [[Hw _]|[Hd Hm]]; [left; by split; [|left]|right]. split; [done|]. by apply more_input. }
  unfold poll_next. destruct (initial_capability (conn e)) as [cmd|] eqn:Hi.
  { destruct Hf as [[[= ->] Hsent]|[? _]]; [|done]. split; cbn.
    - right. rewrite Hsent. by split.
    - destruct Hs as [[Hw [?|[[] Hn]]]|[Hd Hm]]; [done| |right; split; [done|by apply more_input]].
      left. split; [done|]. right. split; [by split|]. by rewrite received_snoc, !nonempty_app, Hn. }
  destruct Hf as [[? _]|[_ Hf]]; [done|].
  destruct Hs as [[Hw [?|[Hwait Hn]]]|[Hd Hm]]; [done|..].
  - pose proof (poll_frames_handshake (poll_time i) (poll_closed i) (peer_gone i) (commands e ++ new_commands i)
      (frames e ++ new_frames i) (conn e) (shared e) _ _ Hwait) as Hp.
    destruct (poll_frames _ _ _ _ _ (conn e) (shared e)) as [[[[r cmds] fs] c] w]. destruct Hp as [Hic Hp]. split; cbn.
    + right. rewrite Hic. split; [done|]. destruct r; [|done..]. by destruct (sent e).
    + destruct Hp as [[-> Hp]|(Hdone & Hnow & f & rest & Hne & Hcap)].
      * left. split; [done|]. destruct Hp as [->|[Hc Hne]]; [by left|right]. split; [done|].
        fold (nonempty fs). by rewrite <- Hne, received_snoc, !nonempty_app, Hn.
      * right. split; [done|]. exists f, rest, i. rewrite received_snoc, nonempty_app, <- Hn, <- nonempty_app.
        split_and!; try done. apply elem_of_app. right. by left.
  - pose proof (poll_frames_done (poll_time i) (poll_closed i) (peer_gone i) (commands e ++ new_commands i)
      (frames e ++ new_frames i) (conn e) (shared e) Hd) as Hp.
    destruct (poll_frames _ _ _ _ _ (conn e) (shared e)) as [[[[r cmds] fs] c] w]. destruct Hp as [Hdone Hic]. split; cbn.
    + right. rewrite Hic. split; [done|]. destruct r; [|done..]. by destruct (sent e).
    + right. split; [done|]. by apply more_input.
Qed.

Lemma poll_all_ok version now0 w0 inputs :
  endpoint_ok version now0 w0 inputs (poll_all inputs (endpoint_new version now0 w0)).
Proof.
  induction inputs as [|i inputs IH] using rev_ind; [split; cbn; [by left|left; split; [done|by right]]|].
  unfold poll_all. rewrite foldl_app. by apply poll_endpoint_ok.
Qed.

(** The handshake comes first: the first frame a connection sends is its
    capability, and as long as the first frame of the peer that is not empty is
    not a capability of the same version, received before the timeout, nothing
    the peer sends reaches the votes, the cache of blocks or a waiter. *)
Theorem handshake_first version now0 w0 inputs :
  let e := poll_all inputs (endpoint_new version now0 w0) in
  (sent e = [] ∨ head (sent e) = Some (encode_cap {| protocol_version := version; cap_extra := [0] |}))
  ∧ (shared e = w0
     ∨ ∃ f rest i, nonempty (received inputs) = f :: rest ∧ capability_frame version f
       ∧ i ∈ inputs ∧ poll_time i < now0 + HANDSHAKE_TIMEOUT).
Proof.
  destruct (poll_all_ok version now0 w0 inputs) as [Hf Hs]. split.
  - destruct Hf as [[_ Hf]|[_ Hf]]; [by left|by right].
  - destruct Hs as [[Hw _]|[_ Hm]]; [by left|by right].
Qed.

(** The timeout of the handshake is looked at only when a frame arrives: a
    peer that keeps the connection open without sending anything is never
    dropped, however late it is. *)
Theorem silent_peer_kept version now0 w0 inputs :
  Forall (λ i, peer_gone i = false ∧ Forall (λ f, f = []) (new_frames i)) inputs →
  let e := poll_all inputs (endpoint_new version now0 w0) in
  ended e = false ∧ handshake_completed (conn e) = false.
Proof.
  intros Hall. cbv zeta. assert (Hinv : let e := poll_all inputs (endpoint_new version now0 w0) in
    ended e = false ∧ handshake_completed (conn e) = false ∧ Forall (λ f, f = []) (frames e)); [|by destruct Hinv as (? & ? & _)].
  cbv zeta. induction inputs as [|i inputs IH] using rev_ind; [done|].
  destruct (proj1 (list.Forall_app _ _ _) Hall) as [Hl Hlast]. destruct (proj1 (list.Forall_cons _ _ _) Hlast) as [[Hgone Hempty] _]. specialize (IH Hl).
  unfold poll_all in *. rewrite foldl_app. cbn [foldl]. set (e := foldl _ _ inputs) in *. destruct IH as (Hend & Hopen & Hfs).
  unfold poll_endpoint, poll_next. rewrite Hend. destruct (initial_capability (conn e)) as [cmd|].
  { cbn. split_and!; try done. by apply list.Forall_app. }
  assert (Hp : ∀ cmds fs c, Forall (λ f, f = []) fs → handshake_completed c = false →
    let '(r, _, fs', c', _) := poll_frames (poll_time i) (poll_closed i) (peer_gone i) cmds fs c (shared e) in
    r ≠ Ended ∧ handshake_completed c' = false ∧ Forall (λ f, f = []) fs').
  { rewrite Hgone. intros cmds fs c Hf. revert cmds c. induction Hf as [|f fs -> Hf IHf]; intros cmds c Hc; cbn [poll_frames].
    all: destruct (outgoing_keeps (poll_time i) (poll_closed i) cmds c) as (_ & Ho1 & _ & _);
      destruct (poll_outgoing_commands _ _ cmds c) as [[[enc|] cmds1] c1]; cbn [snd] in Ho1.
    1-3: split_and!; [done|congruence|by try constructor].
    apply IHf. congruence. }
  assert (Hempties : Forall (λ f, f = []) (frames e ++ new_frames i)) by (by apply list.Forall_app).
  specialize (Hp (commands e ++ new_commands i) _ (conn e) Hempties Hopen).
  destruct (poll_frames _ _ _ _ _ (conn e) (shared e)) as [[[[r cmds] fs] c] w]. destruct Hp as (Hr & Hc & Hf). cbn.
  split_and!; try done. by destruct r.
Qed.

(** *** A request and its answer *)

Lemma request_inv opened peer height hash n tx r to cmd r' :
  request_blocks_by_range opened peer height hash n tx r = (Ret (to, cmd), r') →
  to = peer ∧ n ≠ 0 ∧ n <= MAX_REQUEST_RANGE_BLOCKS_COUNT ∧ has_registered_peer peer r = true ∧ req_counter r' = add64 (req_counter r) 1
  ∧ cmd = SendRequest {| request_id := req_counter r; start_block_height := height; start_block_hash := hash; count := n |} tx.
Proof.
  unfold request_blocks_by_range. destruct (Z.eqb_spec n 0); [done|].
  destruct (Z.ltb_spec MAX_REQUEST_RANGE_BLOCKS_COUNT n); [done|]. destruct (has_registered_peer peer r); [|done]. cbn [orb negb].
  destruct (opened peer); [|done]. intros [= <- <- <-]. by split_and!.
Qed.

Lemma response_id req cache resp cache' :
  build_blocks_by_range_response req cache = (resp, cache') → answered_id resp = request_id req.
Proof.
  unfold build_blocks_by_range_response. match goal with |- context [if negb ?x then ?a else ?b] => destruct (if negb x then a else b) as [o c] end. destruct (walk_parents _ o c) as [l c'].
  by intros [= <- <-].
Qed.

(** A frame after the handshake, with no commands waiting. *)
Lemma poll_message now closed c w byte frame :
  handshake_completed c = true → initial_capability c = None →
  let '(resp, c1, w1) := handle_protocol_message closed (byte :: frame)
      (prune_pending_requests now closed (prune_pending_requests now closed c)) w in
  poll_next now closed false [] [byte :: frame] c w
  = match resp with
    | Some f => (Frame f, [], [], c1, w1)
    | None => (Pending, [], [], prune_pending_requests now closed c1, w1)
    end.
Proof.
  intros Hd Hi. unfold poll_next. rewrite Hi. cbn [poll_frames poll_outgoing_commands].
  destruct (prune_keeps now closed c) as (_ & Hd1 & _). destruct (prune_keeps now closed (prune_pending_requests now closed c)) as (_ & Hd2 & _).
  rewrite Hd2, Hd1, Hd. cbn [negb]. destruct (handle_protocol_message _ _ _ w) as [[[f|] c1] w1]; done.
Qed.

Lemma prune_lookup now closed c id tx ts :
  closed tx = false → now - ts <= PENDING_REQ_TTL → pending_range_reqs c !! id = Some (tx, ts) →
  pending_range_reqs (prune_pending_requests now closed c) !! id = Some (tx, ts).
Proof.
  intros Hc Ht Hp. unfold prune_pending_requests. destruct (_ <? _); [done|]. cbn. by apply map_lookup_filter_Some.
Qed.

(** C36. A range request is answered: the peer that gets the request from
    [request_blocks_by_range] replies with the blocks of its cache, and the
    reply, when it comes while the requester still waits, is handed to that
    waiter, with the votes untouched, and forwarded to the import service with
    the oldest block first. *)
Theorem range_request_answered opened peer height hash n tx r r' cmd now closed cr wr snow sclosed cs ws later still :
  request_blocks_by_range opened peer height hash n tx r = (Ret (peer, cmd), r') →
  handshake_completed cr = true → initial_capability cr = None → handshake_completed cs = true → initial_capability cs = None →
  0 < n → still tx = false → later - now <= PENDING_REQ_TTL →
  let req := {| request_id := req_counter r; start_block_height := height; start_block_hash := hash; count := n |} in
  let resp := (build_blocks_by_range_response req (body_cache ws)).1 in
  ∃ f g cr1 cs1 ws1 cr2 wr2,
    poll_next now closed false [cmd] [] cr wr = (Frame f, [], [], cr1, wr)
    ∧ poll_next snow sclosed false [] [f] cs ws = (Frame g, [], [], cs1, ws1) ∧ votes ws1 = votes ws
    ∧ poll_next later still false [] [g] cr1 wr = (Pending, [], [], cr2, wr2)
    ∧ delivered wr2 = delivered wr ++ [(tx, resp)] ∧ votes wr2 = votes wr
    ∧ pending_range_reqs cr2 !! request_id req = None
    ∧ import_response true peer (Ret resp) = Ret ((λ b, (b, peer)) <$> reverse (blocks resp)).
Proof.
  intros Hreq Hdr Hir Hds His Hn Hstill Hlater. cbv zeta. destruct (request_inv _ _ _ _ _ _ _ _ _ _ Hreq) as (_ & _ & Hmax & _ & _ & ->).
  set (req := Build_GetBlocksByRangePacket _ _ _ _). destruct (build_blocks_by_range_response req (body_cache ws)) as [resp cache] eqn:Hb.
  assert (Hid : answered_id resp = request_id req) by exact (response_id _ _ _ _ Hb).
  set (cr1 := set_pending (<[request_id req := (tx, now)]> (pending_range_reqs (prune_pending_requests now closed cr)))
                (last_prune (prune_pending_requests now closed cr)) (prune_pending_requests now closed cr)).
  set (ws1 := {| votes := votes ws; body_cache := cache; delivered := delivered ws |}).
  set (cs1 := prune_pending_requests snow sclosed (prune_pending_requests snow sclosed cs)).
  destruct (prune_keeps now closed cr) as (_ & Hd1 & _ & Hi1).
  pose proof (poll_message snow sclosed cs ws (message_id GetBlocksByRange) (rlp_encode_request req) Hds His) as Hserve.
  unfold handle_protocol_message in Hserve. cbn [head message_id Z.eqb Pos.eqb] in Hserve.
  change (2 :: rlp_encode_request req) with (encode_request req) in Hserve. rewrite decode_request_encode in Hserve.
  change (count req) with n in Hserve. rewrite (proj2 (Z.eqb_neq n 0)), (proj2 (Z.ltb_ge _ n)) in Hserve by lia. cbn [orb] in Hserve.
  rewrite Hb in Hserve. cbn [encode_command] in Hserve.
  pose proof (poll_message later still cr1 wr (message_id BlocksByRange) (rlp_encode_blocks resp)) as Hrecv.
  specialize (Hrecv ltac:(unfold cr1; cbn; congruence) ltac:(unfold cr1; cbn; congruence)).
  unfold handle_protocol_message in Hrecv. cbn [head message_id Z.eqb Pos.eqb] in Hrecv.
  change (3 :: rlp_encode_blocks resp) with (encode_blocks resp) in Hrecv. rewrite decode_blocks_encode in Hrecv.
  assert (Hp : pending_range_reqs (prune_pending_requests later still (prune_pending_requests later still cr1)) !! answered_id resp = Some (tx, now)).
  { rewrite Hid. do 2 (apply prune_lookup; [done|done|]). unfold cr1. cbn. by rewrite lookup_insert_eq. }
  rewrite Hp, Hstill in Hrecv.
  eexists (encode_request req), (encode_blocks resp), cr1, cs1, ws1, _, _. split.
  { unfold poll_next. rewrite Hir. done. }
  split; [exact Hserve|]. split; [done|]. split; [exact Hrecv|]. cbn [fst delivered votes]. split_and!; try done.
  rewrite Hid. unfold prune_pending_requests at 1. destruct (_ <? _); cbn [set_pending pending_range_reqs]; [by rewrite lookup_delete_eq|].
  apply map_lookup_filter_None. left. by rewrite lookup_delete_eq.
Qed.

End ConnectionProofs.

(** * Witnesses *)

Section Witnesses.
Import RefLibraries.
#[local] Existing Instance HeaderExtra.ref_hash.

(** Codecs that number the values of each type. *)
Definition header_fields (h : Header) :=
  ((parent_hash h, ommers_hash h, beneficiary h, state_root h, transactions_root h, receipts_root h, logs_bloom h,
    difficulty h, number h, gas_limit h, gas_used h),
   (timestamp h, extra_data h, mix_hash h, nonce h, base_fee_per_gas h, withdrawals_root h, blob_gas_used h,
    excess_blob_gas h, parent_beacon_block_root h, requests_hash h)).
Definition of_header_fields t : Header :=
  let '((a, b, c, d, e, f, g, h, i, j, k), (l, m, n, o, p, q, r, s, t, u)) := t in Build_Header a b c d e f g h i j k l m n o p q r s t u.

Definition type_number (t : TxType) : Z :=
  match t with Legacy => 0 | Eip2930 => 1 | Eip1559 => 2 | Eip4844 => 3 | Eip7702 => 4 end.
Definition type_of_number (n : Z) : TxType :=
  match n with 0 => Legacy | 1 => Eip2930 | 2 => Eip1559 | 3 => Eip4844 | _ => Eip7702 end.
Definition tx_fields (t : TransactionSigned) :=
  ((type_number (tx_type (tx t)), tx_chain_id (tx t), tx_nonce (tx t), gas_price (tx t), tx_gas_limit (tx t), tx_to (tx t),
    tx_value (tx t), tx_input (tx t), tx_more (tx t)),
   (sig_r (tx_signature t), sig_s (tx_signature t), odd_y_parity (tx_signature t))).
Definition of_tx_fields t : TransactionSigned :=
  let '((a, b, c, d, e, f, g, h, i), (r, s, y)) := t in
  Build_TransactionSigned (Build_Transaction (type_of_number a) b c d e f g h i) (Build_TxSignature r s y).
Definition block_fields (b : BscBlock) := (header_fields (block_header b), tx_fields <$> block_transactions b).
Definition of_block_fields t : BscBlock := Build_BscBlock (of_header_fields t.1) (of_tx_fields <$> t.2).
Definition vote_fields (v : VoteEnvelope) :=
  (vote_address v, signature v, source_number (data v), source_hash (data v), target_number (data v), target_hash (data v)).
Definition of_vote_fields t : VoteEnvelope :=
  let '(a, s, n, h, m, k) := t in Build_VoteEnvelope a s (Build_VoteData n h m k).

Definition encode_as {A B} `{Countable B} (f : A → B) (a : A) : list Z := [Z.pos (encode (f a))].
Definition decode_as {A B} `{Countable B} (g : B → A) (l : list Z) : option A :=
  match l with Z.pos p :: _ => g <$> decode p | _ => None end.

Lemma decode_encode_as {A B} `{Countable B} (f : A → B) (g : B → A) a rest :
  g (f a) = a → decode_as g (encode_as f a ++ rest) = Some a.
Proof. intros Hg. unfold decode_as, encode_as. cbn. rewrite decode_encode. cbn. by rewrite Hg. Qed.

Lemma of_block_fields_block b : of_block_fields (block_fields b) = b.
Proof.
  destruct b as [[] txs]. unfold of_block_fields, block_fields. cbn. f_equal. induction txs as [|[[[]] []] txs IH]; [done|..].
  all: cbn; by f_equal.
Qed.

#[local] Instance ref_packets : PacketRlp := {|
  rlp_decode_header l := match l with
                         | n :: rest => if zlen rest <? n then None else Some (true, n, rest)
                         | [] => None
                         end;
  rlp_decode_uint l := match l with z :: rest => Some (z, rest) | [] => None end;
  rlp_encode_votes := encode_as (fmap vote_fields);
  rlp_decode_votes := decode_as (fmap of_vote_fields);
  rlp_encode_request := encode_as (λ p, (request_id p, start_block_height p, start_block_hash p, count p));
  rlp_decode_request := decode_as (λ '(i, h, s, c), Build_GetBlocksByRangePacket i h s c);
  rlp_encode_blocks := encode_as (λ p, (answered_id p, block_fields <$> blocks p));
  rlp_decode_blocks := decode_as (λ t, Build_BlocksByRangePacket t.1 (of_block_fields <$> t.2));
|}.
#[local] Instance ref_packets_laws : PacketRlpLaws ref_rlp ref_packets.
Proof.
  split; try done; intros p rest.
  - intros [_ Hn]. cbn. by rewrite (proj2 (Z.ltb_ge _ _)).
  - intros [Hn _]. cbn. by rewrite (proj2 (Z.ltb_lt _ _)).
  - refine (decode_encode_as (fmap vote_fields) (fmap of_vote_fields) p rest _).
    induction p as [|[? ? []] p IH]; [done|]. cbn in *. by rewrite IH.
  - refine (decode_encode_as (λ p, (request_id p, start_block_height p, start_block_hash p, count p))
      (λ '(i, h, s, c), Build_GetBlocksByRangePacket i h s c) p rest _). by destruct p.
  - refine (decode_encode_as (λ p, (answered_id p, block_fields <$> blocks p))
      (λ t, Build_BlocksByRangePacket t.1 (of_block_fields <$> t.2)) p rest _).
    destruct p as [i l]. cbn. f_equal. induction l as [|b l IH]; [done|]. cbn. rewrite IH. f_equal. apply of_block_fields_block.
Qed.

(** A chain of three blocks, the second and third of which are cached. *)
Definition genesis_block : BscBlock := {| block_header := test_header 1 10 0; block_transactions := [] |}.
Definition block2 : BscBlock := {| block_header := test_header 2 20 (hash_slow (block_header genesis_block)); block_transactions := [] |}.
Definition block3 : BscBlock := {| block_header := test_header 3 30 (hash_slow (block_header block2)); block_transactions := [] |}.
Definition cached_two : BodyCache := cache_full_block block3 (cache_full_block block2 {| Shared.by_hash := ∅; by_number := ∅ |}).
Definition seen_headers (h : Header) : Prop := h = block_header block2 ∨ h = block_header block3.
Definition request3 : GetBlocksByRangePacket :=
  {| request_id := 1; start_block_height := 3; start_block_hash := ZERO; count := 5 |}.

Lemma cached_two_coherent : coherent seen_headers cached_two.
Proof. do 2 (apply cache_full_block_coherent; [by (left + right)|]). by split. Qed.
Lemma seen_distinct : no_collision seen_headers.
Proof. intros x y [->| ->] [->| ->] He; done. Qed.

Lemma range_response_is_chain_witness :
  blocks (build_blocks_by_range_response request3 cached_two).1 = [block3; block2]
  ∧ hash_slow (block_header block2) = parent_hash (block_header block3).
Proof.
  assert (Hb : blocks (build_blocks_by_range_response request3 cached_two).1 = [block3; block2]) by (vm_compute; reflexivity).
  split; [exact Hb|].
  destruct (range_response_is_chain seen_headers request3 cached_two seen_distinct cached_two_coherent) as (_ & _ & _ & Hp & _);
    [by vm_compute|].
  apply (Hp 0%nat); rewrite Hb; reflexivity.
Defined.

(** An hour of silence. *)
Definition quiet (t : Z) : PollInput :=
  {| poll_time := t; poll_closed := λ _, false; peer_gone := false; new_commands := []; new_frames := [] |}.
Definition fresh : Shared := {| votes := pool_new; body_cache := cached_two; delivered := [] |}.

Lemma silent_peer_kept_witness :
  ended (poll_all [quiet 10; quiet 10000; quiet 3600000] (endpoint_new 2 0 fresh)) = false
  ∧ handshake_completed (conn (poll_all [quiet 10; quiet 10000; quiet 3600000] (endpoint_new 2 0 fresh))) = false.
Proof. apply (silent_peer_kept 2 0 fresh [quiet 10; quiet 10000; quiet 3600000]). repeat constructor. Defined.

Definition connected : BscProtocolConnection := complete_handshake (take_initial (connection_new 2 0)).
Definition one_peer : Registry := {| registered := {[7]}; proxyed_peer_ids := ∅; req_counter := 1 |}.

Lemma range_request_answered_witness :
  ∃ g cs1 ws1 cr1 cr2 wr2,
    poll_next 110 (λ _, false) false [] [encode_request request3] connected fresh = (Frame g, [], [], cs1, ws1)
    ∧ poll_next 120 (λ _, false) false [] [g] cr1 fresh = (Pending, [], [], cr2, wr2)
    ∧ delivered wr2 = [(1%positive, {| answered_id := 1; blocks := [block3; block2] |})].
Proof.
  destruct (range_request_answered (λ _, true) 7 3 ZERO 5 1%positive one_peer
    {| registered := {[7]}; proxyed_peer_ids := ∅; req_counter := 2 |} (SendRequest request3 1%positive)
    100 (λ _, false) connected fresh 110 (λ _, false) connected fresh 120 (λ _, false))
    as (f & g & cr1 & cs1 & ws1 & cr2 & wr2 & Hf & Hg & _ & Hr & Hd & _); try reflexivity; [done|].
  assert (Ef : f = encode_request request3) by (unfold poll_next in Hf; cbn in Hf; injection Hf as <-; reflexivity).
  exists g, cs1, ws1, cr1, cr2, wr2. rewrite <- Ef. split; [exact Hg|]. split; [exact Hr|]. rewrite Hd. vm_compute. reflexivity.
Defined.

End Witnesses.
