(* ===== verification/BlockImport.v ===== *)
(** * Importing blocks ([src/node/network/block_import/service.rs])

    The service between the network, the miner and the engine: what it does
    with a new block, a mined block, announced hashes and the end of an import.
    Its future polls its channels in this order, so a run is a list of events;
    what it sends is its log.  The engine, the clock and the network are
    parameters, the fork choice is behind the trait of [Shared.v].  An import's
    future is one step from the engine's answer to its outcome; the task that
    updates the fork choice for a mined block is only recorded in the log. *)

From S2P Require Import Prelude Hardforks Types HeaderExtra SystemContracts Evm Execution Building Payload Shared BscProtocol.

Definition LRU_PROCESSED_BLOCKS_SIZE : Z := 100.
Definition DOWNLOAD_COOLDOWN_DURATION_MS : Z := 200.

Record BlockMsg := { msg_hash : B256; msg_block : BscBlock }.

(** The answer of the engine to a new payload; [None] is an error of the call. *)
Inductive PayloadStatus := Valid | Invalid (validation_error : string) | Syncing | Accepted.

(** What the service sends, starts and stores. *)
Inductive Effect :=
| ValidHeader (block : BlockMsg)
| ValidBlock (block : BlockMsg)
| OutcomeValid (peer : PeerId) (block : BlockMsg)
| OutcomeInvalid (peer : PeerId) (error : string)
| ImportStarted (block : BlockMsg) (peer : PeerId)
| EvnNewBlock (peer : PeerId) (block : BlockMsg)
| HeaderCached (header : Header)
| BuiltPayload (payload : BscBuiltPayload)
| ForkchoiceTask (header : Header)
| SyncForkchoice (head : B256)
| RangeRequest (peer : PeerId) (height : Z) (hash : B256).

(** The parts of the mining configuration that are read here. *)
Record MiningIdentity := { mining_enabled : bool; mining_address : option Address }.

Section ImportService.
Context `{FE : ForkChoiceEngineTrait} `{SL : Sealable} `{BC : !LruApi BscBlock} `{NC : !LruApi B256}.
Context `{UL : !OrderedLru unit} `{ZL : !OrderedLru Z}.

Record ImportService := {
  engine : Engine;
  pending_imports : list (BlockMsg * PeerId);
  processed_blocks : OLru unit;
  queued_blocks : OLru unit;
  downloading_blocks : OLru Z;
  full_blocks : BodyCache;
  log : list Effect;
}.

Definition service_new (engine : Engine) (cache : BodyCache) : ImportService :=
  {| engine := engine; pending_imports := []; processed_blocks := olru_new LRU_PROCESSED_BLOCKS_SIZE;
     queued_blocks := olru_new LRU_PROCESSED_BLOCKS_SIZE; downloading_blocks := olru_new LRU_PROCESSED_BLOCKS_SIZE;
     full_blocks := cache; log := [] |}.

Definition emit (l : list Effect) (s : ImportService) : ImportService :=
  {| engine := engine s; pending_imports := pending_imports s; processed_blocks := processed_blocks s;
     queued_blocks := queued_blocks s; downloading_blocks := downloading_blocks s; full_blocks := full_blocks s;
     log := log s ++ l |}.
Definition set_engine (e : Engine) (s : ImportService) : ImportService :=
  {| engine := e; pending_imports := pending_imports s; processed_blocks := processed_blocks s;
     queued_blocks := queued_blocks s; downloading_blocks := downloading_blocks s; full_blocks := full_blocks s;
     log := log s |}.
Definition set_imports (l : list (BlockMsg * PeerId)) (s : ImportService) : ImportService :=
  {| engine := engine s; pending_imports := l; processed_blocks := processed_blocks s;
     queued_blocks := queued_blocks s; downloading_blocks := downloading_blocks s; full_blocks := full_blocks s;
     log := log s |}.
Definition set_processed (hash : B256) (s : ImportService) : ImportService :=
  {| engine := engine s; pending_imports := pending_imports s; processed_blocks := olru_put (processed_blocks s) hash tt;
     queued_blocks := queued_blocks s; downloading_blocks := downloading_blocks s; full_blocks := full_blocks s;
     log := log s |}.
Definition set_queued (hash : B256) (s : ImportService) : ImportService :=
  {| engine := engine s; pending_imports := pending_imports s; processed_blocks := processed_blocks s;
     queued_blocks := olru_put (queued_blocks s) hash tt; downloading_blocks := downloading_blocks s;
     full_blocks := full_blocks s; log := log s |}.
Definition set_downloading (m : OLru Z) (s : ImportService) : ImportService :=
  {| engine := engine s; pending_imports := pending_imports s; processed_blocks := processed_blocks s;
     queued_blocks := queued_blocks s; downloading_blocks := m; full_blocks := full_blocks s; log := log s |}.
Definition cache_block (b : BscBlock) (s : ImportService) : ImportService :=
  {| engine := engine s; pending_imports := pending_imports s; processed_blocks := processed_blocks s;
     queued_blocks := queued_blocks s; downloading_blocks := downloading_blocks s;
     full_blocks := cache_full_block b (full_blocks s); log := log s |}.

Definition is_known (hash : B256) (s : ImportService) : bool :=
  bool_decide (is_Some (olru_peek (processed_blocks s) hash)) || bool_decide (is_Some (olru_peek (queued_blocks s) hash)).

(** The globals that are read: the configurations, the peers, whether there is a
    network handle and a channel for payload events, and the clock. *)
Variable mining_config : option MiningIdentity.
Variable evn : EvnState.
Variable registry : Registry.
Variable network_handle payload_events : bool.

(** An error (a configuration is missing) is logged and ignored. *)
Definition transfer_to_evn_peers (block : BlockMsg) : list Effect :=
  match mining_config, evn_config evn with
  | Some mining_config, Some cfg =>
      let coinbase := beneficiary (block_header (msg_block block)) in
      if negb (evn_enabled cfg) then []
      else if bool_decide (coinbase ∈ proxyed_validators cfg)
              || (mining_enabled mining_config && (default ZERO (mining_address mining_config) =? coinbase)) then
        if network_handle then
          (λ e, EvnNewBlock e.1 block)
            <$> filter (λ e, is_evn e.2 || is_proxyed_peer e.1 registry = true) (evn_snapshot evn)
        else []
      else []
  | _, _ => []
  end.

Definition on_new_mined_block (payload : BscBuiltPayload) (block_msg : BlockMsg) (s : ImportService) : ImportService :=
  let block := msg_block block_msg in
  let s := emit [HeaderCached (block_header block)] s in
  let s := cache_block block s in
  let s := emit (transfer_to_evn_peers block_msg) s in
  let s := emit [ValidHeader block_msg; ValidBlock block_msg] s in
  let s := emit (if payload_events then [BuiltPayload payload] else []) s in
  let s := emit [ForkchoiceTask (block_header block)] s in
  set_processed (msg_hash block_msg) s.

Definition on_new_block (block : BlockMsg) (peer_id : PeerId) (s : ImportService) : ImportService :=
  if is_known (msg_hash block) s then s
  else
    let s := set_queued (msg_hash block) s in
    let s := emit (transfer_to_evn_peers block ++ [ValidHeader block; ImportStarted block peer_id]) s in
    set_imports (pending_imports s ++ [(block, peer_id)]) s.

(** The peer that is asked for a block: the one that announced it, if it talks
    the protocol, or any that does. *)
Definition target_peer (announcing_peer : PeerId) : option PeerId :=
  if has_registered_peer announcing_peer registry then Some announcing_peer
  else head (list_registered_peers registry).

Definition on_new_block_hash (now : Z) (peer_id : PeerId) (hash_number : B256 * Z) (s : ImportService) : ImportService :=
  let '(hash, height) := hash_number in
  if is_known hash s then s
  else
    let '(last_requested, m) := olru_get (downloading_blocks s) hash in
    let s := set_downloading m s in
    if match last_requested with Some t => now <? t + DOWNLOAD_COOLDOWN_DURATION_MS | None => false end then s
    else
      let s := emit (option_list ((λ p, RangeRequest p height hash) <$> target_peer peer_id)) s in
      set_downloading (olru_put (downloading_blocks s) hash now) s.

Definition on_new_block_hashes (now : Z) (hashes : list (B256 * Z)) (peer_id : PeerId) (s : ImportService) : ImportService :=
  foldl (λ s h, on_new_block_hash now peer_id h s) s hashes.

(** The future of an import, once the engine has answered: the outcome it
    resolves to. *)
Definition new_payload (status : option PayloadStatus) (block : BlockMsg) (peer_id : PeerId) (s : ImportService)
    : option (BlockMsg + string) * ImportService :=
  let header := block_header (msg_block block) in
  match status with
  | Some Valid => (Some (inl block), set_engine (engine_update header (engine s)).2 s)
  | Some (Invalid validation_error) => (Some (inr validation_error), s)
  | Some Syncing => (None, emit [SyncForkchoice (hash_slow header)] s)
  | Some Accepted | None => (None, s)
  end.

(** The i-th pending import resolves. *)
Definition on_import_done (i : nat) (status : option PayloadStatus) (s : ImportService) : ImportService :=
  match pending_imports s !! i with
  | None => s
  | Some (block, peer) =>
      let s := set_imports (delete i (pending_imports s)) s in
      match new_payload status block peer s with
      | (None, s) => s
      | (Some (inl block), s) =>
          let s := set_processed (msg_hash block) s in
          let s := cache_block (msg_block block) s in
          let s := emit (transfer_to_evn_peers block) s in
          emit [OutcomeValid peer block] s
      | (Some (inr error), s) => emit [OutcomeInvalid peer error] s
      end
  end.

(** ** A run *)

Inductive ImportEvent :=
| NewBlock (block : BlockMsg) (peer : PeerId)
| MinedBlock (payload : BscBuiltPayload) (block : BlockMsg)
| NewHashes (now : Z) (hashes : list (B256 * Z)) (peer : PeerId)
| ImportDone (i : nat) (status : option PayloadStatus).

Definition import_step (s : ImportService) (e : ImportEvent) : ImportService :=
  match e with
  | NewBlock block peer => on_new_block block peer s
  | MinedBlock payload block => on_new_mined_block payload block s
  | NewHashes now hashes peer => on_new_block_hashes now hashes peer s
  | ImportDone i status => on_import_done i status s
  end.
Definition import_run (events : list ImportEvent) (s : ImportService) : ImportService := foldl import_step s events.

End ImportService.

(** ** What the log says of the imports *)

Definition started (log : list Effect) : list (BlockMsg * PeerId) :=
  omap (λ e, match e with ImportStarted block peer => Some (block, peer) | _ => None end) log.
Definition outcomes (log : list Effect) : list (PeerId * (BlockMsg + string)) :=
  omap (λ e, match e with
             | OutcomeValid peer block => Some (peer, inl block)
             | OutcomeInvalid peer error => Some (peer, inr error)
             | _ => None
             end) log.

(** What an import that the engine has answered must lead to: its peer is told
    of a valid or an invalid block, and the fork choice sees a valid one. *)
Definition verdict (d : (BlockMsg * PeerId) * option PayloadStatus) : option (PeerId * (BlockMsg + string)) :=
  match d with
  | ((block, peer), Some Valid) => Some (peer, inl block)
  | ((block, peer), Some (Invalid error)) => Some (peer, inr error)
  | _ => None
  end.
Definition accepted (d : (BlockMsg * PeerId) * option PayloadStatus) : option Header :=
  match d with
  | ((block, _), Some Valid) => Some (block_header (msg_block block))
  | _ => None
  end.
Definition answers (e : ImportEvent) : option (option PayloadStatus) :=
  match e with ImportDone _ status => Some status | _ => None end.
(** The events that mark at most one block as processed. *)
Definition processes (e : ImportEvent) : bool :=
  match e with MinedBlock _ _ | ImportDone _ _ => true | _ => false end.

(** * Proofs *)

Section Proofs.
Context `{FE : ForkChoiceEngineTrait} `{SL : Sealable} `{BC : !LruApi BscBlock} `{NC : !LruApi B256}.
Context `{UL : !OrderedLru unit} `{ZL : !OrderedLru Z} `{LL : !OrderedLruLaws unit UL}.
Context (mining_config : option MiningIdentity) (evn : EvnState) (registry : Registry).
Context (network_handle payload_events : bool).
#[local] Notation import_step := (import_step mining_config evn registry network_handle payload_events).
#[local] Notation import_run := (import_run mining_config evn registry network_handle payload_events).
#[local] Notation transfer_to_evn_peers := (transfer_to_evn_peers mining_config evn registry network_handle).
Implicit Types (s : ImportService) (block : BlockMsg).

(** ** Steps that leave the imports alone *)

Record same_imports s s' : Prop := {
  si_engine : engine s = engine s';
  si_pending : pending_imports s = pending_imports s';
  si_queued : queued_blocks s = queued_blocks s';
  si_started : started (log s) = started (log s');
  si_outcomes : outcomes (log s) = outcomes (log s');
}.

#[export] Instance same_imports_equivalence : Equivalence same_imports.
Proof. split; [by intros s|by intros s s' []|intros s1 s2 s3 [] []; split; congruence]. Qed.

Lemma started_app l l' : started (l ++ l') = started l ++ started l'.
Proof. apply omap_app. Qed.
Lemma outcomes_app l l' : outcomes (l ++ l') = outcomes l ++ outcomes l'.
Proof. apply omap_app. Qed.

Lemma transfer_silent block :
  started (transfer_to_evn_peers block) = [] ∧ outcomes (transfer_to_evn_peers block) = [].
Proof.
  unfold BlockImport.transfer_to_evn_peers.
  repeat case_match; try done.
  induction (filter _ _) as [|x l IH]; [done|]. exact IH.
Qed.

Lemma emit_silent l s : started l = [] → outcomes l = [] → same_imports (emit l s) s.
Proof.
  intros H1 H2. split; try done; cbn [emit log].
  - by rewrite started_app, H1, app_nil_r.
  - by rewrite outcomes_app, H2, app_nil_r.
Qed.

Lemma mined_silent payload block s :
  same_imports (on_new_mined_block mining_config evn registry network_handle payload_events payload block s) s.
Proof.
  destruct (transfer_silent block) as [H1 H2]. split; try done; cbn [on_new_mined_block emit log cache_block set_processed].
  - rewrite !started_app, H1. destruct payload_events; cbn; by rewrite !app_nil_r.
  - rewrite !outcomes_app, H2. destruct payload_events; cbn; by rewrite !app_nil_r.
Qed.

Lemma new_hash_silent now peer h s : same_imports (on_new_block_hash registry now peer h s) s.
Proof.
  destruct h as [hash height]. unfold on_new_block_hash. destruct (is_known hash s); [done|].
  destruct (olru_get (downloading_blocks s) hash) as [last m]. case_match; [by split|].
  transitivity (set_downloading m s); [|by split].
  etransitivity; [|by apply (emit_silent (option_list ((λ p, RangeRequest p height hash) <$> target_peer registry peer)));
                    destruct (target_peer registry peer)].
  by split.
Qed.

Lemma new_hashes_silent now hashes peer s :
  same_imports (on_new_block_hashes registry now hashes peer s) s.
Proof.
  unfold on_new_block_hashes. revert s. induction hashes as [|h hashes IH]; intros s; [done|]. cbn [foldl].
  rewrite IH. apply new_hash_silent.
Qed.

(** ** A block is not imported again at once *)

(** The queue holds the hashes of the last imports. *)
Record queue_ok s : Prop := {
  qo_capacity : olru_capacity (queued_blocks s) = LRU_PROCESSED_BLOCKS_SIZE;
  qo_order : (olru_order (queued_blocks s)).*1 = take 100 (reverse (msg_hash ∘ fst <$> started (log s)));
}.

#[export] Instance queue_ok_proper : Proper (same_imports ==> iff) queue_ok.
Proof. intros s s' [_ _ Hq Hs _]. split; intros [Hc Ho]; split; congruence. Qed.

Lemma queue_not_full block s :
  queue_ok s → is_known (msg_hash block) s = false →
  msg_hash block ∉ take 100 (reverse (msg_hash ∘ fst <$> started (log s))).
Proof.
  intros [_ <-] Hk. apply orb_false_iff in Hk as [_ Hk]. apply bool_decide_eq_false in Hk.
  rewrite olru_peek_value in Hk. apply assoc_None. destruct (assoc _ _); [by destruct Hk|done].
Qed.

Lemma on_new_block_cases block peer s :
  let s' := on_new_block mining_config evn registry network_handle block peer s in
  s' = s
  ∨ is_known (msg_hash block) s = false ∧ engine s' = engine s ∧ processed_blocks s' = processed_blocks s
    ∧ pending_imports s' = pending_imports s ++ [(block, peer)]
    ∧ queued_blocks s' = olru_put (queued_blocks s) (msg_hash block) tt
    ∧ started (log s') = started (log s) ++ [(block, peer)] ∧ outcomes (log s') = outcomes (log s).
Proof.
  cbv zeta. unfold on_new_block. destruct (is_known _ s); [by left|right]. destruct (transfer_silent block) as [H1 H2].
  cbn [emit set_imports set_queued log engine processed_blocks pending_imports queued_blocks].
  rewrite !started_app, !outcomes_app, H1, H2. cbn. by rewrite app_nil_r.
Qed.

Lemma import_done_cases i status s :
  let s' := on_import_done mining_config evn registry network_handle i status s in
  pending_imports s !! i = None ∧ s' = s
  ∨ ∃ d, pending_imports s !! i = Some d
      ∧ pending_imports s' = delete i (pending_imports s) ∧ queued_blocks s' = queued_blocks s
      ∧ started (log s') = started (log s)
      ∧ outcomes (log s') = outcomes (log s) ++ option_list (verdict (d, status))
      ∧ engine s' = foldl (λ e h, (engine_update h e).2) (engine s) (option_list (accepted (d, status)))
      ∧ (processed_blocks s' = processed_blocks s
         ∨ processed_blocks s' = olru_put (processed_blocks s) (msg_hash d.1) tt).
Proof.
  cbv zeta. unfold on_import_done. destruct (pending_imports s !! i) as [[block peer]|] eqn:Hd; [right|by left].
  destruct (transfer_silent block) as [H1 H2]. exists (block, peer). split; [done|].
  destruct status as [[|err| |]|]; cbn [new_payload set_imports emit set_engine set_processed cache_block log engine
    processed_blocks pending_imports queued_blocks verdict accepted option_list foldl fst];
    rewrite ?started_app, ?outcomes_app, ?H1, ?H2; cbn [started outcomes omap list_omap]; rewrite ?app_nil_r; auto 10.
Qed.

Lemma queue_ok_step s e : queue_ok s → queue_ok (import_step s e).
Proof.
  intros Hs. destruct e as [block peer|payload block|now hashes peer|i status]; cbn [BlockImport.import_step].
  - destruct (on_new_block_cases block peer s) as [->|(Hk & _ & _ & _ & Hq & Hst & _)]; [done|].
    pose proof (queue_not_full block s Hs Hk) as Hf. destruct Hs as [Hc Ho]. split.
    + by rewrite Hq, (proj2 (olru_put_order _ _ _)).
    + rewrite Hq, (proj1 (olru_put_order _ _ _)), Hc, Hst, fmap_app, reverse_app, fmap_take, fmap_cons.
      rewrite without_fresh by (by rewrite Ho). rewrite Ho. change (Z.to_nat LRU_PROCESSED_BLOCKS_SIZE) with 100%nat.
      cbn [fst reverse fmap list_fmap app compose take]. f_equal. by rewrite take_take.
  - by rewrite mined_silent.
  - by rewrite new_hashes_silent.
  - destruct (import_done_cases i status s) as [[_ ->]|(d & _ & _ & Hq & Hst & _)]; [done|].
    destruct Hs as [Hc Ho]. split; congruence.
Qed.

(** Equal elements are more than [n] places apart. *)
Definition spaced {A} (n : nat) (l : list A) : Prop :=
  ∀ i j x, (i < j)%nat → l !! i = Some x → l !! j = Some x → (i + n < j)%nat.

Lemma spaced_snoc {A} n (l : list A) x : spaced n l → x ∉ take n (reverse l) → spaced n (l ++ [x]).
Proof.
  intros Hl Hx i j y Hij Hi Hj. apply lookup_app_Some in Hj as [Hj|[Hle Hj]].
  - rewrite lookup_app_l in Hi by (apply lookup_lt_Some in Hj; lia). by eapply Hl.
  - apply list_lookup_singleton_Some in Hj as [Hj <-]. rewrite lookup_app_l in Hi by lia.
    destruct (decide (i + n < j)%nat) as [|Hn]; [done|]. destruct Hx. apply elem_of_take.
    pose proof (lookup_lt_Some _ _ _ Hi). exists (length l - S i)%nat. split; [|lia].
    rewrite reverse_lookup by lia. by replace (length l - S (length l - S i))%nat with i by lia.
Qed.

Lemma import_run_snoc events e s : import_run (events ++ [e]) s = import_step (import_run events s) e.
Proof. unfold BlockImport.import_run. by rewrite foldl_app. Qed.

Lemma import_run_queue events s : queue_ok s → queue_ok (import_run events s).
Proof.
  intros Hs. induction events as [|e events IH] using rev_ind; [done|]. rewrite import_run_snoc. by apply queue_ok_step.
Qed.

Lemma new_queue_ok engine cache : queue_ok (service_new engine cache).
Proof. destruct (olru_new_order (OrderedLruLaws:=LL) LRU_PROCESSED_BLOCKS_SIZE) as [Ho Hc]. split; [done|]. cbn. by rewrite Ho. Qed.

(** C35.  A block is imported once: whatever the peers and the miner send and
    however the engine answers, two imports that the service starts for the same
    hash have at least a hundred imports of other blocks between them. *)
Theorem import_once events engine cache :
  let s := import_run events (service_new engine cache) in
  spaced 100 (msg_hash ∘ fst <$> started (log s)).
Proof.
  cbv zeta. induction events as [|e events IH] using rev_ind; [intros i j x _ [=]|].
  rewrite import_run_snoc. pose proof (import_run_queue events _ (new_queue_ok engine cache)) as Hs.
  set (s := import_run events (service_new engine cache)) in *.
  destruct e as [block peer|payload block|now hashes peer|i status]; cbn [BlockImport.import_step].
  - destruct (on_new_block_cases block peer s) as [->|(Hk & _ & _ & _ & _ & -> & _)]; [done|].
    rewrite fmap_app. apply spaced_snoc; [done|]. by apply queue_not_full.
  - by rewrite (si_started _ _ (mined_silent payload block s)).
  - by rewrite (si_started _ _ (new_hashes_silent now hashes peer s)).
  - destruct (import_done_cases i status s) as [[_ ->]|(d & _ & _ & _ & -> & _)]; done.
Qed.

(** ** Every import is accounted for *)

(** The imports that were answered, with the answers, in order. *)
Record accounted (engine0 : Engine) (resolved : list ((BlockMsg * PeerId) * option PayloadStatus)) s : Prop := {
  ac_started : started (log s) ≡ₚ resolved.*1 ++ pending_imports s;
  ac_outcomes : outcomes (log s) = omap verdict resolved;
  ac_engine : engine s = foldl (λ e h, (engine_update h e).2) engine0 (omap accepted resolved);
}.

#[export] Instance accounted_proper engine0 resolved : Proper (same_imports ==> iff) (accounted engine0 resolved).
Proof. intros s s' [He Hp _ Hst Ho]. split; intros [A1 A2 A3]; split; congruence. Qed.

Lemma accounted_step engine0 resolved s e :
  accounted engine0 resolved s →
  ∃ new, accounted engine0 (resolved ++ new) (import_step s e) ∧ new.*2 `sublist_of` option_list (answers e).
Proof.
  intros Hs. destruct e as [block peer|payload block|now hashes peer|i status]; cbn [BlockImport.import_step answers option_list].
  - exists []. split; [|done]. rewrite app_nil_r.
    destruct (on_new_block_cases block peer s) as [->|(_ & He & _ & Hp & _ & Hst & Ho)]; [done|].
    destruct Hs as [A1 A2 A3]. split; [|congruence..]. by rewrite Hst, Hp, A1, app_assoc.
  - exists []. split; [|done]. by rewrite app_nil_r, mined_silent.
  - exists []. split; [|done]. by rewrite app_nil_r, new_hashes_silent.
  - destruct (import_done_cases i status s) as [[_ ->]|(d & Hd & Hp & _ & Hst & Ho & He & _)].
    { exists []. split; [by rewrite app_nil_r|apply sublist_nil_l]. }
    exists [(d, status)]. split; [|done]. destruct Hs as [A1 A2 A3]. split.
    + rewrite Hst, Hp, A1, fmap_app, <- app_assoc. apply Permutation_app_head. cbn. by apply delete_Permutation.
    + rewrite Ho, A2, omap_app. by cbn; destruct (verdict _).
    + rewrite He, A3, omap_app, foldl_app. by cbn; destruct (accepted _).
Qed.

(** C34.  Every import is accounted for.  At any moment of a run, the imports that
    were started are, in some order, those that the engine has answered and
    those that still wait; the answers are among those that the engine gave, in
    their order; each peer whose block was judged valid or invalid has been told
    so once, in the order of the answers, and no other was told anything; and
    the imports have given the fork choice exactly the headers of the valid ones. *)
Theorem imports_accounted events engine0 cache :
  let s := import_run events (service_new engine0 cache) in
  ∃ resolved, accounted engine0 resolved s ∧ resolved.*2 `sublist_of` omap answers events.
Proof.
  cbv zeta. induction events as [|e events (resolved & Ha & Hr)] using rev_ind.
  { exists []. split; [by split|done]. }
  rewrite import_run_snoc. destruct (accounted_step _ _ _ e Ha) as (new & Hn & Hs).
  exists (resolved ++ new). split; [done|]. rewrite fmap_app, omap_app. apply sublist_app; [done|].
  replace (omap answers [e]) with (option_list (answers e)); [done|]. cbn. by destruct (answers e).
Qed.

(** ** A block that was processed is not imported *)

Lemma new_hashes_processed now hashes peer s :
  processed_blocks (on_new_block_hashes registry now hashes peer s) = processed_blocks s.
Proof.
  unfold on_new_block_hashes. revert s. induction hashes as [|[hash height] hashes IH]; intros s; [done|]. cbn [foldl].
  rewrite IH. unfold on_new_block_hash. destruct (is_known hash s); [done|].
  destruct (olru_get (downloading_blocks s) hash) as [last m]. by case_match.
Qed.

Lemma within_known hash n s : within n hash (processed_blocks s) → is_known hash s = true.
Proof.
  intros Hw%within_assoc. unfold is_known. rewrite olru_peek_value. by rewrite bool_decide_eq_true_2.
Qed.

(** The imports of a hash. *)
Definition imports_of (hash : B256) s : list (BlockMsg * PeerId) := filter (λ b, msg_hash b.1 = hash) (started (log s)).

Lemma put_processed hash hash' n s s' :
  olru_capacity (processed_blocks s) = LRU_PROCESSED_BLOCKS_SIZE → (n < 100)%nat → within n hash (processed_blocks s) →
  processed_blocks s' = olru_put (processed_blocks s) hash' tt →
  olru_capacity (processed_blocks s') = LRU_PROCESSED_BLOCKS_SIZE ∧ within (S n) hash (processed_blocks s').
Proof.
  intros Hc Hn Hw ->. split; [by rewrite (proj2 (olru_put_order _ _ _))|].
  apply put_within_old; [|done]. rewrite Hc. unfold LRU_PROCESSED_BLOCKS_SIZE. lia.
Qed.

Lemma processed_step hash n s e :
  olru_capacity (processed_blocks s) = LRU_PROCESSED_BLOCKS_SIZE → (processes e = true → n < 100)%nat →
  within n hash (processed_blocks s) →
  let s' := import_step s e in
  (olru_capacity (processed_blocks s') = LRU_PROCESSED_BLOCKS_SIZE
   ∧ within (if processes e then S n else n) hash (processed_blocks s'))
  ∧ imports_of hash s' = imports_of hash s.
Proof.
  intros Hc Hn Hw. unfold imports_of.
  destruct e as [block peer|payload block|now hashes peer|i status]; cbn [BlockImport.import_step processes].
  - destruct (on_new_block_cases block peer s) as [->|(Hk & _ & Hp & _ & _ & Hst & _)]; [done|].
    rewrite Hp, Hst, list.filter_app. split; [done|]. rewrite filter_cons_False; [by rewrite filter_nil, app_nil_r|].
    cbn. intros Heq. rewrite Heq, (within_known _ _ _ Hw) in Hk. done.
  - rewrite (si_started _ _ (mined_silent payload block s)). split; [|done]. eapply put_processed; eauto.
  - rewrite (si_started _ _ (new_hashes_silent now hashes peer s)), new_hashes_processed. done.
  - assert (Hm : within (S n) hash (processed_blocks s)) by (revert Hw; apply within_mono; lia).
    destruct (import_done_cases i status s) as [[_ ->]|(d & _ & _ & _ & -> & _ & _ & [->|Hp])]; [done..|].
    split; [|done]. eapply put_processed; eauto.
Qed.

Lemma processed_run hash events n s :
  (n + length (filter (λ e, processes e = true) events) <= 100)%nat →
  olru_capacity (processed_blocks s) = LRU_PROCESSED_BLOCKS_SIZE → within n hash (processed_blocks s) →
  imports_of hash (import_run events s) = imports_of hash s.
Proof.
  revert n s. induction events as [|e events IH]; intros n s Hn Hc Hw; [done|].
  change (import_run (e :: events) s) with (import_run events (import_step s e)). rewrite filter_cons in Hn.
  destruct (processed_step hash n s e) as [[Hc' Hw'] <-]; [done| |done|].
  - intros Hp. rewrite decide_True in Hn by done. cbn in Hn. lia.
  - eapply IH; [|exact Hc'|exact Hw']. case_decide as Hp; [rewrite Hp|apply not_true_is_false in Hp as ->]; cbn in Hn; lia.
Qed.

(**  A block that this node mined is not imported when a peer sends it back:
    until the service has processed a hundred other blocks, no import of its
    hash is started. *)
Theorem own_block_not_imported payload block events s :
  olru_capacity (processed_blocks s) = LRU_PROCESSED_BLOCKS_SIZE →
  (length (filter (λ e, processes e = true) events) < 100)%nat →
  imports_of (msg_hash block) (import_run (MinedBlock payload block :: events) s) = imports_of (msg_hash block) s.
Proof.
  intros Hc Hlen. change (import_run (?e :: events) s) with (import_run events (import_step s e)).
  rewrite (processed_run _ _ 1); [|lia| |].
  - cbn [BlockImport.import_step]. unfold imports_of. by rewrite (si_started _ _ (mined_silent payload block s)).
  - exact (eq_trans (proj2 (olru_put_order _ _ _)) Hc).
  - apply put_within_new. change (0 < olru_capacity (processed_blocks s)). by rewrite Hc.
Qed.

End Proofs.

(** * Witnesses *)

Section Witnesses.
Import RefLibraries RefLru.
#[local] Existing Instance HeaderExtra.ref_hash.

(** A fork choice that keeps the headers that it is given. *)
#[local] Instance recording_engine : ForkChoiceEngineTrait := {|
  Engine := list Header;
  engine_update h l := (Ret tt, l ++ [h]);
  engine_is_need_reorg _ _ l := (Ret false, l);
|}.

Definition no_evn : EvnState :=
  {| evn_config := None; evn_synced := false; nodeids_action_applied := false; evn_peers := ∅; onchain_nodeids := ∅ |}.
Definition two_peers : Registry := {| registered := {[7; 8]}; proxyed_peer_ids := ∅; req_counter := 1 |}.
Definition message (b : BscBlock) : BlockMsg := {| msg_hash := hash_slow (block_header b); msg_block := b |}.
Definition no_cache : BodyCache := {| Shared.by_hash := ∅; by_number := ∅ |}.
Definition start : ImportService := service_new (FE:=recording_engine) [] no_cache.

(** Two peers send two blocks, one of them twice; the engine refuses one. *)
Definition two_blocks : list ImportEvent :=
  [NewBlock (message block2) 7; NewBlock (message block2) 8; NewBlock (message block3) 8;
   ImportDone 1 (Some (Invalid "bad")); ImportDone 0 (Some Valid); NewBlock (message block2) 8].
Definition after_two_blocks : ImportService := import_run None no_evn two_peers true false two_blocks start.

Lemma import_once_witness :
  (msg_hash ∘ fst <$> started (log after_two_blocks)) = [msg_hash (message block2); msg_hash (message block3)]
  ∧ spaced 100 (msg_hash ∘ fst <$> started (log after_two_blocks)).
Proof. split; [reflexivity|]. exact (import_once None no_evn two_peers true false two_blocks [] no_cache). Defined.

Lemma imports_accounted_witness :
  outcomes (log after_two_blocks) = [(8, inr "bad"%string); (7, inl (message block2))]
  ∧ engine after_two_blocks = [block_header block2]
  ∧ ∃ resolved, accounted [] resolved after_two_blocks ∧ resolved.*2 `sublist_of` [Some (Invalid "bad"); Some Valid].
Proof.
  split; [reflexivity|]. split; [reflexivity|].
  exact (imports_accounted None no_evn two_peers true false two_blocks [] no_cache).
Defined.

Definition sealed_payload (b : BscBlock) : BscBuiltPayload :=
  {| payload_block := b; payload_sidecars := None; payload_fees := 5 |}.

(** The miner's block comes back from a peer; another block is imported. *)
Lemma own_block_not_imported_witness :
  imports_of (msg_hash (message block2))
    (import_run None no_evn two_peers true false
       [MinedBlock (sealed_payload block2) (message block2); NewBlock (message block3) 7; NewBlock (message block2) 8] start)
  = imports_of (msg_hash (message block2)) start.
Proof.
  apply (own_block_not_imported None no_evn two_peers true false (sealed_payload block2) (message block2)
           [NewBlock (message block3) 7; NewBlock (message block2) 8] start); [reflexivity|].
  apply (bool_decide_unpack _). vm_compute. exact I.
Defined.

End Witnesses.
