(* ===== verification/Miner.v ===== *)
(** * The miner ([src/node/miner/bsc_miner.rs])

    The workers of a validator and the channels between them: the worker that
    follows the canonical head and queues work, the one that starts a payload
    job for it and aborts the one before, and the one that submits the sealed
    block when its time has come, unless it would sign twice.  The jobs are
    those of [Payload.v]; the worker for bids is in [BidSimulator.v].  What the
    workers read of the chain is a view that comes with each event. *)

From S2P Require Import Prelude Hardforks Types Snapshot HeaderExtra Errors Timing VotePool Attestation Mining SystemContracts Evm.
From S2P Require Import Execution Building Payload BidSimulator Shared.

(** Maximum number of recently mined blocks to track. *)
Definition RECENT_MINED_BLOCKS_CACHE_SIZE : Z := 100.

(** The account of an execution outcome, and what is read of it beforehand. *)
Record AccountInfo := { account_nonce : Z; account_balance : Z; code_hash : B256 }.
Record BundleAccount := { account_info : option AccountInfo; present_storage : gmap Z Z }.
Definition CachedReads : Type := gmap Address (AccountInfo * gmap Z Z).

Record MiningContext := {
  mining_header : option Header;
  parent_header : Header;
  parent_snapshot : Snapshot;
  ctx_is_inturn : bool;
  cached_reads : option CachedReads;
}.
Record SubmitContext := { mining_ctx : MiningContext; submit_payload_of : BscBuiltPayload }.

(** What the provider answers at some moment; the outer [None] is an error. *)
Record ChainView := {
  best_block_number : option Z;
  last_block_number : option Z;
  sealed_header : Z → option (option Header);
  sealed_header_by_hash : B256 → option (option Header);
  header_td_by_number : Z → option (option Z);
  view_snapshot_by_hash : B256 → option Snapshot;
}.

(** A chain of a notification, by its tip and the changes of its execution. *)
Record Chain := { tip : Header; bundle_accounts : gmap Address BundleAccount }.
Inductive CanonStateNotification := Commit (new : Chain) | Reorg (old new : Chain).
Definition committed_chain (event : CanonStateNotification) : Chain :=
  match event with Commit new | Reorg _ new => new end.

(** ** The worker for new work *)

Section NewWorkWorker.
Context `{FE : ForkChoiceEngineTrait} `{SL : Sealable} `{KE : Keccak} `{VR : VoteRlp}.
Variable validator_address : Address.
(** Whether the global snapshot provider is set, which votes need. *)
Variable global_snapshots : bool.

(** The fork choice and the vote pool are globals; [voted_heads] are the heads
    for which a task that may vote was spawned. *)
Record NewWorkWorker := {
  pre_cached : option (B256 * CachedReads);
  fork_choice_engine : option Engine;
  pool : VotePool;
  voted_heads : list Header;
  mining_queue : list MiningContext;
}.

Definition set_pre_cached (c : option (B256 * CachedReads)) (w : NewWorkWorker) : NewWorkWorker :=
  {| pre_cached := c; fork_choice_engine := fork_choice_engine w; pool := pool w; voted_heads := voted_heads w;
     mining_queue := mining_queue w |}.
Definition set_fork_choice (e : option Engine) (w : NewWorkWorker) : NewWorkWorker :=
  {| pre_cached := pre_cached w; fork_choice_engine := e; pool := pool w; voted_heads := voted_heads w;
     mining_queue := mining_queue w |}.
Definition set_pool (p : VotePool) (w : NewWorkWorker) : NewWorkWorker :=
  {| pre_cached := pre_cached w; fork_choice_engine := fork_choice_engine w; pool := p; voted_heads := voted_heads w;
     mining_queue := mining_queue w |}.
Definition spawn_vote (h : Header) (w : NewWorkWorker) : NewWorkWorker :=
  {| pre_cached := pre_cached w; fork_choice_engine := fork_choice_engine w; pool := pool w;
     voted_heads := voted_heads w ++ [h]; mining_queue := mining_queue w |}.
Definition set_queue (l : list MiningContext) (w : NewWorkWorker) : NewWorkWorker :=
  {| pre_cached := pre_cached w; fork_choice_engine := fork_choice_engine w; pool := pool w; voted_heads := voted_heads w;
     mining_queue := l |}.

(** [Err] is an error of the check; a pruned old head makes the reorg valid. *)
Definition validate_reorg (view : ChainView) (old new : Chain) (engine : option Engine)
    : comp string bool * option Engine :=
  match engine with
  | None => (Err "Fork choice engine not initialized"%string, None)
  | Some engine =>
      match sealed_header_by_hash view (hash_slow (tip old)) with
      | Some (Some old_header) =>
          match sealed_header_by_hash view (hash_slow (tip new)) with
          | Some (Some new_header) =>
              let '(r, engine) := engine_is_need_reorg new_header old_header engine in
              (map_err (λ _, "Fork choice validation error"%string) r, Some engine)
          | Some None => (Err "New header not found"%string, Some engine)
          | None => (Err "Failed to get new header"%string, Some engine)
          end
      | Some None => (Ret true, Some engine)
      | None => (Err "Failed to get old header"%string, Some engine)
      end
  end.

Definition cache_for_next (committed : Chain) (w : NewWorkWorker) : NewWorkWorker :=
  let cached := omap (λ acc, info ← account_info acc; Some (info, present_storage acc)) (bundle_accounts committed) in
  set_pre_cached (Some (hash_slow (tip committed), cached)) w.

Definition maybe_pre_cached (parent : B256) (w : NewWorkWorker) : option CachedReads :=
  pc ← pre_cached w; if pc.1 =? parent then Some pc.2 else None.

(** [now] is the present in milliseconds. *)
Definition try_new_work {E} (view : ChainView) (now : Z) (tip : Header) (w : NewWorkWorker) : comp E NewWorkWorker :=
  if timestamp tip <? sub64 (now / 1000) 3 then Ret w
  else
    match sealed_header_by_hash view (hash_slow tip) with
    | Some (Some parent_header) =>
        match view_snapshot_by_hash view (hash_slow tip) with
        | None => Ret w
        | Some parent_snapshot =>
            if negb (bool_decide (validator_address ∈ validators parent_snapshot)) then Ret w
            else
              is_inturn ← Snapshot.is_inturn parent_snapshot validator_address;
              if sign_recently parent_snapshot validator_address then Ret w
              else
                let mining_ctx := {| mining_header := None; parent_header := parent_header;
                                     parent_snapshot := parent_snapshot; ctx_is_inturn := is_inturn;
                                     cached_reads := maybe_pre_cached (hash_slow parent_header) w |} in
                Ret (set_queue (mining_queue w ++ [mining_ctx]) w)
        end
    | _ => Ret w
    end.

(** The vote of a local validator for the new head. *)
Definition spawn_local_vote (view : ChainView) (tip : Header) (w : NewWorkWorker) : NewWorkWorker :=
  if global_snapshots then
    match sealed_header_by_hash view (hash_slow tip) with
    | Some (Some h) => spawn_vote h w
    | _ => w
    end
  else w.

Definition on_startup {E} (view : ChainView) (now : Z) (w : NewWorkWorker) : comp E NewWorkWorker :=
  match best_block_number view ≫= sealed_header view with
  | Some (Some tip_header) => try_new_work view now tip_header w
  | _ => Ret w
  end.

(** One round of [run]'s loop. *)
Definition on_notification {E} (view : ChainView) (now : Z) (event : CanonStateNotification) (w : NewWorkWorker)
    : comp E NewWorkWorker :=
  let committed := committed_chain event in
  let '(proceed, w) :=
    match event with
    | Reorg old new =>
        let '(r, engine) := validate_reorg view old new (fork_choice_engine w) in
        (match r with Ret false => Ret false | Panic => Panic | OutOfFuel => OutOfFuel | _ => Ret true end,
         set_fork_choice engine w)
    | Commit _ => (Ret true, w)
    end in
  proceed ← proceed;
  if negb proceed then Ret w
  else
    let w := set_pool (pool_prune (default (number (tip committed)) (last_block_number view)) (pool w)) w in
    let w := spawn_local_vote view (tip committed) w in
    let w := cache_for_next committed w in
    try_new_work view now (tip committed) w.

End NewWorkWorker.

(** ** The main worker *)

(** A payload job that was started; its handle asks it to stop through a
    channel of its own. *)
Record RunningJob := {
  job_ctx : MiningContext;
  build_args : BscBuildArguments;
  timeout : Z;
  job : Job;
  abort_requested : bool;
}.

Record MainWorkWorker := {
  payload_jobs : list RunningJob;
  running_job_handle : option nat;
  payload_channel : list SubmitContext;
}.

Definition recheck_mining_ctx `{SL : Sealable} (view : ChainView) (ctx : MiningContext) : bool :=
  match best_block_number view with
  | None => true
  | Some current_best =>
      if negb (number (parent_header ctx) =? current_best) then false
      else
        match sealed_header view current_best with
        | Some (Some canonical_header) => hash_slow canonical_header =? hash_slow (parent_header ctx)
        | _ => true
        end
  end.

Definition request_abort (j : RunningJob) : RunningJob :=
  {| job_ctx := job_ctx j; build_args := build_args j; timeout := timeout j; job := job j; abort_requested := true |}.
Definition set_job (x : Job) (j : RunningJob) : RunningJob :=
  {| job_ctx := job_ctx j; build_args := build_args j; timeout := timeout j; job := x;
     abort_requested := abort_requested j |}.
Definition with_header (h : Header) (ctx : MiningContext) : MiningContext :=
  {| mining_header := Some h; parent_header := parent_header ctx; parent_snapshot := parent_snapshot ctx;
     ctx_is_inturn := ctx_is_inturn ctx; cached_reads := cached_reads ctx |}.

Section MainWorkWorker.
Context `{FCA : ForkConditionApi} {CS : Type} `{!BscHardforks CS} `{SL : Sealable}.
Variable parlia : Parlia CS.
Variable maybe_next_block_excess_blob_gas : Header → Z → option Z.
Variable header_default : Header.
Variable fuel : nat.
Variable validator_address : Address.
Variable desired_min_gas_tip : Z.

Definition try_mine_block {E} (now draw : Z) (ctx : MiningContext) (w : MainWorkWorker) : comp E MainWorkWorker :=
  let jobs := match running_job_handle w with
              | Some i => alter request_abort i (payload_jobs w)
              | None => payload_jobs w
              end in
  '(attributes, header) ← prepare_new_attributes parlia maybe_next_block_excess_blob_gas header_default fuel now
                            (parent_snapshot ctx) (parent_header ctx) validator_address;
  let ctx := with_header header ctx in
  let build_args := {| parent_of := parent_header ctx; attributes_of := attributes; min_gas_tip := desired_min_gas_tip |} in
  let mining_delay := delay_for_mining parlia now draw (parent_snapshot ctx) header DELAY_LEFT_OVER in
  Ret {| payload_jobs := jobs ++ [{| job_ctx := ctx; build_args := build_args; timeout := from_millis mining_delay;
                                     job := job_new; abort_requested := false |}];
         running_job_handle := Some (length jobs);
         payload_channel := payload_channel w |}.

(** The next context of the queue. *)
Definition on_mining_ctx {E} (view : ChainView) (now draw : Z) (ctx : MiningContext) (w : MainWorkWorker)
    : comp E MainWorkWorker :=
  if recheck_mining_ctx view ctx then try_mine_block now draw ctx w else Ret w.

(** The i-th job reacts to an event, in its own task; what it submits goes into
    the channel.  Its abort channel fires only when it was asked to stop. *)
Definition on_job_event (i : nat) (e : JobEvent) (best_bid empty_payload : option BscBuiltPayload)
    (w : MainWorkWorker) : MainWorkWorker :=
  match payload_jobs w !! i with
  | None => w
  | Some j =>
      if match e with AbortRequested => negb (abort_requested j) | _ => false end then w
      else
        match job_step (ctx_is_inturn (job_ctx j)) best_bid empty_payload true e (job j) with
        | None => w
        | Some x =>
            let new := drop (length (submitted (job j))) (submitted x) in
            {| payload_jobs := <[i := set_job x j]> (payload_jobs w);
               running_job_handle := running_job_handle w;
               payload_channel := payload_channel w ++ ((λ p, {| mining_ctx := job_ctx j; submit_payload_of := p |}) <$> new) |}
        end
  end.

End MainWorkWorker.

(** ** The worker for results *)

(** What is sent to the import service: a block with its total difficulty. *)
Record SentBlock := {
  sent_at : Z;
  sent_block : BscBlock;
  sent_td : Z;
  to_mined : bool;
}.

Section ResultWorkWorker.
Context `{FCA : ForkConditionApi} {CS : Type} `{!BscHardforks CS} `{SL : Sealable}.
Context `{OL : !OrderedLru (list B256)}.
Variable parlia : Parlia CS.
Variable submit_built_payload : bool.
(** The senders to the import service: not set, closed or open. *)
Variable mined_sender import_sender : option bool.

Record ResultWorkWorker := {
  recent_mined_blocks : OLru (list B256);
  delayed : list (Z * BscBuiltPayload);
  sent : list SentBlock;
}.

Definition result_worker_new : ResultWorkWorker :=
  {| recent_mined_blocks := olru_new RECENT_MINED_BLOCKS_CACHE_SIZE; delayed := []; sent := [] |}.

Definition set_recent (c : OLru (list B256)) (w : ResultWorkWorker) : ResultWorkWorker :=
  {| recent_mined_blocks := c; delayed := delayed w; sent := sent w |}.
Definition set_delayed (l : list (Z * BscBuiltPayload)) (w : ResultWorkWorker) : ResultWorkWorker :=
  {| recent_mined_blocks := recent_mined_blocks w; delayed := l; sent := sent w |}.
Definition push_sent (b : SentBlock) (w : ResultWorkWorker) : ResultWorkWorker :=
  {| recent_mined_blocks := recent_mined_blocks w; delayed := delayed w; sent := sent w ++ [b] |}.

(** [None]: a double sign; else the block is remembered under its number. *)
Definition check_double_sign (block_number parent_hash : Z) (w : ResultWorkWorker) : bool * ResultWorkWorker :=
  let '(prev_parents, cache) := olru_get (recent_mined_blocks w) block_number in
  match prev_parents with
  | Some prev_parents =>
      if bool_decide (parent_hash ∈ prev_parents) then (true, set_recent cache w)
      else (false, set_recent (olru_put cache block_number (prev_parents ++ [parent_hash])) w)
  | None => (false, set_recent (olru_put cache block_number [parent_hash]) w)
  end.

(** The sending itself. *)
Definition send_block (now td : Z) (block : BscBlock) (w : ResultWorkWorker) : comp string unit * ResultWorkWorker :=
  let sent := {| sent_at := now; sent_block := block; sent_td := td; to_mined := submit_built_payload |} in
  if submit_built_payload then
    match mined_sender with
    | Some true => (Ret tt, push_sent sent w)
    | Some false => (Err "Failed to send mined block to import service due to channel closed"%string, w)
    | None => (Err "Failed to send mined block due to import sender not initialised"%string, w)
    end
  else
    match import_sender with
    | Some true => (Ret tt, push_sent sent w)
    | Some false => (Err "Failed to send built block to import service due to channel closed"%string, w)
    | None => (Err "Failed to send built block due to import sender not initialised"%string, w)
    end.

Definition submit_payload (view : ChainView) (now : Z) (payload : BscBuiltPayload) (w : ResultWorkWorker)
    : comp string unit * ResultWorkWorker :=
  let h := block_header (payload_block payload) in
  match best_block_number view with
  | None => (Err "provider error"%string, w)
  | Some best_block_number =>
      if number h <=? best_block_number then (Ret tt, w)
      else
        let '(double_sign, w) := check_double_sign (number h) (parent_hash h) w in
        if double_sign then (Ret tt, w)
        else
          let parent_number := Z.max 0 (number h - 1) in
          match header_td_by_number view parent_number with
          | None => (Err "Failed to get parent total difficulty"%string, w)
          | Some parent_td =>
              let new_td := wrapu 256 (default 0 parent_td + difficulty h) in
              if 2 ^ 128 <=? new_td then (Panic, w)
              else send_block now new_td (payload_block payload) w
          end
  end.

(** A payload of a job: submitted at once, or when its time has come. *)
Inductive ResultEvent :=
| Payload (view : ChainView) (now draw : Z) (ctx : SubmitContext)
| DelayDone (view : ChainView) (now : Z) (i : nat).

(** The payload that an event makes the worker submit, and the delayed ones. *)
Definition handled (e : ResultEvent) (w : ResultWorkWorker)
    : option (ChainView * Z * BscBuiltPayload) * ResultWorkWorker :=
  match e with
  | Payload view now draw ctx =>
      let payload := submit_payload_of ctx in
      let delay_ms := delay_for_ramanujan_fork parlia now draw (parent_snapshot (mining_ctx ctx))
                        (block_header (payload_block payload)) in
      if delay_ms =? 0 then (Some (view, now, payload), w)
      else (None, set_delayed (delayed w ++ [(now + delay_ms, payload)]) w)
  | DelayDone view now i =>
      match delayed w !! i with
      | Some (due, payload) =>
          if due <=? now then (Some (view, now, payload), set_delayed (delete i (delayed w)) w) else (None, w)
      | None => (None, w)
      end
  end.

(** An error is logged, a panic ends the worker. *)
Definition result_step {E} (e : ResultEvent) (w : ResultWorkWorker) : comp E ResultWorkWorker :=
  match handled e w with
  | (Some (view, now, payload), w) =>
      match submit_payload view now payload w with
      | (Panic, _) => Panic
      | (OutOfFuel, _) => OutOfFuel
      | (_, w) => Ret w
      end
  | (None, w) => Ret w
  end.
Fixpoint result_run {E} (events : list ResultEvent) (w : ResultWorkWorker) : comp E ResultWorkWorker :=
  match events with
  | [] => Ret w
  | e :: events => w ← result_step e w; result_run events w
  end.

End ResultWorkWorker.

(** ** The miner *)

Section BscMiner.
Context `{FE : ForkChoiceEngineTrait} `{SL : Sealable} `{KE : Keccak} `{VR : VoteRlp}.
Context `{FCA : ForkConditionApi} {CS : Type} `{!BscHardforks CS} `{OL : !OrderedLru (list B256)}.
Variable parlia : Parlia CS.
Variable maybe_next_block_excess_blob_gas : Header → Z → option Z.
Variable header_default : Header.
Variable fuel : nat.
Variable validator_address : Address.
Variable desired_min_gas_tip : Z.
Variable global_snapshots submit_built_payload : bool.
Variable mined_sender import_sender : option bool.

Record BscMiner := {
  new_work_worker : NewWorkWorker;
  main_work_worker : MainWorkWorker;
  result_work_worker : ResultWorkWorker;
}.

Definition miner_new (engine : option Engine) (pool : VotePool) : BscMiner :=
  {| new_work_worker := {| pre_cached := None; fork_choice_engine := engine; pool := pool; voted_heads := [];
                           mining_queue := [] |};
     main_work_worker := {| payload_jobs := []; running_job_handle := None; payload_channel := [] |};
     result_work_worker := result_worker_new |}.

(** What happens next: one of the tasks makes a step. *)
Inductive MinerEvent :=
| Startup (view : ChainView) (now : Z)
| Notification (view : ChainView) (now : Z) (event : CanonStateNotification)
| TakeWork (view : ChainView) (now draw : Z)
| JobReacts (i : nat) (e : JobEvent) (best_bid empty_payload : option BscBuiltPayload)
| TakePayload (view : ChainView) (now draw : Z)
| DelayOver (view : ChainView) (now : Z) (i : nat).

Definition set_new_work (w : NewWorkWorker) (m : BscMiner) : BscMiner :=
  {| new_work_worker := w; main_work_worker := main_work_worker m; result_work_worker := result_work_worker m |}.
Definition set_main_work (w : MainWorkWorker) (m : BscMiner) : BscMiner :=
  {| new_work_worker := new_work_worker m; main_work_worker := w; result_work_worker := result_work_worker m |}.
Definition set_result_work (w : ResultWorkWorker) (m : BscMiner) : BscMiner :=
  {| new_work_worker := new_work_worker m; main_work_worker := main_work_worker m; result_work_worker := w |}.
Definition set_channel (l : list SubmitContext) (w : MainWorkWorker) : MainWorkWorker :=
  {| payload_jobs := payload_jobs w; running_job_handle := running_job_handle w; payload_channel := l |}.

Definition miner_step {E} (e : MinerEvent) (m : BscMiner) : comp E BscMiner :=
  match e with
  | Startup view now =>
      w ← on_startup validator_address view now (new_work_worker m); Ret (set_new_work w m)
  | Notification view now event =>
      w ← on_notification validator_address global_snapshots view now event (new_work_worker m); Ret (set_new_work w m)
  | TakeWork view now draw =>
      match mining_queue (new_work_worker m) with
      | [] => Ret m
      | ctx :: queue =>
          w ← on_mining_ctx parlia maybe_next_block_excess_blob_gas header_default fuel validator_address
                desired_min_gas_tip view now draw ctx (main_work_worker m);
          Ret (set_main_work w (set_new_work (set_queue queue (new_work_worker m)) m))
      end
  | JobReacts i e best_bid empty_payload =>
      Ret (set_main_work (on_job_event i e best_bid empty_payload (main_work_worker m)) m)
  | TakePayload view now draw =>
      match payload_channel (main_work_worker m) with
      | [] => Ret m
      | ctx :: channel =>
          w ← result_step parlia submit_built_payload mined_sender import_sender (Payload view now draw ctx)
                (result_work_worker m);
          Ret (set_result_work w (set_main_work (set_channel channel (main_work_worker m)) m))
      end
  | DelayOver view now i =>
      w ← result_step parlia submit_built_payload mined_sender import_sender (DelayDone view now i) (result_work_worker m);
      Ret (set_result_work w m)
  end.

Fixpoint miner_run {E} (events : list MinerEvent) (m : BscMiner) : comp E BscMiner :=
  match events with
  | [] => Ret m
  | e :: events => m ← miner_step e m; miner_run events m
  end.

End BscMiner.

(** * Proofs: the worker for results *)

Section ResultProofs.
Context `{FCA : ForkConditionApi} {CS : Type} `{!BscHardforks CS} `{SL : Sealable}.
Context `{OL : !OrderedLru (list B256)} `{LL : !OrderedLruLaws (list B256) OL}.
Variable parlia : Parlia CS.
Variable submit_built_payload : bool.
Variable mined_sender import_sender : option bool.
#[local] Notation handled := (handled parlia).
#[local] Notation submit_payload := (submit_payload submit_built_payload mined_sender import_sender).
#[local] Notation result_step := (result_step parlia submit_built_payload mined_sender import_sender).
#[local] Notation result_run := (result_run parlia submit_built_payload mined_sender import_sender).
Implicit Types (w : ResultWorkWorker) (p : BscBuiltPayload).

Definition payload_number p : Z := number (block_header (payload_block p)).
Definition payload_parent p : B256 := parent_hash (block_header (payload_block p)).

(** The numbers of the payloads that a run submits. *)
Fixpoint submitted_numbers (events : list ResultEvent) w : list Z :=
  match events with
  | [] => []
  | e :: events =>
      option_list ((λ x, payload_number x.2) <$> (handled e w).1)
      ++ match (result_step e w : comp Empty_set _) with Ret w => submitted_numbers events w | _ => [] end
  end.

(** The block is let through the check of double signs. *)
Definition let_through (e : ResultEvent) w : option (Z * B256) :=
  match handled e w with
  | (Some (view, _, p), w) =>
      best ← best_block_number view;
      if (payload_number p <=? best) || (check_double_sign (payload_number p) (payload_parent p) w).1 then None
      else Some (payload_number p, payload_parent p)
  | (None, _) => None
  end.

(** The blocks with a number and a parent that were sent. *)
Definition sent_with (n ph : Z) w : list SentBlock :=
  filter (λ b, number (block_header (sent_block b)) = n ∧ parent_hash (block_header (sent_block b)) = ph) (sent w).

(** ** Steps *)

Lemma handled_recent e w : recent_mined_blocks (handled e w).2 = recent_mined_blocks w ∧ sent (handled e w).2 = sent w.
Proof. destruct e; cbn [Miner.handled]; repeat case_match; done. Qed.

Lemma check_double_sign_sent n ph w : sent (check_double_sign n ph w).2 = sent w.
Proof. unfold check_double_sign. repeat case_match; done. Qed.

Lemma send_block_recent now td b w :
  recent_mined_blocks (send_block submit_built_payload mined_sender import_sender now td b w).2 = recent_mined_blocks w
  ∧ ∃ l, sent (send_block submit_built_payload mined_sender import_sender now td b w).2 = sent w ++ l
       ∧ ∀ x, x ∈ l → sent_at x = now ∧ sent_block x = b.
Proof.
  unfold send_block. repeat case_match; (split; [done|]);
    solve [exists []; split; [by rewrite app_nil_r|by intros ? ?%elem_of_nil]
          |eexists [_]; split; [done|]; by intros ? ->%list_elem_of_singleton].
Qed.

(** What a submission does: nothing; or it only touches the cache; or the block
    passes the check, is remembered and may be sent. *)
Lemma submit_cases view now p w w' :
  (submit_payload view now p w).2 = w' →
  w' = w ∧ (∀ best, best_block_number view = Some best → payload_number p <= best)
  ∨ ∃ best, best_block_number view = Some best ∧ best < payload_number p
    ∧ let c := check_double_sign (payload_number p) (payload_parent p) w in
      recent_mined_blocks w' = recent_mined_blocks c.2
      ∧ (c.1 = true ∧ sent w' = sent w
         ∨ c.1 = false ∧ ∃ l, sent w' = sent w ++ l ∧ (∀ x, x ∈ l → sent_at x = now ∧ sent_block x = payload_block p)).
Proof.
  intros <-. unfold Miner.submit_payload. destruct (best_block_number view) as [best|]; [|by left].
  fold (payload_number p). fold (payload_parent p).
  destruct (Z.leb_spec (payload_number p) best); [left; split; [done|by intros ? [= <-]]|right].
  exists best. split; [done|]. split; [lia|]. pose proof (check_double_sign_sent (payload_number p) (payload_parent p) w) as Hs.
  destruct (check_double_sign _ _ w) as [d c]. cbn [fst snd] in *. destruct d; [split; [done|left; done]|].
  destruct (header_td_by_number _ _) as [td|].
  2: { split; [done|right]. split; [done|]. exists []. rewrite app_nil_r. split; [done|]. by intros ? ?%elem_of_nil. }
  destruct (_ <=? _).
  { split; [done|right]. split; [done|]. exists []. rewrite app_nil_r. split; [done|]. by intros ? ?%elem_of_nil. }
  destruct (send_block_recent now (wrapu 256 (default 0 td + difficulty (block_header (payload_block p)))) (payload_block p) c)
    as [Hr (l & Hl & Hin)].
  split; [done|right]. split; [done|]. exists l. by rewrite <- Hs.
Qed.

Lemma result_step_inv {E} e w w' :
  result_step e w = Ret (E:=E) w' →
  match (handled e w).1 with
  | Some (view, now, p) => (submit_payload view now p (handled e w).2).2 = w'
  | None => (handled e w).2 = w'
  end.
Proof.
  unfold Miner.result_step. destruct (handled e w) as [[[[view now] p]|] u]; cbn [fst snd]; [|by intros [= <-]].
  destruct (submit_payload view now p u) as [[]]; by intros [= <-].
Qed.

(** ** No double signing *)

Record cache_ok w : Prop := {
  co_capacity : olru_capacity (recent_mined_blocks w) = RECENT_MINED_BLOCKS_CACHE_SIZE;
  co_distinct : keys_distinct (recent_mined_blocks w);
}.

(** The number is remembered with this parent, and the numbers touched since
    are in [S]. *)
Definition remembered (n ph : Z) (S : gset Z) w : Prop :=
  ∃ parents, kept n parents S (recent_mined_blocks w) ∧ ph ∈ parents.

Lemma check_keeps n ph n' ph' S w :
  cache_ok w → remembered n ph S w → Z.of_nat (size ({[n']} ∖ {[n]} ∪ S)) < RECENT_MINED_BLOCKS_CACHE_SIZE →
  let c := check_double_sign n' ph' w in
  (cache_ok c.2 ∧ remembered n ph ({[n']} ∖ {[n]} ∪ S) c.2) ∧ (c.1 = false → (n', ph') ≠ (n, ph)).
Proof.
  intros [Hc Hd] (parents & Hk & Hin) Hsize. cbv zeta. unfold check_double_sign.
  pose proof (olru_get_value (recent_mined_blocks w) n') as Hv. pose proof (get_distinct n' _ Hd) as Hgd.
  pose proof (proj2 (olru_get_order (recent_mined_blocks w) n')) as Hgc.
  destruct (decide (n' = n)) as [->|Hne].
  - assert (Hg : kept n parents ∅ (olru_get (recent_mined_blocks w) n).2).
    { unfold kept. rewrite (proj1 (olru_get_order _ _)), (kept_assoc _ _ _ _ Hd Hk). by eexists [], _. }
    rewrite (kept_assoc _ _ _ _ Hd Hk) in Hv. destruct (olru_get _ n) as [o c]. cbn [fst snd] in *. subst o.
    case_bool_decide as Hp; cbn [fst snd].
    + split; [|done]. split; [split; cbn; congruence|]. exists parents. split; [|done]. revert Hg. apply kept_mono. set_solver.
    + split; [|intros _ [= ->]; done]. split.
      * split; cbn; [by rewrite (proj2 (olru_put_order _ _ _)), Hgc|by apply put_distinct].
      * exists (parents ++ [ph']). split; [|apply elem_of_app; by left]. cbn [set_recent recent_mined_blocks].
        apply (kept_mono _ _ ∅); [set_solver|]. apply put_kept_new. by rewrite Hgc, Hc.
  - replace ({[n']} ∖ {[n]} ∪ S) with ({[n']} ∪ S) in * by set_solver.
    pose proof (get_kept n n' parents S _ Hk ltac:(done)) as Hg.
    destruct (olru_get _ n') as [o c]. cbn [fst snd] in *.
    assert (Hput : ∀ l, cache_ok (set_recent (olru_put c n' l) w) ∧ remembered n ph ({[n']} ∪ S) (set_recent (olru_put c n' l) w)).
    { intros l. split.
      - split; cbn; [by rewrite (proj2 (olru_put_order _ _ _)), Hgc|by apply put_distinct].
      - exists parents. split; [|done]. cbn [set_recent recent_mined_blocks].
        replace ({[n']} ∪ S) with ({[n']} ∪ ({[n']} ∪ S)) by set_solver. apply put_kept; [done|done|done|].
        replace ({[n']} ∪ ({[n']} ∪ S)) with ({[n']} ∪ S) by set_solver. by rewrite Hgc, Hc. }
    destruct o as [prev|]; [|split; [apply Hput|congruence]]. case_bool_decide; cbn [fst snd].
    + split; [|done]. split; [split; cbn; congruence|]. exists parents. split; [|done]. exact Hg.
    + split; [apply Hput|congruence].
Qed.

Lemma cache_ok_check n ph w : cache_ok w → cache_ok (check_double_sign n ph w).2.
Proof.
  intros [Hc Hd]. unfold check_double_sign. pose proof (get_distinct n _ Hd) as Hgd.
  pose proof (proj2 (olru_get_order (recent_mined_blocks w) n)) as Hgc. destruct (olru_get _ n) as [o c]. cbn [fst snd] in *.
  repeat case_match; split; cbn; rewrite ?(proj2 (olru_put_order _ _ _)); try apply put_distinct; congruence.
Qed.

Lemma cache_ok_handled e w : cache_ok w → cache_ok (handled e w).2.
Proof. intros [Hc Hd]. destruct (handled_recent e w) as [Hr _]. split; by rewrite Hr. Qed.

Lemma cache_ok_step {E} e w w' : result_step e w = Ret (E:=E) w' → cache_ok w → cache_ok w'.
Proof.
  intros Hs%result_step_inv Hok%(cache_ok_handled e). destruct (handled e w).1 as [[[view now] p]|]; [|by subst].
  destruct (submit_cases _ _ _ _ _ Hs) as [[-> _]|(best & _ & _ & Hr & _)]; [done|].
  destruct (cache_ok_check (payload_number p) (payload_parent p) _ Hok). split; by rewrite Hr.
Qed.

Lemma result_worker_new_ok : cache_ok result_worker_new.
Proof.
  destruct (olru_new_order (OrderedLruLaws:=LL) RECENT_MINED_BLOCKS_CACHE_SIZE) as [Ho Hc]. split; [done|].
  unfold keys_distinct. cbn. rewrite Ho. constructor.
Qed.

Lemma result_run_cons {E} e events w w' :
  result_run (e :: events) w = Ret (E:=E) w' → ∃ w1, result_step e w = Ret (E:=E) w1 ∧ result_run events w1 = Ret (E:=E) w'.
Proof. intros Hr. by apply bind_Ret_inv in Hr. Qed.

Lemma cache_ok_run {E} events w w' : result_run events w = Ret (E:=E) w' → cache_ok w → cache_ok w'.
Proof.
  revert w. induction events as [|e events IH]; intros w; [by intros [= <-]|].
  intros (w1 & Hs & Hr)%result_run_cons Hok. eapply IH; [exact Hr|]. by eapply cache_ok_step.
Qed.

Lemma sent_with_app n ph w w' l :
  sent w' = sent w ++ l →
  (∀ x, x ∈ l → (number (block_header (sent_block x)), parent_hash (block_header (sent_block x))) ≠ (n, ph)) →
  sent_with n ph w' = sent_with n ph w.
Proof.
  intros Hs Hl. unfold sent_with. rewrite Hs, list.filter_app. rewrite <- (app_nil_r (filter _ (sent w))) at 2. f_equal.
  match goal with |- ?f = [] => destruct f as [|x f'] eqn:Hf end; [done|].
  assert (Hx : x ∈ x :: f') by left. rewrite <- Hf in Hx. apply list_elem_of_filter in Hx as [[H1 H2] Hx].
  destruct (Hl x Hx). congruence.
Qed.

(** The numbers of the payload that an event submits, other than [n]. *)
Definition touched (n : Z) (e : ResultEvent) w : gset Z :=
  list_to_set (option_list ((λ x, payload_number x.2) <$> (handled e w).1)) ∖ {[n]}.

Lemma touched_some n e w x u : handled e w = (Some x, u) → touched n e w = {[payload_number x.2]} ∖ {[n]}.
Proof. intros He. unfold touched. rewrite He. cbn. set_solver. Qed.

Lemma touched_none n e w u : handled e w = (None, u) → touched n e w = ∅.
Proof. intros He. unfold touched. rewrite He. cbn. set_solver. Qed.

Lemma remembered_step {E} n ph S e w w' :
  cache_ok w → remembered n ph S w → result_step e w = Ret (E:=E) w' →
  Z.of_nat (size (touched n e w ∪ S)) < RECENT_MINED_BLOCKS_CACHE_SIZE →
  cache_ok w' ∧ remembered n ph (touched n e w ∪ S) w' ∧ sent_with n ph w' = sent_with n ph w.
Proof.
  intros Hok (parents & Hk & Hin) Hs Hsize. split; [by eapply cache_ok_step|].
  apply result_step_inv in Hs. destruct (handled_recent e w) as [Hr Hst].
  destruct (handled e w) as [[[[view now] p]|] u] eqn:He; cbn [fst snd] in *.
  2: { subst w'. split; [|unfold sent_with; by rewrite Hst]. exists parents. rewrite Hr. split; [|done].
       revert Hk. apply kept_mono. set_solver. }
  rewrite (touched_some _ _ _ _ _ He) in *. cbn [snd] in *.
  assert (Hu : cache_ok u ∧ remembered n ph S u).
  { split; [|exists parents; by rewrite Hr]. pose proof (cache_ok_handled e w Hok) as Hu. by rewrite He in Hu. }
  destruct Hu as [Hoku Hru].
  destruct (submit_cases _ _ _ _ _ Hs) as [[-> _]|(best & _ & _ & Hrec & Hc)].
  { split; [|unfold sent_with; by rewrite Hst]. exists parents. rewrite Hr. split; [|done]. revert Hk. apply kept_mono. set_solver. }
  destruct (check_keeps n ph (payload_number p) (payload_parent p) S u Hoku Hru Hsize) as [[_ Hrem] Hne].
  split.
  - destruct Hrem as (parents' & Hk' & Hin'). exists parents'. by rewrite Hrec.
  - destruct Hc as [[_ Hc]|[Hc (l & Hl & Hlx)]]; [unfold sent_with; by rewrite Hc, Hst|].
    apply (sent_with_app _ _ _ _ l); [by rewrite Hl, Hst|]. intros x Hx. rewrite (proj2 (Hlx x Hx)). by apply Hne.
Qed.

Lemma remembered_run {E} n ph S events w w' :
  cache_ok w → remembered n ph S w → result_run events w = Ret (E:=E) w' →
  Z.of_nat (size (list_to_set (submitted_numbers events w) ∖ {[n]} ∪ S : gset Z)) < RECENT_MINED_BLOCKS_CACHE_SIZE →
  sent_with n ph w' = sent_with n ph w.
Proof.
  revert w S. induction events as [|e events IH]; intros w S Hok Hrem Hrun Hsize; [by injection Hrun as <-|].
  apply result_run_cons in Hrun as (w1 & Hs & Hrun). cbn [submitted_numbers] in Hsize.
  assert (Hs' : result_step e w = Ret (E:=Empty_set) w1).
  { revert Hs. unfold Miner.result_step. destruct (handled e w) as [[[[view now] p]|] u]; [|by intros [= <-]].
    destruct (submit_payload view now p u) as [[]]; by intros [= <-]. }
  rewrite Hs', list_to_set_app_L in Hsize.
  replace ((_ ∪ _) ∖ {[n]} ∪ S) with (list_to_set (submitted_numbers events w1) ∖ {[n]} ∪ (touched n e w ∪ S)) in Hsize
    by (unfold touched; set_solver).
  destruct (remembered_step n ph S e w w1 Hok Hrem Hs) as (Hok1 & Hrem1 & <-).
  { eapply Z.le_lt_trans; [|exact Hsize]. apply inj_le, subseteq_size. set_solver. }
  by eapply IH.
Qed.

Lemma let_through_remembered {E} e w w' n ph :
  cache_ok w → let_through e w = Some (n, ph) → result_step e w = Ret (E:=E) w' → remembered n ph ∅ w'.
Proof.
  intros Hok Hlet Hs%result_step_inv. unfold let_through in Hlet. pose proof (cache_ok_handled e w Hok) as Hu.
  destruct (handled e w) as [[[[view now] p]|] u]; [|done]. cbn [fst snd] in *.
  apply bind_Some in Hlet as (best & Hb & Hlet). destruct (_ || _) eqn:Hc; [done|]. injection Hlet as <- <-.
  apply orb_false_iff in Hc as [Hbest Hc].
  assert (Hrec : recent_mined_blocks w' = recent_mined_blocks (check_double_sign (payload_number p) (payload_parent p) u).2).
  { destruct (submit_cases _ _ _ _ _ Hs) as [[_ Hle]|(best' & _ & _ & Hrec & _)]; [|done].
    apply Z.leb_gt in Hbest. specialize (Hle _ Hb). lia. }
  unfold remembered. rewrite Hrec. clear Hs Hrec. revert Hc. unfold check_double_sign. destruct Hu as [Hcap Hd].
  pose proof (proj2 (olru_get_order (recent_mined_blocks u) (payload_number p))) as Hgc.
  destruct (olru_get _ _) as [[prev|] c]; cbn [fst snd] in *.
  - case_bool_decide; [done|]. intros _. cbn. eexists. split; [apply put_kept_new; by rewrite Hgc, Hcap|].
    apply elem_of_app. right. by left.
  - intros _. cbn. eexists. split; [apply put_kept_new; by rewrite Hgc, Hcap|]. by left.
Qed.

(** C31.  The miner does not sign twice.  Once a block has passed the check, no
    block with its number and parent is sent to the import service again until
    blocks of a hundred other numbers have been submitted, whatever the jobs
    deliver, late or twice. *)
Theorem no_double_sign {E} events1 e events2 w w1 w2 n ph :
  result_run events1 result_worker_new = Ret (E:=E) w →
  let_through e w = Some (n, ph) →
  result_step e w = Ret (E:=E) w1 → result_run events2 w1 = Ret (E:=E) w2 →
  Z.of_nat (size (list_to_set (submitted_numbers events2 w1) ∖ {[n]} : gset Z)) < RECENT_MINED_BLOCKS_CACHE_SIZE →
  sent_with n ph w2 = sent_with n ph w1.
Proof.
  intros Hr1 Hlet Hs Hr2 Hsize. pose proof (cache_ok_run _ _ _ Hr1 result_worker_new_ok) as Hok.
  eapply (remembered_run n ph ∅ events2); [by eapply cache_ok_step|by eapply let_through_remembered|exact Hr2|].
  by rewrite (right_id_L ∅ (∪)).
Qed.

(** ** No block before its time *)

Definition block_time p : Z := calculate_millisecond_timestamp (block_header (payload_block p)).

(** The times are those of a clock, not close to the end of 64 bits. *)
Definition clock_ok (e : ResultEvent) : Prop :=
  match e with
  | Payload _ now draw ctx => 0 <= now ∧ is_u 32 draw ∧ block_time (submit_payload_of ctx) < 2 ^ 63
  | DelayDone _ _ _ => True
  end.

Lemma delay_reaches now draw snap h :
  0 <= now → is_u 32 draw → calculate_millisecond_timestamp h < 2 ^ 63 →
  calculate_millisecond_timestamp h <= now + delay_for_ramanujan_fork parlia now draw snap h.
Proof.
  intros Hnow Hd Ht. unfold delay_for_ramanujan_fork. set (t := calculate_millisecond_timestamp h) in *.
  set (d := if now <? t then sub64 t now else 0).
  assert (Hd' : t <= now + d ∧ 0 <= d < 2 ^ 63).
  { unfold d. destruct (Z.ltb_spec now t); [|lia]. rewrite sub64_small by (unfold is_u; lia). lia. }
  destruct (is_ramanujan_active_at_block _ _); [lia|]. destruct (_ =? DIFF_NOTURN); [|lia].
  assert (Hw : is_u 64 (FIXED_BACKOFF_TIME_BEFORE_FORK_MILLIS + draw)).
  { unfold is_u in *. change FIXED_BACKOFF_TIME_BEFORE_FORK_MILLIS with 200. lia. }
  rewrite (add64_small FIXED_BACKOFF_TIME_BEFORE_FORK_MILLIS draw Hw).
  rewrite add64_small; unfold is_u in *; change FIXED_BACKOFF_TIME_BEFORE_FORK_MILLIS with 200 in *; lia.
Qed.

Record timely w : Prop := {
  ti_delayed : ∀ due p, (due, p) ∈ delayed w → block_time p <= due;
  ti_sent : ∀ b, b ∈ sent w → calculate_millisecond_timestamp (block_header (sent_block b)) <= sent_at b;
}.

Lemma handled_timely e w :
  clock_ok e → timely w →
  timely (handled e w).2 ∧ ∀ view now p, (handled e w).1 = Some (view, now, p) → block_time p <= now.
Proof.
  intros He [Hd Hs]. destruct e as [view now draw ctx|view now i]; cbn [Miner.handled].
  - destruct He as (Hnow & Hdraw & Ht).
    pose proof (delay_reaches now draw (parent_snapshot (mining_ctx ctx)) _ Hnow Hdraw Ht) as Hreach.
    set (delay := delay_for_ramanujan_fork _ _ _ _ _) in *. destruct (Z.eqb_spec delay 0) as [H0|_]; cbn [fst snd].
    + split; [done|]. intros ? ? ? [= <- <- <-]. unfold block_time. lia.
    + split; [|done]. split; [|done]. cbn [set_delayed delayed]. intros due q [Hq|Hq]%elem_of_app; [by apply Hd|].
      apply list_elem_of_singleton in Hq as [= -> ->]. exact Hreach.
  - destruct (delayed w !! i) as [[due p]|] eqn:Hi; [|done]. destruct (Z.leb_spec due now); [|done]. split.
    + split; [|done]. cbn [snd set_delayed delayed]. intros due' q Hq. apply Hd.
      eapply elem_of_submseteq; [exact Hq|]. apply sublist_submseteq, sublist_delete.
    + intros ? ? ? [= <- <- <-]. apply list_elem_of_lookup_2 in Hi. apply Hd in Hi. lia.
Qed.

Lemma timely_step {E} e w w' : clock_ok e → timely w → result_step e w = Ret (E:=E) w' → timely w'.
Proof.
  intros He Hw Hs%result_step_inv. destruct (handled_timely e w He Hw) as [Hu Ht].
  destruct (handled e w) as [[[[view now] p]|] u]; cbn [fst snd] in *; [|by subst].
  specialize (Ht _ _ _ eq_refl). destruct Hu as [Hd Hsent].
  assert (Hdel : delayed w' = delayed u).
  { rewrite <- Hs. unfold Miner.submit_payload, check_double_sign, send_block. repeat case_match; simplify_eq; done. }
  split; [by rewrite Hdel|].
  destruct (submit_cases _ _ _ _ _ Hs) as [[-> _]|(best & _ & _ & _ & [[_ ->]|(_ & l & -> & Hl)])]; [done|done|].
  intros b [Hb|Hb]%elem_of_app; [by apply Hsent|]. by destruct (Hl b Hb) as [-> ->].
Qed.

(** C32.  No block leaves the miner before its time: whatever the jobs deliver,
    each block is sent to the import service at or after the millisecond
    timestamp of its header. *)
Theorem sent_in_time {E} events w :
  Forall clock_ok events → result_run events result_worker_new = Ret (E:=E) w →
  ∀ b, b ∈ sent w → calculate_millisecond_timestamp (block_header (sent_block b)) <= sent_at b.
Proof.
  intros Hev Hrun. apply ti_sent. assert (Hnew : timely result_worker_new) by (split; by intros ? ?%elem_of_nil || intros ? ? ?%elem_of_nil).
  revert Hrun Hnew. generalize (result_worker_new (OL:=OL)). induction Hev as [|e events He _ IH]; intros u; [by intros [= <-]|].
  intros (u1 & Hs & Hr)%result_run_cons Hu. eapply IH; [exact Hr|]. by eapply timely_step.
Qed.

End ResultProofs.

(** * Proofs: the miner *)

Section MinerProofs.
Context `{FE : ForkChoiceEngineTrait} `{SL : Sealable} `{KE : Keccak} `{VR : VoteRlp}.
Context `{FCA : ForkConditionApi} {CS : Type} `{!BscHardforks CS} `{OL : !OrderedLru (list B256)}.
Variable parlia : Parlia CS.
Variable maybe_next_block_excess_blob_gas : Header → Z → option Z.
Variable header_default : Header.
Variable fuel : nat.
Variable validator_address : Address.
Variable desired_min_gas_tip : Z.
Variable global_snapshots submit_built_payload : bool.
Variable mined_sender import_sender : option bool.
#[local] Notation miner_step := (miner_step parlia maybe_next_block_excess_blob_gas header_default fuel validator_address
  desired_min_gas_tip global_snapshots submit_built_payload mined_sender import_sender).
#[local] Notation miner_run := (miner_run parlia maybe_next_block_excess_blob_gas header_default fuel validator_address
  desired_min_gas_tip global_snapshots submit_built_payload mined_sender import_sender).
#[local] Notation try_new_work := (try_new_work validator_address).
#[local] Notation on_notification := (on_notification validator_address global_snapshots).
#[local] Notation on_mining_ctx := (on_mining_ctx parlia maybe_next_block_excess_blob_gas header_default fuel
  validator_address desired_min_gas_tip).
#[local] Notation try_mine_block := (try_mine_block parlia maybe_next_block_excess_blob_gas header_default fuel
  validator_address desired_min_gas_tip).
Implicit Types (m : BscMiner) (w : MainWorkWorker) (ctx : MiningContext).

(** ** Work that the snapshot accepts *)

(** The snapshots of the provider. *)
Definition snapshot_good (s : Snapshot) : Prop := snapshot_wf s ∧ ∀ v, proposals s v < 256.
Definition view_good (view : ChainView) : Prop := ∀ h s, view_snapshot_by_hash view h = Some s → snapshot_good s.
Definition view_of (e : MinerEvent) : option ChainView :=
  match e with Startup view _ | Notification view _ _ => Some view | _ => None end.
Definition event_good (e : MinerEvent) : Prop := ∀ view, view_of e = Some view → view_good view.

(** The validator may seal the next block. *)
Definition may_seal ctx : Prop :=
  snapshot_good (parent_snapshot ctx) ∧ validator_address ∈ validators (parent_snapshot ctx)
  ∧ sign_recently (parent_snapshot ctx) validator_address = false.

(** All work on its way. *)
Definition contexts m : list MiningContext :=
  mining_queue (new_work_worker m) ++ (job_ctx <$> payload_jobs (main_work_worker m))
  ++ (mining_ctx <$> payload_channel (main_work_worker m)).

Lemma try_new_work_queue {E} view now tip (w w' : NewWorkWorker) :
  view_good view → try_new_work view now tip w = Ret (E:=E) w' →
  ∃ l, mining_queue w' = mining_queue w ++ l ∧ Forall may_seal l.
Proof.
  intros Hv. unfold Miner.try_new_work. assert (Hsame : ∃ l, mining_queue w = mining_queue w ++ l ∧ Forall may_seal l)
    by (exists []; by rewrite app_nil_r).
  destruct (_ <? _); [by intros [= <-]|]. destruct (sealed_header_by_hash _ _) as [[parent|]|]; try by intros [= <-].
  destruct (view_snapshot_by_hash _ _) as [s|] eqn:Hs; [|by intros [= <-]].
  case_bool_decide as Hval; cbn [negb]; [|by intros [= <-]]. intros (b & _ & Hr)%bind_Ret_inv.
  destruct (sign_recently s validator_address) eqn:Hrec; [by injection Hr as <-|]. injection Hr as <-.
  eexists [_]. split; [done|]. constructor; [|done]. split; [by eapply Hv|done].
Qed.

Lemma on_notification_queue {E} view now event (w w' : NewWorkWorker) :
  view_good view → on_notification view now event w = Ret (E:=E) w' →
  ∃ l, mining_queue w' = mining_queue w ++ l ∧ Forall may_seal l.
Proof.
  intros Hv. unfold Miner.on_notification.
  assert (Hwork : ∀ u, mining_queue u = mining_queue w →
    try_new_work view now (tip (committed_chain event))
      (cache_for_next (committed_chain event) (spawn_local_vote global_snapshots view (tip (committed_chain event))
        (set_pool (pool_prune (default (number (tip (committed_chain event))) (last_block_number view)) (pool u)) u)))
    = Ret (E:=E) w' → ∃ l, mining_queue w' = mining_queue w ++ l ∧ Forall may_seal l).
  { intros u Hu Hr. apply try_new_work_queue in Hr as (l & Hl & Hf); [|done]. exists l. split; [|done].
    rewrite Hl, <- Hu. unfold spawn_local_vote. by repeat case_match. }
  destruct event as [new|old new].
  - apply Hwork. done.
  - destruct (validate_reorg view old new (fork_choice_engine w)) as [r engine].
    intros (proceed & _ & Hr)%bind_Ret_inv. destruct proceed; cbn [negb] in Hr.
    + by apply (Hwork (set_fork_choice engine w)).
    + injection Hr as <-. exists []. by rewrite app_nil_r.
Qed.

Lemma abort_keeps_contexts i (l : list RunningJob) : job_ctx <$> alter request_abort i l = job_ctx <$> l.
Proof. revert i. induction l as [|j l IH]; intros [|i]; [done..|]. cbn. f_equal. apply IH. Qed.

Lemma try_mine_block_contexts {E} now draw ctx w w' :
  try_mine_block now draw ctx w = Ret (E:=E) w' →
  ∃ h, job_ctx <$> payload_jobs w' = (job_ctx <$> payload_jobs w) ++ [with_header h ctx]
  ∧ payload_channel w' = payload_channel w.
Proof.
  unfold Miner.try_mine_block. intros ([attributes h] & _ & [= <-])%bind_Ret_inv. exists h. cbn [payload_jobs payload_channel].
  split; [|done]. rewrite fmap_app. f_equal. destruct (running_job_handle w) as [i|]; [|done]. apply abort_keeps_contexts.
Qed.

Lemma job_event_contexts i e best_bid empty_payload w ctx :
  let w' := on_job_event i e best_bid empty_payload w in
  ctx ∈ (job_ctx <$> payload_jobs w') ++ (mining_ctx <$> payload_channel w') →
  ctx ∈ (job_ctx <$> payload_jobs w) ++ (mining_ctx <$> payload_channel w).
Proof.
  cbv zeta. unfold on_job_event. destruct (payload_jobs w !! i) as [j|] eqn:Hj; [|done].
  destruct (match e with AbortRequested => _ | _ => _ end); [done|]. destruct (job_step _ _ _ _ _ _) as [x|]; [|done].
  cbn [payload_jobs payload_channel]. rewrite list_fmap_insert, list_insert_id by by rewrite list_lookup_fmap, Hj.
  rewrite fmap_app, !elem_of_app. intros [Hc|[Hc|Hc]]; [by left|by right|left].
  apply list_elem_of_fmap in Hc as (c & -> & Hc). apply list_elem_of_fmap in Hc as (p & -> & _).
  apply list_elem_of_fmap. exists j. split; [done|]. by eapply list_elem_of_lookup_2.
Qed.

Lemma contexts_elem m ctx :
  ctx ∈ contexts m ↔ ctx ∈ mining_queue (new_work_worker m)
    ∨ ctx ∈ (job_ctx <$> payload_jobs (main_work_worker m)) ++ (mining_ctx <$> payload_channel (main_work_worker m)).
Proof. unfold contexts. by rewrite elem_of_app. Qed.

Lemma contexts_step {E} e m m' :
  event_good e → miner_step e m = Ret (E:=E) m' →
  (∀ ctx, ctx ∈ contexts m → may_seal ctx) → ∀ ctx, ctx ∈ contexts m' → may_seal ctx.
Proof.
  intros He Hs Hm ctx. destruct e as [view now|view now event|view now draw|i e best empty|view now draw|view now i]; cbn [Miner.miner_step] in Hs.
  - specialize (He view eq_refl). apply bind_Ret_inv in Hs as (w & Hw & [= <-]).
    rewrite contexts_elem. cbn [set_new_work new_work_worker main_work_worker]. intros [Hc|Hc]; [|apply Hm, contexts_elem; by right].
    assert (Hl : ∃ l, mining_queue w = mining_queue (new_work_worker m) ++ l ∧ Forall may_seal l).
    { unfold on_startup in Hw. destruct (_ ≫= _) as [[tip|]|]; [by eapply try_new_work_queue| |];
        injection Hw as <-; exists []; by rewrite app_nil_r. }
    destruct Hl as (l & Hl & Hf). rewrite Hl in Hc. apply elem_of_app in Hc as [Hc|Hc]; [apply Hm, contexts_elem; by left|].
    by eapply list.Forall_forall in Hf.
  - specialize (He view eq_refl). apply bind_Ret_inv in Hs as (w & Hw & [= <-]).
    rewrite contexts_elem. cbn [set_new_work new_work_worker main_work_worker]. intros [Hc|Hc]; [|apply Hm, contexts_elem; by right].
    apply on_notification_queue in Hw as (l & Hl & Hf); [|done].
    rewrite Hl in Hc. apply elem_of_app in Hc as [Hc|Hc]; [apply Hm, contexts_elem; by left|]. by eapply list.Forall_forall in Hf.
  - destruct (mining_queue (new_work_worker m)) as [|c queue] eqn:Hq; [injection Hs as <-; apply Hm|].
    apply bind_Ret_inv in Hs as (w & Hw & [= <-]). rewrite contexts_elem.
    cbn [set_new_work set_main_work set_queue new_work_worker main_work_worker mining_queue].
    assert (Hc0 : may_seal c) by (apply Hm, contexts_elem; left; rewrite Hq; left).
    intros [Hc|Hc]; [apply Hm, contexts_elem; left; rewrite Hq; by right|].
    unfold Miner.on_mining_ctx in Hw. destruct (recheck_mining_ctx view c); [|injection Hw as <-; apply Hm, contexts_elem; by right].
    apply try_mine_block_contexts in Hw as (h & Hj & Hch). rewrite Hj, Hch in Hc.
    apply elem_of_app in Hc as [[Hc|Hc]%elem_of_app|Hc];
      [apply Hm, contexts_elem; right; apply elem_of_app; by left| |apply Hm, contexts_elem; right; apply elem_of_app; by right].
    apply list_elem_of_singleton in Hc as ->. exact Hc0.
  - injection Hs as <-. rewrite contexts_elem. cbn [set_main_work new_work_worker main_work_worker].
    intros [Hc|Hc]; [apply Hm, contexts_elem; by left|]. apply job_event_contexts in Hc. apply Hm, contexts_elem. by right.
  - destruct (payload_channel (main_work_worker m)) as [|c channel] eqn:Hq; [injection Hs as <-; apply Hm|].
    apply bind_Ret_inv in Hs as (w & Hw & [= <-]). rewrite contexts_elem.
    cbn [set_result_work set_main_work set_channel new_work_worker main_work_worker payload_jobs payload_channel].
    intros Hc. apply Hm, contexts_elem. destruct Hc as [Hc|Hc]; [by left|right]. rewrite Hq, fmap_cons.
    apply elem_of_app in Hc as [Hc|Hc]; apply elem_of_app; [by left|right; by right].
  - apply bind_Ret_inv in Hs as (w & Hw & [= <-]). apply Hm.
Qed.

Lemma miner_run_cons {E} e events m m' :
  miner_run (e :: events) m = Ret (E:=E) m' → ∃ m1, miner_step e m = Ret (E:=E) m1 ∧ miner_run events m1 = Ret (E:=E) m'.
Proof. intros Hr. by apply bind_Ret_inv in Hr. Qed.

Lemma contexts_run {E} events m m' :
  Forall event_good events → miner_run events m = Ret (E:=E) m' →
  (∀ ctx, ctx ∈ contexts m → may_seal ctx) → ∀ ctx, ctx ∈ contexts m' → may_seal ctx.
Proof.
  intros Hev. revert m. induction Hev as [|e events He _ IH]; intros m; [by intros [= <-]|].
  intros (m1 & Hs & Hr)%miner_run_cons Hm. eapply IH; [exact Hr|]. by eapply contexts_step.
Qed.

Lemma may_seal_accepted {E} ctx h nv va att tl :
  may_seal ctx → number h = Snapshot.block_number (parent_snapshot ctx) + 1 → number h < U64_MAX →
  bohr_at (spec parlia) h = true → votes_match nv va →
  ∃ s, apply (E:=E) (spec parlia) (parent_snapshot ctx) validator_address h nv va att tl = Ret (Some s).
Proof.
  intros ([Hwf Hprop] & Hval & Hrec) Hnum Hmax Hbohr Hv. set (s := parent_snapshot ctx) in *.
  destruct (wf_block s Hwf) as [Hb _].
  assert (Hww : snapshot_wf (window_for s h)) by (apply window_for_wf; [done|done|lia]).
  assert (Hle : proposals (window_for s h) validator_address <= proposals s validator_address).
  { apply proposals_le; [|intros b; apply window_for_recent].
    apply left_bound_le; [rewrite window_for_block; lia|by rewrite window_for_check_len|done|done]. }
  destruct (apply_result (E:=E) (spec parlia) s validator_address h nv va att tl Hwf Hv) as ([r|] & Hr & Hiff); [by exists r|].
  exfalso. apply (is_Some_None (A:=Snapshot)), Hiff. specialize (Hprop validator_address).
  apply admissible_spec; [done|lia|]. split; [|split; [done|]].
  { rewrite Hnum. apply add64_small. unfold is_u, U64_MAX in *. lia. }
  rewrite Hbohr. intros [Hne Hturn]. rewrite sign_recently_spec in Hrec by (try (destruct (wf_turn s Hwf)); lia).
  rewrite window_for_turn in Hturn. apply andb_false_iff in Hrec as [Hrec|Hrec].
  - by apply negb_false_iff, Z.eqb_eq in Hrec.
  - apply Z.leb_gt in Hrec. lia.
Qed.

(** C30.  The miner only works on blocks that every node would accept from it:
    whatever happens, for each context that is queued, worked on or waiting to
    be submitted, the next block on its snapshot, sealed by this validator, is
    accepted by [apply], whatever the header carries, if Bohr is active at its
    number and time. *)
Theorem work_accepted {E} events engine pool m ctx h nv va att tl :
  Forall event_good events → miner_run events (miner_new engine pool) = Ret (E:=E) m → ctx ∈ contexts m →
  number h = Snapshot.block_number (parent_snapshot ctx) + 1 → number h < U64_MAX →
  bohr_at (spec parlia) h = true → votes_match nv va →
  ∃ s, apply (E:=E) (spec parlia) (parent_snapshot ctx) validator_address h nv va att tl = Ret (Some s).
Proof.
  intros Hev Hrun Hctx. apply may_seal_accepted. eapply contexts_run; [done|exact Hrun| |done].
  intros c Hc. apply contexts_elem in Hc as [Hc|Hc]; by apply elem_of_nil in Hc.
Qed.

(** ** One job at a time *)

(** Only the last job was not asked to stop, and the worker has its handle. *)
Definition one_live w : Prop :=
  ∀ i j, payload_jobs w !! i = Some j → abort_requested j = false →
  running_job_handle w = Some i ∧ S i = length (payload_jobs w).

Lemma alter_abort_live i (l : list RunningJob) k j :
  alter request_abort i l !! k = Some j → abort_requested j = false → k ≠ i ∧ l !! k = Some j.
Proof.
  destruct (decide (k = i)) as [->|Hne].
  - rewrite list_lookup_alter_eq. destruct (l !! i); [|done]. by intros [= <-].
  - rewrite list_lookup_alter_ne by done. done.
Qed.

Lemma try_mine_block_live {E} now draw ctx w w' :
  try_mine_block now draw ctx w = Ret (E:=E) w' → one_live w → one_live w'.
Proof.
  unfold Miner.try_mine_block. intros ([attributes h] & _ & [= <-])%bind_Ret_inv Hw i j.
  cbn [payload_jobs running_job_handle]. set (jobs := match running_job_handle w with Some _ => _ | None => _ end).
  rewrite length_app. cbn [length]. intros [Hj|[Hge Hj]]%lookup_app_Some Hlive.
  - exfalso. revert Hj. unfold jobs. clear jobs. destruct (running_job_handle w) as [k|] eqn:Hk; intros Hj.
    + destruct (alter_abort_live _ _ _ _ Hj Hlive) as [Hne Hj']. destruct (Hw i j Hj' Hlive) as [Hi _]. congruence.
    + destruct (Hw i j Hj Hlive) as [? _]. congruence.
  - apply list_lookup_singleton_Some in Hj as [Hi _]. split; [f_equal; lia|lia].
Qed.

Lemma job_event_live i e best_bid empty_payload w : one_live w → one_live (on_job_event i e best_bid empty_payload w).
Proof.
  intros Hw. unfold on_job_event. destruct (payload_jobs w !! i) as [j|] eqn:Hj; [|done].
  destruct (match e with AbortRequested => _ | _ => _ end); [done|]. destruct (job_step _ _ _ _ _ _) as [x|]; [|done].
  intros k j'. cbn [payload_jobs running_job_handle]. rewrite length_insert.
  destruct (decide (i = k)) as [->|Hne].
  - rewrite list_lookup_insert_eq by (by eapply lookup_lt_Some). intros [= <-] Hl. by apply (Hw k j).
  - rewrite list_lookup_insert_ne by done. apply Hw.
Qed.

Lemma one_live_step {E} e m m' :
  miner_step e m = Ret (E:=E) m' → one_live (main_work_worker m) → one_live (main_work_worker m').
Proof.
  intros Hs Hm. destruct e; cbn [Miner.miner_step] in Hs;
    try (apply bind_Ret_inv in Hs as (w & _ & [= <-]); exact Hm).
  - destruct (mining_queue _) as [|c queue]; [by injection Hs as <-|]. apply bind_Ret_inv in Hs as (w & Hw & [= <-]).
    unfold Miner.on_mining_ctx in Hw. cbn. destruct (recheck_mining_ctx view c); [|by injection Hw as <-].
    by eapply try_mine_block_live.
  - injection Hs as <-. by apply job_event_live.
  - destruct (payload_channel _) as [|c channel]; [by injection Hs as <-|]. by apply bind_Ret_inv in Hs as (w & _ & [= <-]).
Qed.

(**  The miner builds on one parent at a time: in every state that it can
    reach, every payload job but the one for the last context has been asked to
    stop, and the worker holds the handle of that one. *)
Theorem one_live_job {E} events engine pool m i j :
  miner_run events (miner_new engine pool) = Ret (E:=E) m →
  payload_jobs (main_work_worker m) !! i = Some j → abort_requested j = false →
  running_job_handle (main_work_worker m) = Some i ∧ S i = length (payload_jobs (main_work_worker m)).
Proof.
  intros Hrun. assert (Hnew : one_live (main_work_worker (miner_new (OL:=OL) engine pool))) by (by intros ? ? ?).
  revert Hrun Hnew i j. generalize (miner_new (OL:=OL) engine pool). induction events as [|e events IH]; intros m0.
  - intros [= <-] Hm. exact Hm.
  - intros (m1 & Hs & Hr)%miner_run_cons Hm. eapply IH; [exact Hr|]. by eapply one_live_step.
Qed.

End MinerProofs.

(** * Witnesses *)

Section Witnesses.
Import RefHardforks RefLibraries RefLru.
#[local] Existing Instance HeaderExtra.ref_hash.
#[local] Ltac ev := vm_compute; first [reflexivity | discriminate].
#[local] Notation parent := Attestation.parent_header.

#[local] Instance no_choice : ForkChoiceEngineTrait := {|
  Engine := unit; engine_update _ e := (Ret tt, e); engine_is_need_reorg _ _ e := (Ret true, e);
|}.

(** A chain whose head is the parent, with three validators. *)
Definition example_view : ChainView := {|
  best_block_number := Some 60000000; last_block_number := Some 60000000;
  sealed_header n := Some (if n =? 60000000 then Some parent else None);
  sealed_header_by_hash h := Some (if h =? hash_slow parent then Some parent else None);
  header_td_by_number n := Some (Some 100000000);
  view_snapshot_by_hash h := if h =? hash_slow parent then Some (three 60000000) else None;
|}.
Definition new_head : Chain := {| tip := parent; bundle_accounts := ∅ |}.

(** Blocks on the parent, a second after it. *)
Definition mined_on (n : Z) (txs : Z) : BscBuiltPayload :=
  {| payload_block := {| block_header := set_extra_data (replicate (Z.to_nat txs) 0)
                                           (test_header n 1768357801 (hash_slow parent)); block_transactions := [] |};
     payload_sidecars := None; payload_fees := txs |}.
Definition submission (n txs : Z) : SubmitContext :=
  {| mining_ctx := {| mining_header := None; parent_header := parent; parent_snapshot := three 60000000;
                      ctx_is_inturn := true; cached_reads := None |};
     submit_payload_of := mined_on n txs |}.

Definition run_results (events : list ResultEvent) (w : ResultWorkWorker) : comp unit ResultWorkWorker :=
  result_run testnet_parlia true (Some true) None events w.
Definition results (events : list ResultEvent) : ResultWorkWorker :=
  match run_results events result_worker_new with Ret w => w | _ => result_worker_new end.
Definition now_is (t : Z) (n txs : Z) : ResultEvent := Payload example_view t 0 (submission n txs).

(** A block that has to wait, then a second one of its number and parent. *)
Definition early : list ResultEvent := [now_is 1768357800500 60000001 3; DelayDone example_view 1768357801000 0].

Lemma sent_in_time_witness :
  (sent_at <$> sent (results early)) = [1768357801000]
  ∧ ∀ b, b ∈ sent (results early) → calculate_millisecond_timestamp (block_header (sent_block b)) <= sent_at b.
Proof.
  split; [ev|]. apply (sent_in_time testnet_parlia true (Some true) None (E:=unit) early).
  - repeat constructor; ev.
  - ev.
Defined.

Definition late_events : list ResultEvent := [now_is 1768357802000 60000001 4; now_is 1768357802000 60000002 4].

Lemma no_double_sign_witness :
  (number ∘ block_header ∘ sent_block <$> sent (results (early ++ late_events))) = [60000001; 60000002]
  ∧ sent_with 60000001 (hash_slow parent) (results (early ++ late_events)) = sent_with 60000001 (hash_slow parent) (results early).
Proof.
  split; [ev|].
  apply (no_double_sign testnet_parlia true (Some true) None (E:=unit) [now_is 1768357800500 60000001 3]
           (DelayDone example_view 1768357801000 0) late_events (results [now_is 1768357800500 60000001 3])); ev.
Defined.

(** Two heads in a row: the first job is asked to stop, the second one builds,
    and its block waits for its time. *)
Definition miner_events : list MinerEvent :=
  [Notification example_view 1768357801000 (Commit new_head); TakeWork example_view 1768357801000 0;
   Notification example_view 1768357801100 (Reorg new_head new_head); TakeWork example_view 1768357801100 0;
   JobReacts 0 AbortRequested None None; JobReacts 1 TryBuild None None;
   JobReacts 1 (BuildDone (mined_on 60000001 5) 1000000) None None; JobReacts 1 (Deadline false) None None].
Definition start_miner : BscMiner := miner_new (Some tt) pool_new.
Definition miner_runs (events : list MinerEvent) : comp unit BscMiner :=
  miner_run testnet_parlia (λ p t, None) (test_header 0 0 0) 10 20 1 true true (Some true) None events start_miner.
Definition mined : BscMiner := match miner_runs miner_events with Ret m => m | _ => start_miner end.

Lemma mined_runs : miner_runs miner_events = Ret mined.
Proof.
  assert (H : (if miner_runs miner_events is Ret _ then true else false) = true) by ev.
  unfold mined. by destruct (miner_runs miner_events).
Qed.

Lemma one_live_job_witness :
  (abort_requested <$> payload_jobs (main_work_worker mined)) = [true; false]
  ∧ running_job_handle (main_work_worker mined) = Some 1%nat ∧ 2%nat = length (payload_jobs (main_work_worker mined)).
Proof.
  assert (Ha : (abort_requested <$> payload_jobs (main_work_worker mined)) = [true; false]) by ev. split; [exact Ha|].
  assert (Hj : ∃ j, payload_jobs (main_work_worker mined) !! 1%nat = Some j ∧ abort_requested j = false).
  { apply (f_equal (λ l, l !! 1%nat)) in Ha. rewrite list_lookup_fmap in Ha.
    destruct (payload_jobs (main_work_worker mined) !! 1%nat) as [j|]; [|discriminate Ha]. exists j. split; [reflexivity|].
    by injection Ha. }
  destruct Hj as (j & Hj & Hl).
  apply (one_live_job testnet_parlia (λ p t, None) (test_header 0 0 0) 10 20 1 true true (Some true) None (FE:=no_choice) (E:=unit)
           miner_events (Some tt) pool_new mined 1 j mined_runs Hj Hl).
Defined.

Lemma example_view_good : view_good example_view.
Proof.
  intros h s. cbn. case_match; [|done]. intros [= <-]. split; [by apply three_wf|]. intros v.
  assert (Hr : recent_proposers (three 60000000) = ∅) by reflexivity.
  unfold proposals, window_blocks. rewrite Hr, map_to_list_empty. done.
Qed.

Lemma work_accepted_witness :
  (parent_hash <$> (head (contexts mined) ≫= mining_header)) = Some (hash_slow parent)
  ∧ ∃ s, apply (E:=unit) testnet_spec (three 60000000) 20 (test_header 60000001 1768357801 (hash_slow parent)) [] None None None
         = Ret (Some s).
Proof.
  split; [ev|].
  assert (Hc : ∃ ctx, ctx ∈ contexts mined ∧ parent_snapshot ctx = three 60000000).
  { assert (Hh : parent_snapshot <$> head (contexts mined) = Some (three 60000000)) by ev.
    destruct (contexts mined) as [|ctx l]; [discriminate Hh|]. exists ctx. split; [by left|]. by injection Hh. }
  destruct Hc as (ctx & Hin & Hs). rewrite <- Hs.
  apply (work_accepted testnet_parlia (λ p t, None) (test_header 0 0 0) 10 20 1 true true (Some true) None (FE:=no_choice) (E:=unit)
           miner_events (Some tt) pool_new mined ctx); [|exact mined_runs|exact Hin|rewrite Hs; ev|ev|ev|exact I].
  repeat first [apply List.Forall_nil | apply List.Forall_cons];
    intros view Hv; first [discriminate Hv | injection Hv as <-; exact example_view_good].
Defined.

End Witnesses.
