(* ===== verification/MinerConfig.v ===== *)
(** * Configuring and starting the miner ([src/node/miner/config.rs],
      [src/main.rs], [src/node/engine.rs])

    How the command line and the environment become the configuration of the
    miner, and what the start of the miner makes of it.  The key store, the
    decoding of hexadecimal strings and [k256] are parameters; strings are those
    of ASCII. *)

From Stdlib Require Import Ascii String.
From S2P Require Import Prelude Types HeaderExtra Strings.
#[local] Open Scope string_scope.
#[local] Open Scope Z_scope.

(** ** The libraries *)

Class KeyApi := {
  hex_decode : string → option (list Z);
  parse_address : string → option Address;
  decrypt_key : string → string → option (list Z);
  (** [k256::ecdsa::SigningKey] *)
  SigningKey : Type;
  signing_key_from_slice : list Z → option SigningKey;
  signing_key_bytes : SigningKey → list Z;
  encoded_point : SigningKey → list Z;
}.
(** [k256] and [secp256k1] are the same curve. *)
Class KeyLaws `(Secp256k1) `(KeyApi) : Prop := {
  same_curve k : ∃ sk, secret_from_slice (signing_key_bytes k) = Some sk
                     ∧ serialize_uncompressed (public_key_of sk) = encoded_point k;
}.

(** ** The configuration *)

Definition DEFAULT_MIN_GAS_TIP : Z := 50000000.

Section Config.
Context `{KA : KeyApi} `{KE : Keccak}.

Record MiningConfig := {
  enabled : bool;
  validator_address : option Address;
  signing_key : option SigningKey;
  keystore_path : option string;
  keystore_password : option string;
  private_key_hex : option string;
  gas_limit : option Z;
  min_gas_tip : option Z;
  submit_built_payload : bool;
  greedy_merge : bool;
  validator_commission : option Z;
  bid_simulation_left_over : option Z;
  no_interrupt_left_over : option Z;
  max_bids_per_builder : option Z;
  builder_fee_ceil : option Z;
  allowed_builders : option (list Address);
}.

Definition MiningConfig_default : MiningConfig := {|
  enabled := false; validator_address := None; signing_key := None; keystore_path := None; keystore_password := None;
  private_key_hex := None; gas_limit := Some 30000000; min_gas_tip := Some DEFAULT_MIN_GAS_TIP;
  submit_built_payload := false; greedy_merge := true; validator_commission := Some 100;
  bid_simulation_left_over := Some 50; no_interrupt_left_over := Some 500; max_bids_per_builder := Some 3;
  builder_fee_ceil := Some 1000000000000000000; allowed_builders := None;
|}.

Definition is_some {A} (o : option A) : bool := match o with Some _ => true | None => false end.

Definition validate (self : MiningConfig) : comp string unit :=
  if negb (enabled self) then Ret tt
  else if negb (is_some (keystore_path self)) && negb (is_some (private_key_hex self))
  then Err "Mining enabled but no keystore_path or private_key_hex specified"
  else if is_some (keystore_path self) && negb (is_some (keystore_password self))
  then Err "Keystore path specified but no password provided"
  else Ret tt.

Definition is_mining_enabled (self : MiningConfig) : bool :=
  enabled self && (is_some (keystore_path self) || is_some (private_key_hex self)).

Definition get_gas_limit (chain_id : Z) (self : MiningConfig) : Z :=
  default (match chain_id with 56 => 140000000 | 97 => 100000000 | _ => 40000000 end) (gas_limit self).
Definition get_min_gas_tip (self : MiningConfig) : Z := default DEFAULT_MIN_GAS_TIP (min_gas_tip self).
Definition get_validator_commission (self : MiningConfig) : Z := default 100 (validator_commission self).
Definition get_bid_simulation_left_over (self : MiningConfig) : Z := default 50 (bid_simulation_left_over self).
Definition get_no_interrupt_left_over (self : MiningConfig) : Z := default 500 (no_interrupt_left_over self).
Definition get_max_bids_per_builder (self : MiningConfig) : Z := default 3 (max_bids_per_builder self).
Definition get_builder_fee_ceil (self : MiningConfig) : Z := default 1000000000000000000 (builder_fee_ceil self).

(** ** Keys *)

Definition load_private_key_from_keystore (path password : string) : comp string SigningKey :=
  key_bytes ← ok_or (decrypt_key path password) "decryption failed";
  if negb (zlen key_bytes =? 32) then Err "Decrypted private key must be 32 bytes"
  else ok_or (signing_key_from_slice key_bytes) "signature error".

Definition load_private_key_from_hex (hex_key : string) : comp string SigningKey :=
  key_bytes ← ok_or (hex_decode (strip_0x hex_key)) "invalid hex string";
  if negb (zlen key_bytes =? 32) then Err "Private key must be 32 bytes"
  else ok_or (signing_key_from_slice key_bytes) "signature error".

Definition get_validator_address (k : SigningKey) : Address :=
  be_decode (drop 12 (be_encode 32 (keccak256 (drop 1 (encoded_point k))))).

(** The key for development: always this one. *)
Definition development_key : string := "0xac0974bec39a17e36ba4a6b4d238ff944bacb478cbed5efcae784d7bf4f2ff80".

Definition generate_for_development : MiningConfig :=
  match load_private_key_from_hex development_key with
  | Ret signing_key =>
      {| enabled := true; validator_address := Some (get_validator_address signing_key);
         signing_key := Some signing_key; keystore_path := None; keystore_password := None;
         private_key_hex := Some development_key; gas_limit := Some 30000000; min_gas_tip := Some DEFAULT_MIN_GAS_TIP;
         submit_built_payload := false; greedy_merge := true; validator_commission := Some 100;
         bid_simulation_left_over := Some 50; no_interrupt_left_over := Some 500; max_bids_per_builder := Some 3;
         builder_fee_ceil := Some 1000000000000000000; allowed_builders := None |}
  | _ => MiningConfig_default
  end.

Definition set_keys (address : option Address) (key : option SigningKey) (hex : option string) (self : MiningConfig) : MiningConfig :=
  {| enabled := enabled self; validator_address := address; signing_key := key;
     keystore_path := keystore_path self; keystore_password := keystore_password self; private_key_hex := hex;
     gas_limit := gas_limit self; min_gas_tip := min_gas_tip self; submit_built_payload := submit_built_payload self;
     greedy_merge := greedy_merge self; validator_commission := validator_commission self;
     bid_simulation_left_over := bid_simulation_left_over self; no_interrupt_left_over := no_interrupt_left_over self;
     max_bids_per_builder := max_bids_per_builder self; builder_fee_ceil := builder_fee_ceil self;
     allowed_builders := allowed_builders self |}.
Definition set_toggles (on : bool) (path password hex : option string) (self : MiningConfig) : MiningConfig :=
  {| enabled := on; validator_address := validator_address self; signing_key := signing_key self;
     keystore_path := path; keystore_password := password; private_key_hex := hex;
     gas_limit := gas_limit self; min_gas_tip := min_gas_tip self; submit_built_payload := submit_built_payload self;
     greedy_merge := greedy_merge self; validator_commission := validator_commission self;
     bid_simulation_left_over := bid_simulation_left_over self; no_interrupt_left_over := no_interrupt_left_over self;
     max_bids_per_builder := max_bids_per_builder self; builder_fee_ceil := builder_fee_ceil self;
     allowed_builders := allowed_builders self |}.
Definition set_limits (limit tip : option Z) (self : MiningConfig) : MiningConfig :=
  {| enabled := enabled self; validator_address := validator_address self; signing_key := signing_key self;
     keystore_path := keystore_path self; keystore_password := keystore_password self;
     private_key_hex := private_key_hex self; gas_limit := limit; min_gas_tip := tip;
     submit_built_payload := submit_built_payload self; greedy_merge := greedy_merge self;
     validator_commission := validator_commission self; bid_simulation_left_over := bid_simulation_left_over self;
     no_interrupt_left_over := no_interrupt_left_over self; max_bids_per_builder := max_bids_per_builder self;
     builder_fee_ceil := builder_fee_ceil self; allowed_builders := allowed_builders self |}.

(** The address and the text of the key are taken over, the key is not. *)
Definition ensure_keys_available (self : MiningConfig) : MiningConfig :=
  if enabled self && negb (is_some (keystore_path self)) && negb (is_some (private_key_hex self)) then
    let generated := generate_for_development in
    set_keys (validator_address generated) (signing_key self) (private_key_hex generated) self
  else self.

Definition development : MiningConfig :=
  ensure_keys_available (set_toggles true None None None MiningConfig_default).

(** ** The environment *)

Section Environment.
Variable env : string → option string.

Definition env_flag (name : string) (otherwise : bool) : bool :=
  match env name with Some v => String.eqb (to_lowercase v) "true" | None => otherwise end.
Definition env_uint (w : Z) (name : string) : option Z := env name ≫= parse_uint w.

Definition env_builders : option (list Address) :=
  s ← env "BSC_ALLOWED_BUILDERS";
  let l := omap (λ addr, parse_address (trim addr)) (split_comma s) in
  if bool_decide (l = []) then None else Some l.

(** The address that belongs to the configured key, if it can be loaded. *)
Definition derive_address (hex path password : option string) : option Address :=
  match hex with
  | Some pk_hex =>
      match load_private_key_from_hex pk_hex with Ret sk => Some (get_validator_address sk) | _ => None end
  | None =>
      match path, password with
      | Some path, Some pass =>
          match load_private_key_from_keystore path pass with Ret sk => Some (get_validator_address sk) | _ => None end
      | _, _ => None
      end
  end.

Definition from_env : MiningConfig :=
  let private_key_hex := env "BSC_PRIVATE_KEY" in
  let keystore_path := env "BSC_KEYSTORE_PATH" in
  let keystore_password := env "BSC_KEYSTORE_PASSWORD" in
  let cfg := {|
    enabled := env_flag "BSC_MINING_ENABLED" false;
    validator_address := derive_address private_key_hex keystore_path keystore_password;
    signing_key := None; keystore_path := keystore_path; keystore_password := keystore_password;
    private_key_hex := private_key_hex;
    gas_limit := env_uint 64 "BSC_GAS_LIMIT"; min_gas_tip := env_uint 128 "BSC_MIN_GAS_TIP";
    submit_built_payload := env_flag "BSC_SUBMIT_BUILT_PAYLOAD" false; greedy_merge := env_flag "BSC_GREEDY_MERGE" true;
    validator_commission := env_uint 64 "BSC_VALIDATOR_COMMISSION";
    bid_simulation_left_over := env_uint 64 "BSC_BID_SIMULATION_LEFT_OVER";
    no_interrupt_left_over := env_uint 64 "BSC_NO_INTERRUPT_LEFT_OVER";
    max_bids_per_builder := env_uint 32 "BSC_MAX_BIDS_PER_BUILDER";
    builder_fee_ceil := env_uint 128 "BSC_BUILDER_FEE_CEIL"; allowed_builders := env_builders |} in
  ensure_keys_available cfg.

(** ** The command line *)

Record BscCliArgs := {
  mining_enabled : bool;
  mining_dev : bool;
  mining_gas_limit : option Z;
  mining_min_gas_tip : option Z;
  arg_private_key : option string;
  arg_keystore_path : option string;
  arg_keystore_password : option string;
}.

Definition or_else {A} (a b : option A) : option A := match a with Some _ => a | None => b end.

(** The key of the configuration, and its address. *)
Definition load_keys (cfg : MiningConfig) : comp string MiningConfig :=
  match keystore_path cfg with
  | Some path =>
      sk ← load_private_key_from_keystore path (default "" (keystore_password cfg));
      Ret (set_keys (Some (get_validator_address sk)) (Some sk) (private_key_hex cfg) cfg)
  | None =>
      match private_key_hex cfg with
      | Some hex_key =>
          sk ← load_private_key_from_hex hex_key;
          Ret (set_keys (Some (get_validator_address sk)) (Some sk) (private_key_hex cfg) cfg)
      | None => Ret (set_keys (validator_address cfg) None None cfg)
      end
  end.

(** What [main] makes of the arguments; an error ends the node. *)
Definition toggled_config (args : BscCliArgs) : MiningConfig :=
  let cfg := if mining_dev args then development else from_env in
  set_toggles (mining_enabled args || enabled cfg) (or_else (arg_keystore_path args) (keystore_path cfg))
    (or_else (arg_keystore_password args) (keystore_password cfg)) (or_else (arg_private_key args) (private_key_hex cfg)) cfg.
Definition cli_mining_config (args : BscCliArgs) : comp string MiningConfig :=
  cfg ← load_keys (toggled_config args);
  let cfg := set_limits (or_else (mining_gas_limit args) (gas_limit cfg)) (or_else (mining_min_gas_tip args) (min_gas_tip cfg)) cfg in
  Ret (ensure_keys_available cfg).

End Environment.

(** ** Starting the miner *)

(** The part of [BscMiner::new] and [start] that depends on the configuration. *)
Record MinerSettings := {
  miner_address : Address;
  miner_key : SigningKey;
  desired_gas_limit : Z;
  desired_min_gas_tip : Z;
  commission : Z;
  miner_greedy_merge : bool;
  miner_submits : bool;
}.

Definition bsc_miner_new (chain_id : Z) (mining_config : MiningConfig) : comp string MinerSettings :=
  _ ← validate mining_config;
  address ← ok_or (validator_address mining_config) "No validator address configured";
  key ← ok_or (signing_key mining_config) "No signing key configured";
  Ret {| miner_address := address; miner_key := key; desired_gas_limit := get_gas_limit chain_id mining_config;
         desired_min_gas_tip := get_min_gas_tip mining_config;
         commission := default 100 (validator_commission mining_config);
         miner_greedy_merge := greedy_merge mining_config; miner_submits := submit_built_payload mining_config |}.

(** The global signer is set once. *)
Definition init_global_signer_from_k256 `{SE : Secp256k1} (key : SigningKey) (global_signer : option (list Z))
    : comp SignerError (list Z) :=
  let raw := signing_key_bytes key in
  _ ← ok_or (secret_from_slice raw) (SigningFailed "Invalid private key");
  match global_signer with Some _ => Err AlreadyInitialized | None => Ret raw end.

Definition bsc_miner_start `{SE : Secp256k1} (global_signer : option (list Z)) (miner : MinerSettings) : comp string (list Z) :=
  map_err (λ _, "Failed to initialize global signer") (init_global_signer_from_k256 (miner_key miner) global_signer).

(** The outcome of the task that the payload service spawns. *)
Inductive StartOutcome :=
| Disabled
| TimedOut
| Failed (error : string)
| Started (miner : MinerSettings) (signer : list Z).

(** The provider is looked for up to 101 times. *)
Fixpoint wait_for_provider (tries : nat) (attempts : nat) (available : nat → bool) : bool :=
  match tries with
  | O => false
  | S tries => available attempts || wait_for_provider tries (S attempts) available
  end.

Definition start_mining `{SE : Secp256k1} (env : string → option string) (global_config : option MiningConfig)
    (available : nat → bool) (chain_id : Z) (global_signer : option (list Z)) : StartOutcome :=
  let mining_config := default (from_env env) global_config in
  if negb (is_mining_enabled mining_config) then Disabled
  else if negb (wait_for_provider 101 0 available) then TimedOut
  else
    match bsc_miner_new chain_id mining_config with
    | Ret miner =>
        match bsc_miner_start global_signer miner with
        | Ret signer => Started miner signer
        | Err e => Failed e
        | _ => Failed ""
        end
    | Err e => Failed e
    | _ => Failed ""
    end.

End Config.

(** * Proofs *)

Section Proofs.
Context `{KE : Keccak} `{RL : Rlp} `{RLL : !RlpLaws RL} `{SE : Secp256k1} `{SEL : !Secp256k1Laws SE}.
Context `{KA : KeyApi} `{KL : !KeyLaws SE KA}.
Variable env : string → option string.
Implicit Types (cfg : MiningConfig) (args : BscCliArgs).

(** A key is configured, by the arguments, the environment or for development. *)
Definition key_given cfg : bool := is_some (keystore_path cfg) || is_some (private_key_hex cfg).

Lemma ensure_keys_given cfg : key_given cfg = true → ensure_keys_available cfg = cfg.
Proof.
  unfold key_given, ensure_keys_available. destruct (keystore_path cfg), (private_key_hex cfg), (enabled cfg); done.
Qed.

Lemma load_keys_cases cfg cfg' :
  load_keys cfg = Ret cfg' →
  enabled cfg' = enabled cfg ∧ keystore_path cfg' = keystore_path cfg ∧ private_key_hex cfg' = private_key_hex cfg
  ∧ keystore_password cfg' = keystore_password cfg
  ∧ if key_given cfg then ∃ sk, signing_key cfg' = Some sk ∧ validator_address cfg' = Some (get_validator_address sk)
    else signing_key cfg' = None.
Proof.
  unfold load_keys, key_given. destruct (keystore_path cfg) as [path|] eqn:Hp.
  - intros (sk & _ & [= <-])%bind_Ret_inv. cbn. split_and!; [done..|]. by exists sk.
  - destruct (private_key_hex cfg) as [hex|] eqn:Hh.
    + intros (sk & _ & [= <-])%bind_Ret_inv. cbn. split_and!; [done..|]. by exists sk.
    + by intros [= <-].
Qed.

(** The configuration of the command line. *)
Lemma cli_config_cases args cfg :
  cli_mining_config env args = Ret cfg →
  let t := toggled_config env args in
  enabled cfg = enabled t
  ∧ if key_given t then
      keystore_path cfg = keystore_path t ∧ private_key_hex cfg = private_key_hex t
      ∧ keystore_password cfg = keystore_password t
      ∧ ∃ sk, signing_key cfg = Some sk ∧ validator_address cfg = Some (get_validator_address sk)
    else
      signing_key cfg = None ∧ keystore_path cfg = None
      ∧ (enabled t = true → validator_address cfg = validator_address generate_for_development
                          ∧ private_key_hex cfg = private_key_hex generate_for_development).
Proof.
  cbv zeta. unfold cli_mining_config. set (t := toggled_config env args).
  intros (c & Hc & [= <-])%bind_Ret_inv. apply load_keys_cases in Hc as (He & Hp & Hh & Hw & Hk).
  set (c' := set_limits _ _ c). destruct (key_given t) eqn:Hg.
  - rewrite ensure_keys_given by (unfold key_given in *; cbn; congruence). done.
  - unfold key_given in Hg. apply orb_false_iff in Hg as [Hg1 Hg2].
    unfold ensure_keys_available. cbn [enabled keystore_path private_key_hex c' set_limits].
    rewrite Hp, Hh, Hg1, Hg2, He. destruct (enabled t); cbn [andb negb set_keys enabled keystore_path signing_key validator_address private_key_hex c' set_limits].
    + split; [done|]. split; [done|]. split; [by destruct (keystore_path t)|done].
    + split; [done|]. split; [done|]. split; [by destruct (keystore_path t)|done].
Qed.

(**  The miner starts exactly when a key is configured.  If the command line
    is accepted and mining is enabled: with a key (and a password for a key
    store) the miner is created with the address of that key; without any key
    the keys for development are filled in, mining counts as enabled, and yet
    the miner cannot be created, because the signing key itself is missing. *)
Theorem miner_starts_iff_key args cfg chain_id dk :
  load_private_key_from_hex development_key = Ret dk →
  cli_mining_config env args = Ret cfg → enabled (toggled_config env args) = true →
  let t := toggled_config env args in
  if key_given t then
    (is_some (keystore_path t) = true → is_some (keystore_password t) = true) →
    ∃ miner, bsc_miner_new chain_id cfg = Ret miner ∧ miner_address miner = get_validator_address (miner_key miner)
  else is_mining_enabled cfg = true ∧ bsc_miner_new chain_id cfg = Err "No signing key configured".
Proof.
  intros Hdk Hcfg%cli_config_cases He. cbv zeta in *. destruct Hcfg as [Hen Hcfg]. unfold bsc_miner_new, validate, is_mining_enabled.
  rewrite Hen, He. cbn [negb]. destruct (key_given (toggled_config env args)) eqn:Hg.
  - destruct Hcfg as (Hp & Hh & Hw & sk & Hsk & Hva). intros Hpass. rewrite Hp, Hh, Hw, Hsk, Hva.
    unfold key_given in Hg. destruct (keystore_path (toggled_config env args)); cbn [is_some negb andb orb] in *.
    + rewrite Hpass by done. cbn. by eexists.
    + rewrite Hg. cbn. by eexists.
  - destruct Hcfg as (Hsk & Hp & Hgen). destruct (Hgen He) as [Hva Hh].
    unfold generate_for_development in Hva, Hh. rewrite Hdk in Hva, Hh. rewrite Hp, Hh, Hva, Hsk. done.
Qed.

(** C33.  The miner seals as the validator it was configured to be: once mining
    has started from the command line, every header that it seals is recovered
    to the configured address of the validator. *)
Theorem started_miner_seals_as_validator args cfg available chain_id global_signer miner signer h :
  cli_mining_config env args = Ret cfg →
  start_mining env (Some cfg) available chain_id global_signer = Started miner signer →
  32 <= extra_len h < 2 ^ 62 → (zero_beacon_root h = true → beacon_fields_present h) →
  ∃ seal, seal_new_header (Some signer) h chain_id = Ret (set_extra_data (extra_data h ++ seal) h)
  ∧ recover_uncached (set_extra_data (extra_data h ++ seal) h) chain_id = Ret (miner_address miner)
  ∧ validator_address cfg = Some (miner_address miner).
Proof.
  intros Hcfg%cli_config_cases Hs Hlen Hb. unfold start_mining in Hs. change (default (from_env env) (Some cfg)) with cfg in Hs.
  destruct (is_mining_enabled cfg); [|done]. destruct (wait_for_provider _ _ _); [|done]. cbn [negb] in Hs.
  destruct (bsc_miner_new chain_id cfg) as [m|?| |] eqn:Hm; try done.
  destruct (bsc_miner_start global_signer m) as [sg|?| |] eqn:Hg; try done. injection Hs as <- <-.
  unfold bsc_miner_new in Hm. apply bind_Ret_inv in Hm as (_ & _ & Hm). apply bind_Ret_inv in Hm as (a & Ha & Hm).
  apply bind_Ret_inv in Hm as (k & Hk & [= <-]). cbn [miner_address miner_key] in *.
  destruct (validator_address cfg) as [a'|] eqn:Hva; [|done]. injection Ha as <-.
  destruct (signing_key cfg) as [k'|] eqn:Hsk; [|done]. injection Hk as <-.
  assert (Haddr : a' = get_validator_address k').
  { destruct Hcfg as [_ Hcfg]. destruct (key_given _); [|by destruct Hcfg as [? _]].
    destruct Hcfg as (_ & _ & _ & sk & [= <-] & [= ->]). done. }
  destruct (same_curve k') as (sk & Hsec & Hpt).
  assert (Hsg : sg = signing_key_bytes k').
  { unfold bsc_miner_start, init_global_signer_from_k256 in Hg. cbn [miner_key] in Hg. rewrite Hsec in Hg. cbn in Hg.
    destruct global_signer; [done|]. by injection Hg. }
  destruct (seal_recovers sg sk h chain_id Hlen Hb) as (seal & _ & Hseal & Hrec); [by rewrite Hsg|].
  exists seal. split; [done|]. split; [|done]. rewrite Hrec, Haddr. unfold get_validator_address, address_of_key. by rewrite Hpt.
Qed.

End Proofs.

(** * Witnesses *)

Section Witnesses.
Import RefLibraries.
#[local] Ltac ev := vm_compute; first [reflexivity | discriminate].

(** Keys are numbers in 32 bytes; a hexadecimal string stands for its length. *)
#[local] Instance ref_keys : KeyApi := {|
  hex_decode s := Some (be_encode 32 (Z.of_nat (String.length s)));
  parse_address s := Some (Z.of_nat (String.length s));
  decrypt_key path password := if String.eqb password "secret" then Some (be_encode 32 7) else None;
  SigningKey := list Z;
  signing_key_from_slice l := Some l;
  signing_key_bytes l := be_encode 32 (be_decode l);
  encoded_point l := be_decode (be_encode 32 (be_decode l)) :: replicate 64 0;
|}.
#[local] Instance ref_keys_laws : KeyLaws ref_secp ref_keys.
Proof.
  split. intros k. cbn [secret_from_slice ref_secp signing_key_bytes ref_keys]. rewrite zlen_be_encode.
  by eexists.
Qed.

Definition no_env : string → option string := λ _, None.
Definition with_store : BscCliArgs := {|
  mining_enabled := true; mining_dev := false; mining_gas_limit := None; mining_min_gas_tip := None;
  arg_private_key := None; arg_keystore_path := Some "key.json"; arg_keystore_password := Some "secret" |}.
Definition without_key : BscCliArgs := {|
  mining_enabled := true; mining_dev := false; mining_gas_limit := None; mining_min_gas_tip := None;
  arg_private_key := None; arg_keystore_path := None; arg_keystore_password := None |}.
Definition config_of (args : BscCliArgs) : MiningConfig :=
  match cli_mining_config no_env args with Ret cfg => cfg | _ => MiningConfig_default end.
Lemma config_ok args :
  (if cli_mining_config no_env args is Ret _ then true else false) = true →
  cli_mining_config no_env args = Ret (config_of args).
Proof. unfold config_of. by destruct (cli_mining_config no_env args). Qed.
Definition development_secret : list Z := be_encode 32 64.

Lemma miner_starts_iff_key_witness :
  (∃ miner, bsc_miner_new 97 (config_of with_store) = Ret miner ∧ miner_address miner = get_validator_address (miner_key miner))
  ∧ is_mining_enabled (config_of without_key) = true
  ∧ bsc_miner_new 97 (config_of without_key) = Err "No signing key configured".
Proof.
  assert (Hg : key_given (toggled_config no_env with_store) = true) by ev.
  assert (Hn : key_given (toggled_config no_env without_key) = false) by ev.
  assert (Hdk : load_private_key_from_hex development_key = Ret development_secret) by ev.
  pose proof (miner_starts_iff_key no_env with_store (config_of with_store) 97 development_secret Hdk (config_ok with_store eq_refl) eq_refl) as Hs.
  pose proof (miner_starts_iff_key no_env without_key (config_of without_key) 97 development_secret Hdk (config_ok without_key eq_refl) eq_refl) as Hw.
  cbv zeta in Hs, Hw. rewrite Hg in Hs. rewrite Hn in Hw. split; [apply Hs; ev|exact Hw].
Defined.

Definition unsealed_header : Header := set_extra_data (replicate 32 0) (test_header 1 1 0).
(** The provider comes at the third look. *)
Definition first_start : StartOutcome :=
  start_mining no_env (Some (config_of with_store)) (λ n, bool_decide (2 <= n)%nat) 97 None.
Definition first_miner : MinerSettings :=
  match first_start with
  | Started m _ => m
  | _ => {| miner_address := 0; miner_key := []; desired_gas_limit := 0; desired_min_gas_tip := 0; commission := 0;
            miner_greedy_merge := false; miner_submits := false |}
  end.
Definition first_signer : list Z := match first_start with Started _ s => s | _ => [] end.
Lemma first_started : first_start = Started first_miner first_signer.
Proof.
  assert (H : (if first_start is Started _ _ then true else false) = true) by ev.
  unfold first_miner, first_signer. by destruct first_start.
Qed.

Lemma started_miner_seals_as_validator_witness :
  ∃ seal, recover_uncached (set_extra_data (extra_data unsealed_header ++ seal) unsealed_header) 97
          = Ret (miner_address first_miner)
  ∧ validator_address (config_of with_store) = Some (miner_address first_miner).
Proof.
  destruct (started_miner_seals_as_validator no_env with_store (config_of with_store) (λ n, bool_decide (2 <= n)%nat) 97 None
              first_miner first_signer unsealed_header (config_ok with_store eq_refl) first_started)
    as (seal & _ & Hr & Ha); [split; ev|discriminate|].
  exists seal. split; [exact Hr|exact Ha].
Defined.

End Witnesses.
