(* ===== verification/ChainSpec.v ===== *)
(** * Chain specifications ([src/chainspec/])

    The specifications of the known chains, the parsing of a genesis file into
    one, and the overrides of the genesis hash and of the boot nodes.  What the
    rest of the library uses of a specification are its forks, which
    [bsc_spec_of] hands to [Hardforks.v].

    [ChainSpec], its builder, [Chain], [Genesis] and JSON values are types of
    the libraries; the files of the repository are the variables
    [include_str]. *)

From Stdlib Require Import String.
From S2P Require Import Prelude Strings Hardforks Types.
#[local] Open Scope string_scope.
#[local] Open Scope Z_scope.

(** ** The libraries *)

(** [alloy_chains]. *)
Inductive NamedChain := BinanceSmartChain | BinanceSmartChainTestnet | OtherNamedChain (id : Z).
Inductive ChainKind := Named (c : NamedChain) | Id (id : Z).

Class ChainApi := {
  Chain : Type;
  from_named : NamedChain → Chain;
  from_id : Z → Chain;
  kind : Chain → ChainKind;
  chain_id : Chain → Z;
}.
Class ChainLaws `(ChainApi) : Prop := {
  kind_from_named c : kind (from_named c) = Named c;
  chain_id_from_id i : chain_id (from_id i) = i;
  chain_id_mainnet : chain_id (from_named BinanceSmartChain) = 56;
  kind_mainnet : kind (from_id 56) = Named BinanceSmartChain;
}.

(** [alloy_genesis::Genesis]. *)
Class GenesisApi := {
  Genesis : Type;
  genesis_from_str : string → option Genesis;
  config_chain_id : Genesis → Z;
}.

Section Spec.
Context `{HA : HardforksApi} `{CA : ChainApi} `{GA : GenesisApi}.

(** [reth_chainspec::ChainSpec]: the fields the source sets. *)
Record ChainSpec := {
  chain : Chain;
  genesis : Genesis;
  paris_block_and_final_difficulty : option (Z * Z);
  hardforks : ChainHardforks;
  base_fee_params : Z * Z;
  prune_delete_limit : Z;
  genesis_header : Header * B256;
}.

(** [reth_chainspec::ChainSpecBuilder]. *)
Class BuilderApi := {
  ChainSpecBuilder : Type;
  builder : ChainSpecBuilder;
  builder_chain : Chain → ChainSpecBuilder → ChainSpecBuilder;
  builder_genesis : Genesis → ChainSpecBuilder → ChainSpecBuilder;
  with_fork : AnyHardfork → ForkCondition → ChainSpecBuilder → ChainSpecBuilder;
  (** [None]: the chain or the genesis is missing, and [build] panics. *)
  build : ChainSpecBuilder → option ChainSpec;
  (** What has been set so far. *)
  set_chain : ChainSpecBuilder → option Chain;
  set_genesis : ChainSpecBuilder → option Genesis;
  set_fork : ChainSpecBuilder → AnyHardfork → ForkCondition;
}.
Class BuilderLaws `(BuilderApi) : Prop := {
  set_fork_builder f : set_fork builder f = FC_Never;
  set_fork_chain c b : set_fork (builder_chain c b) = set_fork b;
  set_fork_genesis g b : set_fork (builder_genesis g b) = set_fork b;
  set_fork_with f c b g : set_fork (with_fork f c b) g = if decide (fork_name f = fork_name g) then c else set_fork b g;
  set_chain_chain c b : set_chain (builder_chain c b) = Some c;
  set_chain_genesis g b : set_chain (builder_genesis g b) = set_chain b;
  set_chain_with f c b : set_chain (with_fork f c b) = set_chain b;
  set_genesis_genesis g b : set_genesis (builder_genesis g b) = Some g;
  set_genesis_with f c b : set_genesis (with_fork f c b) = set_genesis b;
  build_set b c g : set_chain b = Some c → set_genesis b = Some g →
    ∃ s, build b = Some s ∧ chain s = c ∧ genesis s = g ∧ ∀ f, fork (hardforks s) f = set_fork b f;
}.

End Spec.
Arguments ChainSpec {_ _ _ _}.
Arguments BuilderApi {_ _ _ _}.

(** [BscChainSpec]: only the forks matter to the rest of the library. *)
Definition bsc_spec_of `{HA : HardforksApi} `{CA : ChainApi} `{GA : GenesisApi} (s : ChainSpec) : BscChainSpec :=
  Build_BscChainSpec (hardforks s).

(** ** The parser ([parser.rs]) *)

Section Parser.
Context `{HA : HardforksApi} `{CA : ChainApi} `{GA : GenesisApi} `{JA : JsonApi} {BA : BuilderApi}.

(** [if let Some(n) = config.get(key).and_then(|v| v.as_u64())
     { chain_spec = chain_spec.with_fork(..) }] *)
Definition fork_from (config : Value) (key : string) (f : AnyHardfork) (condition : Z → ForkCondition)
    (chain_spec : ChainSpecBuilder) : ChainSpecBuilder :=
  match json_get config key ≫= json_as_u64 with
  | Some n => with_fork f (condition n) chain_spec
  | None => chain_spec
  end.

Definition add_hardforks_to_chainspec (chain_spec : ChainSpecBuilder) (config : Value) : ChainSpecBuilder :=
  let chain_spec := fork_from config "ramanujanBlock" (Bsc Ramanujan) FC_Block chain_spec in
  let chain_spec := fork_from config "nielsBlock" (Bsc Niels) FC_Block chain_spec in
  let chain_spec := fork_from config "mirrorSyncBlock" (Bsc MirrorSync) FC_Block chain_spec in
  let chain_spec := fork_from config "brunoBlock" (Bsc Bruno) FC_Block chain_spec in
  let chain_spec := fork_from config "eulerBlock" (Bsc Euler) FC_Block chain_spec in
  let chain_spec := fork_from config "nanoBlock" (Bsc Nano) FC_Block chain_spec in
  let chain_spec := fork_from config "moranBlock" (Bsc Moran) FC_Block chain_spec in
  let chain_spec := fork_from config "gibbsBlock" (Bsc Gibbs) FC_Block chain_spec in
  let chain_spec := fork_from config "planckBlock" (Bsc Planck) FC_Block chain_spec in
  let chain_spec := fork_from config "lubanBlock" (Bsc Luban) FC_Block chain_spec in
  let chain_spec := fork_from config "platoBlock" (Bsc Plato) FC_Block chain_spec in
  let chain_spec := fork_from config "hertzBlock" (Bsc Hertz) FC_Block chain_spec in
  let chain_spec := fork_from config "hertzfixBlock" (Bsc HertzFix) FC_Block chain_spec in
  let chain_spec := fork_from config "berlinBlock" (Eth EthBerlin) FC_Block chain_spec in
  let chain_spec := fork_from config "londonBlock" (Eth EthLondon) FC_Block chain_spec in
  let chain_spec := fork_from config "shanghaiTime" (Eth EthShanghai) FC_Timestamp chain_spec in
  let chain_spec := fork_from config "keplerTime" (Bsc Kepler) FC_Timestamp chain_spec in
  let chain_spec := fork_from config "feynmanTime" (Bsc Feynman) FC_Timestamp chain_spec in
  let chain_spec := fork_from config "feynmanFixTime" (Bsc FeynmanFix) FC_Timestamp chain_spec in
  let chain_spec := fork_from config "cancunTime" (Eth EthCancun) FC_Timestamp chain_spec in
  let chain_spec := fork_from config "cancunTime" (Bsc Cancun) FC_Timestamp chain_spec in
  let chain_spec := fork_from config "haberTime" (Bsc Haber) FC_Timestamp chain_spec in
  let chain_spec := fork_from config "haberFixTime" (Bsc HaberFix) FC_Timestamp chain_spec in
  let chain_spec := fork_from config "bohrTime" (Bsc Bohr) FC_Timestamp chain_spec in
  let chain_spec := fork_from config "tychoTime" (Bsc Tycho) FC_Timestamp chain_spec in
  let chain_spec := fork_from config "pragueTime" (Eth EthPrague) FC_Timestamp chain_spec in
  let chain_spec := fork_from config "pascalTime" (Bsc Pascal) FC_Timestamp chain_spec in
  let chain_spec := fork_from config "lorentzTime" (Bsc Lorentz) FC_Timestamp chain_spec in
  let chain_spec := fork_from config "maxwellTime" (Bsc Maxwell) FC_Timestamp chain_spec in
  fork_from config "fermiTime" (Bsc Fermi) FC_Timestamp chain_spec.

Definition parse_genesis_json (json_str : string) : comp string ChainSpec :=
  genesis ← ok_or (genesis_from_str json_str) "Failed to parse genesis JSON";
  value ← ok_or (json_from_str json_str) "Failed to parse genesis JSON as Value";
  let chain_spec := builder_genesis genesis (builder_chain (from_id (config_chain_id genesis)) builder) in
  let chain_spec := with_fork (Eth EthFrontier) (FC_Block 0) chain_spec in
  let chain_spec := with_fork (Eth EthHomestead) (FC_Block 0) chain_spec in
  let chain_spec := with_fork (Eth EthTangerine) (FC_Block 0) chain_spec in
  let chain_spec := with_fork (Eth EthSpuriousDragon) (FC_Block 0) chain_spec in
  let chain_spec := with_fork (Eth EthByzantium) (FC_Block 0) chain_spec in
  let chain_spec := with_fork (Eth EthConstantinople) (FC_Block 0) chain_spec in
  let chain_spec := with_fork (Eth EthPetersburg) (FC_Block 0) chain_spec in
  let chain_spec := with_fork (Eth EthIstanbul) (FC_Block 0) chain_spec in
  let chain_spec := with_fork (Eth EthMuirGlacier) (FC_Block 0) chain_spec in
  let chain_spec :=
    match json_get value "config" with
    | Some config => add_hardforks_to_chainspec chain_spec config
    | None => with_fork (Bsc Bohr) (FC_Block 0) chain_spec
    end in
  unwrap (build chain_spec).

(** The files of the machine: [None] when a path cannot be read. *)
Variables (path_exists : string → bool) (read_to_string : string → option string).

Definition parse_genesis_file (path : string) : comp string ChainSpec :=
  content ← ok_or (read_to_string path) "Failed to read genesis file";
  parse_genesis_json content.

(** The known chains ([bsc.rs], [bsc_chapel.rs], [bsc_rialto.rs], [local.rs]).
    [include_str]: the genesis files of the repository. *)
Variables (genesis_json genesis_chapel_json genesis_rialto_json genesis_local_json : string).
Variable make_genesis_header : Genesis → ChainHardforks → Header.
Variable hash_slow : Header → B256.

Definition RIALTO_CHAIN_ID : Z := 714.

Definition known_chain {E} (c : Chain) (json : string) (forks : ChainHardforks) (hash : Header → B256) : comp E ChainSpec :=
  g ← unwrap (genesis_from_str json);
  let header := make_genesis_header g forks in
  Ret {| chain := c; genesis := g; paris_block_and_final_difficulty := Some (0, 0); hardforks := forks;
         base_fee_params := (1, 1); prune_delete_limit := 3500; genesis_header := (header, hash header) |}.

Definition bsc_mainnet_spec {E} : comp E ChainSpec :=
  known_chain (from_named BinanceSmartChain) genesis_json (ChainHardforks_new bsc_mainnet)
    (λ _, 0x0d21840abff46b96c84b2ac9e10e4f5cdaeb5693cb665db62a2f3b02d2d57b5b).
Definition bsc_testnet_spec {E} : comp E ChainSpec :=
  known_chain (from_named BinanceSmartChainTestnet) genesis_chapel_json (ChainHardforks_new bsc_testnet)
    (λ _, 0x6d3c66c5357ec91d5c43af47e234a939b22557cbb552dc45bebbceeed90fbe34).
Definition bsc_qanet_spec {E} : comp E ChainSpec :=
  known_chain (from_id RIALTO_CHAIN_ID) genesis_rialto_json (ChainHardforks_new bsc_qanet)
    (λ _, 0x5b8930564626c76d8f30d4ec583166291a3d876122b48c84de3d33729ccb43ff).
Definition bsc_local_spec {E} : comp E ChainSpec :=
  known_chain (from_named BinanceSmartChain) genesis_local_json (ChainHardforks_new bsc_local) hash_slow.

Definition chain_value_parser (s : string) : comp string ChainSpec :=
  if String.eqb s "bsc" then bsc_mainnet_spec
  else if String.eqb s "bsc-testnet" then bsc_testnet_spec
  else if String.eqb s "bsc-qanet" then bsc_qanet_spec
  else if String.eqb s "local" then bsc_local_spec
  else if path_exists s then parse_genesis_file s
  else if String.prefix "{" s then parse_genesis_json s
  else Err "Unsupported chain or invalid genesis file".

End Parser.

(** ** Overrides and heads ([genesis_override.rs], [bootnode_override.rs],
       [mod.rs]) *)

Record Head := {
  head_number : Z; head_hash : B256; head_difficulty : Z; head_total_difficulty : Z; head_timestamp : Z;
}.
Definition Head_default : Head :=
  {| head_number := 0; head_hash := 0; head_difficulty := 0; head_total_difficulty := 0; head_timestamp := 0 |}.

Definition mainnet_head : Head :=
  {| head_number := 40000000; head_hash := head_hash Head_default; head_difficulty := head_difficulty Head_default;
     head_total_difficulty := head_total_difficulty Head_default; head_timestamp := 1751250600 |}.
Definition chapel_head : Head :=
  {| head_number := 57638970; head_hash := 0x74e802362fb536395ef7d9d82a87631d5fffaa584a891999d5e77b91bda33754;
     head_difficulty := 2; head_total_difficulty := 115030996; head_timestamp := 1752059605 |}.
Definition rialto_head : Head :=
  {| head_number := 1376256; head_hash := 0xd4d2ad3ff55bb663c0fcde91b99e5da1dad4aeb03b1605693650b2f2b0f2d88b;
     head_difficulty := 2; head_total_difficulty := 2746312; head_timestamp := 1756074108 |}.
Definition local_head : Head :=
  {| head_number := 0; head_hash := head_hash Head_default; head_difficulty := head_difficulty Head_default;
     head_total_difficulty := head_total_difficulty Head_default; head_timestamp := 1751250600 |}.

(** The two [OnceLock]s: [None] when not set yet. *)
Record Overrides (NodeRecord : Type) := {
  GENESIS_HASH_OVERRIDE : option (option B256);
  BOOTNODE_OVERRIDE : option (option (list NodeRecord));
}.
Arguments GENESIS_HASH_OVERRIDE {_}.
Arguments BOOTNODE_OVERRIDE {_}.
Arguments Build_Overrides {_}.

Section Overrides.
Context `{HA : HardforksApi} `{CA : ChainApi} `{GA : GenesisApi}.
Context {NodeRecord : Type}.
Notation Overrides := (Overrides NodeRecord).
(** [str::parse::<B256>]. *)
Variable parse_b256 : string → option B256.

(** The state of a function that fails is that of the globals all the same. *)
Definition set_genesis_hash_override (hash_str : option string) (o : Overrides) : (string + unit) * Overrides :=
  match match hash_str with
        | Some s => match parse_b256 s with Some h => inr (Some h) | None => inl "Invalid genesis hash format" end
        | None => inr None
        end with
  | inl e => (inl e, o)
  | inr hash =>
      match GENESIS_HASH_OVERRIDE o with
      | Some _ => (inl "Genesis hash override already set", o)
      | None => (inr tt, {| GENESIS_HASH_OVERRIDE := Some hash; BOOTNODE_OVERRIDE := BOOTNODE_OVERRIDE o |})
      end
  end.

Definition get_genesis_hash_override (o : Overrides) : option B256 := mjoin (GENESIS_HASH_OVERRIDE o).

Definition validate_genesis_hash (block_hash : B256) (o : Overrides) : bool :=
  match get_genesis_hash_override o with
  | Some expected_hash => block_hash =? expected_hash
  | None => true
  end.

Definition set_bootnode_override (bootnodes : option (list NodeRecord)) (o : Overrides) : (string + unit) * Overrides :=
  match BOOTNODE_OVERRIDE o with
  | Some _ => (inl "Bootnode override already set", o)
  | None => (inr tt, {| GENESIS_HASH_OVERRIDE := GENESIS_HASH_OVERRIDE o; BOOTNODE_OVERRIDE := Some bootnodes |})
  end.

Definition get_bootnode_override (o : Overrides) : option (list NodeRecord) :=
  match BOOTNODE_OVERRIDE o with Some nodes => nodes | None => None end.

Definition has_bootnode_override (o : Overrides) : bool :=
  match BOOTNODE_OVERRIDE o with Some (Some _) => true | _ => false end.

(** The boot nodes of the three networks ([node/network/bootnodes.rs]). *)
Variables (mainnet_nodes testnet_nodes qanet_nodes : list NodeRecord).
(** [ChainSpec::fork_id] of reth. *)
Context {ForkId : Type}.
Variable inner_fork_id : ChainSpec → Head → ForkId.

Definition genesis_hash (s : ChainSpec) (o : Overrides) : B256 :=
  match get_genesis_hash_override o with
  | Some override_hash => override_hash
  | None => (genesis_header s).2
  end.

Definition bootnodes (s : ChainSpec) (o : Overrides) : option (list NodeRecord) :=
  if has_bootnode_override o then get_bootnode_override o
  else match kind (chain s) with
       | Named BinanceSmartChain => Some mainnet_nodes
       | Named BinanceSmartChainTestnet => Some testnet_nodes
       | Id id => if id =? RIALTO_CHAIN_ID then Some qanet_nodes else None
       | _ => None
       end.

Definition head (s : ChainSpec) (o : Overrides) : Head :=
  let head :=
    match kind (chain s) with
    | Named BinanceSmartChain => mainnet_head
    | Named BinanceSmartChainTestnet => chapel_head
    | Id id => if id =? RIALTO_CHAIN_ID then rialto_head else local_head
    | _ => local_head
    end in
  match get_genesis_hash_override o with
  | Some override_hash =>
      {| head_number := head_number head; head_hash := override_hash; head_difficulty := head_difficulty head;
         head_total_difficulty := head_total_difficulty head; head_timestamp := head_timestamp head |}
  | None => head
  end.

Definition latest_fork_id (s : ChainSpec) (o : Overrides) : ForkId := inner_fork_id s (head s o).

End Overrides.

(** ** What a genesis file says *)

Section Parsed.
Context `{HL : HardforksLaws} `{CA : ChainApi} `{GA : GenesisApi} `{JA : JsonApi} {BA : BuilderApi}.
Context {FL : ForkConditionLaws H} {BL : BuilderLaws BA}.

(** The number under a key of the [config] object. *)
Definition json_number (config : Value) (key : string) : option Z := json_get config key ≫= json_as_u64.

Definition listed (config : Value) (key : string) (condition : Z → ForkCondition) : ForkCondition :=
  match json_number config key with Some n => condition n | None => FC_Never end.

(** The key under which a file lists a fork, as a table: it does not depend on
    the order in which the parser looks for them. *)
Definition bsc_condition (config : Value) (f : BscHardfork) : ForkCondition :=
  let at_block key := listed config key FC_Block in
  let at_time key := listed config key FC_Timestamp in
  match f with
  | Frontier => FC_Block 0
  | Ramanujan => at_block "ramanujanBlock" | Niels => at_block "nielsBlock"
  | MirrorSync => at_block "mirrorSyncBlock" | Bruno => at_block "brunoBlock"
  | Euler => at_block "eulerBlock" | Nano => at_block "nanoBlock"
  | Moran => at_block "moranBlock" | Gibbs => at_block "gibbsBlock"
  | Planck => at_block "planckBlock" | Luban => at_block "lubanBlock"
  | Plato => at_block "platoBlock" | Hertz => at_block "hertzBlock"
  | HertzFix => at_block "hertzfixBlock"
  | Kepler => at_time "keplerTime" | Feynman => at_time "feynmanTime"
  | FeynmanFix => at_time "feynmanFixTime" | Cancun => at_time "cancunTime"
  | Haber => at_time "haberTime" | HaberFix => at_time "haberFixTime"
  | Bohr => at_time "bohrTime" | Tycho => at_time "tychoTime"
  | Pascal => at_time "pascalTime" | Lorentz => at_time "lorentzTime"
  | Maxwell => at_time "maxwellTime" | Fermi => at_time "fermiTime"
  end.
Definition eth_condition (config : Value) (f : EthereumHardfork) : ForkCondition :=
  match f with
  | EthBerlin => listed config "berlinBlock" FC_Block
  | EthLondon => listed config "londonBlock" FC_Block
  | EthShanghai => listed config "shanghaiTime" FC_Timestamp
  | EthCancun => listed config "cancunTime" FC_Timestamp
  | EthPrague => listed config "pragueTime" FC_Timestamp
  | _ => FC_Block 0
  end.
Definition genesis_condition (config : Value) (f : AnyHardfork) : ForkCondition :=
  match f with Eth f => eth_condition config f | Bsc f => bsc_condition config f end.

Lemma set_fork_from_same config key f g condition b :
  fork_name f = fork_name g → set_fork b g = FC_Never ∨ set_fork b g = listed config key condition →
  set_fork (fork_from config key f condition b) g = listed config key condition.
Proof.
  intros Hfg Hb. unfold fork_from, listed, json_number in *. case_match; [by rewrite set_fork_with, decide_True|].
  by destruct Hb.
Qed.

Lemma set_fork_from_other config key f g condition b :
  fork_name f ≠ fork_name g → set_fork (fork_from config key f condition b) g = set_fork b g.
Proof.
  intros Hfg. unfold fork_from. case_match; [|done]. by rewrite set_fork_with, decide_False.
Qed.

Lemma fork_from_kept config key f condition b :
  set_chain (fork_from config key f condition b) = set_chain b
  ∧ set_genesis (fork_from config key f condition b) = set_genesis b.
Proof. unfold fork_from. by case_match; rewrite ?set_chain_with, ?set_genesis_with. Qed.

(** The forks that every parsed chain starts with. *)
Definition based (b : ChainSpecBuilder) : Prop :=
  ∀ f, set_fork b f = match f with
                      | Eth (EthBerlin | EthLondon | EthShanghai | EthCancun | EthPrague) => FC_Never
                      | Eth _ => FC_Block 0
                      | Bsc Frontier => FC_Block 0
                      | Bsc _ => FC_Never
                      end.

Lemma add_hardforks_spec b config f :
  based b → set_fork (add_hardforks_to_chainspec b config) f = genesis_condition config f.
Proof.
  intros Hb. unfold add_hardforks_to_chainspec. pose proof (Hb f) as Hf.
  destruct f as [[]|[]]; repeat (rewrite set_fork_from_other by done); try exact Hf;
    (apply set_fork_from_same; [done|]); repeat (rewrite set_fork_from_other by done);
    try (left; exact Hf); right;
    (apply set_fork_from_same; [done|]); repeat (rewrite set_fork_from_other by done); left; exact Hf.
Qed.

Lemma add_hardforks_kept b config :
  set_chain (add_hardforks_to_chainspec b config) = set_chain b
  ∧ set_genesis (add_hardforks_to_chainspec b config) = set_genesis b.
Proof.
  unfold add_hardforks_to_chainspec. by rewrite !(proj1 (fork_from_kept _ _ _ _ _)), !(proj2 (fork_from_kept _ _ _ _ _)).
Qed.

(** The builder after the forks that are not read from the file. *)
Definition base_builder (g : Genesis) : ChainSpecBuilder :=
  with_fork (Eth EthMuirGlacier) (FC_Block 0)
  (with_fork (Eth EthIstanbul) (FC_Block 0)
  (with_fork (Eth EthPetersburg) (FC_Block 0)
  (with_fork (Eth EthConstantinople) (FC_Block 0)
  (with_fork (Eth EthByzantium) (FC_Block 0)
  (with_fork (Eth EthSpuriousDragon) (FC_Block 0)
  (with_fork (Eth EthTangerine) (FC_Block 0)
  (with_fork (Eth EthHomestead) (FC_Block 0)
  (with_fork (Eth EthFrontier) (FC_Block 0)
  (builder_genesis g (builder_chain (from_id (config_chain_id g)) builder)))))))))).

Lemma base_builder_based g : based (base_builder g).
Proof.
  intros f. unfold base_builder. rewrite !set_fork_with, set_fork_genesis, set_fork_chain, set_fork_builder.
  by destruct f as [[]|[]].
Qed.

Lemma base_builder_set g :
  set_chain (base_builder g) = Some (from_id (config_chain_id g)) ∧ set_genesis (base_builder g) = Some g.
Proof.
  unfold base_builder. rewrite !set_chain_with, !set_genesis_with, set_chain_genesis, set_genesis_genesis.
  by rewrite set_chain_chain.
Qed.

(** Parsing ends with the builder's [build], which finds its chain and genesis. *)
Lemma parse_genesis_spec json g v :
  genesis_from_str json = Some g → json_from_str json = Some v →
  ∃ s, parse_genesis_json json = Ret s ∧ chain s = from_id (config_chain_id g) ∧ genesis s = g
     ∧ ∀ f, fork (hardforks s) f =
            match json_get v "config" with
            | Some config => genesis_condition config f
            | None => if decide (fork_name (Bsc Bohr) = fork_name f) then FC_Block 0 else set_fork (base_builder g) f
            end.
Proof.
  intros Hg Hv. unfold parse_genesis_json. rewrite Hg, Hv. cbn.
  fold (base_builder g). destruct (base_builder_set g) as [Hc Hgs].
  destruct (json_get v "config") as [config|].
  - destruct (add_hardforks_kept (base_builder g) config) as [Hc' Hg'].
    destruct (build_set (add_hardforks_to_chainspec (base_builder g) config) (from_id (config_chain_id g)) g)
      as (s & -> & ? & ? & Hf); [congruence..|].
    exists s. split_and!; try done. intros f. rewrite Hf. apply add_hardforks_spec, base_builder_based.
  - destruct (build_set (with_fork (Bsc Bohr) (FC_Block 0) (base_builder g)) (from_id (config_chain_id g)) g)
      as (s & -> & ? & ? & Hf); [by rewrite ?set_chain_with, ?set_genesis_with..|].
    exists s. split_and!; try done. intros f. by rewrite Hf, set_fork_with.
Qed.

(** A number under a key that has been reached. *)
Definition reached (config : Value) (key : string) (now : Z) : bool :=
  match json_number config key with Some n => n <=? now | None => false end.

Lemma listed_block config key n : active_at_block (listed config key FC_Block) n = reached config key n.
Proof. unfold listed, reached. case_match; [apply active_at_block_Block|apply active_at_block_Never]. Qed.
Lemma listed_timestamp config key t :
  active_at_timestamp (listed config key FC_Timestamp) t = reached config key t.
Proof. unfold listed, reached. case_match; [apply active_at_timestamp_Timestamp|apply active_at_timestamp_Never]. Qed.

(** The predicates of the trait [BscHardforks] with the keys of a file. *)
Definition block_predicates (self : BscChainSpec) : list ((Z → bool) * string) := [
  (is_ramanujan_active_at_block self, "ramanujanBlock"); (is_niels_active_at_block self, "nielsBlock");
  (is_mirror_sync_active_at_block self, "mirrorSyncBlock"); (is_bruno_active_at_block self, "brunoBlock");
  (is_euler_active_at_block self, "eulerBlock"); (is_nano_active_at_block self, "nanoBlock");
  (is_moran_active_at_block self, "moranBlock"); (is_gibbs_active_at_block self, "gibbsBlock");
  (is_planck_active_at_block self, "planckBlock"); (is_luban_active_at_block self, "lubanBlock");
  (is_plato_active_at_block self, "platoBlock"); (is_hertz_active_at_block self, "hertzBlock");
  (is_hertz_fix_active_at_block self, "hertzfixBlock"); (is_london_active_at_block self, "londonBlock")].
Definition time_predicates (self : BscChainSpec) : list ((Z → Z → bool) * string) := [
  (is_kepler_active_at_timestamp self, "keplerTime"); (is_feynman_active_at_timestamp self, "feynmanTime");
  (is_feynman_fix_active_at_timestamp self, "feynmanFixTime"); (is_cancun_active_at_timestamp self, "cancunTime");
  (is_haber_active_at_timestamp self, "haberTime"); (is_haber_fix_active_at_timestamp self, "haberFixTime");
  (is_bohr_active_at_timestamp self, "bohrTime"); (is_tycho_active_at_timestamp self, "tychoTime");
  (is_prague_active_at_block_and_timestamp self, "pragueTime"); (is_pascal_active_at_timestamp self, "pascalTime");
  (is_lorentz_active_at_timestamp self, "lorentzTime"); (is_maxwell_active_at_timestamp self, "maxwellTime");
  (is_fermi_active_at_timestamp self, "fermiTime")].

(** C38. A genesis file that both decoders read is parsed, without a panic, into
    a chain with the file's chain id on which every BSC fork is active exactly
    from the block or the time that the file lists for it (the forks by time
    once London is active too), and never when the file does not list it. *)
Theorem genesis_file_activates {CL : ChainLaws CA} json g v config :
  genesis_from_str json = Some g → json_from_str json = Some v → json_get v "config" = Some config →
  ∃ s, parse_genesis_json json = Ret s ∧ chain_id (chain s) = config_chain_id g ∧ genesis s = g
  ∧ Forall (λ p, ∀ n, p.1 n = reached config p.2 n) (block_predicates (bsc_spec_of s))
  ∧ Forall (λ p, ∀ n t, p.1 n t = reached config "londonBlock" n && reached config p.2 t)
      (time_predicates (bsc_spec_of s)).
Proof.
  intros Hg Hv Hc. destruct (parse_genesis_spec json g v Hg Hv) as (s & Hs & Hch & Hge & Hf).
  rewrite Hc in Hf. exists s. split_and!; try done; [by rewrite Hch, chain_id_from_id|..].
  - repeat constructor; intros n; cbn; rewrite <- listed_block; unfold is_ramanujan_active_at_block,
      is_niels_active_at_block, is_mirror_sync_active_at_block, is_bruno_active_at_block, is_euler_active_at_block,
      is_nano_active_at_block, is_moran_active_at_block, is_gibbs_active_at_block, is_planck_active_at_block,
      is_luban_active_at_block, is_plato_active_at_block, is_hertz_active_at_block, is_hertz_fix_active_at_block;
      cbn; by rewrite Hf.
  - repeat constructor; intros n t; cbn; rewrite <- listed_block, <- listed_timestamp;
      unfold is_kepler_active_at_timestamp, is_feynman_active_at_timestamp, is_feynman_fix_active_at_timestamp,
        is_cancun_active_at_timestamp, is_haber_active_at_timestamp, is_haber_fix_active_at_timestamp,
        is_bohr_active_at_timestamp, is_tycho_active_at_timestamp, is_prague_active_at_block_and_timestamp,
        is_pascal_active_at_timestamp, is_lorentz_active_at_timestamp, is_maxwell_active_at_timestamp,
        is_fermi_active_at_timestamp; cbn; by rewrite !Hf.
Qed.

(** A text without a [config] is given Bohr at block 0, for development as the
    source says; but Bohr is asked for by time, and only after London: such a
    chain never has a BSC fork. *)
Theorem no_config_no_bohr json g v s :
  genesis_from_str json = Some g → json_from_str json = Some v → json_get v "config" = None →
  parse_genesis_json json = Ret s →
  Forall (λ p, ∀ n t, p.1 n t = false) (time_predicates (bsc_spec_of s)).
Proof.
  intros Hg Hv Hc Hs. destruct (parse_genesis_spec json g v Hg Hv) as (s' & Hs' & _ & _ & Hf).
  rewrite Hs in Hs'. injection Hs' as <-. rewrite Hc in Hf.
  assert (Hl : ∀ n, is_london_active_at_block (bsc_spec_of s) n = false).
  { intros n. cbn. rewrite Hf, decide_False by done. rewrite base_builder_based. apply active_at_block_Never. }
  repeat constructor; intros n t; apply andb_false_intro1, Hl.
Qed.

End Parsed.

(** ** The known chains and the overrides *)

Section Known.
Context `{HL : HardforksLaws} `{CA : ChainApi} `{GA : GenesisApi} {CL : ChainLaws CA}.
Context {FL : ForkConditionLaws H}.
Variables (genesis_json genesis_local_json : string).
Variable make_genesis_header : Genesis → ChainHardforks → Header.
Variable hash_slow : Header → B256.
Context {NodeRecord : Type}.
Variables (mainnet_nodes testnet_nodes qanet_nodes : list NodeRecord).
Variable parse_b256 : string → option B256.

(** The local chain has the identity of the main network: its chain id, its
    boot nodes and its head, whatever its genesis file says. *)
Theorem local_chain_is_mainnet local main o :
  bsc_local_spec (E:=string) genesis_local_json make_genesis_header hash_slow = Ret local →
  bsc_mainnet_spec (E:=string) genesis_json make_genesis_header = Ret main →
  chain_id (chain local) = 56
  ∧ bootnodes mainnet_nodes testnet_nodes qanet_nodes local o = bootnodes mainnet_nodes testnet_nodes qanet_nodes main o
  ∧ head local o = head main o.
Proof.
  unfold bsc_local_spec, bsc_mainnet_spec, known_chain. intros Hl Hm.
  destruct (genesis_from_str genesis_local_json) as [gl|]; [|done].
  destruct (genesis_from_str genesis_json) as [gm|]; [|done].
  cbn in Hl, Hm. apply (f_equal (λ c, match c with Ret a => Some a | _ => None end)) in Hl, Hm.
  cbn in Hl, Hm. apply Some_inj in Hl as <-. apply Some_inj in Hm as <-.
  split_and!; [apply chain_id_mainnet|reflexivity|reflexivity].
Qed.

(** The specification of the main network with a given genesis. *)
Definition mainnet_of (g : Genesis) : ChainSpec :=
  let header := make_genesis_header g (ChainHardforks_new bsc_mainnet) in
  {| chain := from_named BinanceSmartChain; genesis := g; paris_block_and_final_difficulty := Some (0, 0);
     hardforks := ChainHardforks_new bsc_mainnet; base_fee_params := (1, 1); prune_delete_limit := 3500;
     genesis_header := (header, 0x0d21840abff46b96c84b2ac9e10e4f5cdaeb5693cb665db62a2f3b02d2d57b5b) |}.

(** The head behind [latest_fork_id] lies before the last fork of the table of
    the main network, so what the node announces is not its latest fork. *)
Theorem mainnet_head_before_fermi main (o : Overrides NodeRecord) :
  bsc_mainnet_spec (E:=string) genesis_json make_genesis_header = Ret main →
  is_fermi_active_at_timestamp (bsc_spec_of main) (head_number (head main o)) (head_timestamp (head main o)) = false
  ∧ is_maxwell_active_at_timestamp (bsc_spec_of main) (head_number (head main o)) (head_timestamp (head main o)) = true.
Proof.
  unfold bsc_mainnet_spec, known_chain. intros Hm.
  destruct (genesis_from_str genesis_json) as [gm|]; [|done].
  cbn in Hm. apply (f_equal (λ c, match c with Ret a => Some a | _ => None end)) in Hm.
  cbn in Hm. apply Some_inj in Hm as <-.
  assert (Hh : head_number (head (mainnet_of gm) o) = 40000000 ∧ head_timestamp (head (mainnet_of gm) o) = 1751250600).
  { unfold head, mainnet_of. cbn [chain]. rewrite kind_from_named. by destruct (get_genesis_hash_override o). }
  destruct Hh as [Hn Ht]. fold (mainnet_of gm). rewrite Hn, Ht. change (bsc_spec_of (mainnet_of gm)) with mainnet_spec.
  unfold is_fermi_active_at_timestamp, is_maxwell_active_at_timestamp. rewrite (proj1 chains_of_tables).
  rewrite !transfer_london, !transfer_at_timestamp. split; reflexivity.
Qed.

(** The override of the genesis hash is set at most once: after a first success
    it is what every reader sees, no later call changes it, and a later call
    fails.  A text that is not a hash sets nothing. *)
Theorem genesis_override_once s (o o' : Overrides NodeRecord) :
  set_genesis_hash_override parse_b256 s o = (inr tt, o') →
  GENESIS_HASH_OVERRIDE o = None
  ∧ get_genesis_hash_override o' = s ≫= parse_b256
  ∧ (∀ s' r o'', set_genesis_hash_override parse_b256 s' o' = (r, o'') → (∃ e, r = inl e) ∧ o'' = o')
  ∧ ∀ chain, genesis_hash chain o' = default (genesis_hash chain o) (s ≫= parse_b256).
Proof.
  intros Hset. assert (Hs : match s with Some x => is_Some (parse_b256 x) | None => True end ∧ GENESIS_HASH_OVERRIDE o = None
      ∧ o' = {| GENESIS_HASH_OVERRIDE := Some (s ≫= parse_b256); BOOTNODE_OVERRIDE := BOOTNODE_OVERRIDE o |}).
  { unfold set_genesis_hash_override in Hset. destruct s as [x|]; cbn.
    - destruct (parse_b256 x) as [h|]; [|done]. destruct (GENESIS_HASH_OVERRIDE o); [done|].
      by injection Hset as <-.
    - destruct (GENESIS_HASH_OVERRIDE o); [done|]. by injection Hset as <-. }
  destruct Hs as (_ & Ho & ->). split_and!; try done.
  - intros s' r o'' H2. unfold set_genesis_hash_override in H2. cbn in H2.
    destruct s' as [x|]; [destruct (parse_b256 x)|]; injection H2 as <- <-; eauto.
  - intros c. unfold genesis_hash, get_genesis_hash_override. rewrite Ho. cbn. by destruct (s ≫= parse_b256).
Qed.

End Known.

(** ** Concrete libraries and examples *)

Module RefChain.

Import RefJson.

Inductive ref_chain := RNamed (c : NamedChain) | RId (id : Z).
Definition ref_kind (c : ref_chain) : ChainKind :=
  match c with
  | RNamed c => Named c
  | RId id => if id =? 56 then Named BinanceSmartChain else if id =? 97 then Named BinanceSmartChainTestnet else Id id
  end.
Definition ref_chain_id (c : ref_chain) : Z :=
  match c with
  | RNamed BinanceSmartChain => 56 | RNamed BinanceSmartChainTestnet => 97 | RNamed (OtherNamedChain id) => id
  | RId id => id
  end.
#[export] Instance chain_api : ChainApi := {|
  Chain := ref_chain; from_named := RNamed; from_id := RId; kind := ref_kind; chain_id := ref_chain_id |}.
#[export] Instance chain_laws : ChainLaws chain_api.
Proof. by split. Qed.

(** A file that lists some forks, and one without [config]. *)
Definition example_text : string := "{config: ..}".
Definition example_config : json := JObject [("chainId", JNumber 714); ("lubanBlock", JNumber 6); ("londonBlock", JNumber 8);
  ("bohrTime", JNumber 1000); ("fermiTime", JString "soon")].
#[export] Instance json_api : JsonApi :=
  ref_json (λ s, Some (if String.eqb s example_text then JObject [("config", example_config)] else JObject [])).
#[export] Instance genesis_api : GenesisApi := {|
  Genesis := Z; genesis_from_str s := Some (if String.eqb s example_text then 714 else 1); config_chain_id g := g |}.

Import RefHardforks.
Record ref_builder := { rb_chain : option ref_chain; rb_genesis : option Z; rb_forks : list (AnyHardfork * fc) }.
#[export] Instance builder_api : BuilderApi := {|
  ChainSpecBuilder := ref_builder;
  builder := Build_ref_builder None None [];
  builder_chain c b := Build_ref_builder (Some c) (rb_genesis b) (rb_forks b);
  builder_genesis g b := Build_ref_builder (rb_chain b) (Some g) (rb_forks b);
  with_fork f c b := Build_ref_builder (rb_chain b) (rb_genesis b) (rb_forks b ++ [(f, c)]);
  build b := match rb_chain b, rb_genesis b with
             | Some c, Some g =>
                 Some (Build_ChainSpec (HA:=hardforks_api) c g None (rb_forks b) (8, 2) 20000 (test_header 0 0 0, 0))
             | _, _ => None
             end;
  set_chain := rb_chain; set_genesis := rb_genesis; set_fork b f := assoc (rb_forks b) f;
|}.
#[export] Instance builder_laws : BuilderLaws builder_api.
Proof.
  split; try done; [intros f c [ch g l] h; apply assoc_snoc|]. intros [c g l] c' g'. simpl. intros -> ->. by eexists.
Qed.

Definition example_forks : comp string bool :=
  s ← parse_genesis_json example_text;
  let self := bsc_spec_of s in
  Ret (is_luban_active_at_block self 6 && negb (is_luban_active_at_block self 5)
       && is_bohr_active_at_timestamp self 8 1000 && negb (is_bohr_active_at_timestamp self 7 1000)
       && negb (is_fermi_active_at_timestamp self 100 2000000)).
Example example_parsed : example_forks = Ret true.
Proof. reflexivity. Qed.

Lemma genesis_file_activates_witness :
  ∃ s : @ChainSpec _ hardforks_api chain_api genesis_api, parse_genesis_json example_text = Ret s ∧ chain_id (chain s) = 714 ∧ genesis s = 714
  ∧ Forall (λ p, ∀ n, p.1 n = reached example_config p.2 n) (block_predicates (bsc_spec_of s))
  ∧ Forall (λ p, ∀ n t, p.1 n t = reached example_config "londonBlock" n && reached example_config p.2 t)
      (time_predicates (bsc_spec_of s)).
Proof.
  apply (genesis_file_activates (GA:=genesis_api) (JA:=json_api) (BA:=builder_api) example_text 714 (JObject [("config", example_config)]) example_config);
    reflexivity.
Defined.

Example no_config_no_bohr_example :
  (s ← parse_genesis_json "{}"; Ret (is_bohr_active_at_timestamp (bsc_spec_of s) 5 5)) = Ret (E:=string) false.
Proof. reflexivity. Qed.

End RefChain.
