(* ===== verification/ParliaRpc.v ===== *)
(** * The [parlia] namespace ([src/rpc/parlia.rs])

    The methods that report snapshots, validators, justified and finalized
    blocks, the parsing of the block they ask for, and the calls of the stake
    hub.  Requests and answers are strings of ASCII; the chain, the snapshots
    and the hexadecimal codec are parameters. *)

From Stdlib Require Import Ascii String.
From S2P Require Import Prelude Hardforks Types Snapshot SystemContracts Strings.
#[local] Open Scope string_scope.
#[local] Open Scope Z_scope.

(** ** Errors and libraries *)

(** The [ErrorObject]s of the file. *)
Inductive RpcError :=
| FailedToGetLatestBlock
| FailedToGetHeader
| InvalidBlockNumber (block : string)
| InvalidBlockHash
| HeaderNotFound
| NoSnapshotFound
| NoSnapshotFoundForBlock
| InvalidNodeId
| NodeIdLength.
Definition error_code (e : RpcError) : Z :=
  match e with FailedToGetLatestBlock | FailedToGetHeader => -32603 | _ => -32602 end.

(** ** Answers *)

Record RpcValidatorInfo := { index : Z; vote_address : list Z }.

(** The JSON object of the attestation. *)
Record AttestationJson := {
  sourceNumber : Z; sourceHash : string; targetNumber : Z; targetHash : string;
}.

Record SnapshotResult := {
  sr_number : Z;
  sr_hash : string;
  sr_epoch_length : Z;
  sr_block_interval : Z;
  sr_turn_length : Z;
  sr_validators : gmap string RpcValidatorInfo;
  sr_recents : gmap string string;
  sr_recent_fork_hashes : gmap string string;
  sr_attestation : option AttestationJson;
}.

(** [collect] into a [HashMap]: of entries with one key the last stays. *)
Definition collect_map {A} (l : list (string * A)) : gmap string A :=
  fold_left (λ m '(k, v), <[k := v]> m) l ∅.

(** [format!("0x{addr:040x}")] and [format!("0x{:064x}", hash)]. *)
Definition address_string (a : Address) : string := format_0x_fixed 40 a.
Definition hash_string (h : B256) : string := format_0x_fixed 64 h.

Definition reported_info (snapshot : Snapshot) (addr : Address) : RpcValidatorInfo :=
  let validator_info := default {| v_index := 0; vote_addr := 0 |} (validators_map snapshot !! addr) in
  {| index := v_index validator_info; vote_address := be_encode 48 (vote_addr validator_info) |}.

(** [impl From<Snapshot> for SnapshotResult] *)
Definition snapshot_result (snapshot : Snapshot) : SnapshotResult := {|
  sr_number := block_number snapshot;
  sr_hash := hash_string (block_hash snapshot);
  sr_epoch_length := epoch_num snapshot;
  sr_block_interval := block_interval snapshot;
  sr_turn_length := default 1 (turn_length snapshot);
  sr_validators := collect_map ((λ addr, (address_string addr, reported_info snapshot addr)) <$> validators snapshot);
  sr_recents := collect_map ((λ '(n, addr), (to_string n, address_string addr)) <$> map_to_list (recent_proposers snapshot));
  sr_recent_fork_hashes := collect_map ((λ '(n, _), (to_string n, "00000000")) <$> map_to_list (recent_proposers snapshot));
  sr_attestation :=
    if 0 <? target_number (vote_data snapshot) then
      Some {| sourceNumber := source_number (vote_data snapshot); sourceHash := hash_string (source_hash (vote_data snapshot));
              targetNumber := target_number (vote_data snapshot); targetHash := hash_string (target_hash (vote_data snapshot)) |}
    else None;
|}.

Record ContractCall := { to_field : string; data_field : string }.

(** ** The methods *)

Section Api.
Context `{SL : Sealable} `{HX : HexApi} `{DA : DynAbi}.
(** [BlockNumReader] and [HeaderProvider]: [None] for an error of the
    database; and the provider of snapshots. *)
Variables (best_block_number : option Z) (block_number_of : B256 → option (option Z)).
Variable header_by_number : Z → option (option Header).
Variable snapshot_by_hash : B256 → option Snapshot.
Notation rpc := (comp RpcError).

(** The last attempt: a hash of 32 bytes in hexadecimal. *)
Definition block_of_hash_string (block_str : string) : option Z :=
  if (String.length block_str =? 66)%nat || ((String.length block_str =? 64)%nat && negb (has_0x block_str)) then
    match hex_decode (strip_0x block_str) with
    | Some hash_bytes =>
        if zlen hash_bytes =? 32
        then match block_number_of (be_decode hash_bytes) with Some (Some n) => Some n | _ => None end
        else None
    | None => None
    end
  else None.

Definition parse_block_number (block_str : string) : rpc Z :=
  if String.eqb block_str "latest" then ok_or best_block_number FailedToGetLatestBlock
  else if String.eqb block_str "earliest" then Ret 0
  else if String.eqb block_str "safe" || String.eqb block_str "finalized"
  then ok_or best_block_number FailedToGetLatestBlock
  else
    match (if has_0x block_str then from_str_radix 16 64 (strip_0x block_str) else None) with
    | Some num => Ret num
    | None =>
        match parse_uint 64 block_str with
        | Some num => Ret num
        | None => ok_or (block_of_hash_string block_str) (InvalidBlockNumber block_str)
        end
    end.

Definition get_snapshot (block : string) : rpc (option SnapshotResult) :=
  n ← parse_block_number block;
  header ← ok_or (header_by_number n) FailedToGetHeader;
  match header with
  | None => Ret None
  | Some header => Ret (snapshot_result <$> snapshot_by_hash (hash_slow header))
  end.

Definition get_snapshot_at_hash (block_hash : string) : rpc (option SnapshotResult) :=
  block_hash ← ok_or (b256_from_str block_hash) InvalidBlockHash;
  Ret (snapshot_result <$> snapshot_by_hash block_hash).

Definition get_validators (block : string) : rpc (list string) :=
  n ← parse_block_number block;
  header ← ok_or (header_by_number n) FailedToGetHeader;
  header ← ok_or header HeaderNotFound;
  snapshot ← ok_or (snapshot_by_hash (hash_slow header)) NoSnapshotFound;
  Ret (address_string <$> validators snapshot).

Definition get_validators_at_hash (block_hash : string) : rpc (list string) :=
  block_hash ← ok_or (b256_from_str block_hash) InvalidBlockHash;
  snapshot ← ok_or (snapshot_by_hash block_hash) NoSnapshotFound;
  Ret (address_string <$> validators snapshot).

(** What [get_justified_number] and [get_finalized_number] begin with. *)
Definition snapshot_of_block (block : string) : rpc Snapshot :=
  n ← parse_block_number block;
  header ← ok_or (header_by_number n) FailedToGetHeader;
  header ← ok_or header HeaderNotFound;
  ok_or (snapshot_by_hash (hash_slow header)) NoSnapshotFoundForBlock.

Definition get_justified_number (block : string) : rpc Z :=
  snapshot ← snapshot_of_block block;
  Ret (target_number (vote_data snapshot)).

Definition get_finalized_number (block : string) : rpc Z :=
  snapshot ← snapshot_of_block block;
  Ret (Snapshot.get_finalized_number snapshot).

Definition parse_node_id (s : string) : rpc (list Z) :=
  bytes ← ok_or (const_hex_decode (strip_0x s)) InvalidNodeId;
  if negb (zlen bytes =? 32) then Err NodeIdLength else Ret bytes.
Definition parse_node_ids (input : list string) : rpc (list (list Z)) := mapM parse_node_id input.

Definition contract_call (call : Address * list Z) : ContractCall :=
  {| to_field := format_0x_fixed 40 call.1; data_field := "0x" +:+ hex_encode call.2 |}.

Definition build_add_node_ids_call (node_ids : list string) : rpc ContractCall :=
  ids ← parse_node_ids node_ids;
  Ret (contract_call (encode_add_node_ids_call ids)).
Definition build_remove_node_ids_call (node_ids : list string) : rpc ContractCall :=
  ids ← parse_node_ids node_ids;
  Ret (contract_call (encode_remove_node_ids_call ids)).

End Api.

(** ** Maps with printed keys *)

Lemma collect_map_app {A} (l : list (string * A)) k v : collect_map (l ++ [(k, v)]) = <[k := v]> (collect_map l).
Proof. unfold collect_map. by rewrite fold_left_app. Qed.

(** Keys that are printed injectively lose no entry and get no other. *)
Lemma collect_printed {K A} (print : K → string) (f : K → A) (l : list K) :
  (∀ x y, x ∈ l → y ∈ l → print x = print y → x = y) →
  ∀ k, collect_map ((λ x, (print x, f x)) <$> l) !! k
       = (λ p, f p.2) <$> list_find (λ x, print x = k) l.
Proof.
  intros Hinj k. induction l as [|x l IH] using rev_ind; [done|].
  rewrite fmap_app. cbn. rewrite collect_map_app.
  assert (Hl : ∀ a b, a ∈ l → b ∈ l → print a = print b → a = b) by (intros; apply Hinj; set_solver).
  destruct (decide (print x = k)) as [<-|Hne].
  - rewrite lookup_insert_eq. destruct (list_find (λ y, print y = print x) l) as [[i y]|] eqn:Hf.
    + rewrite (list_find_app_l _ _ _ _ _ Hf). cbn. f_equal. f_equal.
      apply list_find_Some in Hf as (Hi & Hy & _). symmetry. apply Hinj; [| |done].
      * apply elem_of_app. left. by eapply list_elem_of_lookup_2.
      * apply elem_of_app. right. set_solver.
    + rewrite list_find_app_r by done. cbn. by rewrite decide_True.
  - rewrite lookup_insert_ne, IH by done.
    destruct (list_find (λ y, print y = k) l) as [[i y]|] eqn:Hf.
    + by rewrite (list_find_app_l _ _ _ _ _ Hf).
    + rewrite list_find_app_r by done. cbn. by rewrite decide_False.
Qed.

Lemma collect_printed_in {K A} (print : K → string) (f : K → A) (l : list K) x :
  (∀ x y, x ∈ l → y ∈ l → print x = print y → x = y) →
  x ∈ l → collect_map ((λ x, (print x, f x)) <$> l) !! print x = Some (f x).
Proof.
  intros Hinj Hx. rewrite collect_printed by done.
  destruct (list_find_elem_of (λ y, print y = print x) l x Hx eq_refl) as [[i y] Hf].
  rewrite Hf. cbn. do 2 f_equal. apply list_find_Some in Hf as (Hi & Hy & _).
  apply Hinj; [by eapply list_elem_of_lookup_2|done|done].
Qed.

Lemma collect_printed_inv {K A} (print : K → string) (f : K → A) (l : list K) k v :
  (∀ x y, x ∈ l → y ∈ l → print x = print y → x = y) →
  collect_map ((λ x, (print x, f x)) <$> l) !! k = Some v → ∃ x, x ∈ l ∧ k = print x ∧ v = f x.
Proof.
  intros Hinj. rewrite collect_printed by done.
  destruct (list_find (λ y, print y = k) l) as [[i y]|] eqn:Hf; [|done]. cbn. intros [= <-].
  apply list_find_Some in Hf as (Hi & Hy & _). exists y. split; [by eapply list_elem_of_lookup_2|done].
Qed.

(** ** Queries *)

Section Queries.
Context `{SL : Sealable} `{HX : HexApi} {HL : HexLaws HX} `{DA : DynAbi}.
Variables (best_block_number : option Z) (block_number_of : B256 → option (option Z)).
Variable header_by_number : Z → option (option Header).
Variable snapshot_by_hash : B256 → option Snapshot.
Notation parse_block_number := (parse_block_number best_block_number block_number_of).
Notation get_snapshot := (get_snapshot best_block_number block_number_of header_by_number snapshot_by_hash).
Notation get_validators := (get_validators best_block_number block_number_of header_by_number snapshot_by_hash).
Notation get_justified_number := (get_justified_number best_block_number block_number_of header_by_number snapshot_by_hash).
Notation get_finalized_number := (get_finalized_number best_block_number block_number_of header_by_number snapshot_by_hash).

Lemma parse_hex_number n : is_u 64 n → parse_block_number (format_0x n) = Ret n.
Proof.
  intros Hn. unfold ParliaRpc.parse_block_number. rewrite format_0x_cons. cbn.
  by rewrite format_radix_roundtrip by (unfold is_u in Hn; lia).
Qed.

(** A numeral is none of the tags and has no prefix. *)
Lemma parse_decimal_number n : is_u 64 n → parse_block_number (to_string n) = Ret n.
Proof.
  intros Hn. pose proof (parse_to_string 64 n Hn) as Hp. unfold ParliaRpc.parse_block_number.
  destruct (String.eqb_spec (to_string n) "latest") as [Heq|_]; [by rewrite Heq in Hp|].
  destruct (String.eqb_spec (to_string n) "earliest") as [Heq|_]; [by rewrite Heq in Hp|].
  destruct (String.eqb_spec (to_string n) "safe") as [Heq|_]; [by rewrite Heq in Hp|].
  destruct (String.eqb_spec (to_string n) "finalized") as [Heq|_]; [by rewrite Heq in Hp|]. cbn [orb].
  destruct (has_0x (to_string n)) eqn:H0; [|by rewrite Hp].
  by rewrite (has_0x_inv _ H0) in Hp.
Qed.

Lemma strip_0x_hash h : strip_0x (hash_string h) = fixed_digits 16 (2 * 32) h "".
Proof. done. Qed.

(** A block hash that does not fit in 64 bits finds its block. *)
Lemma parse_hash h n : 2 ^ 64 <= h < 2 ^ 256 → block_number_of h = Some (Some n) →
  parse_block_number (hash_string h) = Ret n.
Proof.
  intros Hh Hn. unfold ParliaRpc.parse_block_number.
  assert (Hf : from_str_radix 16 64 (strip_0x (hash_string h)) = None).
  { rewrite strip_0x_hash. destruct (fixed_digits_head 16 ltac:(lia) 63 h "") as (d & s & Hd & Heq).
    change (2 * 32)%nat with 64%nat. rewrite Heq, from_str_radix_digit by (by apply (digit_checked 16)).
    rewrite <- Heq. apply parse_fixed_overflow; [lia..|].
    rewrite Z.mul_0_l, Z.add_0_l, Z.mod_small by lia. lia. }
  assert (Hl : String.length (hash_string h) = 66%nat).
  { unfold hash_string. rewrite format_0x_fixed_cons. cbn [String.length]. by rewrite length_fixed_digits. }
  rewrite (eq_refl : has_0x (hash_string h) = true), Hf. unfold block_of_hash_string.
  rewrite Hl, strip_0x_hash, hex_decode_digits. cbn [Nat.eqb orb].
  rewrite zlen_be_encode, be_decode_encode, Z.mod_small by lia. by rewrite Hn.
Qed.

(** A block hash that fits in 64 bits is taken for a number. *)
Lemma parse_small_hash h : is_u 64 h → parse_block_number (hash_string h) = Ret h.
Proof.
  intros Hh. unfold ParliaRpc.parse_block_number. rewrite (eq_refl : has_0x (hash_string h) = true), strip_0x_hash.
  unfold is_u in Hh. change (2 * 32)%nat with 64%nat. by rewrite (parse_fixed 16 ltac:(lia) 64 63 h) by lia.
Qed.

(** What a snapshot of the chain satisfies: its parts have the widths of their
    types. *)
Record reportable (s : Snapshot) : Prop := {
  rp_wf : snapshot_wf s;
  rp_addresses v : v ∈ validators s ∨ (∃ m, recent_proposers s !! m = Some v) → is_u 160 v;
  rp_recents n v : recent_proposers s !! n = Some v → is_u 64 n;
  rp_hashes : is_u 256 (block_hash s) ∧ is_u 256 (source_hash (vote_data s)) ∧ is_u 256 (target_hash (vote_data s));
}.

(** An answer that has all of a snapshot: its hashes and addresses are read back
    from the texts, its validators and recent proposers are exactly those of the
    snapshot, the attestation is there when the snapshot has one, and the turn
    length is 1 when the snapshot has none.  The fork hashes are not known. *)
Record reported (s : Snapshot) (r : SnapshotResult) : Prop := {
  rd_block : sr_number r = block_number s ∧ b256_from_str (sr_hash r) = Some (block_hash s);
  rd_parameters : sr_epoch_length r = epoch_num s ∧ sr_block_interval r = block_interval s
    ∧ sr_turn_length r = default 1 (turn_length s);
  rd_validator i v : validators s !! i = Some v → ∃ a,
    validators_map s !! v = Some {| v_index := Z.of_nat i + 1; vote_addr := a |}
    ∧ sr_validators r !! address_string v = Some {| index := Z.of_nat i + 1; vote_address := be_encode 48 a |};
  rd_validators k info : sr_validators r !! k = Some info → ∃ v, v ∈ validators s ∧ k = address_string v;
  rd_addresses v : v ∈ validators s ∨ (∃ m, recent_proposers s !! m = Some v) →
    from_str_radix 16 160 (strip_0x (address_string v)) = Some v;
  rd_recent m : is_u 64 m → sr_recents r !! to_string m = address_string <$> recent_proposers s !! m;
  rd_recents k x : sr_recents r !! k = Some x → ∃ m, is_u 64 m ∧ k = to_string m;
  rd_fork_hashes m : is_u 64 m → sr_recent_fork_hashes r !! to_string m = (λ _, "00000000") <$> recent_proposers s !! m;
  rd_attestation :
    match sr_attestation r with
    | Some a => 0 < target_number (vote_data s)
        ∧ sourceNumber a = source_number (vote_data s) ∧ b256_from_str (sourceHash a) = Some (source_hash (vote_data s))
        ∧ targetNumber a = target_number (vote_data s) ∧ b256_from_str (targetHash a) = Some (target_hash (vote_data s))
    | None => target_number (vote_data s) <= 0
    end;
}.

Lemma reported_validators s : reportable s →
  (∀ i v, validators s !! i = Some v → ∃ a,
     validators_map s !! v = Some {| v_index := Z.of_nat i + 1; vote_addr := a |}
     ∧ sr_validators (snapshot_result s) !! address_string v
       = Some {| index := Z.of_nat i + 1; vote_address := be_encode 48 a |})
  ∧ ∀ k info, sr_validators (snapshot_result s) !! k = Some info → ∃ v, v ∈ validators s ∧ k = address_string v.
Proof.
  intros [Hwf Ha _ _].
  assert (Hinj : ∀ x y, x ∈ validators s → y ∈ validators s → address_string x = address_string y → x = y).
  { intros x y Hx Hy Heq. apply (or_introl (B:=∃ m, recent_proposers s !! m = Some x)), Ha in Hx.
    apply (or_introl (B:=∃ m, recent_proposers s !! m = Some y)), Ha in Hy. unfold is_u in *. by apply (format_0x_fixed_inj 39) in Heq; [|lia..]. }
  split.
  - intros i v Hi. destruct (wf_index _ Hwf i v Hi) as [a Hm]. exists a. split; [done|]. cbn.
    rewrite (collect_printed_in address_string) by (done || by eapply list_elem_of_lookup_2).
    unfold reported_info. by rewrite Hm.
  - intros k info Hk. cbn in Hk. apply (collect_printed_inv address_string) in Hk as (v & ? & ? & _); eauto.
Qed.

(** A map with the recent block numbers as its keys. *)
Lemma reported_numbers {A} (f : Address → A) s : reportable s →
  let m := collect_map ((λ '(n, addr), (to_string n, f addr)) <$> map_to_list (recent_proposers s)) in
  (∀ n, is_u 64 n → m !! to_string n = f <$> recent_proposers s !! n)
  ∧ ∀ k x, m !! k = Some x → ∃ n, is_u 64 n ∧ k = to_string n.
Proof.
  intros [_ _ Hr _]. cbv zeta. rewrite (list_fmap_ext _ (λ p, (to_string p.1, f p.2))) by (by intros ? []).
  assert (Hinj : ∀ x y, x ∈ map_to_list (recent_proposers s) → y ∈ map_to_list (recent_proposers s) →
      to_string x.1 = to_string y.1 → x = y).
  { intros [n a] [n' a'] Hx%elem_of_map_to_list Hy%elem_of_map_to_list Heq. cbn in Heq.
    apply (to_string_inj 64) in Heq as <-; [by simplify_eq|by eapply Hr..]. }
  assert (Hinv : ∀ k x, collect_map ((λ p : Z * Address, (to_string p.1, f p.2)) <$> map_to_list (recent_proposers s)) !! k = Some x →
      ∃ n a, recent_proposers s !! n = Some a ∧ k = to_string n).
  { intros k x ([n a] & Hin & Heq & _)%(collect_printed_inv (λ p : Z * Address, to_string p.1) (λ p, f p.2)); [|done].
    apply elem_of_map_to_list in Hin. eauto. }
  split; [|intros k x (n & a & Hl & ->)%Hinv; exists n; split; [by eapply Hr|done]].
  intros n Hn. destruct (recent_proposers s !! n) as [a|] eqn:Hl; cbn.
  - apply (collect_printed_in (λ p : Z * Address, to_string p.1) (λ p, f p.2) _ (n, a) Hinj). by apply elem_of_map_to_list.
  - apply eq_None_not_Some. intros [x (n' & a & Hl' & Heq)%Hinv].
    apply (to_string_inj 64) in Heq as ->; [congruence|done|by eapply Hr].
Qed.

Lemma snapshot_reported s : reportable s → reported s (snapshot_result s).
Proof.
  intros Hrep. destruct (reported_validators s Hrep) as [Hv Hv'].
  destruct (reported_numbers address_string s Hrep) as [Hm Hm'].
  destruct (reported_numbers (λ _, "00000000") s Hrep) as [Hf _].
  destruct (rp_hashes s Hrep) as (Hbh & Hsh & Hth). unfold is_u in *.
  split; [|done|exact Hv|exact Hv'| |exact Hm|exact Hm'|exact Hf|]; cbn [snapshot_result sr_number sr_hash sr_attestation].
  - split; [done|by apply b256_from_str_digits].
  - intros v Ha%(rp_addresses s Hrep). unfold is_u in Ha. change (strip_0x (address_string v)) with (fixed_digits 16 40 v "").
    by rewrite (parse_fixed 16 ltac:(lia) 160 39 v) by lia.
  - destruct (Z.ltb_spec 0 (target_number (vote_data s))); [|done]. cbn.
    split_and!; (done || by apply b256_from_str_digits).
Qed.

(** C40. A block of the chain asked for by its number, in hexadecimal or in
    decimal, or by its hash is found, and the answers report its snapshot:
    [getSnapshot] gives its number, hash, epoch length, block interval, turn
    length and attestation, exactly its validators with their index and vote
    address and exactly its recent proposers; [getValidators] lists the
    validators in order, and the justified and finalized numbers are those of
    the snapshot. *)
Theorem queries_report_snapshot n header s q :
  is_u 64 n → block_number_of (hash_slow header) = Some (Some n) → 2 ^ 64 <= hash_slow header < 2 ^ 256 →
  q ∈ [format_0x n; to_string n; hash_string (hash_slow header)] →
  header_by_number n = Some (Some header) → snapshot_by_hash (hash_slow header) = Some s → reportable s →
  ∃ r, get_snapshot q = Ret (Some r)
  ∧ get_snapshot_at_hash snapshot_by_hash (hash_string (hash_slow header)) = Ret (Some r)
  ∧ reported s r
  ∧ get_validators q = Ret (address_string <$> validators s)
  ∧ get_justified_number q = Ret (target_number (vote_data s))
  ∧ get_finalized_number q = Ret (Snapshot.get_finalized_number s).
Proof.
  intros Hn Hb Hh Hq Hhd Hs Hrep.
  assert (Hp : parse_block_number q = Ret n).
  { apply elem_of_cons in Hq as [->|[->|[->|[]%elem_of_nil]%elem_of_cons]%elem_of_cons];
      [by apply parse_hex_number|by apply parse_decimal_number|by apply parse_hash]. }
  exists (snapshot_result s). split_and!; [| |by apply snapshot_reported|..].
  - unfold ParliaRpc.get_snapshot. rewrite Hp. cbn. rewrite Hhd. cbn. by rewrite Hs.
  - unfold ParliaRpc.get_snapshot_at_hash, hash_string. rewrite b256_from_str_digits by lia. cbn. by rewrite Hs.
  - unfold ParliaRpc.get_validators. rewrite Hp. cbn. rewrite Hhd. cbn. by rewrite Hs.
  - unfold ParliaRpc.get_justified_number, snapshot_of_block. rewrite Hp. cbn. rewrite Hhd. cbn. by rewrite Hs.
  - unfold ParliaRpc.get_finalized_number, snapshot_of_block. rewrite Hp. cbn. rewrite Hhd. cbn. by rewrite Hs.
Qed.

(** The tags [safe] and [finalized] mean the latest block, so what is reported
    for them is no more final than the head. *)
Theorem finalized_tag_is_latest :
  get_finalized_number "finalized" = get_finalized_number "latest"
  ∧ get_snapshot "finalized" = get_snapshot "latest"
  ∧ parse_block_number "safe" = parse_block_number "latest".
Proof. done. Qed.

(** Node ids that are printed are read back, and the call is one of the stake
    hub with exactly these ids. *)
Theorem node_ids_call ids :
  Forall (λ id, bytes_ok id ∧ zlen id = 32) ids →
  build_add_node_ids_call ((λ id, "0x" +:+ hex_encode id) <$> ids) = Ret (contract_call (encode_add_node_ids_call ids))
  ∧ build_add_node_ids_call (hex_encode <$> ids) = Ret (contract_call (encode_add_node_ids_call ids))
  ∧ build_remove_node_ids_call (hex_encode <$> ids) = Ret (contract_call (encode_remove_node_ids_call ids)).
Proof.
  intros Hids.
  assert (Hone : ∀ id, bytes_ok id ∧ zlen id = 32 →
      parse_node_id ("0x" +:+ hex_encode id) = Ret id ∧ parse_node_id (hex_encode id) = Ret id).
  { intros id [Hb Hl]. unfold parse_node_id. split.
    - change (strip_0x ("0x" +:+ hex_encode id)) with (hex_encode id).
      rewrite const_hex_decode_encode by done. cbn. by rewrite Hl.
    - assert (Hs : strip_0x (hex_encode id) = hex_encode id) by (apply strip_0x_not, hex_encode_not_0x, Hb).
      rewrite Hs, const_hex_decode_encode by done. cbn. by rewrite Hl. }
  assert (Hall : parse_node_ids ((λ id, "0x" +:+ hex_encode id) <$> ids) = Ret ids
               ∧ parse_node_ids (hex_encode <$> ids) = Ret ids).
  { unfold parse_node_ids. induction Hids as [|id ids Hid _ [IH1 IH2]]; [done|]. cbn.
    rewrite (proj1 (Hone id Hid)), (proj2 (Hone id Hid)). cbn. by rewrite IH1, IH2. }
  unfold build_add_node_ids_call, build_remove_node_ids_call. by rewrite (proj1 Hall), (proj2 Hall).
Qed.

End Queries.

(** ** Examples *)

Module RpcExample.

Import RefHex.

(** A header whose hash does not fit in 64 bits, and a snapshot with two recent
    proposers. *)
#[local] Instance example_hash : Sealable := λ h, 2 ^ 200 + number h.
Definition example_snapshot : Snapshot := set_recent_proposers (<[99 := 10]> {[100 := 20]}) (set_vote_data {| source_number := 97; source_hash := 970; target_number := 98; target_hash := 980 |} (three 100)).
Definition example_block : Header := test_header 100 1600000000 99.
Definition example_number (h : B256) : option (option Z) :=
  Some (if h =? hash_slow example_block then Some 100 else None).
Definition example_headers (n : Z) : option (option Header) := Some (if n =? 100 then Some example_block else None).
Definition example_snapshots (h : B256) : option Snapshot :=
  if h =? hash_slow example_block then Some example_snapshot else None.

Example example_answers :
  get_validators (Some 100) example_number example_headers example_snapshots "0x64"
  = Ret ["0x000000000000000000000000000000000000000a"; "0x0000000000000000000000000000000000000014";
         "0x000000000000000000000000000000000000001e"]
  ∧ get_validators (Some 100) example_number example_headers example_snapshots "0x65" = Err HeaderNotFound
  ∧ parse_block_number (Some 100) example_number "0x1ffffffffffffffff" = Err (InvalidBlockNumber "0x1ffffffffffffffff")
  ∧ get_justified_number (Some 100) example_number example_headers example_snapshots "latest" = Ret 98.
Proof. by vm_compute. Qed.

Lemma example_reportable : reportable example_snapshot.
Proof.
  split.
  - destruct (three_wf 100 ltac:(done)). by split.
  - intros v. change (validators example_snapshot) with [10; 20; 30]. rewrite !elem_of_cons, elem_of_nil.
    unfold is_u. intros [[->|[->|[->|[]]]]|[m Hm]]; [lia..|]. cbn in Hm.
    apply lookup_insert_Some in Hm as [[_ <-]|[_ [_ <-]%lookup_singleton_Some]]; lia.
  - intros n v Hn. cbn in Hn. apply lookup_insert_Some in Hn as [[<- _]|[_ Hn]]; [done|].
    by apply lookup_singleton_Some in Hn as [<- _].
  - split_and!; by split.
Qed.

Lemma queries_report_snapshot_witness :
  ∃ r, get_snapshot (Some 100) example_number example_headers example_snapshots "100" = Ret (Some r)
  ∧ sr_validators r !! "0x0000000000000000000000000000000000000014" = Some {| index := 2; vote_address := be_encode 48 200 |}
  ∧ sr_number r = 100 ∧ sr_turn_length r = 1
  ∧ (∃ a, sr_attestation r = Some a ∧ sourceNumber a = 97 ∧ targetNumber a = 98)
  ∧ sr_recents r !! "99" = Some "0x000000000000000000000000000000000000000a"
  ∧ get_validators (Some 100) example_number example_headers example_snapshots "100"
    = Ret (address_string <$> [10; 20; 30]).
Proof.
  destruct (queries_report_snapshot (Some 100) example_number example_headers example_snapshots 100 example_block
              example_snapshot "100") as (r & Hr & _ & [[Hnum _] (_ & _ & Hturn) Hv _ _ Hm _ _ Hatt] & Hg & _);
    [done|done|by vm_compute|apply elem_of_cons; right; apply elem_of_cons; by left|done|done|apply example_reportable|].
  exists r. split_and!; [exact Hr| |exact Hnum|exact Hturn| |exact (Hm 99 ltac:(done))|exact Hg].
  - destruct (Hv 1%nat 20 eq_refl) as (a & Ha & Hsr). injection Ha as <-. exact Hsr.
  - destruct (sr_attestation r) as [a|]; [|exfalso; apply Hatt; reflexivity].
    exists a. destruct Hatt as (_ & Hsn & _ & Htn & _). by split_and!.
Defined.

End RpcExample.
