(* ===== verification/BlobRpc.v ===== *)
(** * Blob sidecars over RPC ([src/rpc/blob.rs])

    The two methods that return the sidecars of a transaction and of a block.
    The blob store of the pool, the chain and the hexadecimal codec are
    parameters; [parse_block_number] is the same text as in [rpc/parlia.rs]. *)

From Stdlib Require Import Ascii String.
From S2P Require Import Prelude Hardforks Types Strings ParliaRpc.
#[local] Open Scope string_scope.
#[local] Open Scope Z_scope.
#[local] Open Scope list_scope.

(** ** Sidecars and answers *)

(** [alloy_eips::eip7594::BlobTransactionSidecarVariant] *)
Inductive BlobTransactionSidecarVariant :=
| Eip4844 (blobs commitments proofs : list (list Z))
| Eip7594 (blobs commitments cell_proofs : list (list Z)).

Record BlobSidecarData := { blobs : list string; commitments : list string; proofs : list string }.
Record BlobSidecarResponse := {
  blob_sidecar : BlobSidecarData;
  block_hash : option string;
  block_number : option string;
  tx_hash : string;
  tx_index : option string;
}.

Inductive BlobStoreError := MissingSidecar (tx : B256) | OtherStoreError.

Inductive BlobRpcError :=
| BlockQuery (e : RpcError)
| BlobStoreFailed
| TransactionsFailed (block : Z)
| BlockNotFound (block : Z)
| BlobsFailed (block : Z).

Section Blob.
Context `{HX : HexApi}.
(** [TransactionPool::get_blob] and [get_all_blobs]. *)
Variable get_blob : B256 → BlobStoreError + option BlobTransactionSidecarVariant.
Variable get_all_blobs : list B256 → option (list (B256 * BlobTransactionSidecarVariant)).
(** The provider; [None] is an error of the database.  Of the transactions of a
    block their hashes are used. *)
Variables (best_block_number : option Z) (block_number_of : B256 → option (option Z)).
Variable transaction_id : B256 → option (option Z).
Variable transaction_block : Z → option (option Z).
Variable provider_block_hash : Z → option (option B256).
Variable transactions_by_block : Z → option (option (list B256)).

Definition encoded (bytes : list Z) : string := "0x" +:+ hex_encode bytes.
(** The whole blob, or its first 32 bytes. *)
Definition encoded_blob (full_blob : bool) (blob : list Z) : string :=
  encoded (if full_blob then blob else take 32 blob).

Definition sidecar_to_response (hash : B256) (sidecar : BlobTransactionSidecarVariant) (full_blob : bool)
    (number : option Z) (bhash : option B256) (index : option Z) : BlobSidecarResponse :=
  let '(bs, cs, ps) :=
    match sidecar with
    | Eip4844 blobs commitments proofs =>
        (encoded_blob full_blob <$> blobs, encoded <$> commitments, encoded <$> proofs)
    | Eip7594 blobs commitments cell_proofs =>
        (encoded_blob full_blob <$> blobs, encoded <$> commitments, encoded <$> cell_proofs)
    end in
  {| blob_sidecar := {| blobs := bs; commitments := cs; proofs := ps |};
     block_hash := hash_string <$> bhash;
     block_number := format_0x <$> number;
     tx_hash := hash_string hash;
     tx_index := format_0x <$> index |}.

Definition parse_block_number (block_str : string) : comp BlobRpcError Z :=
  map_err BlockQuery (ParliaRpc.parse_block_number best_block_number block_number_of block_str).

(** [iter().position(..)] *)
Definition position (hash : B256) (txs : list B256) : option Z :=
  (λ p, Z.of_nat p.1) <$> list_find (λ h, h = hash) txs.

(** The block of a transaction, its hash and the index in it, as far as known. *)
Definition tx_metadata (hash : B256) : option Z * option B256 * option Z :=
  match transaction_id hash with
  | Some (Some tx_id) =>
      match transaction_block tx_id with
      | Some (Some block_num) =>
          let index := match transactions_by_block block_num with
                       | Some (Some txs) => position hash txs
                       | _ => None
                       end in
          (Some block_num, mjoin (provider_block_hash block_num), index)
      | _ => (None, None, None)
      end
  | _ => (None, None, None)
  end.

Definition get_blob_sidecar_by_tx_hash (hash : B256) (full_blob_flag : option bool)
    : comp BlobRpcError (option BlobSidecarResponse) :=
  let full_blob := default true full_blob_flag in
  match get_blob hash with
  | inr None | inl (MissingSidecar _) => Ret None
  | inl OtherStoreError => Err BlobStoreFailed
  | inr (Some sidecar) =>
      let '(number, bhash, index) := tx_metadata hash in
      Ret (Some (sidecar_to_response hash sidecar full_blob number bhash index))
  end.

Definition get_blob_sidecars (block : string) (full_blob_flag : option bool)
    : comp BlobRpcError (list BlobSidecarResponse) :=
  let full_blob := default true full_blob_flag in
  block_num ← parse_block_number block;
  transactions ← ok_or (transactions_by_block block_num) (TransactionsFailed block_num);
  txs ← ok_or transactions (BlockNotFound block_num);
  let bhash := mjoin (provider_block_hash block_num) in
  blob_results ← ok_or (get_all_blobs txs) (BlobsFailed block_num);
  Ret ((λ '(index, (hash, sidecar)),
          sidecar_to_response hash sidecar full_blob (Some block_num) bhash (Some index))
       <$> enumerate 0 blob_results).

End Blob.

(** ** The two methods do not agree on the index *)

Section Index.
Context `{HX : HexApi}.
Variable store : B256 → option BlobTransactionSidecarVariant.
Definition store_get (hash : B256) : BlobStoreError + option BlobTransactionSidecarVariant := inr (store hash).
(** What the pool's documentation says: the blobs that were found, in the order
    of the hashes. *)
Definition store_get_all (hashes : list B256) : option (list (B256 * BlobTransactionSidecarVariant)) :=
  Some (omap (λ h, pair h <$> store h) hashes).
Variables (best_block_number : option Z) (block_number_of : B256 → option (option Z)).
Variable transaction_id : B256 → option (option Z).
Variable transaction_block : Z → option (option Z).
Variable provider_block_hash : Z → option (option B256).
Variable transactions_by_block : Z → option (option (list B256)).
Notation by_tx := (get_blob_sidecar_by_tx_hash store_get transaction_id transaction_block provider_block_hash transactions_by_block).
Notation by_block := (get_blob_sidecars store_get_all best_block_number block_number_of provider_block_hash transactions_by_block).

Definition with_blob (hash : B256) : bool := match store hash with Some _ => true | None => false end.

Lemma omap_found before hash after sidecar :
  store hash = Some sidecar →
  omap (λ h, pair h <$> store h) (before ++ hash :: after)
  = omap (λ h, pair h <$> store h) before ++ (hash, sidecar) :: omap (λ h, pair h <$> store h) after
  ∧ length (omap (λ h, pair h <$> store h) before) = length (List.filter with_blob before).
Proof.
  intros Hs. split.
  - rewrite omap_app. cbn. by rewrite Hs.
  - clear Hs. induction before as [|h before IH]; [done|]. cbn. unfold with_blob at 1.
    destruct (store h); cbn; by rewrite IH.
Qed.

Lemma filter_all_length (f : B256 → bool) l : length (List.filter f l) = length l → Forall (λ x, f x = true) l.
Proof.
  induction l as [|x l IH]; [constructor|]. cbn. pose proof (List.filter_length_le f l).
  destruct (f x) eqn:Hf; cbn; intros; [constructor; [done|apply IH; lia]|lia].
Qed.

(** [getBlobSidecarByTxHash] answers with the position of a transaction in its
    block; [getBlobSidecars] gives the same transaction the number of blob
    transactions before it.  The two agree only if every transaction before it
    has blobs. *)
Theorem sidecar_index hash before after sidecar id n q full :
  NoDup (before ++ hash :: after) → zlen (before ++ hash :: after) < 2 ^ 64 → store hash = Some sidecar →
  transaction_id hash = Some (Some id) → transaction_block id = Some (Some n) →
  transactions_by_block n = Some (Some (before ++ hash :: after)) → is_u 64 n → q = format_0x n →
  ∃ r r' l, by_tx hash full = Ret (Some r) ∧ by_block q full = Ret l
  ∧ l !! length (List.filter with_blob before) = Some r'
  ∧ tx_hash r' = tx_hash r ∧ blob_sidecar r' = blob_sidecar r ∧ block_number r' = block_number r
  ∧ tx_index r = Some (format_0x (zlen before))
  ∧ tx_index r' = Some (format_0x (zlen (List.filter with_blob before)))
  ∧ (tx_index r' = tx_index r → Forall (λ h, with_blob h = true) before).
Proof.
  intros Hnd Hlen Hs Hid Hb Htx Hn ->. destruct (omap_found before hash after sidecar Hs) as [Ho Hl].
  assert (Hpos : position hash (before ++ hash :: after) = Some (zlen before)).
  { unfold position. rewrite list_find_app_r.
    - cbn. rewrite decide_True by done. reflexivity.
    - apply list_find_None, list.Forall_forall. intros h Hh ->. apply list.NoDup_app in Hnd as (_ & Hd & _).
      apply (Hd hash Hh). by left. }
  eexists _, _, _. split_and!.
  - unfold get_blob_sidecar_by_tx_hash, store_get, tx_metadata. by rewrite Hs, Hid, Hb, Htx, Hpos.
  - unfold get_blob_sidecars, parse_block_number. rewrite parse_hex_number by done. cbn. by rewrite Htx.
  - rewrite list_lookup_fmap, Ho. rewrite enumerate_lookup, lookup_app_r by lia.
    rewrite Hl, Nat.sub_diag. reflexivity.
  - by destruct sidecar.
  - by destruct sidecar.
  - by destruct sidecar.
  - by destruct sidecar.
  - destruct sidecar; cbn; unfold zlen; by rewrite Z.add_0_l.
  - intros Heq. apply filter_all_length.
    assert (Hf : format_0x (zlen (List.filter with_blob before)) = format_0x (zlen before)).
    { destruct sidecar; cbn -[format_0x Z.add] in Heq; apply Some_inj in Heq; rewrite Z.add_0_l in Heq; exact Heq. }
    pose proof (List.filter_length_le with_blob before) as Hle.
    rewrite zlen_app, zlen_cons in Hlen. pose proof (zlen_nonneg after).
    rewrite !format_0x_cons in Hf. injection Hf as Hf. apply (format_radix_inj 16 ltac:(lia) 64) in Hf; unfold zlen in *; lia.
Qed.

End Index.

(** ** An example: a plain transaction, then one with blobs *)

Module BlobExample.

Import RefHex.

Definition example_sidecar : BlobTransactionSidecarVariant := Eip4844 [[1; 2]] [[3]] [[4]].
Definition example_store (hash : B256) : option BlobTransactionSidecarVariant :=
  if hash =? 8 then Some example_sidecar else None.
Definition example_txs (n : Z) : option (option (list B256)) := Some (if n =? 5 then Some [7; 8] else None).

Lemma sidecar_index_witness :
  ∃ r r' l, get_blob_sidecar_by_tx_hash (store_get example_store) (λ _, Some (Some 1)) (λ _, Some (Some 5))
              (λ _, None) example_txs 8 None = Ret (Some r)
  ∧ get_blob_sidecars (store_get_all example_store) (Some 5) (λ _, None) (λ _, None) example_txs "0x5" None = Ret l
  ∧ l !! 0%nat = Some r' ∧ tx_hash r' = tx_hash r ∧ tx_index r = Some "0x1" ∧ tx_index r' = Some "0x0".
Proof.
  destruct (sidecar_index example_store (Some 5) (λ _, None) (λ _, Some (Some 1)) (λ _, Some (Some 5)) (λ _, None) example_txs
      8 [7] [] example_sidecar 1 5 "0x5" None) as (r & r' & l & H1 & H2 & H3 & H4 & _ & _ & H5 & H6 & _);
    [apply (bool_decide_unpack _); vm_compute; exact I|done..|].
  exists r, r', l. split_and!; [exact H1|exact H2|exact H3|exact H4|exact H5|exact H6].
Defined.

End BlobExample.
