(* ===== verification/BlsSigner.v ===== *)
(** * The BLS signer ([src/consensus/parlia/bls_signer.rs], [src/main.rs])

    The key with which this node signs votes: reading it from hexadecimal text,
    from a key store (EIP-2335, or else the V3 format of a library) or from the
    environment, the global that holds it, and signing.

    The file system, the environment, JSON, [blst] and the ciphers are
    parameters; strings are those of ASCII. *)

From Stdlib Require Import Ascii String.
From S2P Require Import Prelude Strings Hardforks Types VotePool.
#[local] Open Scope string_scope.
#[local] Open Scope Z_scope.
#[local] Open Scope list_scope.

Inductive BlsSignerError :=
| AlreadyInitialized
| NotInitialized
| InvalidSecret (e : string)
| SigningFailed (e : string).

(** ** The libraries *)

(** [blst::min_pk::SecretKey]: public keys have 48 bytes, signatures 96. *)
Class Blst := {
  SecretKey : Type;
  sk_from_bytes : list Z → option SecretKey;
  sk_to_pk : SecretKey → list Z;
  sk_sign : SecretKey → B256 → list Z;
}.
(** What is signed with a key verifies with its public key. *)
Class BlstLaws `(Blst) `(Bls) : Prop := {
  sk_pk_parses sk : ∃ pk, bls_pk_from_bytes (be_decode (sk_to_pk sk)) = Some pk
    ∧ ∀ m, ∃ s, bls_sig_from_bytes (be_decode (sk_sign sk m)) = Some s ∧ bls_verify pk m s = true;
}.

(** [scrypt], [pbkdf2], [sha2], [aes] with [ctr], and [eth_keystore]. *)
Class KeystoreCrypto := {
  ScryptParams : Type;
  scrypt_params : Z → Z → Z → Z → option ScryptParams;
  scrypt : string → list Z → ScryptParams → Z → option (list Z);
  pbkdf2_hmac : string → list Z → Z → Z → list Z;
  sha256 : list Z → list Z;
  aes_128_ctr : list Z → list Z → list Z → list Z;
  aes_256_ctr : list Z → list Z → list Z → list Z;
}.
(** The derivation fills the buffer it is given, and a key stream that is
    applied twice cancels. *)
Class KeystoreLaws `(KeystoreCrypto) : Prop := {
  scrypt_length p s q n k : 0 <= n → scrypt p s q n = Some k → zlen k = n;
  pbkdf2_length p s c n : 0 <= n → zlen (pbkdf2_hmac p s c n) = n;
  sha256_bytes l : bytes_ok (sha256 l);
  aes_128_twice k iv l : aes_128_ctr k iv (aes_128_ctr k iv l) = l;
  aes_256_twice k iv l : aes_256_ctr k iv (aes_256_ctr k iv l) = l;
  aes_128_length k iv l : zlen (aes_128_ctr k iv l) = zlen l;
  aes_256_length k iv l : zlen (aes_256_ctr k iv l) = zlen l;
}.

(** [serde_json::Value::as_str]. *)
Class JsonStrings `{JA : JsonApi} := json_as_str : Value → option string.

(** ** The signer *)

Section Signer.
Context `{BT : Blst} `{KE : Keccak} `{VR : VoteRlp}.

Record BlsVoteSigner := { sk_bytes : list Z }.

Definition new_from_bytes (bytes : list Z) : comp BlsSignerError BlsVoteSigner :=
  _ ← ok_or (sk_from_bytes bytes) (InvalidSecret "BLST_ERROR");
  Ret {| sk_bytes := bytes |}.

Definition secret_key (self : BlsVoteSigner) : comp BlsSignerError SecretKey :=
  ok_or (sk_from_bytes (sk_bytes self)) (InvalidSecret "BLST_ERROR").

Definition public_key (self : BlsVoteSigner) : comp BlsSignerError VoteAddress :=
  sk ← secret_key self;
  Ret (be_decode (sk_to_pk sk)).

Definition sign_hash (self : BlsVoteSigner) (hash : B256) : comp BlsSignerError VoteSignature :=
  sk ← secret_key self;
  Ret (be_decode (sk_sign sk hash)).

Definition sign_vote (self : BlsVoteSigner) (data : VoteData) : comp BlsSignerError VoteEnvelope :=
  vote_address ← public_key self;
  signature ← sign_hash self (vote_data_hash data);
  Ret {| vote_address := vote_address; signature := signature; data := data |}.

(** [GLOBAL_BLS_SIGNER]: [None] when not set yet.  A function that fails leaves
    it as it is, so an initialisation returns its outcome and the global. *)
Notation Global := (option BlsVoteSigner).
Notation init := (comp BlsSignerError unit * Global)%type.

Definition init_global_bls_signer_from_bytes (bytes : list Z) (g : Global) : init :=
  match (signer ← new_from_bytes bytes; _ ← public_key signer; Ret signer) with
  | Ret signer =>
      match g with
      | Some _ => (Err AlreadyInitialized, g)
      | None => (Ret tt, Some signer)
      end
  | Err e => (Err e, g)
  | Panic => (Panic, g)
  | OutOfFuel => (OutOfFuel, g)
  end.

Context `{HX : HexApi}.

(** What is done with the bytes of a secret, if there are any. *)
Definition init_with (secret : comp BlsSignerError (list Z)) (g : Global) : init :=
  match secret with
  | Ret bytes => init_global_bls_signer_from_bytes bytes g
  | Err e => (Err e, g)
  | Panic => (Panic, g)
  | OutOfFuel => (OutOfFuel, g)
  end.

Definition secret_from_hex (hex_key : string) : comp BlsSignerError (list Z) :=
  raw ← ok_or (const_hex_decode (strip_0x hex_key)) (InvalidSecret "invalid hex string");
  if negb (zlen raw =? 32) then Err (InvalidSecret "BLS secret must be 32 bytes") else Ret raw.

Definition init_global_bls_signer_from_hex (hex_key : string) (g : Global) : init :=
  init_with (secret_from_hex hex_key) g.

Definition get_global_bls_signer (g : Global) : Global := g.
Definition is_bls_signer_initialized (g : Global) : bool :=
  match g with Some _ => true | None => false end.
Definition global_bls_public_key (g : Global) : comp BlsSignerError VoteAddress :=
  signer ← ok_or (get_global_bls_signer g) NotInitialized;
  public_key signer.
Definition sign_vote_with_global (data : VoteData) (g : Global) : comp BlsSignerError VoteEnvelope :=
  signer ← ok_or (get_global_bls_signer g) NotInitialized;
  sign_vote signer data.

End Signer.

(** ** Key stores *)

Section Keystore.
Context `{KC : KeystoreCrypto} `{HX : HexApi} `{JA : JsonApi} {JS : JsonStrings}.
Notation err msg := (Err (InvalidSecret msg)).
Notation res := (comp BlsSignerError).

Definition eq_ignore_ascii_case (a b : string) : bool := String.eqb (to_lowercase a) (to_lowercase b).
Definition eq_hex_noprefix (a b : string) : bool := eq_ignore_ascii_case (strip_0x a) (strip_0x b).
Definition decode_hex_noprefix (s : string) : res (list Z) :=
  ok_or (const_hex_decode (strip_0x s)) (InvalidSecret "invalid hex string").

(** [json.get(key).and_then(..).ok_or_else(|| InvalidSecret(msg))] *)
Definition field (v : Value) (key msg : string) : res Value := ok_or (json_get v key) (InvalidSecret msg).
Definition str_field (v : Value) (key msg : string) : res string :=
  ok_or (json_get v key ≫= json_as_str) (InvalidSecret msg).
Definition u64_field (v : Value) (key msg : string) : res Z :=
  ok_or (json_get v key ≫= json_as_u64) (InvalidSecret msg).

(** [vec![0u8; n]]: a capacity above [isize::MAX] panics. *)
Definition zeroed (n : Z) : res unit := if 2 ^ 63 <=? n then Panic else Ret tt.

Definition trailing_zeros (n : Z) : Z := Z.log2 (Z.land n (- n)).

(** The key derivation of the [kdf] object. *)
Definition derive_key (kdf_fn : string) (kdf_params : Value) (dklen : Z) (salt : list Z) (password : string)
    : res (list Z) :=
  _ ← zeroed dklen;
  let f := to_lowercase kdf_fn in
  if String.eqb f "scrypt" then
    n ← u64_field kdf_params "n" "missing kdf.params.n";
    r ← u64_field kdf_params "r" "missing kdf.params.r";
    p ← u64_field kdf_params "p" "missing kdf.params.p";
    if (n =? 0) || negb (Z.land n (n - 1) =? 0) then err "scrypt N must be power of two"
    else
      params ← ok_or (scrypt_params (wrapu 8 (trailing_zeros n)) (wrapu 32 r) (wrapu 32 p) dklen)
                 (InvalidSecret "invalid scrypt params");
      ok_or (scrypt password salt params dklen) (InvalidSecret "invalid output length")
  else if String.eqb f "pbkdf2" then
    c ← u64_field kdf_params "c" "missing kdf.params.c";
    Ret (pbkdf2_hmac password salt (wrapu 32 c) dklen)
  else err "unsupported kdf".

(** The first 16 bytes of the checksum's input are those from 16 to 32 of the
    derived key. *)
Definition checksum_of (dk ct : list Z) : list Z := sha256 (take 16 (drop 16 dk) ++ ct).

Definition decipher (cipher_fn : string) (dk iv ct : list Z) : res (list Z) :=
  if eq_ignore_ascii_case cipher_fn "aes-128-ctr" then Ret (aes_128_ctr (take 16 dk) iv ct)
  else if eq_ignore_ascii_case cipher_fn "aes-256-ctr" then Ret (aes_256_ctr (take 32 dk) iv ct)
  else err "unsupported cipher".

Definition decrypt_eip2335_value (v : Value) (password : string) : res (list Z) :=
  version ← u64_field v "version" "missing version";
  if negb (version =? 4) then err "not EIP-2335 v4"
  else
    crypto ← field v "crypto" "missing crypto";
    kdf ← field crypto "kdf" "missing kdf";
    kdf_fn ← str_field kdf "function" "missing kdf.function";
    kdf_params ← field kdf "params" "missing kdf.params";
    let dklen := default 32 (json_get kdf_params "dklen" ≫= json_as_u64) in
    salt_hex ← str_field kdf_params "salt" "missing kdf.params.salt";
    salt ← decode_hex_noprefix salt_hex;
    dk ← derive_key kdf_fn kdf_params dklen salt password;
    cipher ← field crypto "cipher" "missing cipher";
    let cipher_fn := default "" (json_get cipher "function" ≫= json_as_str) in
    cipher_params ← field cipher "params" "missing cipher.params";
    iv_hex ← str_field cipher_params "iv" "missing cipher.params.iv";
    iv ← decode_hex_noprefix iv_hex;
    if negb (zlen iv =? 16) then err "iv must be 16 bytes"
    else
      ct_hex ← str_field cipher "message" "missing cipher.message";
      ct ← decode_hex_noprefix ct_hex;
      checksum ← field crypto "checksum" "missing checksum";
      let checksum_msg := default "" (json_get checksum "message" ≫= json_as_str) in
      if dklen <? 32 then err "dklen too small"
      else if negb (eq_hex_noprefix (hex_encode (checksum_of dk ct)) checksum_msg) then err "checksum mismatch"
      else
        ct ← decipher cipher_fn dk iv ct;
        if negb (zlen ct =? 32) then err "decrypted secret wrong length" else Ret ct.

(** The file system: [None] is an error.  The entries of a directory come in
    the order of the system, each of them possibly an error. *)
Record FileSystem := {
  fs_is_dir : string → bool;
  fs_is_file : string → bool;
  fs_read_to_string : string → option string;
  fs_read_dir : string → option (list (option string));
  fs_extension : string → option string;
  eth_keystore_decrypt : string → string → option (list Z);
}.
Variable fs : FileSystem.

Definition decrypt_eip2335_keystore (path password : string) : res (list Z) :=
  contents ← ok_or (fs_read_to_string fs path) (InvalidSecret "io error");
  v ← ok_or (json_from_str contents) (InvalidSecret "json error");
  decrypt_eip2335_value v password.

(** The first entry with the extension [json]; an entry that cannot be read
    before it is an error. *)
Fixpoint find_keyfile (entries : list (option string)) : res (option string) :=
  match entries with
  | [] => Ret None
  | None :: _ => err "io error"
  | Some p :: entries =>
      if match fs_extension fs p with Some x => eq_ignore_ascii_case x "json" | None => false end
      then Ret (Some p) else find_keyfile entries
  end.

Definition keystore_target (path : string) : res string :=
  if fs_is_dir fs path then
    let keys_dir := (path +:+ "/keys")%string in
    keyfile ← (if fs_is_dir fs keys_dir
               then entries ← ok_or (fs_read_dir fs keys_dir) (InvalidSecret "io error"); find_keyfile entries
               else Ret None);
    ok_or keyfile (InvalidSecret "No keystore JSON found under wallet/keys")
  else Ret path.

(** [trim_end_matches(['\n', '\r'])] *)
Fixpoint trim_newlines (s : string) : string :=
  match s with
  | EmptyString => EmptyString
  | String c s =>
      match trim_newlines s with
      | EmptyString => if bool_decide (nat_of_ascii c = 10%nat) || bool_decide (nat_of_ascii c = 13%nat)
                       then EmptyString else String c EmptyString
      | s => String c s
      end
  end.

Definition strip_file (s : string) : option string :=
  if String.prefix "file:" s then Some (String.substring 5 (String.length s - 5) s) else None.

Definition password_file (path : string) : res string :=
  s ← ok_or (fs_read_to_string fs path) (InvalidSecret "failed to read password file");
  Ret (trim_newlines s).

Definition resolve_password (password : string) : res string :=
  if String.eqb password "" then Ret ""
  else match strip_file password with
       | Some rest => password_file rest
       | None => if fs_is_file fs password then password_file password else Ret password
       end.

(** The file says it is an EIP-2335 key store of version 4. *)
Definition is_eip2335 (target : string) : bool :=
  match fs_read_to_string fs target ≫= json_from_str with
  | Some json => bool_decide (json_get json "version" ≫= json_as_u64 = Some 4)
  | None => false
  end.

Definition secret_from_keystore (path password : string) : res (list Z) :=
  target ← keystore_target path;
  actual_password ← resolve_password password;
  if is_eip2335 target then decrypt_eip2335_keystore target actual_password
  else
    key_bytes ← ok_or (eth_keystore_decrypt fs target actual_password) (InvalidSecret "keystore error");
    if negb (zlen key_bytes =? 32) then err "BLS secret must be 32 bytes" else Ret key_bytes.

Context `{BT : Blst}.

Definition init_global_bls_signer_from_keystore (path password : string) (g : option BlsVoteSigner) :=
  init_with (secret_from_keystore path password) g.

(** [std::env::var(..).ok()] *)
Variable env : string → option string.

(** An error is only logged. *)
Definition logged (r : comp BlsSignerError unit * option BlsVoteSigner) : comp BlsSignerError unit * option BlsVoteSigner :=
  match r.1 with Err _ => (Ret tt, r.2) | _ => r end.

Definition init_from_env_if_present (g : option BlsVoteSigner) : comp BlsSignerError unit * option BlsVoteSigner :=
  if is_bls_signer_initialized g then (Ret tt, g)
  else logged
    match env "BSC_BLS_KEYSTORE_PATH", env "BSC_BLS_KEYSTORE_PASSWORD" with
    | Some path, Some pass => init_global_bls_signer_from_keystore path pass g
    | _, _ =>
        match env "BSC_BLS_PRIVATE_KEY" with
        | Some hex_key => init_global_bls_signer_from_hex hex_key g
        | None => (Ret tt, g)
        end
    end.

(** The start of the node ([main.rs]): the command line first, then the
    environment; errors are logged. *)
Record BlsArgs := {
  bls_keystore_path : option string;
  bls_keystore_password : option string;
  bls_private_key : option string;
}.
Definition start_bls_signer (args : BlsArgs) (g : option BlsVoteSigner) : comp BlsSignerError unit * option BlsVoteSigner :=
  let '(r, g) := logged
    match bls_keystore_path args, bls_private_key args with
    | Some path, _ => init_global_bls_signer_from_keystore path (default "" (bls_keystore_password args)) g
    | None, Some hex => init_global_bls_signer_from_hex hex g
    | None, None => (Ret tt, g)
    end in
  match r with
  | Ret _ => if negb (is_bls_signer_initialized g) then init_from_env_if_present g else (Ret tt, g)
  | r => (r, g)
  end.

End Keystore.

(** ** Opening a key store *)

Section Opening.
Context `{KL : KeystoreLaws} `{HL : HexLaws} `{JA : JsonApi} {JS : JsonStrings}.

(** The key derivation of a key store, and how its [kdf] object writes it. *)
Inductive Kdf := Scrypt (log_n r p : Z) | Pbkdf2 (c : Z).
Definition kdf_written (k : Kdf) (kdf_fn : string) (params : Value) : Prop :=
  let number key := json_get params key ≫= json_as_u64 in
  match k with
  | Scrypt log_n r p =>
      to_lowercase kdf_fn = "scrypt" ∧ 0 <= log_n < 64 ∧ is_u 32 r ∧ is_u 32 p
      ∧ number "n" = Some (2 ^ log_n) ∧ number "r" = Some r ∧ number "p" = Some p
  | Pbkdf2 c => to_lowercase kdf_fn = "pbkdf2" ∧ is_u 32 c ∧ number "c" = Some c
  end.
(** The key that it derives, with the arguments of the libraries by position. *)
Definition kdf_key (k : Kdf) (password : string) (salt : list Z) (dklen : Z) : option (list Z) :=
  match k with
  | Scrypt log_n r p => scrypt_params log_n r p dklen ≫= λ params, scrypt password salt params dklen
  | Pbkdf2 c => Some (pbkdf2_hmac password salt c dklen)
  end.

(** The first 16 bytes of a derived key and the 16 bytes after them. *)
Definition parts (dk k1 k2 : list Z) : Prop := (∃ rest, dk = k1 ++ k2 ++ rest) ∧ zlen k1 = 16 ∧ zlen k2 = 16.

(** A key store of version 4 that holds [secret], as EIP-2335 says: the secret
    is encrypted with the first part [k1] of the derived key (for the 256-bit
    cipher with both parts), and the checksum is the SHA-256 of the second part
    [k2] and the cipher text [ct]. *)
Record keystore_of (v : Value) (k : Kdf) (dklen : Z) (salt iv k1 k2 ct secret : list Z) : Prop := {
  ks_version : json_get v "version" ≫= json_as_u64 = Some 4;
  ks_json : ∃ crypto, json_get v "crypto" = Some crypto
    ∧ (∃ kdf kdf_fn params, json_get crypto "kdf" = Some kdf
       ∧ json_get kdf "function" ≫= json_as_str = Some kdf_fn ∧ json_get kdf "params" = Some params
       ∧ kdf_written k kdf_fn params ∧ default 32 (json_get params "dklen" ≫= json_as_u64) = dklen
       ∧ json_get params "salt" ≫= json_as_str = Some (hex_encode salt))
    ∧ (∃ cipher cipher_fn params, json_get crypto "cipher" = Some cipher
       ∧ json_get cipher "function" ≫= json_as_str = Some cipher_fn ∧ json_get cipher "params" = Some params
       ∧ json_get params "iv" ≫= json_as_str = Some (hex_encode iv)
       ∧ json_get cipher "message" ≫= json_as_str = Some (hex_encode ct)
       ∧ (to_lowercase cipher_fn = "aes-128-ctr" ∧ ct = aes_128_ctr k1 iv secret
          ∨ to_lowercase cipher_fn = "aes-256-ctr" ∧ ct = aes_256_ctr (k1 ++ k2) iv secret))
    ∧ ∃ checksum, json_get crypto "checksum" = Some checksum
       ∧ json_get checksum "message" ≫= json_as_str = Some (hex_encode (sha256 (k2 ++ ct)));
  ks_bytes : bytes_ok salt ∧ bytes_ok iv ∧ bytes_ok ct;
  ks_sizes : 32 <= dklen < 2 ^ 63 ∧ zlen iv = 16 ∧ zlen secret = 32;
}.

Lemma parts_of dk k1 k2 : parts dk k1 k2 → take 16 dk = k1 ∧ take 16 (drop 16 dk) = k2 ∧ take 32 dk = k1 ++ k2.
Proof.
  intros ([rest ->] & H1 & H2). assert (L1 : length k1 = 16%nat) by (unfold zlen in H1; lia).
  assert (L2 : length k2 = 16%nat) by (unfold zlen in H2; lia). split_and!.
  - by rewrite take_app_length'.
  - rewrite drop_app_length' by done. by rewrite take_app_length'.
  - rewrite app_assoc, take_app_length'; [done|]. rewrite length_app. lia.
Qed.

Lemma trailing_zeros_pow n : 0 <= n < 64 → trailing_zeros (2 ^ n) = n ∧ Z.land (2 ^ n) (2 ^ n - 1) = 0.
Proof.
  intros Hn. assert (Hl : Z.land (2 ^ n) (2 ^ n - 1) = 0).
  { rewrite Z.sub_1_r, <- Z.ones_equiv, Z.land_ones by lia. apply Z.mod_same, Z.pow_nonzero; lia. }
  split; [|done]. unfold trailing_zeros. rewrite <- (Z.log2_pow2 n) at 3 by lia. f_equal.
  replace (- 2 ^ n) with (Z.lnot (2 ^ n - 1)) by (unfold Z.lnot; lia).
  rewrite <- Z.ldiff_land. apply Z.bits_inj'. intros m Hm. rewrite Z.ldiff_spec.
  pose proof (f_equal (λ x, Z.testbit x m) Hl) as Hb. cbn beta in Hb. rewrite Z.land_spec, Z.bits_0 in Hb.
  by destruct (Z.testbit (2 ^ n) m), (Z.testbit (2 ^ n - 1) m).
Qed.

(** The code derives the key that is written. *)
Lemma derive_written k kdf_fn params password salt dklen dk :
  kdf_written k kdf_fn params → 0 <= dklen < 2 ^ 63 → kdf_key k password salt dklen = Some dk →
  derive_key kdf_fn params dklen salt password = Ret dk.
Proof.
  intros Hw Hd Hk. unfold derive_key, zeroed, u64_field. rewrite (proj2 (Z.leb_gt _ _)) by lia. cbn [mbind comp_bind].
  destruct k as [log_n r p|c]; cbn [kdf_written kdf_key] in *.
  - destruct Hw as (-> & Hn & Hr & Hp & -> & -> & ->). cbn [String.eqb Ascii.eqb Bool.eqb ok_or mbind comp_bind].
    destruct (trailing_zeros_pow log_n Hn) as [-> ->].
    rewrite (proj2 (Z.eqb_neq _ 0)) by (apply Z.pow_nonzero; lia). cbn [orb negb Z.eqb].
    rewrite !wrapu_small by (try done; unfold is_u; change (2 ^ 8) with 256; lia).
    apply bind_Some in Hk as (q & -> & Hk). cbn [ok_or mbind comp_bind]. by rewrite Hk.
  - destruct Hw as (-> & Hc & ->). cbn [String.eqb Ascii.eqb Bool.eqb ok_or mbind comp_bind].
    rewrite wrapu_small by done. by injection Hk as ->.
Qed.

Lemma strip_encoded l : bytes_ok l → strip_0x (hex_encode l) = hex_encode l.
Proof. intros Hl. by apply strip_0x_not, hex_encode_not_0x. Qed.

Lemma decode_encoded l : bytes_ok l → decode_hex_noprefix (hex_encode l) = Ret l.
Proof. intros Hl. unfold decode_hex_noprefix. by rewrite strip_encoded, const_hex_decode_encode. Qed.

Lemma eq_encoded l k : bytes_ok l → bytes_ok k → eq_hex_noprefix (hex_encode l) (hex_encode k) = bool_decide (l = k).
Proof.
  intros Hl Hk. unfold eq_hex_noprefix, eq_ignore_ascii_case. rewrite !strip_encoded, !hex_encode_lower by done.
  destruct (String.eqb_spec (hex_encode l) (hex_encode k)) as [Heq|Hne].
  - symmetry. apply bool_decide_eq_true. pose proof (const_hex_decode_encode l Hl) as H1.
    rewrite Heq, const_hex_decode_encode in H1 by done. congruence.
  - symmetry. apply bool_decide_eq_false. by intros ->.
Qed.

(** Up to the checksum, opening depends on the password through the derived key
    alone. *)
Lemma decrypt_to_checksum v k dklen salt iv k1 k2 ct secret password dk' k1' k2' :
  keystore_of v k dklen salt iv k1 k2 ct secret →
  kdf_key k password salt dklen = Some dk' → parts dk' k1' k2' →
  ∃ cipher_fn, decrypt_eip2335_value v password =
    (if bool_decide (sha256 (k2' ++ ct) = sha256 (k2 ++ ct))
     then ct ← decipher cipher_fn dk' iv ct;
          if negb (zlen ct =? 32) then Err (InvalidSecret "decrypted secret wrong length") else Ret ct
     else Err (InvalidSecret "checksum mismatch"))
  ∧ (to_lowercase cipher_fn = "aes-128-ctr" ∧ ct = aes_128_ctr k1 iv secret
     ∨ to_lowercase cipher_fn = "aes-256-ctr" ∧ ct = aes_256_ctr (k1 ++ k2) iv secret).
Proof.
  intros [Hv (cr & Hcr & (kdf & kdf_fn & kp & Hkdf & Hfn & Hkp & Hw & Hdk & Hsalt)
    & (ci & cipher_fn & pa & Hci & Hcf & Hpa & Hiv & Hct & Hcipher) & cs & Hcs & Hck) (Hbs & Hbi & Hbc) (Hd & Hi & _)] Hkey Hparts.
  exists cipher_fn. split; [|exact Hcipher]. assert (Hl : 0 <= dklen < 2 ^ 63) by lia.
  pose proof (derive_written _ _ _ _ _ _ _ Hw Hl Hkey) as Hder.
  destruct (parts_of _ _ _ Hparts) as (_ & Hk2 & _).
  unfold decrypt_eip2335_value, field, str_field, u64_field.
  rewrite Hv. cbn. rewrite Hcr. cbn. rewrite Hkdf. cbn. rewrite Hfn. cbn. rewrite Hkp. cbn.
  rewrite Hsalt. cbn. rewrite decode_encoded by done. cbn. rewrite Hdk, Hder. cbn.
  rewrite Hci. cbn. rewrite Hpa. cbn. rewrite Hiv. cbn. rewrite decode_encoded by done. cbn.
  rewrite Hi. cbn. rewrite Hct. cbn. rewrite decode_encoded by done. cbn. rewrite Hcs. cbn. rewrite Hck. cbn.
  rewrite (proj2 (Z.ltb_ge dklen 32)) by lia. unfold checksum_of. rewrite Hk2, eq_encoded by apply sha256_bytes. rewrite Hcf.
  by case_bool_decide.
Qed.

(** C39. A key store of version 4, as EIP-2335 says, is opened with the password
    it was made with, and gives back the secret; a password from which a key with
    another checksum is derived is refused, and nothing is decrypted with it. *)
Theorem keystore_roundtrip v k dklen salt iv k1 k2 ct secret password dk :
  keystore_of v k dklen salt iv k1 k2 ct secret →
  kdf_key k password salt dklen = Some dk → parts dk k1 k2 →
  decrypt_eip2335_value v password = Ret secret
  ∧ ∀ password' dk' k1' k2', kdf_key k password' salt dklen = Some dk' → parts dk' k1' k2' →
      sha256 (k2' ++ ct) ≠ sha256 (k2 ++ ct) →
      decrypt_eip2335_value v password' = Err (InvalidSecret "checksum mismatch").
Proof.
  intros Hks Hkey Hparts. split.
  - destruct (decrypt_to_checksum _ _ _ _ _ _ _ _ _ _ _ _ _ Hks Hkey Hparts) as (cf & -> & Hcf).
    rewrite bool_decide_true by done. destruct Hks as [_ _ _ (_ & _ & Hlen)]. destruct (parts_of _ _ _ Hparts) as (Hk1 & _ & Hk).
    assert (Hd : decipher cf dk iv ct = Ret secret).
    { unfold decipher, eq_ignore_ascii_case. rewrite Hk1, Hk.
      destruct Hcf as [[-> ->]|[-> ->]]; cbn; by rewrite ?aes_128_twice, ?aes_256_twice. }
    rewrite Hd. cbn [mbind comp_bind]. by rewrite Hlen.
  - intros p' dk' k1' k2' Hkey' Hparts' Hne.
    destruct (decrypt_to_checksum _ _ _ _ _ _ _ _ _ _ _ _ _ Hks Hkey' Hparts') as (cf & -> & _). by rewrite bool_decide_false.
Qed.

(** What is opened has 32 bytes. *)
Lemma opened_secret v password secret : decrypt_eip2335_value v password = Ret secret → zlen secret = 32.
Proof.
  unfold decrypt_eip2335_value. intros (ver & _ & Hs)%bind_Ret_inv. case_match; [done|].
  do 11 (apply bind_Ret_inv in Hs as (? & _ & Hs)). case_match; [done|].
  do 3 (apply bind_Ret_inv in Hs as (? & _ & Hs)). do 2 (case_match; [done|]).
  apply bind_Ret_inv in Hs as (ct & _ & Hs). destruct (Z.eqb_spec (zlen ct) 32) as [Hl|]; [|done].
  cbn in Hs. by injection Hs as <-.
Qed.

(** Opening ends without a panic unless the file asks for a derived key that is
    larger than any allocation. *)
Theorem opening_completes v password :
  (∀ params n, json_get params "dklen" ≫= json_as_u64 = Some n → n < 2 ^ 63) →
  completes (decrypt_eip2335_value v password).
Proof.
  intros Hn. unfold decrypt_eip2335_value, field, str_field, u64_field, decode_hex_noprefix.
  repeat (apply completes_bind; [apply completes_ok_or|intros ? _] || (case_match; [done|])).
  apply completes_bind.
  - unfold derive_key. apply completes_bind.
    + unfold zeroed. destruct (Z.leb_spec (2 ^ 63) (default 32 (json_get a3 "dklen" ≫= json_as_u64))) as [Hle|]; [|done].
      destruct (json_get a3 "dklen" ≫= json_as_u64) as [n|] eqn:Hd; cbn in Hle; [apply Hn in Hd; lia|lia].
    + intros _ _. unfold u64_field.
      repeat (case_match || (apply completes_bind; [apply completes_ok_or|intros ? _]) || apply completes_ok_or); done.
  - intros ? _.
    repeat ((apply completes_bind; [apply completes_ok_or|intros ? _]) || (case_match; [done|])).
    apply completes_bind; [unfold decipher; by repeat case_match|intros ? _; by case_match].
Qed.

End Opening.

(** ** The global signer *)

Section GlobalSigner.
Context `{BT : Blst} `{KE : Keccak} `{VR : VoteRlp} `{KC : KeystoreCrypto} `{HX : HexApi} `{JA : JsonApi} {JS : JsonStrings}.
Context {BL : Bls} {BLL : BlstLaws BT BL}.
Variable fs : FileSystem.
Variable env : string → option string.

(** Any call that may set the signer. *)
Inductive Init :=
| FromBytes (bytes : list Z)
| FromHex (hex_key : string)
| FromKeystore (path password : string)
| FromEnv
| FromArgs (args : BlsArgs).
Definition run_init (i : Init) (g : option BlsVoteSigner) : comp BlsSignerError unit * option BlsVoteSigner :=
  match i with
  | FromBytes bytes => init_global_bls_signer_from_bytes bytes g
  | FromHex hex_key => init_global_bls_signer_from_hex hex_key g
  | FromKeystore path password => init_global_bls_signer_from_keystore fs path password g
  | FromEnv => init_from_env_if_present fs env g
  | FromArgs args => start_bls_signer fs env args g
  end.
Definition run_inits (l : list Init) (g : option BlsVoteSigner) : option BlsVoteSigner :=
  fold_left (λ g i, (run_init i g).2) l g.

(** The signer holds a key. *)
Definition signer_ok (g : option BlsVoteSigner) : Prop :=
  match g with Some s => is_Some (sk_from_bytes (sk_bytes s)) | None => True end.
(** From [g] on the signer is kept, and it is valid. *)
Definition keeps (g g' : option BlsVoteSigner) : Prop := (is_Some g → g' = g) ∧ (signer_ok g → signer_ok g').

Lemma keeps_refl g : keeps g g.
Proof. by split. Qed.
Lemma keeps_trans g g' g'' : keeps g g' → keeps g' g'' → keeps g g''.
Proof. intros [H1 H2] [H3 H4]. split; [|by auto]. intros Hg. rewrite H3 by (by rewrite (H1 Hg)). by apply H1. Qed.

Lemma keeps_bytes bytes g : keeps g (init_global_bls_signer_from_bytes bytes g).2.
Proof.
  unfold init_global_bls_signer_from_bytes, new_from_bytes, public_key, secret_key.
  destruct (sk_from_bytes bytes) as [sk|] eqn:Hsk; cbn; [|apply keeps_refl].
  rewrite Hsk. cbn. destruct g as [s|]; cbn; [apply keeps_refl|].
  split; [by intros []|]. intros _. cbn. by rewrite Hsk.
Qed.

Lemma keeps_with secret g : keeps g (init_with secret g).2.
Proof. destruct secret; cbn; [apply keeps_bytes|apply keeps_refl..]. Qed.

Lemma keeps_logged r g : keeps g r.2 → keeps g (logged r).2.
Proof. unfold logged. by destruct r.1. Qed.

Lemma keeps_env g : keeps g (init_from_env_if_present fs env g).2.
Proof.
  unfold init_from_env_if_present. destruct (is_bls_signer_initialized g); [apply keeps_refl|].
  apply keeps_logged. repeat case_match; (apply keeps_with || apply keeps_refl).
Qed.

Lemma keeps_init i g : keeps g (run_init i g).2.
Proof.
  destruct i as [bytes|hex_key|path password| |args]; cbn; [apply keeps_bytes|apply keeps_with..|apply keeps_env|].
  unfold start_bls_signer.
  match goal with |- context [logged ?x] => set (r := x) end.
  assert (Hr : keeps g (logged r).2).
  { apply keeps_logged. subst r. repeat case_match; (apply keeps_with || apply keeps_refl). }
  destruct (logged r) as [[] g']; cbn in *; try done. case_match; [|done].
  eapply keeps_trans; [exact Hr|apply keeps_env].
Qed.

Lemma keeps_inits l g : keeps g (run_inits l g).
Proof.
  revert g. induction l as [|i l IH]; intros g; [apply keeps_refl|].
  eapply keeps_trans; [apply (keeps_init i)|apply IH].
Qed.

(** What a valid signer signs verifies with its address. *)
Lemma sign_vote_verifies s data v : sign_vote s data = Ret v →
  Types.data v = data ∧ public_key s = Ret (vote_address v)
  ∧ ∃ pk sig, bls_pk_from_bytes (vote_address v) = Some pk ∧ bls_sig_from_bytes (signature v) = Some sig
    ∧ bls_verify pk (vote_data_hash data) sig = true.
Proof.
  unfold sign_vote, sign_hash, public_key, secret_key. destruct (sk_from_bytes (sk_bytes s)) as [sk|]; [|done].
  cbn. intros Hv. apply (f_equal (λ c, match c with Ret a => Some a | _ => None end)) in Hv. cbn in Hv.
  apply Some_inj in Hv as <-. cbn. split_and!; try done.
  destruct (sk_pk_parses sk) as (pk & Hpk & Hm). destruct (Hm (vote_data_hash data)) as (sig & Hs & Hver). eauto.
Qed.

(** Once a signer is set it signs for ever: no later initialisation changes it,
    every vote carries its address and verifies with it, and it signs every
    vote it is asked for. *)
Theorem signer_fixed l l' data :
  let g := run_inits l None in
  match g with
  | None => sign_vote_with_global data g = Err NotInitialized
  | Some _ => ∃ v, sign_vote_with_global data (run_inits l' g) = Ret v ∧ Types.data v = data
      ∧ global_bls_public_key g = Ret (vote_address v)
      ∧ ∃ pk sig, bls_pk_from_bytes (vote_address v) = Some pk ∧ bls_sig_from_bytes (signature v) = Some sig
        ∧ bls_verify pk (vote_data_hash data) sig = true
  end.
Proof.
  destruct (keeps_inits l None) as [_ Hok]. specialize (Hok I). cbn.
  destruct (run_inits l None) as [s|] eqn:Hg; [|done]. cbn in Hok. destruct Hok as [sk Hsk].
  rewrite (proj1 (keeps_inits l' (Some s)) ltac:(done)).
  destruct (sign_vote s data) as [v| | |] eqn:Hv.
  - exists v. destruct (sign_vote_verifies s data v Hv) as (Hd & Hp & Hver). by split_and!.
  - exfalso. revert Hv. unfold sign_vote, sign_hash, public_key, secret_key. by rewrite Hsk.
  - exfalso. revert Hv. unfold sign_vote, sign_hash, public_key, secret_key. by rewrite Hsk.
  - exfalso. revert Hv. unfold sign_vote, sign_hash, public_key, secret_key. by rewrite Hsk.
Qed.

(** With both variables for a key store set, the key in hexadecimal is not
    tried, even when the key store cannot be opened. *)
Theorem keystore_before_hex path password e :
  env "BSC_BLS_KEYSTORE_PATH" = Some path → env "BSC_BLS_KEYSTORE_PASSWORD" = Some password →
  secret_from_keystore fs path password = Err e →
  init_from_env_if_present fs env None = (Ret tt, None).
Proof.
  intros Hp Hpw He. unfold init_from_env_if_present. cbn. rewrite Hp, Hpw.
  unfold init_global_bls_signer_from_keystore. by rewrite He.
Qed.

End GlobalSigner.

(** ** Concrete libraries and an example *)

Module RefBls.

Import RefHex RefJson RefLibraries.

(** Toy ciphers: one byte made of the key and the vector is added to every byte
    of the text without carry. *)
Definition byte_sum (l : list Z) : Z := fold_left Z.add l 0 mod 256.
Definition xor_stream (k iv l : list Z) : list Z := (λ b, Z.lxor b ((byte_sum k + byte_sum iv) mod 256)) <$> l.
Definition derived (p : string) (s : list Z) (cost n : Z) : list Z :=
  replicate (Z.to_nat n) ((Z.of_nat (String.length p) + byte_sum s + cost) mod 256).
#[export] Instance ref_crypto : KeystoreCrypto := {|
  ScryptParams := Z;
  scrypt_params log_n r p dklen := if log_n <? 64 then Some (log_n + 3 * r + 5 * p) else None;
  scrypt p s q n := Some (derived p s q n);
  pbkdf2_hmac p s c n := derived p s c n;
  sha256 l := be_encode 4 (fold_left (λ acc b, acc * 31 + b) l 7);
  aes_128_ctr := xor_stream; aes_256_ctr := xor_stream;
|}.

Lemma xor_twice k iv l : xor_stream k iv (xor_stream k iv l) = l.
Proof.
  unfold xor_stream. rewrite <- list_fmap_compose. rewrite <- (list_fmap_id l) at 2. apply list_fmap_ext.
  intros _ b _. cbn. by rewrite Z.lxor_assoc, Z.lxor_nilpotent, Z.lxor_0_r.
Qed.
Lemma length_derived p s c n : 0 <= n → zlen (derived p s c n) = n.
Proof. intros. unfold zlen, derived. rewrite length_replicate. lia. Qed.
#[export] Instance ref_crypto_laws : KeystoreLaws ref_crypto.
Proof.
  split; cbn.
  - intros p s q n k Hn [= <-]. by apply length_derived.
  - intros. by apply length_derived.
  - intros l. apply (be_encode_bytes_ok 4).
  - apply xor_twice.
  - apply xor_twice.
  - intros. unfold zlen, xor_stream. by rewrite length_fmap.
  - intros. unfold zlen, xor_stream. by rewrite length_fmap.
Qed.

#[export] Instance json_api : JsonApi := ref_json (λ _, None).
#[export] Instance json_strings : JsonStrings := ref_json_str.

(** Keys and signatures are single digits, however large. *)
#[export] Instance ref_blst : Blst := {|
  SecretKey := N;
  sk_from_bytes l := if (zlen l =? 32) && (0 <? be_decode l) then Some (Z.to_N (be_decode l)) else None;
  sk_to_pk sk := [Z.of_N sk];
  sk_sign sk m := [Z.of_N (sk * Z.to_N m)];
|}.
#[export] Instance ref_blst_laws : BlstLaws ref_blst ref_bls.
Proof.
  assert (Hd : ∀ n, (if Z.of_N n <? 0 then None else Some (Z.to_N (Z.of_N n))) = Some n).
  { intros n. rewrite (proj2 (Z.ltb_ge _ _)) by lia. by rewrite N2Z.id. }
  split. intros sk. exists sk. split; [exact (Hd sk)|]. intros m. exists (sk * Z.to_N m)%N.
  split; [exact (Hd _)|apply N.eqb_refl].
Qed.

Definition example_salt : list Z := [1; 2; 3].
Definition example_iv : list Z := replicate 16 5.
Definition example_dk : list Z := replicate 32 59.
Definition example_secret : list Z := replicate 31 0 ++ [9].
Definition example_ct : list Z := aes_128_ctr (take 16 example_dk) example_iv example_secret.
Definition example_checksum : list Z := sha256 (take 16 (drop 16 example_dk) ++ example_ct).
Definition example_params : json := JObject [("salt", JString (hex_encode example_salt));
  ("n", JNumber 262144); ("r", JNumber 8); ("p", JNumber 1)].
Definition example_keystore : json := JObject [("version", JNumber 4);
  ("crypto", JObject [
    ("kdf", JObject [("function", JString "SCRYPT"); ("params", example_params)]);
    ("checksum", JObject [("message", JString (hex_encode example_checksum))]);
    ("cipher", JObject [("function", JString "aes-128-ctr");
       ("params", JObject [("iv", JString (hex_encode example_iv))]); ("message", JString (hex_encode example_ct))])])].

Definition example_k1 : list Z := take 16 example_dk.
Definition example_k2 : list Z := take 16 (drop 16 example_dk).

Lemma example_keystore_of :
  keystore_of example_keystore (Scrypt 18 8 1) 32 example_salt example_iv example_k1 example_k2 example_ct example_secret.
Proof.
  split.
  - reflexivity.
  - eexists. split; [reflexivity|]. split; [|split].
    + do 3 eexists. do 3 (split; [reflexivity|]). by split.
    + do 3 eexists. do 5 (split; [reflexivity|]). by left.
    + eexists. by split.
  - split_and!; apply (bool_decide_unpack _); vm_compute; exact I.
  - by split_and!.
Qed.

(** The password has six letters; one with seven is refused. *)
Lemma keystore_roundtrip_witness :
  decrypt_eip2335_value example_keystore "secret" = Ret example_secret
  ∧ decrypt_eip2335_value example_keystore "secrets" = Err (InvalidSecret "checksum mismatch").
Proof.
  destruct (keystore_roundtrip (JA:=json_api) (JS:=json_strings) example_keystore (Scrypt 18 8 1) 32 example_salt example_iv
    example_k1 example_k2 example_ct example_secret "secret" example_dk example_keystore_of) as [Hopen Hwrong];
    [by vm_compute|split; [by exists []|done]|].
  split; [exact Hopen|].
  assert (Hk : kdf_key (Scrypt 18 8 1) "secrets" example_salt 32 = Some (replicate 32 60)) by (vm_compute; reflexivity).
  assert (Hp : parts (replicate 32 60) (replicate 16 60) (replicate 16 60)) by (split; [exists []; reflexivity|split; reflexivity]).
  assert (Hne : bool_decide (sha256 (replicate 16 60 ++ example_ct) = sha256 (example_k2 ++ example_ct)) = false) by (vm_compute; reflexivity).
  apply bool_decide_eq_false in Hne. exact (Hwrong "secrets" _ _ _ Hk Hp Hne).
Defined.

End RefBls.
