(* ===== verification/VoteProducer.v ===== *)
(** * Producing votes ([src/node/vote_producer.rs])

    For each new head the node decides whether to vote for it, signs the vote
    with the key of [BlsSigner.v], asks the journal of [VoteJournal.v] and puts
    the vote into the pool and on the network.  The globals of the file are the
    fields of a record; the clock, the environment and what the other parts of
    the node hold come with each head. *)

From Stdlib Require Import String.
From S2P Require Import Prelude Strings Hardforks Types Snapshot HeaderExtra Errors Timing VotePool Attestation VoteJournal Shared BlsSigner.
#[local] Open Scope Z_scope.
#[local] Open Scope list_scope.

Definition DEFAULT_WARMUP_BLOCKS : Z := 40.
Definition TIME_FOR_BROADCAST_MS : Z := 50.
Definition PRODUCED_TARGETS_CAPACITY : Z := 2048.
Definition VOTEADDR_INDEX_CAPACITY : Z := 1024.
(** The window that [under_rules] looks at has 11 heights. *)
Definition RULES_FUEL : nat := 12.

Section Producer.
Context `{FCA : ForkConditionApi} {CS : Type} `{!BscHardforks CS} `{SL : Sealable}.
Context `{BT : Blst} `{KE : Keccak} `{VR : VoteRlp} `{VJ : VoteJson}.
Context `{TL : !OrderedLru unit} `{AL : !OrderedLru (gset VoteAddress)}.
Variable chain_spec : CS.
Variable snapshot_by_hash : B256 → option Snapshot.

(** The globals; [sent] are the votes put into the pool and broadcast, the
    latest first. *)
Record VoteProducer := {
  PRODUCED_TARGETS : OLru unit;
  START_VOTE : bool;
  BLOCKS_SINCE_MINING : Z;
  VOTEADDR_INDEX : OLru (gset VoteAddress);
  journal : VoteJournal;
  sent : list VoteEnvelope;
}.
Definition producer_new (j : VoteJournal) : VoteProducer :=
  {| PRODUCED_TARGETS := olru_new PRODUCED_TARGETS_CAPACITY; START_VOTE := true; BLOCKS_SINCE_MINING := 0;
     VOTEADDR_INDEX := olru_new VOTEADDR_INDEX_CAPACITY; journal := j; sent := [] |}.

Definition set_targets (x : OLru unit) (s : VoteProducer) : VoteProducer :=
  {| PRODUCED_TARGETS := x; START_VOTE := START_VOTE s; BLOCKS_SINCE_MINING := BLOCKS_SINCE_MINING s;
     VOTEADDR_INDEX := VOTEADDR_INDEX s; journal := journal s; sent := sent s |}.
Definition set_start (x : bool) (s : VoteProducer) : VoteProducer :=
  {| PRODUCED_TARGETS := PRODUCED_TARGETS s; START_VOTE := x; BLOCKS_SINCE_MINING := BLOCKS_SINCE_MINING s;
     VOTEADDR_INDEX := VOTEADDR_INDEX s; journal := journal s; sent := sent s |}.
Definition set_blocks (x : Z) (s : VoteProducer) : VoteProducer :=
  {| PRODUCED_TARGETS := PRODUCED_TARGETS s; START_VOTE := START_VOTE s; BLOCKS_SINCE_MINING := x;
     VOTEADDR_INDEX := VOTEADDR_INDEX s; journal := journal s; sent := sent s |}.
Definition set_addr_index (x : OLru (gset VoteAddress)) (s : VoteProducer) : VoteProducer :=
  {| PRODUCED_TARGETS := PRODUCED_TARGETS s; START_VOTE := START_VOTE s; BLOCKS_SINCE_MINING := BLOCKS_SINCE_MINING s;
     VOTEADDR_INDEX := x; journal := journal s; sent := sent s |}.
Definition set_votes (x : VoteJournal * list VoteEnvelope) (s : VoteProducer) : VoteProducer :=
  {| PRODUCED_TARGETS := PRODUCED_TARGETS s; START_VOTE := START_VOTE s; BLOCKS_SINCE_MINING := BLOCKS_SINCE_MINING s;
     VOTEADDR_INDEX := VOTEADDR_INDEX s; journal := x.1; sent := x.2 |}.

Definition set_downloader_active (active : bool) (s : VoteProducer) : VoteProducer := set_start (negb active) s.

(** [var]: the environment variable [BSC_VOTE_WARMUP_BLOCKS]. *)
Definition warmup_blocks (var : option string) : Z :=
  match var ≫= parse_uint 64 with
  | Some v => if 0 <? v then v else DEFAULT_WARMUP_BLOCKS
  | None => DEFAULT_WARMUP_BLOCKS
  end.

(** A new canonical head, with what is read while it is handled: whether
    mining is enabled, the warm-up variable, the time, the signer, the genesis
    header of the cache, and whether the journal can be written. *)
Record HeadEvent := {
  head : Header;
  mining_enabled : bool;
  warmup_var : option string;
  now_ms : Z;
  signer : option BlsVoteSigner;
  genesis_header : option Header;
  mem_only : bool;
  disk_ok : bool;
}.

(** The vote addresses of a snapshot that are not zero. *)
Definition voting_addresses (snap : Snapshot) : gset VoteAddress :=
  list_to_set (List.filter (λ a, negb (a =? 0)) ((λ kv, vote_addr kv.2) <$> map_to_list (validators_map snap))).

Definition address_set (snap : Snapshot) (index : OLru (gset VoteAddress)) : gset VoteAddress * OLru (gset VoteAddress) :=
  match olru_get index (block_hash snap) with
  | (Some s, index) => (s, index)
  | (None, index) => let hs := voting_addresses snap in (hs, olru_put index (block_hash snap) hs)
  end.

Definition saturating_add (a b : Z) : Z := Z.min U64_MAX (a + b).

Definition vote_assemble_ms (h : Header) (snap : Snapshot) : Z :=
  let count := if is_fermi_active_at_timestamp chain_spec (number h) (timestamp h) then K_ANCESTOR_GENERATION_DEPTH else 1 in
  saturating_add (calculate_millisecond_timestamp h) (mul64 (block_interval snap) count).

(** The latest justified block, or genesis before the first attestation. *)
Definition vote_source (snap : Snapshot) (genesis : option Header) : option (Z * B256) :=
  if target_hash (vote_data snap) =? ZERO then (λ g, (number g, hash_slow g)) <$> genesis
  else Some (target_number (vote_data snap), target_hash (vote_data snap)).

(** From the snapshot on. Signing has no effect of its own, so it may come
    before the rules of the journal, which are the first step of
    [produce_vote]. *)
Definition vote_for (ev : HeadEvent) (snap : Snapshot) (s : VoteProducer) : comp Empty_set VoteProducer :=
  match global_bls_public_key (signer ev) with
  | Ret my_vote_addr =>
      let '(set, index) := address_set snap (VOTEADDR_INDEX s) in
      let s := set_addr_index index s in
      if negb (bool_decide (my_vote_addr ∈ set)) then Ret s
      else if vote_assemble_ms (head ev) snap <? saturating_add (now_ms ev) TIME_FOR_BROADCAST_MS then Ret s
      else
        match vote_source snap (genesis_header ev) with
        | None => Ret s
        | Some (source_number, source_hash) =>
            let data := {| source_number := source_number; source_hash := source_hash;
                           target_number := number (head ev); target_hash := hash_slow (head ev) |} in
            match sign_vote_with_global data (signer ev) with
            | Ret envelope =>
                st ← produce_vote RULES_FUEL (mem_only ev) (disk_ok ev) envelope (journal s, sent s);
                Ret (set_votes st s)
            | _ => Ret s
            end
        end
  | _ => Ret s
  end.

Definition maybe_produce_and_broadcast_for_head (ev : HeadEvent) (s : VoteProducer) : comp Empty_set VoteProducer :=
  if negb (mining_enabled ev) then Ret (set_blocks 0 s)
  else if negb (START_VOTE s) then Ret s
  else if negb (is_luban_active_at_block chain_spec (number (head ev))) then Ret s
  else if negb (is_bls_signer_initialized (signer ev)) then Ret s
  else
    let target_hash := hash_slow (head ev) in
    match olru_get (PRODUCED_TARGETS s) target_hash with
    | (Some _, lru) => Ret (set_targets lru s)
    | (None, lru) =>
        let s := set_targets (olru_put lru target_hash tt) s in
        let threshold := warmup_blocks (warmup_var ev) in
        let cnt := add64 (BLOCKS_SINCE_MINING s) 1 in
        if cnt <=? threshold then Ret (set_blocks cnt s)
        else
          let s := set_blocks threshold s in
          match snapshot_by_hash target_hash with
          | Some snap => vote_for ev snap s
          | None => Ret s
          end
    end.

(** A run of the producer. *)
Inductive ProducerEvent := NewHead (ev : HeadEvent) | Downloader (active : bool).
Definition producer_step (e : ProducerEvent) (s : VoteProducer) : comp Empty_set VoteProducer :=
  match e with
  | NewHead ev => maybe_produce_and_broadcast_for_head ev s
  | Downloader active => Ret (set_downloader_active active s)
  end.
Fixpoint producer_run (events : list ProducerEvent) (s : VoteProducer) : comp Empty_set VoteProducer :=
  match events with
  | [] => Ret s
  | e :: events => s ← producer_step e s; producer_run events s
  end.

End Producer.

(** ** What a vote that is sent satisfies *)

Section Genuine.
Context `{FCA : ForkConditionApi} {CS : Type} `{!BscHardforks CS} `{SL : Sealable}.
Context `{BT : Blst} `{KE : Keccak} `{VR : VoteRlp} `{VJ : VoteJson} {VJL : VoteJsonLaws VJ} {BL : Bls} {BLL : BlstLaws BT BL}.
Context `{TL : !OrderedLru unit} `{AL : !OrderedLru (gset VoteAddress)} {ALL : OrderedLruLaws (gset VoteAddress) AL}.
Variable chain_spec : CS.
Variable snapshot_by_hash : B256 → option Snapshot.
(** The provider's snapshot of a block is that of the block. *)
Hypothesis snapshot_of_block : ∀ h s, snapshot_by_hash h = Some s → block_hash s = h.
Notation on_head := (maybe_produce_and_broadcast_for_head chain_spec snapshot_by_hash).

(** A vote for the head of an event: for this block, from the justified block of
    its snapshot, by a voter of the snapshot, signed, and in time. *)
Record genuine (ev : HeadEvent) (v : VoteEnvelope) : Prop := {
  gv_on : mining_enabled ev = true ∧ is_luban_active_at_block chain_spec (number (head ev)) = true;
  gv_target : target_number (data v) = number (head ev) ∧ target_hash (data v) = hash_slow (head ev);
  gv_snapshot : ∃ snap, snapshot_by_hash (hash_slow (head ev)) = Some snap
    ∧ vote_source snap (genesis_header ev) = Some (source_number (data v), source_hash (data v))
    ∧ (∃ a info, validators_map snap !! a = Some info ∧ vote_addr info = vote_address v ∧ vote_addr info ≠ 0)
    ∧ saturating_add (now_ms ev) TIME_FOR_BROADCAST_MS <= vote_assemble_ms chain_spec (head ev) snap;
  gv_valid : valid_vote v;
}.

(** The cached sets are those of the snapshots. *)
Definition index_ok (index : OLru (gset VoteAddress)) : Prop :=
  ∀ k set snap, (k, set) ∈ olru_order index → snapshot_by_hash k = Some snap → set = voting_addresses snap.

Lemma without_subset {V} k (l : list (Z * V)) e : e ∈ without k l → e ∈ l.
Proof. unfold without. by intros [_ He]%list_elem_of_filter. Qed.

Lemma elem_voting_addresses snap a :
  a ∈ voting_addresses snap → a ≠ 0 ∧ ∃ k info, validators_map snap !! k = Some info ∧ vote_addr info = a.
Proof.
  unfold voting_addresses. rewrite elem_of_list_to_set, list_elem_of_In, List.filter_In, <- list_elem_of_In.
  intros [Hin Hz]. apply negb_true_iff, Z.eqb_neq in Hz. split; [done|].
  apply list_elem_of_fmap in Hin as ([k info] & -> & Hin). apply elem_of_map_to_list in Hin. by exists k, info.
Qed.

Lemma address_set_ok h snap index :
  snapshot_by_hash h = Some snap → index_ok index →
  (address_set snap index).1 = voting_addresses snap ∧ index_ok (address_set snap index).2.
Proof.
  intros Hs Hix. pose proof (snapshot_of_block _ _ Hs) as Hh. unfold address_set.
  pose proof (olru_get_value index (block_hash snap)) as Hv. destruct (olru_get_order index (block_hash snap)) as [Ho _].
  destruct (olru_get index (block_hash snap)) as [[set|] index'] eqn:Hg; cbn [fst snd] in *; symmetry in Hv; rewrite Hv in Ho.
  - apply assoc_elem in Hv. split; [apply (Hix (block_hash snap)); [done|by rewrite Hh]|].
    intros k set' snap' Hin Hs'. rewrite Ho in Hin. apply elem_of_cons in Hin as [[= -> ->]|Hin].
    + by apply (Hix (block_hash snap)).
    + apply without_subset in Hin. by apply (Hix k).
  - split; [done|]. intros k set' snap' Hin Hs'.
    rewrite (proj1 (olru_put_order index' _ _)), Ho in Hin. apply elem_of_take in Hin as (i & Hi & _).
    apply list_elem_of_lookup_2 in Hi. apply elem_of_cons in Hi as [[= -> ->]|Hin].
    + rewrite Hh in Hs'. congruence.
    + apply without_subset in Hin. by apply (Hix k).
Qed.

(** One head: either no vote is decided on, or a genuine one, which is left to
    the journal. *)
Definition no_vote (ev : HeadEvent) (s : VoteProducer) : Prop :=
  ∃ s', on_head ev s = Ret s' ∧ index_ok (VOTEADDR_INDEX s') ∧ journal s' = journal s ∧ sent s' = sent s.
Definition a_vote (ev : HeadEvent) (s : VoteProducer) (v : VoteEnvelope) : Prop :=
  genuine ev v ∧ ∃ s', on_head ev s = (st ← produce_vote RULES_FUEL (mem_only ev) (disk_ok ev) v (journal s, sent s);
                                       Ret (set_votes st s')) ∧ index_ok (VOTEADDR_INDEX s').

Lemma on_head_cases ev s : index_ok (VOTEADDR_INDEX s) → no_vote ev s ∨ ∃ v, a_vote ev s v.
Proof.
  intros Hix. unfold no_vote, a_vote, maybe_produce_and_broadcast_for_head.
  destruct (mining_enabled ev) eqn:Hm; cbn [negb]; [|left; by eexists].
  destruct (START_VOTE s); cbn [negb]; [|left; by eexists].
  destruct (is_luban_active_at_block chain_spec (number (head ev))) eqn:Hl; cbn [negb]; [|left; by eexists].
  destruct (is_bls_signer_initialized (signer ev)); cbn [negb]; [|left; by eexists].
  destruct (olru_get (PRODUCED_TARGETS s) (hash_slow (head ev))) as [[u|] lru]; [left; by eexists|].
  case_match; [left; by eexists|].
  destruct (snapshot_by_hash (hash_slow (head ev))) as [snap|] eqn:Hs; [|left; by eexists].
  unfold vote_for. cbn [VOTEADDR_INDEX set_blocks set_targets].
  destruct (global_bls_public_key (signer ev)) as [my| | |] eqn:Hpk; try (left; by eexists).
  destruct (address_set_ok _ _ _ Hs Hix) as [Hset Hix'].
  destruct (address_set snap (VOTEADDR_INDEX s)) as [set index]. cbn [fst snd] in *. subst set.
  destruct (bool_decide (my ∈ voting_addresses snap)) eqn:Hmy; cbn [negb]; [|left; by eexists].
  apply bool_decide_eq_true, elem_voting_addresses in Hmy as (Hz & k & info & Hk & Hinfo).
  destruct (Z.ltb_spec (vote_assemble_ms chain_spec (head ev) snap) (saturating_add (now_ms ev) TIME_FOR_BROADCAST_MS)) as [|Htime];
    [left; by eexists|].
  destruct (vote_source snap (genesis_header ev)) as [[sn sh]|] eqn:Hsrc; [|left; by eexists].
  match goal with |- context [sign_vote_with_global ?d (signer ev)] => set (dt := d) end.
  destruct (sign_vote_with_global dt (signer ev)) as [v| | |] eqn:Hv; try (left; by eexists).
  right. exists v. split; [|by eexists].
  unfold sign_vote_with_global, global_bls_public_key, get_global_bls_signer in Hv, Hpk.
  destruct (signer ev) as [sg|]; [|done]. cbn [ok_or mbind comp_bind] in Hv, Hpk.
  destruct (sign_vote_verifies sg dt v Hv) as (Hd & Hp & Hver). rewrite Hpk in Hp.
  apply (f_equal (λ c, match c with Ret a => Some a | _ => None end)) in Hp. cbn in Hp. apply Some_inj in Hp.
  split; [done|by rewrite Hd| |].
  - exists snap. rewrite Hd. split_and!; [done|done| |done]. exists k, info. by rewrite Hinfo.
  - unfold valid_vote. by rewrite Hd.
Qed.

(** ** Runs *)

(** The heights of a head, its justified block and genesis. *)
Definition event_ok (e : ProducerEvent) : Prop :=
  match e with
  | Downloader _ => True
  | NewHead ev => 0 < number (head ev) < 2 ^ 63
      ∧ (∀ snap, snapshot_by_hash (hash_slow (head ev)) = Some snap → target_hash (vote_data snap) ≠ ZERO →
           0 <= target_number (vote_data snap) < number (head ev))
      ∧ ∀ g, genesis_header ev = Some g → number g = 0
  end.

(** The votes of a head are written to the journal's file, and this succeeds. *)
Definition on_disk (e : ProducerEvent) : Prop :=
  match e with Downloader _ => True | NewHead ev => mem_only ev = false ∧ disk_ok ev = true end.

(** The rules of the journal are total, whatever becomes of the file. *)
Lemma produce_vote_total mem io v st :
  vote_heights_ok (data v) → ∃ st', produce_vote RULES_FUEL mem io v st = Ret st' ∧ (st'.2 = st.2 ∨ st'.2 = v :: st.2).
Proof.
  intros Hh. destruct st as [j l]. unfold produce_vote, RULES_FUEL.
  destruct (under_rules_ok j (data v) Hh) as ([] & -> & _); cbn; eexists; (split; [done|]); by (left + right).
Qed.

Record producer_inv (events : list ProducerEvent) (s : VoteProducer) : Prop := {
  pi_journal : Forall on_disk events → journal_inv (journal s, sent s);
  pi_index : index_ok (VOTEADDR_INDEX s);
  pi_sent : ∀ v, v ∈ sent s → vote_heights_ok (data v) ∧ ∃ ev, NewHead ev ∈ events ∧ genuine ev v;
}.

Lemma producer_inv_new {TLL : OrderedLruLaws unit TL} : producer_inv [] (producer_new (journal_new [])).
Proof.
  split; [intros _; apply journal_inv_new| |].
  - intros k set snap Hin. cbn in Hin. rewrite (proj1 (olru_new_order _)) in Hin. by apply elem_of_nil in Hin.
  - intros v Hv. by apply elem_of_nil in Hv.
Qed.

Lemma genuine_heights ev v : event_ok (NewHead ev) → genuine ev v → vote_heights_ok (data v).
Proof.
  intros (Hn & Hj & Hg) [_ [Ht _] (snap & Hs & Hsrc & _) _]. unfold vote_heights_ok. rewrite Ht.
  unfold vote_source in Hsrc. destruct (Z.eqb_spec (target_hash (vote_data snap)) ZERO) as [|Hz].
  - destruct (genesis_header ev) as [g|]; [|done]. cbn in Hsrc. injection Hsrc as Hsn _. rewrite <- Hsn, (Hg g eq_refl). lia.
  - injection Hsrc as Hsn _. rewrite <- Hsn. pose proof (Hj snap Hs Hz). lia.
Qed.

Lemma producer_step_ok events e s :
  event_ok e → producer_inv events s →
  ∃ s', producer_step chain_spec snapshot_by_hash e s = Ret s' ∧ producer_inv (events ++ [e]) s'.
Proof.
  intros He [Hj Hix Hsent].
  assert (Hold : ∀ v, v ∈ sent s → vote_heights_ok (data v) ∧ ∃ ev, NewHead ev ∈ events ++ [e] ∧ genuine ev v).
  { intros v Hv. destruct (Hsent v Hv) as (? & ev & ? & ?). split; [done|]. exists ev. split; [|done].
    apply elem_of_app. by left. }
  assert (Hpre : Forall on_disk (events ++ [e]) → journal_inv (journal s, sent s)) by (intros [? _]%Forall_app; by apply Hj).
  destruct e as [ev|active]; [|eexists; split; [done|]; by split]. cbn [producer_step].
  destruct (on_head_cases ev s Hix) as [(s' & Hs & Hix' & Hjj & Hss)|(v & Hgen & s' & Hs & Hix')].
  - exists s'. split; [done|]. split; [by rewrite Hjj, Hss|done|by rewrite Hss].
  - pose proof (genuine_heights ev v He Hgen) as Hh.
    destruct (produce_vote_total (mem_only ev) (disk_ok ev) v (journal s, sent s) Hh) as (st & Hp & Hst).
    rewrite Hp in Hs. cbn in Hs. exists (set_votes st s'). split; [done|]. destruct st as [j' sent'].
    split; [|done|].
    { intros Hdisk. pose proof (Hpre Hdisk) as Hinv. apply Forall_app in Hdisk as [_ [[Hm Hd] _]%Forall_cons_iff].
      rewrite Hm, Hd in Hp. destruct (produce_vote_ok v (journal s, sent s) Hh Hinv) as (st2 & Hp2 & Hinv2 & _);
        [intros w Hw; by apply Hsent|]. unfold RULES_FUEL in Hp. rewrite Hp2 in Hp. by injection Hp as ->. }
    cbn [sent set_votes snd] in *. intros w Hw. destruct Hst as [->|Hc]; [by apply Hold|].
    rewrite Hc in Hw. apply elem_of_cons in Hw as [->|Hw]; [|by apply Hold].
    split; [done|]. exists ev. split; [|done]. apply elem_of_app. right. by left.
Qed.

Lemma producer_run_ok events' events s :
  Forall event_ok events' → producer_inv events s →
  ∃ s', producer_run chain_spec snapshot_by_hash events' s = Ret s' ∧ producer_inv (events ++ events') s'.
Proof.
  intros Hev. revert events s. induction Hev as [|e l He _ IH]; intros events s Hinv.
  - exists s. split; [done|]. by rewrite app_nil_r.
  - cbn [producer_run]. destruct (producer_step_ok events e s He Hinv) as (s1 & -> & Hinv1).
    cbn [mbind comp_bind]. destruct (IH (events ++ [e]) s1 Hinv1) as (s' & Hr & Hi). exists s'. split; [done|].
    by rewrite <- app_assoc in Hi.
Qed.


(** During the warm-up no head makes the node vote. *)
Definition warms_up (w : Z) (e : ProducerEvent) : Prop :=
  match e with NewHead ev => warmup_blocks (warmup_var ev) = w | Downloader _ => True end.

Lemma warmup_step w e s s' :
  warms_up w e → 0 <= BLOCKS_SINCE_MINING s → BLOCKS_SINCE_MINING s + 1 <= w < U64_MAX →
  producer_step chain_spec snapshot_by_hash e s = Ret s' →
  sent s' = sent s ∧ journal s' = journal s ∧ 0 <= BLOCKS_SINCE_MINING s' <= BLOCKS_SINCE_MINING s + 1.
Proof.
  intros Hw H0 Hb Hrun. destruct e as [ev|active]; [|injection Hrun as <-; cbn; split_and!; (done || lia)].
  cbn [producer_step warms_up] in *. unfold maybe_produce_and_broadcast_for_head in Hrun. rewrite Hw in Hrun.
  assert (Hadd : add64 (BLOCKS_SINCE_MINING s) 1 = BLOCKS_SINCE_MINING s + 1) by (apply add64_small; unfold is_u, U64_MAX in *; lia).
  repeat (case_match; [injection Hrun as <-; cbn; split_and!; (done || lia)|]).
  destruct (olru_get (PRODUCED_TARGETS s) (hash_slow (head ev))) as [[u|] lru];
    [injection Hrun as <-; cbn; split_and!; (done || lia)|].
  cbn [BLOCKS_SINCE_MINING set_targets] in Hrun. rewrite Hadd in Hrun.
  rewrite (proj2 (Z.leb_le _ w)) in Hrun by lia. injection Hrun as <-. cbn. split_and!; (done || lia).
Qed.

Theorem warmup_holds w events s s' :
  Forall (warms_up w) events → 0 <= BLOCKS_SINCE_MINING s → BLOCKS_SINCE_MINING s + zlen events <= w < U64_MAX →
  producer_run chain_spec snapshot_by_hash events s = Ret s' → sent s' = sent s ∧ journal s' = journal s.
Proof.
  intros Hev. revert s. induction Hev as [|e events He _ IH]; intros s H0 Hb Hrun; [by injection Hrun as <-|].
  cbn [producer_run] in Hrun. apply bind_Ret_inv in Hrun as (s1 & Hs1 & Hrun).
  rewrite zlen_cons in Hb. pose proof (zlen_nonneg events).
  destruct (warmup_step w e s s1 He H0 ltac:(lia) Hs1) as (Hse & Hjo & Hbl).
  destruct (IH s1 ltac:(lia) ltac:(lia) Hrun) as [-> ->]. done.
Qed.

(** A head marks its hash as produced before the warm-up is looked at and the
    snapshot is found: when no vote comes of it, none comes of the same head
    later either, although the cache is meant to hold the targets voted for. *)
Theorem target_marked_without_vote {TLL : OrderedLruLaws unit TL} ev ev' s s' :
  0 < olru_capacity (PRODUCED_TARGETS s) →
  (olru_get (PRODUCED_TARGETS s) (hash_slow (head ev))).1 = None →
  mining_enabled ev = true → START_VOTE s = true → is_luban_active_at_block chain_spec (number (head ev)) = true →
  is_bls_signer_initialized (signer ev) = true →
  snapshot_by_hash (hash_slow (head ev)) = None →
  on_head ev s = Ret s' → head ev' = head ev → mining_enabled ev' = true →
  sent s' = sent s ∧ ∃ s'', on_head ev' s' = Ret s'' ∧ sent s'' = sent s ∧ journal s'' = journal s.
Proof.
  intros Hcap Hnew Hm Hst Hl Hsg Hsnap Hrun Hhd Hm'.
  unfold maybe_produce_and_broadcast_for_head in Hrun. rewrite Hm, Hst, Hl, Hsg in Hrun. cbn [negb] in Hrun.
  pose proof (olru_get_order (PRODUCED_TARGETS s) (hash_slow (head ev))) as [_ Hgc].
  destruct (olru_get (PRODUCED_TARGETS s) (hash_slow (head ev))) as [[u|] lru]; [done|]. cbn [fst snd] in *.
  set (lru' := olru_put lru (hash_slow (head ev)) tt) in *.
  assert (Hs' : sent s' = sent s ∧ journal s' = journal s ∧ PRODUCED_TARGETS s' = lru' ∧ START_VOTE s' = true).
  { rewrite Hsnap in Hrun. case_match; injection Hrun as <-; cbn; by rewrite ?Hst. }
  destruct Hs' as (Hse & Hjo & Hta & Hst'). split; [done|].
  unfold maybe_produce_and_broadcast_for_head. rewrite Hm', Hst', Hhd, Hl, Hta. cbn [negb].
  destruct (is_bls_signer_initialized (signer ev')); cbn [negb]; [|by eexists].
  pose proof (olru_get_value lru' (hash_slow (head ev))) as Hv.
  assert (Ha : assoc (olru_order lru') (hash_slow (head ev)) = Some tt).
  { subst lru'. rewrite (proj1 (olru_put_order lru _ _)). rewrite Hgc.
    destruct (Z.to_nat (olru_capacity (PRODUCED_TARGETS s))) eqn:Hn; [lia|]. cbn [take]. rewrite assoc_cons. by rewrite decide_True. }
  rewrite Ha in Hv. destruct (olru_get lru' (hash_slow (head ev))) as [o lru'']. cbn in Hv. subst o. by eexists.
Qed.

End Genuine.

(** ** An example *)

Module ProducerExample.

Import RefHardforks RefLibraries RefLru RefBls.
#[local] Existing Instances VoteJournal.ref_json VoteJournal.ref_json_laws.
#[local] Instance number_hash : Sealable := λ h, number h + 5000000000.

(** The signer's key is 9, and so is its vote address. *)
Definition example_signer : option BlsVoteSigner := Some {| sk_bytes := example_secret |}.
Definition example_head (n : Z) : Header := test_header n 1768357800 (n - 1 + 5000000000).
Definition at_head (n : Z) : HeadEvent :=
  {| head := example_head n; mining_enabled := true; warmup_var := Some "1"%string; now_ms := 1768357800100;
     signer := example_signer; genesis_header := None; mem_only := false; disk_ok := true |}.

(** The validator with address [a] and vote address [v] is the only one. *)
Definition one_validator (h a v : Z) : Snapshot :=
  {| epoch_num := 1000; block_number := h - 5000000000; block_hash := h; validators := [a];
     validators_map := {[ a := {| v_index := 1; vote_addr := v |} ]}; recent_proposers := ∅;
     vote_data := {| source_number := 69999990; source_hash := 5069999990; target_number := 69999998; target_hash := 5069999998 |};
     turn_length := Some 8; block_interval := 450 |}.
(** The validator set changes with the block 70000002: before it the voter is 8,
    from it on 9. *)
Definition example_snapshots (h : B256) : option Snapshot :=
  if h <? 5070000002 then Some (one_validator h 1 8) else Some (one_validator h 2 9).

Definition example_events : list ProducerEvent :=
  [NewHead (at_head 70000000); NewHead (at_head 70000001); Downloader true; NewHead (at_head 70000003); Downloader false;
   NewHead (at_head 70000002); NewHead (at_head 70000002)].

Definition example_run : comp Empty_set (VoteProducer (TL:=ref_ordered_lru unit) (AL:=ref_ordered_lru (gset VoteAddress))) :=
  producer_run testnet_spec example_snapshots example_events (producer_new (journal_new [])).

Example example_votes :
  (s ← example_run; Ret ((λ v, (vote_address v, source_number (data v), target_number (data v))) <$> sent s))
  = Ret [(9, 69999998, 70000002)].
Proof. vm_compute. reflexivity. Qed.

(** At the block that changes the validators the producer goes by the snapshot
    of the block itself; but attestations for it are assembled and verified
    with the snapshot of its parent, which does not know this voter, and the
    voter that it does know sends nothing. *)
Example voter_of_the_wrong_set :
  in_snapshot (one_validator 5070000001 1 8) 9 = false ∧ in_snapshot (one_validator 5070000001 1 8) 8 = true
  ∧ example_snapshots (parent_hash (example_head 70000002)) = Some (one_validator 5070000001 1 8).
Proof. by vm_compute. Qed.

Lemma example_events_ok : Forall (event_ok example_snapshots) example_events.
Proof.
  assert (Hhead : ∀ n, 69999998 < n < 80000000 → event_ok example_snapshots (NewHead (at_head n))).
  { intros n Hn. cbn. split_and!; [lia|lia| |done]. intros snap Hs _. unfold example_snapshots in Hs.
    case_match; injection Hs as <-; cbn; lia. }
  repeat (apply List.Forall_cons; [first [exact I|apply Hhead; lia]|]). apply List.Forall_nil.
Qed.


End ProducerExample.
