(* ===== verification/Simulation.v ===== *)
(** * Simulating transactions over RPC ([src/rpc/])

    [eth_simulateTransactionAt] ([simulate_transaction_at.rs]) runs a
    transaction at a position inside a block, [keepers_simulateAtLatestState]
    ([keepers.rs]) runs a bundle on the latest state; both use the executor of
    [Execution.v] in the mode of a verifier.  [tx_input.rs] reads their
    transactions from JSON, and the methods of [flashsimv2.rs] only answer with
    errors. *)

From Stdlib Require Import String.
From S2P Require Import Prelude Strings Hardforks Types Snapshot HeaderExtra Errors Timing VotePool Attestation SystemContracts Evm HertzPatch Execution Validation Mining Building NodeBuilder.
#[local] Open Scope string_scope.
#[local] Open Scope Z_scope.
#[local] Open Scope list_scope.

(** ** Input ([tx_input.rs]) *)

Inductive SimulationTxInput (TxReq : Type) :=
| Raw (raw_tx : list Z)
| Request (request : TxReq).
Arguments Raw {TxReq} raw_tx.
Arguments Request {TxReq} request.

(** Objects of [serde_json], and the codecs of [Bytes] and of the request. *)
Class TxInputJson (TxReq : Type) `(JsonApi) := {
  json_as_object : Value → option (gmap string Value);
  json_object : gmap string Value → Value;
  bytes_serialize : list Z → Value;
  bytes_deserialize : Value → option (list Z);
  request_serialize : TxReq → Value;
  request_deserialize : Value → option TxReq;
}.
(** A request is written as an object of its own fields. *)
Class TxInputJsonLaws (TxReq : Type) `(TxInputJson TxReq) : Prop := {
  object_roundtrip m : json_as_object (json_object m) = Some m;
  bytes_roundtrip l : bytes_ok l → bytes_deserialize (bytes_serialize l) = Some l;
  request_fields r :
    ∃ m, request_serialize r = json_object m ∧ m !! "rawTx" = None ∧ request_deserialize (json_object m) = Some r;
}.

Inductive TxInputError := RawTxCombined | Custom.

Section Input.
Context {TxReq : Type} `{TJ : TxInputJson TxReq}.

Definition serialize (self : SimulationTxInput TxReq) : Value :=
  match self with
  | Raw raw_tx => json_object {[ "rawTx" := bytes_serialize raw_tx ]}
  | Request request => request_serialize request
  end.

Definition deserialize (value : Value) : comp TxInputError (SimulationTxInput TxReq) :=
  match json_as_object value with
  | Some object =>
      match object !! "rawTx" with
      | Some raw_tx =>
          let object := delete "rawTx" object in
          if negb (bool_decide (object = ∅)) then Err RawTxCombined
          else raw ← ok_or (bytes_deserialize raw_tx) Custom; Ret (Raw raw)
      | None => request ← ok_or (request_deserialize (json_object object)) Custom; Ret (Request request)
      end
  | None => request ← ok_or (request_deserialize value) Custom; Ret (Request request)
  end.
End Input.

(** ** Results *)

Inductive SimulateTransactionAtStatus := Success | Revert | Halt.

(** [alloy_rpc_types::Log]; the fields left at their default are not listed. *)
Record Log (LogData : Type) := {
  log_inner : LogData;
  transaction_hash : option B256;
  transaction_index : option Z;
  log_block_number : option Z;
  log_block_timestamp : option Z;
}.
Arguments log_inner {LogData} _.
Arguments transaction_hash {LogData} _.
Arguments transaction_index {LogData} _.
Arguments log_block_number {LogData} _.
Arguments log_block_timestamp {LogData} _.

Record SimulateTransactionAtResult (LogData : Type) := {
  status : SimulateTransactionAtStatus;
  gas_used : Z;
  logs : list (Log LogData);
  return_data : list Z;
  error : option string;
}.
Arguments status {LogData} _.
Arguments gas_used {LogData} _.
Arguments logs {LogData} _.
Arguments return_data {LogData} _.
Arguments error {LogData} _.

Definition REVERTED : string := "execution reverted: ".
Fixpoint strip_prefix (prefix s : string) : option string :=
  match prefix, s with
  | EmptyString, _ => Some s
  | String a prefix, String b s => if Ascii.eqb a b then strip_prefix prefix s else None
  | _, EmptyString => None
  end.
Definition normalize_error_message (st : SimulateTransactionAtStatus) (message : string) : string :=
  match st with
  | Revert => match strip_prefix REVERTED message with Some stripped => stripped | None => message end
  | _ => message
  end.

(** ** The libraries *)

(** [revm]'s [cfg_env] flags that the methods set. *)
Record CfgFlags := {
  disable_eip3607 : bool;
  disable_nonce_check : bool;
  disable_base_fee : bool;
  disable_block_gas_limit : bool;
}.

(** [ExecutionResult] taken apart. *)
Inductive ResultView (LogData HaltReason : Type) :=
| ExecSuccess (data : list Z) (raw_logs : list LogData)
| ExecRevert (data : list Z)
| ExecHalt (reason : HaltReason).
Arguments ExecSuccess {LogData HaltReason} data raw_logs.
Arguments ExecRevert {LogData HaltReason} data.
Arguments ExecHalt {LogData HaltReason} reason.

(** The machine with the flags of the simulation, which gets the sender of a
    transaction beside it. *)
Class SimulationEvm (EV : Evm) := {
  LogData : Type;
  HaltReason : Type;
  transact_recovered : CfgFlags → BlockEnv → Db → TransactionSigned → Address → option (ExecutionResult * Diff);
  view_result : ExecutionResult → ResultView LogData HaltReason;
}.

Inductive BlockId := IdPending | IdLatest | IdHash (hash : B256) | IdNumber (n : Z).
Definition is_pending (id : BlockId) : bool := match id with IdPending => true | _ => false end.
Record RecoveredBlock := { recovered_header : Header; transactions_recovered : list (TransactionSigned * Address) }.

(** [TransactionRequest] and [simulate::resolve_transaction] of reth, which
    fills the missing fields of a request from the state; [inr] is the text of
    its error. *)
Class RequestApi `(EV : Evm) := {
  TransactionRequest : Type;
  request_gas : TransactionRequest → option Z;
  from_recovered_transaction : TransactionSigned → Address → TransactionRequest;
  decode_2718_exact : list Z → option TransactionSigned;
  resolve_transaction : TransactionRequest → Z → Z → Z → Db → (TransactionSigned * Address) + string;
}.
(** The gas limit is the one of the request or else the default. *)
Class RequestLaws `(EV : Evm) (RA : RequestApi EV) : Prop := {
  resolve_gas r gas fee id d t a :
    resolve_transaction r gas fee id d = inl (t, a) → tx_gas_limit (tx t) = default gas (request_gas r);
  request_gas_u64 r g : request_gas r = Some g → is_u 64 g;
}.

Inductive RpcError :=
| HeaderNotFound (id : BlockId)
| InvalidParams (message : string)
| EthApi
| ExecutionFailed (e : BscBlockExecutionError).

(** ** The methods *)

Section Simulation.
Context `{FCA : ForkConditionApi} {CS : Type} `{!BscHardforks CS}.
Context `{SL : Sealable} `{AR : AttestationRlp} `{KE : Keccak} `{VR : VoteRlp} `{BL : Bls}.
Context `{HL : !LruApi Header} `{PL : !LruApi Address} `{RL : Rlp} `{SE : Secp256k1}.
Context `{TH : TxHashing} `{DA : DynAbi} `{AD : AddressDisplay} `{EV : Evm} `{SM : !SimulationEvm EV} `{RA : !RequestApi EV}.
Context `{VL : !LruApi (list Address * list VoteAddress)} `{TL : !LruApi Z}.
Variable self : Parlia CS.
Variable chain_id : Z.
Variable snapshot_by_hash : B256 → option Snapshot.
Variable header_by_hash_from_provider : B256 → option Header.
Variable header_by_number_from_provider : Z → option Header.
Variable reader : HeaderCacheReader.
Variable embedded : string → option Bytecode.
Variable breathe_interval : option Z.
Variable recover_signer : TransactionSigned → option Address.
Variable history_storage : Address * Bytecode.
Variable spurious_dragon : bool.
Variable fuel : nat.
Variable proposers : LruMap Address.
(** The global caches of the epoch. *)
Variable epoch_validators : LruMap (list Address * list VoteAddress).
Variable epoch_turn_lengths : LruMap Z.
(** reth's [eth_api]; [None] is an error of the provider. *)
Variable block_hash_for_id : BlockId → option (option B256).
Variable evm_env_at : BlockId → option (CfgEnv * BlockEnv).
Variable recovered_block : BlockId → option (option RecoveredBlock).
Variable state_at_block : B256 → option Db.
Variable call_gas_limit : Z.
(** The texts of errors. *)
Variable error_text : BscBlockExecutionError → string.
Variable revert_text : list Z → string.
Variable halt_text : HaltReason → Z → string.

#[local] Notation Executor := (@Executor EV VL TL).
#[local] Notation Result := (SimulateTransactionAtResult LogData).
Implicit Types (s : Executor) (d : Db).

Definition set_env_gas_limit (limit : Z) (e : BlockEnv) : BlockEnv :=
  {| block_number := block_number e; block_beneficiary := block_beneficiary e; block_timestamp := block_timestamp e;
     env_difficulty := env_difficulty e; env_prevrandao := env_prevrandao e; block_gas_limit := limit;
     env_basefee := env_basefee e; env_blob_excess_gas_and_price := env_blob_excess_gas_and_price e |}.

Definition at_flags : CfgFlags :=
  {| disable_eip3607 := false; disable_nonce_check := false; disable_base_fee := false; disable_block_gas_limit := true |}.
Definition latest_flags : CfgFlags :=
  {| disable_eip3607 := true; disable_nonce_check := true; disable_base_fee := true; disable_block_gas_limit := true |}.

(** [create_executor] with the context of a block. *)
Definition executor_new (d : Db) : Executor :=
  {| db := d; block_gas_used := 0; receipts := []; system_txs := []; assembled_system_txs := [];
     current_validators := None; max_elected_validators := None; validators_election_info := None;
     snap := None; header := None; parent_header := None; shared_validators := None; shared_turn_length := None;
     validator_cache := epoch_validators; turn_length_cache := epoch_turn_lengths; onchain_nodeids := None |}.

Definition pre_execution (e : BlockEnv) (h : Header) (s : Executor) : exec (unit * Executor) :=
  apply_pre_execution_changes self chain_id snapshot_by_hash header_by_hash_from_provider header_by_number_from_provider
    reader embedded breathe_interval history_storage e (parent_hash h) (Some h) false
    spurious_dragon fuel proposers s.

(** [execute_transaction_with_result_closure]: the gas, what the closure is
    called with, and the executor, also after an error. *)
Definition execute_with_result (flags : CfgFlags) (e : BlockEnv) (t : TransactionSigned) (signer : Address) (s : Executor)
    : exec (Z * option ExecutionResult) * Executor :=
  if is_system_transaction (tx t) signer (block_beneficiary e) then
    (Ret (0, None), set_txs (system_txs s ++ [t]) (assembled_system_txs s) s)
  else
    match patch_before_tx (chain_id =? 56) t (db s) with
    | Ret d =>
        let s := set_db d s in
        let block_available_gas := sub64 (block_gas_limit e) (block_gas_used s) in
        if block_available_gas <? tx_gas_limit (tx t)
        then (Err (Msg "transaction gas limit is more than available block gas"), s)
        else
          match transact_recovered flags e d t signer with
          | None => (Err evm_error, s)
          | Some (result, state) =>
              let gas := add64 (block_gas_used s) (result_gas_used result) in
              let s := push_receipt (commit state d) gas (build_receipt t result gas) s in
              match patch_after_tx (chain_id =? 56) t (db s) with
              | Ret d => (Ret (result_gas_used result, Some result), set_db d s)
              | Err er => (Err er, s)
              | Panic => (Panic, s)
              | OutOfFuel => (OutOfFuel, s)
              end
          end
    | Err er => (Err er, s)
    | Panic => (Panic, s)
    | OutOfFuel => (OutOfFuel, s)
    end.

Definition failed (message : string) : Result :=
  {| status := Halt; gas_used := 0; logs := []; return_data := []; error := Some message |}.

Definition simulated (t : TransactionSigned) (index : Z) (h : Header) (result : ExecutionResult) : Result :=
  match view_result result with
  | ExecSuccess data raw_logs =>
      {| status := Success; gas_used := result_gas_used result;
         logs := (λ l, {| log_inner := l; transaction_hash := Some (trie_hash t); transaction_index := Some index;
                          log_block_number := Some (number h); log_block_timestamp := Some (timestamp h) |}) <$> raw_logs;
         return_data := data; error := None |}
  | ExecRevert data =>
      {| status := Revert; gas_used := result_gas_used result; logs := []; return_data := data;
         error := Some (normalize_error_message Revert (revert_text data)) |}
  | ExecHalt reason =>
      {| status := Halt; gas_used := result_gas_used result; logs := []; return_data := [];
         error := Some (halt_text reason (tx_gas_limit (tx t))) |}
  end.

Definition decode_candidate_transaction (transaction : SimulationTxInput TransactionRequest)
    : comp RpcError TransactionRequest :=
  match transaction with
  | Request request => Ret request
  | Raw raw_tx =>
      t ← ok_or (decode_2718_exact raw_tx) (InvalidParams "invalid signed transaction");
      sender ← ok_or (recover_signer t) (InvalidParams "invalid signer for signed transaction");
      Ret (from_recovered_transaction t sender)
  end.

(** One request on an executor; [missing] is the message for a transaction
    that the executor only sets aside. *)
Definition simulate_request (flags : CfgFlags) (e : BlockEnv) (h : Header) (missing : string) (index default_gas : Z)
    (request : TransactionRequest) (s : Executor) : comp RpcError (Result * Executor) :=
  match resolve_transaction request default_gas (env_basefee e) chain_id (db s) with
  | inr message => Ret (failed message, s)
  | inl (t, signer) =>
      match execute_with_result flags e t signer s with
      | (Ret (_, Some result), s) => Ret (simulated t index h result, s)
      | (Ret (_, None), s) => Ret (failed missing, s)
      | (Err er, s) => Ret (failed (error_text er), s)
      | (Panic, _) => Panic
      | (OutOfFuel, _) => OutOfFuel
      end
  end.

(** *** [eth_simulateTransactionAt] *)

Fixpoint execute_prefix (e : BlockEnv) (txs : list (TransactionSigned * Address)) (gas_used_so_far : Z) (s : Executor)
    : exec (Z * Executor) :=
  match txs with
  | [] => Ret (gas_used_so_far, s)
  | (t, signer) :: txs =>
      match execute_with_result at_flags e t signer s with
      | (r, s) => '(gas, _) ← r; execute_prefix e txs (Z.min U64_MAX (gas_used_so_far + gas)) s
      end
  end.

Definition simulate_in_block (e : BlockEnv) (block : RecoveredBlock) (tx_index : nat) (request : TransactionRequest)
    (d : Db) : comp RpcError Result :=
  let h := recovered_header block in
  let e := set_env_gas_limit U64_MAX e in
  '(_, s) ← map_err ExecutionFailed (pre_execution e h (executor_new d));
  '(gas_used_so_far, s) ← map_err ExecutionFailed (execute_prefix e (take tx_index (transactions_recovered block)) 0 s);
  let remaining_block_gas := Z.max 0 (gas_limit h - gas_used_so_far) in
  let default_gas_limit := if 0 <? call_gas_limit then Z.min remaining_block_gas call_gas_limit else remaining_block_gas in
  '(result, _) ← simulate_request at_flags e h "missing execution result for candidate transaction" (Z.of_nat tx_index)
                   default_gas_limit request s;
  Ret result.

Definition simulate_transaction_at (block_id : BlockId) (transaction_index : Z)
    (transaction : SimulationTxInput TransactionRequest) : comp RpcError Result :=
  target_block ← if is_pending block_id then Ret block_id
                 else match block_hash_for_id block_id with
                      | Some (Some hash) => Ret (IdHash hash)
                      | _ => Err (HeaderNotFound block_id)
                      end;
  '(_, e) ← ok_or (evm_env_at target_block) EthApi;
  found ← ok_or (recovered_block target_block) EthApi;
  block ← ok_or found (HeaderNotFound block_id);
  let tx_count := zlen (transactions_recovered block) in
  if tx_count <? transaction_index then Err (InvalidParams "transactionIndex exceeds block transaction count")
  else
    request ← decode_candidate_transaction transaction;
    d ← ok_or (state_at_block (parent_hash (recovered_header block))) EthApi;
    simulate_in_block e block (Z.to_nat transaction_index) request d.

(** *** [keepers_simulateAtLatestState] *)

Definition saturating_sum (l : list Z) : Z := foldl (λ a b, Z.min U64_MAX (a + b)) 0 l.
Definition specified_gas (calls : list TransactionRequest) : list Z := omap request_gas calls.

Definition lenient_block_gas_limit (block_gas_limit : Z) (calls : list TransactionRequest) : Z :=
  Z.max block_gas_limit (saturating_sum (specified_gas calls)).
Definition default_gas_limit (block_gas_limit : Z) (calls : list TransactionRequest) : Z :=
  let total_specified_gas := saturating_sum (specified_gas calls) in
  let txs_without_gas_limit := zlen (filter (λ c, request_gas c = None) calls) in
  if 0 <? txs_without_gas_limit then Z.max 0 (block_gas_limit - total_specified_gas) / txs_without_gas_limit else 0.

Fixpoint run_calls (e : BlockEnv) (h : Header) (default_gas index : Z) (calls : list TransactionRequest) (s : Executor)
    : comp RpcError (list Result * Executor) :=
  match calls with
  | [] => Ret ([], s)
  | call :: calls =>
      '(output, s) ← simulate_request latest_flags e h "missing execution result for bundle transaction" index default_gas
                       call s;
      '(outputs, s) ← run_calls e h default_gas (index + 1) calls s;
      Ret (output :: outputs, s)
  end.

Definition simulate_at_latest_state (bundle : list (SimulationTxInput TransactionRequest)) : comp RpcError (list Result) :=
  calls ← mapM decode_candidate_transaction bundle;
  hash ← match block_hash_for_id IdLatest with
         | Some (Some hash) => Ret hash
         | _ => Err (HeaderNotFound IdLatest)
         end;
  '(_, e) ← ok_or (evm_env_at (IdHash hash)) EthApi;
  found ← ok_or (recovered_block (IdHash hash)) EthApi;
  block ← ok_or found (HeaderNotFound IdLatest);
  let h := recovered_header block in
  let block_gas_limit := lenient_block_gas_limit (gas_limit h) calls in
  let default_gas := default_gas_limit block_gas_limit calls in
  let e := set_env_gas_limit block_gas_limit e in
  d ← ok_or (state_at_block hash) EthApi;
  '(_, s) ← map_err ExecutionFailed (pre_execution e h (executor_new d));
  '(outputs, _) ← run_calls e h default_gas 0 calls s;
  Ret outputs.

End Simulation.

(** *** [flashsimv2] *)

Definition ERR_NOT_READY : Z := -39102.
Definition ERR_BAD_FILTER : Z := -39105.
Record FilteredLogsParamsV1 := { topic0s : list B256; addresses : option (list Address) }.
Definition not_ready {A} : comp Z A := Err ERR_NOT_READY.
Definition bad_filter {A} : comp Z A := Err ERR_BAD_FILTER.
Definition subscribe_filtered_logs_v1 (params : FilteredLogsParamsV1) : comp Z string :=
  if bool_decide (topic0s params = []) then bad_filter else not_ready.

(** * Proofs *)

Section InputProofs.
Context {TxReq : Type} `{TL : TxInputJsonLaws TxReq}.

(** What is written is read back, and bytes beside any other field are
    refused. *)
Theorem tx_input_roundtrip (i : SimulationTxInput TxReq) :
  match i with Raw raw => bytes_ok raw | Request _ => True end → deserialize (serialize i) = Ret i.
Proof.
  destruct i as [raw|r]; intros Hb; unfold deserialize, serialize.
  - rewrite object_roundtrip, lookup_singleton_eq, delete_singleton_eq. cbn. by rewrite bytes_roundtrip.
  - destruct (request_fields r) as (m & -> & Hm & Hd). rewrite object_roundtrip, Hm, Hd. done.
Qed.

Theorem raw_tx_stands_alone m raw k :
  m !! "rawTx" = Some raw → k ≠ "rawTx" → is_Some (m !! k) →
  deserialize (json_object m) = Err RawTxCombined (A:=SimulationTxInput TxReq).
Proof.
  intros Hr Hk [v Hv]. unfold deserialize. rewrite object_roundtrip, Hr. cbn.
  rewrite bool_decide_false; [done|]. intros He%(f_equal (lookup k)). by rewrite lookup_delete_ne, Hv in He.
Qed.
End InputProofs.

(** ** Computations that leave the gas alone *)

Section Gas.
Context `{EV : Evm} `{VL : !LruApi (list Address * list VoteAddress)} `{TL : !LruApi Z}.
#[local] Notation ex := (@ex EV VL TL).
Implicit Types (s : @Executor EV VL TL).

Definition keeps_gas {A} (m : ex A) : Prop := ∀ s a s', m s = Ret (a, s') → block_gas_used s' = block_gas_used s.

Lemma keeps_ret {A} (a : A) : keeps_gas (mret a).
Proof. intros s a' s' H. by injection H as _ <-. Qed.
Lemma keeps_lift {A} (c : exec A) : keeps_gas (lift c).
Proof. intros s a s' H. unfold lift in H. destruct c; try discriminate. by injection H as _ <-. Qed.
Lemma keeps_fails {A} e : keeps_gas (fails e : ex A).
Proof. by intros s a s' H. Qed.
Lemma keeps_panics {A} : keeps_gas (panics : ex A).
Proof. by intros s a s' H. Qed.
Lemma keeps_gets {A} (f : _ → A) : keeps_gas (gets f).
Proof. intros s a s' H. by injection H as _ <-. Qed.
Lemma keeps_modify f : (∀ s, block_gas_used (f s) = block_gas_used s) → keeps_gas (modify f).
Proof. intros Hf s a s' H. injection H as _ <-. apply Hf. Qed.
Lemma keeps_bind {A B} (m : ex A) (f : A → ex B) : keeps_gas m → (∀ a, keeps_gas (f a)) → keeps_gas (m ≫= f).
Proof. intros Hm Hf s b s' (a & s1 & H1 & H2)%ex_bind_inv. by rewrite (Hf _ _ _ _ H2), (Hm _ _ _ H1). Qed.
End Gas.

Ltac keep_gas :=
  repeat first
    [ progress (cbn beta iota)
    | apply keeps_bind; [|intros]
    | apply keeps_ret | apply keeps_lift | apply keeps_fails | apply keeps_panics | apply keeps_gets
    | apply keeps_modify; done
    | match goal with
      | |- keeps_gas (match ?x with _ => _ end) => destruct x
      | |- keeps_gas (if ?b then _ else _) => destruct b
      end ].

Lemma patch_completes `{TH : TxHashing} `{EV : !Evm} b t d : completes (patch_before_tx b t d) ∧ completes (patch_after_tx b t d).
Proof.
  assert (Hp : ∀ table, completes (patch_with table t d)).
  { intros table. unfold patch_with. destruct (table_get _ _) as [p|]; [|done]. unfold apply_patch.
    by destruct (basic d _) as [o|]. }
  unfold patch_before_tx, patch_after_tx. split; destruct b; apply Hp.
Qed.

Section Proofs.
Context `{FCA : ForkConditionApi} {CS : Type} `{!BscHardforks CS}.
Context `{SL : Sealable} `{AR : AttestationRlp} `{KE : Keccak} `{VR : VoteRlp} `{BL : Bls}.
Context `{HL : !LruApi Header} `{PL : !LruApi Address} `{RL : Rlp} `{SE : Secp256k1}.
Context `{TH : TxHashing} `{DA : DynAbi} `{AD : AddressDisplay} `{EV : Evm} `{SM : !SimulationEvm EV} `{RA : !RequestApi EV}.
Context `{VL : !LruApi (list Address * list VoteAddress)} `{TL : !LruApi Z}.
Variable self : Parlia CS.
Variable chain_id : Z.
Variable snapshot_by_hash : B256 → option Snapshot.
Variable header_by_hash_from_provider : B256 → option Header.
Variable header_by_number_from_provider : Z → option Header.
Variable reader : HeaderCacheReader.
Variable embedded : string → option Bytecode.
Variable breathe_interval : option Z.
Variable recover_signer : TransactionSigned → option Address.
Variable history_storage : Address * Bytecode.
Variable spurious_dragon : bool.
Variable fuel : nat.
Variable proposers : LruMap Address.
Variable epoch_validators : LruMap (list Address * list VoteAddress).
Variable epoch_turn_lengths : LruMap Z.
Variable block_hash_for_id : BlockId → option (option B256).
Variable evm_env_at : BlockId → option (CfgEnv * BlockEnv).
Variable recovered_block : BlockId → option (option RecoveredBlock).
Variable state_at_block : B256 → option Db.
Variable call_gas_limit : Z.
Variable error_text : BscBlockExecutionError → string.
Variable revert_text : list Z → string.
Variable halt_text : HaltReason → Z → string.
#[local] Notation Executor := (@Executor EV VL TL).
#[local] Notation ex := (@ex EV VL TL).
#[local] Notation Result := (SimulateTransactionAtResult LogData).
Implicit Types (s : Executor) (d : Db) (e : BlockEnv).

#[local] Notation pre_execution := (pre_execution self chain_id snapshot_by_hash header_by_hash_from_provider
  header_by_number_from_provider reader embedded breathe_interval history_storage spurious_dragon fuel proposers).
#[local] Notation executor_new := (executor_new epoch_validators epoch_turn_lengths).
#[local] Notation simulate_request := (simulate_request chain_id error_text revert_text halt_text).
#[local] Notation run_calls := (run_calls chain_id error_text revert_text halt_text).

Lemma keeps_eth_call block to data : keeps_gas (eth_call chain_id block to data : ex _).
Proof. unfold eth_call. keep_gas. Qed.

Lemma keeps_upgrade_each l : keeps_gas (upgrade_each l : ex unit).
Proof. induction l as [|[a [c|]] l IH]; cbn [upgrade_each]; unfold upgrade_system_contract; keep_gas; exact IH. Qed.

Lemma keeps_node_ids block vals : keeps_gas (fetch_node_ids chain_id block vals : ex unit).
Proof.
  intros s a s' H'. unfold fetch_node_ids in H'. destruct (get_node_ids vals) as [to data].
  destruct (eth_call chain_id block to data s) as [[out s1]| | |]; try discriminate; [|by injection H' as _ <-].
  apply bind_Ret_inv in H' as ([u ids] & _ & H'). by injection H' as _ <-.
Qed.

Lemma keeps_validators block n : keeps_gas (get_current_validators self chain_id block n : ex _).
Proof. unfold get_current_validators. keep_gas; apply keeps_eth_call. Qed.

Lemma keeps_election n t p : keeps_gas (election_block self breathe_interval n t p : ex bool).
Proof. unfold election_block. keep_gas. Qed.

(** Before its transactions a block has used no gas. *)
Lemma pre_execution_gas e h s u s' : pre_execution e h s = Ret (u, s') → block_gas_used s' = block_gas_used s.
Proof.
  unfold Simulation.pre_execution. revert s u s'.
  match goal with |- ∀ s u s', ?m s = _ → _ => change (keeps_gas m) end.
  unfold apply_pre_execution_changes, try_update_build_in_system_contract, upgrade_contracts, apply_history_storage_account.
  keep_gas; first [apply keeps_node_ids | apply keeps_validators | apply keeps_election | apply keeps_eth_call
    | apply keeps_upgrade_each].
Qed.

(** ** The gas of a bundle *)

(** A transaction uses at most its gas limit, also with the flags of the
    simulation. *)
Definition gas_bounded : Prop := ∀ flags e d t a r st,
  transact_recovered flags e d t a = Some (r, st) → 0 <= result_gas_used r <= tx_gas_limit (tx t).

Lemma execute_with_result_gas flags e t a s r s' :
  gas_bounded → execute_with_result chain_id flags e t a s = (r, s') →
  0 <= tx_gas_limit (tx t) → 0 <= block_gas_used s → block_gas_used s + tx_gas_limit (tx t) <= U64_MAX →
  block_gas_used s <= block_gas_used s' <= block_gas_used s + tx_gas_limit (tx t).
Proof.
  intros Hg Hx Ht Hs Hm. unfold execute_with_result in Hx.
  destruct (SystemContracts.is_system_transaction _ _ _); [injection Hx as _ <-; cbn; lia|].
  destruct (patch_before_tx _ _ _) as [d0| | |]; [|injection Hx as _ <-; lia..].
  cbv zeta in Hx. cbn [block_gas_used set_db] in Hx. destruct (_ <? _); [injection Hx as _ <-; cbn; lia|].
  destruct (transact_recovered flags e d0 t a) as [[x st]|] eqn:Htx; [|injection Hx as _ <-; cbn; lia].
  pose proof (Hg _ _ _ _ _ _ _ Htx) as Hx0. unfold U64_MAX in Hm.
  rewrite add64_small in Hx by (unfold is_u; lia).
  destruct (patch_after_tx _ _ _); injection Hx as _ <-; cbn; lia.
Qed.

Lemma execute_with_result_completes flags e t a s : completes (execute_with_result chain_id flags e t a s).1.
Proof.
  unfold execute_with_result. destruct (SystemContracts.is_system_transaction _ _ _); [done|].
  pose proof (proj1 (patch_completes (chain_id =? 56) t (db s))) as Hp.
  destruct (patch_before_tx _ _ _) as [d0| | |]; try done. cbv zeta. destruct (_ <? _); [done|].
  destruct (transact_recovered flags e d0 t a) as [[x st]|]; [|done].
  match goal with |- context [patch_after_tx ?b t ?d] => pose proof (proj2 (patch_completes b t d)) as Hq;
    destruct (patch_after_tx b t d); try done end.
Qed.

Definition limit_of (default_gas : Z) (c : TransactionRequest) : Z := default default_gas (request_gas c).
Definition sum (l : list Z) : Z := foldr Z.add 0 l.

Lemma sum_cons x l : sum (x :: l) = x + sum l.
Proof. done. Qed.

Lemma sum_nonneg l : Forall (Z.le 0) l → 0 <= sum l.
Proof. induction 1 as [|x l Hx _ IH]; [done|]. rewrite sum_cons. lia. Qed.

Lemma saturating_sum_exact l : Forall (Z.le 0) l → sum l <= U64_MAX → saturating_sum l = sum l.
Proof.
  unfold saturating_sum. intros Hl. enough (Hgen : ∀ a, 0 <= a → a + sum l <= U64_MAX →
    foldl (λ a b, Z.min U64_MAX (a + b)) a l = a + sum l) by (intros Hs; rewrite Hgen; lia).
  induction Hl as [|x l Hx Hl IH]; intros a Ha Hs; [cbn; lia|].
  rewrite sum_cons in *. pose proof (sum_nonneg l Hl). cbn [foldl].
  rewrite Z.min_r by lia. rewrite IH; lia.
Qed.

Lemma sum_limits g calls :
  sum (limit_of g <$> calls) = sum (specified_gas calls) + zlen (filter (λ c, request_gas c = None) calls) * g.
Proof.
  induction calls as [|c calls IH]; [done|]. unfold specified_gas in *. rewrite filter_cons.
  rewrite fmap_cons, sum_cons. cbn [omap list_omap].
  rewrite IH. unfold limit_of. destruct (request_gas c) as [x|] eqn:Hc; cbn [default from_option].
  - rewrite decide_False by congruence. rewrite sum_cons. unfold id. lia.
  - rewrite decide_True by done. rewrite zlen_cons. lia.
Qed.

Context {RLaws : RequestLaws EV RA}.

Lemma specified_nonneg calls : Forall (Z.le 0) (specified_gas calls).
Proof.
  induction calls as [|c calls IH]; [constructor|]. cbn. destruct (request_gas c) as [x|] eqn:Hc; [|done].
  constructor; [|done]. pose proof (request_gas_u64 _ _ Hc) as []. lia.
Qed.

Lemma limits_nonneg g calls : 0 <= g → Forall (Z.le 0) (limit_of g <$> calls).
Proof.
  intros Hg. apply list.Forall_fmap, list.Forall_true. intros c. unfold limit_of. cbn.
  destruct (request_gas c) as [x|] eqn:Hc; [|done]. pose proof (request_gas_u64 _ _ Hc) as []. cbn. lia.
Qed.

(** The gas that was not asked for is shared evenly, so all calls together
    fit into the limit of the simulated block. *)
Lemma limits_fit block_limit calls :
  0 <= block_limit → sum (specified_gas calls) <= U64_MAX →
  let limit := lenient_block_gas_limit block_limit calls in
  0 <= default_gas_limit limit calls ∧ sum (limit_of (default_gas_limit limit calls) <$> calls) <= limit.
Proof.
  intros Hb Hs limit. pose proof (sum_nonneg _ (specified_nonneg calls)) as H0.
  assert (Hl : limit = Z.max block_limit (sum (specified_gas calls)))
    by (unfold limit, lenient_block_gas_limit; by rewrite saturating_sum_exact by (done || apply specified_nonneg)).
  rewrite sum_limits. unfold default_gas_limit. rewrite saturating_sum_exact by (done || apply specified_nonneg).
  set (n := zlen (filter _ calls)). assert (Hn : 0 <= n) by apply zlen_nonneg.
  destruct (Z.ltb_spec 0 n) as [Hn'|]; [|split; [done|lia]].
  pose proof (Z.mul_div_le (Z.max 0 (limit - sum (specified_gas calls))) n Hn').
  split; [apply Z.div_pos; lia|lia].
Qed.

Lemma simulate_request_ok flags e h missing index g call s :
  gas_bounded → 0 <= g → 0 <= block_gas_used s → block_gas_used s + limit_of g call <= U64_MAX →
  ∃ r s', simulate_request flags e h missing index g call s = Ret (r, s')
  ∧ block_gas_used s <= block_gas_used s' <= block_gas_used s + limit_of g call.
Proof.
  intros Hb Hg Hs Hm. unfold Simulation.simulate_request.
  pose proof (Forall_inv (limits_nonneg g [call] Hg)) as Hl. cbn in Hl.
  destruct (resolve_transaction call g (env_basefee e) chain_id (db s)) as [[t a]|msg] eqn:Hr; [|eexists _, _; split; [done|lia]].
  pose proof (resolve_gas _ _ _ _ _ _ _ Hr) as Ht. fold (limit_of g call) in Ht.
  pose proof (execute_with_result_completes flags e t a s) as Hc.
  destruct (execute_with_result chain_id flags e t a s) as [r s'] eqn:Hx.
  pose proof (execute_with_result_gas flags e t a s r s' Hb Hx ltac:(lia) Hs ltac:(lia)) as Hgas.
  rewrite Ht in Hgas. destruct r as [[x [y|]]| | |]; try done; eexists _, _; (split; [done|lia]).
Qed.

Lemma run_calls_ok e h g index calls s limit :
  gas_bounded → 0 <= g → 0 <= block_gas_used s → limit <= U64_MAX →
  block_gas_used s + sum (limit_of g <$> calls) <= limit →
  ∃ outs s', run_calls e h g index calls s = Ret (outs, s') ∧ length outs = length calls
  ∧ ∀ i call, calls !! i = Some call → ∃ before si out si',
      run_calls e h g index (take i calls) s = Ret (before, si)
      ∧ outs !! i = Some out
      ∧ simulate_request latest_flags e h "missing execution result for bundle transaction" (index + Z.of_nat i) g call si
        = Ret (out, si')
      ∧ block_gas_used si + limit_of g call <= limit.
Proof.
  intros Hb Hg Hs Hl Hsum. revert index s Hs Hsum. induction calls as [|c calls IH]; intros index s Hs Hsum.
  { exists [], s. by split_and!. }
  rewrite fmap_cons, sum_cons in Hsum. pose proof (sum_nonneg _ (limits_nonneg g calls Hg)) as H0.
  destruct (simulate_request_ok latest_flags e h "missing execution result for bundle transaction" index g c s Hb Hg Hs
    ltac:(lia)) as (r & s1 & Hr & Hgas).
  destruct (IH (index + 1) s1 ltac:(lia) ltac:(lia)) as (outs & s' & Hrun & Hlen & Hi).
  exists (r :: outs), s'. cbn [Simulation.run_calls]. rewrite Hr. cbn [mbind comp_bind]. rewrite Hrun. cbn [mbind comp_bind].
  split; [done|]. split; [cbn; congruence|]. intros [|i] call Hc.
  - injection Hc as <-. exists [], s, r, s1. rewrite Z.add_0_r. split_and!; (done || lia).
  - destruct (Hi i call Hc) as (before & si & out & si' & Hbef & Hout & Hreq & Hsi). exists (r :: before), si, out, si'.
    cbn [take Simulation.run_calls]. rewrite Hr. cbn [mbind comp_bind]. rewrite Hbef.
    replace (index + Z.of_nat (S i)) with (index + 1 + Z.of_nat i) by lia. by split_and!.
Qed.

Lemma mapM_comp_length {E A B} (f : A → comp E B) l k : mapM f l = Ret k → length k = length l.
Proof.
  revert k. induction l as [|x l IH]; intros k Hk; [by injection Hk as <-|]. cbn in Hk.
  apply bind_Ret_inv in Hk as (y & _ & Hk). apply bind_Ret_inv in Hk as (k' & Hk' & [= <-]). cbn. by rewrite (IH k').
Qed.

#[local] Notation simulate_at_latest_state := (simulate_at_latest_state self chain_id snapshot_by_hash
  header_by_hash_from_provider header_by_number_from_provider reader embedded breathe_interval recover_signer history_storage
  spurious_dragon fuel proposers epoch_validators epoch_turn_lengths block_hash_for_id evm_env_at recovered_block
  state_at_block error_text revert_text halt_text).
#[local] Notation simulate_in_block := (simulate_in_block self chain_id snapshot_by_hash
  header_by_hash_from_provider header_by_number_from_provider reader embedded breathe_interval history_storage
  spurious_dragon fuel proposers epoch_validators epoch_turn_lengths call_gas_limit error_text revert_text halt_text).

(** Unless the gas the calls of a bundle ask for overflows 64 bits, the
    bundle is answered without a panic, with one result for each call, in order;
    each call runs on the state the calls before it leave, and its gas limit,
    the one it asks for or its share of what is left, is still available in the
    simulated block, so none is refused for the gas of the others. *)
Theorem latest_bundle_fits bundle calls hash cfg e block d u s :
  gas_bounded →
  mapM (decode_candidate_transaction recover_signer) bundle = Ret calls →
  block_hash_for_id IdLatest = Some (Some hash) → evm_env_at (IdHash hash) = Some (cfg, e) →
  recovered_block (IdHash hash) = Some (Some block) → state_at_block hash = Some d →
  is_u 64 (gas_limit (recovered_header block)) → sum (specified_gas calls) <= U64_MAX →
  let h := recovered_header block in
  let limit := lenient_block_gas_limit (gas_limit h) calls in
  let g := default_gas_limit limit calls in
  let e := set_env_gas_limit limit e in
  pre_execution e h (executor_new d) = Ret (u, s) →
  ∃ outs, simulate_at_latest_state bundle = Ret outs ∧ length outs = length bundle
  ∧ ∀ i call, calls !! i = Some call → ∃ before si out si',
      run_calls e h g 0 (take i calls) s = Ret (before, si)
      ∧ outs !! i = Some out
      ∧ simulate_request latest_flags e h "missing execution result for bundle transaction" (Z.of_nat i) g call si
        = Ret (out, si')
      ∧ ∀ t a, resolve_transaction call g (env_basefee e) chain_id (db si) = inl (t, a) →
          tx_gas_limit (tx t) <= block_gas_limit e - block_gas_used si.
Proof.
  intros Hb Hdec Hhash Henv Hblock Hstate Hu Hsum h limit g e' Hpre.
  destruct Hu as [Hu0 Hu1]. fold h in Hu0, Hu1.
  destruct (limits_fit (gas_limit h) calls Hu0 Hsum) as [Hg Hfit]. fold limit in Hg, Hfit. fold g in Hg, Hfit.
  assert (Hlim : limit <= U64_MAX).
  { unfold limit, lenient_block_gas_limit. rewrite saturating_sum_exact by (done || apply specified_nonneg).
    unfold U64_MAX in *. lia. }
  pose proof (pre_execution_gas e' h _ _ _ Hpre) as H0. cbn in H0.
  destruct (run_calls_ok e' h g 0 calls s limit Hb Hg ltac:(lia) Hlim ltac:(lia)) as (outs & s' & Hrun & Hlen & Hi).
  exists outs. split; [|split].
  - unfold Simulation.simulate_at_latest_state. rewrite Hdec. cbn [mbind comp_bind]. rewrite Hhash. cbn [mbind comp_bind].
    rewrite Henv. cbn [ok_or mbind comp_bind]. rewrite Hblock. cbn [ok_or mbind comp_bind].
    rewrite Hstate. cbn [ok_or mbind comp_bind]. fold h. fold limit. fold g. fold e'. rewrite Hpre. cbn [map_err mbind comp_bind].
    rewrite Hrun. done.
  - by rewrite Hlen, (mapM_comp_length _ _ _ Hdec).
  - intros i call Hc. destruct (Hi i call Hc) as (before & si & out & si' & Hbef & Hout & Hreq & Hsi).
    exists before, si, out, si'. rewrite Z.add_0_l in Hreq. split_and!; try done. intros t a Hr.
    apply resolve_gas in Hr. unfold limit_of in Hsi. cbn [block_gas_limit set_env_gas_limit e']. lia.
Qed.

(** ** The state inside a block *)

(** The transactions of a block as the node executes them. *)
Fixpoint execute_all (block : BlockEnv) (txs : list (TransactionSigned * Address)) (s : Executor) : exec (unit * Executor) :=
  match txs with
  | [] => Ret (tt, s)
  | (t, a) :: txs => '(_, s) ← execute_transaction chain_id block t a s; execute_all block txs s
  end.

(** The transaction does not tell the simulation from the block: it does not
    look at the gas limit of the block, which the simulation raises. *)
Definition plain (e : BlockEnv) (p : TransactionSigned * Address) : Prop :=
  ∀ d, transact_recovered at_flags (set_env_gas_limit U64_MAX e) d p.1 p.2 = transact_tx e d p.1.

Lemma execute_plain e t a s g s' :
  gas_bounded → plain e (t, a) → is_u 64 (block_gas_limit e) → 0 <= block_gas_used s <= block_gas_limit e →
  execute_transaction chain_id e t a s = Ret (g, s') →
  (∃ r, execute_with_result chain_id at_flags (set_env_gas_limit U64_MAX e) t a s = (Ret (g, r), s'))
  ∧ 0 <= g ∧ block_gas_used s' = block_gas_used s + g ∧ block_gas_used s' <= block_gas_limit e.
Proof.
  intros Hb Hp [Hu0 Hu1] Hs Hx. unfold execute_transaction in Hx. unfold execute_with_result.
  cbn [block_beneficiary set_env_gas_limit block_gas_limit block_beneficiary block_gas_limit] in *.
  destruct (SystemContracts.is_system_transaction _ _ _).
  - apply ex_bind_inv in Hx as (txs & s1 & [= <- <-] & Hx). apply ex_bind_inv in Hx as (asm & s1 & [= <- <-] & Hx).
    apply ex_bind_inv in Hx as (v & s1 & [= _ <-] & [= <- <-]). split; [by eexists|]. cbn. lia.
  - apply ex_bind_inv in Hx as (d0 & s1 & [= <- <-] & Hx). apply ex_bind_inv in Hx as (d1 & s1 & H1 & Hx).
    unfold lift in H1. destruct (patch_before_tx _ _ _) as [d2| | |]; try discriminate. injection H1 as <- <-.
    apply ex_bind_inv in Hx as (gas & s1 & [= <- <-] & Hx). cbv zeta in Hx |- *. cbn [block_gas_used set_db].
    unfold U64_MAX in *. rewrite sub64_small in Hx by (unfold is_u; lia). rewrite sub64_small by (unfold is_u; lia).
    destruct (Z.ltb_spec (block_gas_limit e - block_gas_used s) (tx_gas_limit (tx t))) as [|Hfit]; [discriminate|].
    rewrite (proj2 (Z.ltb_ge _ _)) by lia.
    apply ex_bind_inv in Hx as ([r st] & s1 & H1 & Hx). unfold lift in H1.
    pose proof (Hp d2) as Hpd. cbn [fst snd] in Hpd. unfold U64_MAX in Hpd. rewrite Hpd.
    destruct (transact_tx e d2 t) as [[r' st']|]; [|discriminate]. injection H1 as <- <- <-.
    pose proof (Hb _ _ _ _ _ _ _ Hpd) as Hg.
    apply ex_bind_inv in Hx as (v & s1 & [= _ <-] & Hx). cbn [db push_receipt].
    apply ex_bind_inv in Hx as (d3 & s1 & H1 & Hx). unfold lift in H1.
    destruct (patch_after_tx _ _ _) as [d4| | |]; try discriminate. injection H1 as <- <-.
    apply ex_bind_inv in Hx as (v' & s1 & [= _ <-] & [= <- <-]). split; [by eexists|].
    cbn. rewrite add64_small by (unfold is_u; lia). lia.
Qed.

Lemma prefix_plain e txs gas s si :
  gas_bounded → Forall (plain e) txs → is_u 64 (block_gas_limit e) → 0 <= block_gas_used s <= block_gas_limit e →
  gas = block_gas_used s → execute_all e txs s = Ret (tt, si) →
  execute_prefix chain_id (set_env_gas_limit U64_MAX e) txs gas s = Ret (block_gas_used si, si).
Proof.
  intros Hb Hp Hu. revert gas s. induction Hp as [|[t a] txs Ht _ IH]; intros gas s Hs -> Hx; [by injection Hx as <-|].
  cbn [execute_all] in Hx. apply bind_Ret_inv in Hx as ([g s1] & H1 & Hx).
  destruct (execute_plain e t a s g s1 Hb Ht Hu Hs H1) as ([r Hr] & Hg & Hg1 & Hg2).
  cbn [execute_prefix]. rewrite Hr. cbn [mbind comp_bind]. apply IH; [lia| |done].
  rewrite Hg1, Z.min_r; [done|]. destruct Hu. unfold U64_MAX. lia.
Qed.

(** [eth_simulateTransactionAt] at index [i] runs the request on the
    state and the gas that the executor of the block itself reaches after the
    first [i] transactions, unless one of these looks at the gas limit of the
    block; a request without a gas limit gets what the block has left, up to
    the limit for calls. *)
Theorem simulated_on_block_state e block d i request u s0 si :
  gas_bounded → is_u 64 (block_gas_limit e) →
  Forall (plain e) (take i (transactions_recovered block)) →
  let h := recovered_header block in
  pre_execution (set_env_gas_limit U64_MAX e) h (executor_new d) = Ret (u, s0) →
  execute_all e (take i (transactions_recovered block)) s0 = Ret (tt, si) →
  let left := Z.max 0 (gas_limit h - block_gas_used si) in
  simulate_in_block e block i request d
  = '(result, _) ← simulate_request at_flags (set_env_gas_limit U64_MAX e) h
                     "missing execution result for candidate transaction" (Z.of_nat i)
                     (if 0 <? call_gas_limit then Z.min left call_gas_limit else left) request si; Ret result.
Proof.
  intros Hb Hu Hp h Hpre Hall left. unfold Simulation.simulate_in_block. fold h. rewrite Hpre. cbn [map_err mbind comp_bind].
  pose proof (pre_execution_gas _ _ _ _ _ Hpre) as H0. cbn in H0.
  rewrite (prefix_plain e _ 0 s0 si Hb Hp Hu); [done|destruct Hu; lia|done|done].
Qed.

(** System transactions of the block are set aside, not executed: simulating
    behind them gives the state before them. *)
Theorem system_txs_set_aside e txs gas s :
  0 <= gas <= U64_MAX →
  Forall (λ p, is_system_transaction (tx p.1) p.2 (block_beneficiary e) = true) txs →
  execute_prefix chain_id e txs gas s
  = Ret (gas, set_txs (system_txs s ++ txs.*1) (assembled_system_txs s) s).
Proof.
  intros Hg Hs. revert s. induction Hs as [|[t a] txs Ht _ IH]; intros s; cbn [execute_prefix fmap list_fmap fst].
  - rewrite app_nil_r. by destruct s.
  - unfold execute_with_result. cbn [fst snd] in Ht. rewrite Ht. cbn [mbind comp_bind].
    rewrite Z.add_0_r, Z.min_r by lia. rewrite IH. cbn. by rewrite <- app_assoc.
Qed.

End Proofs.

(** * Witnesses *)

Module SimulationExample.
Import RefHardforks RefLibraries RefMachine.
#[local] Existing Instance HeaderExtra.ref_hash.
#[local] Ltac ev := vm_compute; first [reflexivity | discriminate].

#[export] Instance no_abi : DynAbi := {| abi_encode_input _ _ _ := []; abi_decode_output _ _ _ := None |}.
#[export] Instance field_hash : TxHashing := {| signature_hash t := tx_value t; trie_hash t := tx_value (tx t) |}.
#[export] Instance no_display : AddressDisplay := λ _, "".
#[export] Instance example_machine : Evm := machine (λ _ _, []).

(** A transfer by a given sender. *)
#[export] Instance example_simulation : SimulationEvm example_machine := {|
  LogData := unit; HaltReason := Empty_set;
  transact_recovered _ _ d t a :=
    if tx_gas_limit (tx t) <? 21000 then None
    else match tx_to (tx t) with
         | Some to => d' ← call a to (tx_value (tx t)) d; Some (([] : list Z), d')
         | None => None
         end;
  view_result r := ExecSuccess r [];
|}.

Record TransferRequest := { from : Address; to : Address; value : Z; gas : option Z }.
Definition transfer (r : TransferRequest) (limit : Z) : TransactionSigned :=
  {| tx := {| tx_type := Legacy; tx_chain_id := Some 97; tx_nonce := 0; gas_price := 0; tx_gas_limit := limit;
              tx_to := Some (to r); tx_value := value r; tx_input := []; tx_more := [] |};
     tx_signature := {| sig_r := 0; sig_s := 0; odd_y_parity := false |} |}.
#[export] Instance example_requests : RequestApi example_machine := {|
  TransactionRequest := TransferRequest;
  request_gas r := wrapu 64 <$> gas r;
  from_recovered_transaction t a :=
    {| from := a; to := default 0 (tx_to (tx t)); value := tx_value (tx t); gas := Some (tx_gas_limit (tx t)) |};
  decode_2718_exact _ := None;
  resolve_transaction r g _ _ d :=
    if value r <? 0 then inr "negative" else inl (transfer r (default g (wrapu 64 <$> gas r)), from r);
|}.
#[export] Instance example_requests_laws : RequestLaws example_machine example_requests.
Proof.
  split; cbn.
  - intros r g fee id d t a. case_match; [done|]. by intros [= <- <-].
  - intros r g H0. destruct (gas r) as [x|]; [|done]. injection H0 as <-. by apply wrapu_is_u.
Qed.

Lemma example_bounded : gas_bounded (EV:=example_machine).
Proof.
  intros flags e d t a r st. cbn. destruct (Z.ltb_spec (tx_gas_limit (tx t)) 21000); [done|]. lia.
Qed.

(** The header of [Mining.v], which the verifier accepts, its block with one
    transfer, and a rich account. *)
Definition mined_header : Header :=
  match finalize_new_header testnet_parlia 97 snapshots no_headers no_validators no_numbers example_pool
          (Some miner_key) miner_snap Attestation.parent_header built with Ret h => h | _ => built end.
Definition simulation_snapshots (k : B256) : option Snapshot :=
  if k =? hash_slow Attestation.parent_header then Some miner_snap else snapshots k.
Definition simulation_headers : HeaderCacheReader := {|
  blocknumber_to_header := (∅ : gmap Z Header);
  blockhash_to_header := (<[hash_slow Attestation.parent_header := Attestation.parent_header]>
                          (<[hash_slow justified_header := justified_header]> ∅) : gmap Z Header) |}.
Definition example_env : BlockEnv :=
  {| block_number := 60000001; block_beneficiary := beneficiary mined_header; block_timestamp := timestamp mined_header;
     env_difficulty := 0; env_prevrandao := None; block_gas_limit := gas_limit mined_header; env_basefee := 0;
     env_blob_excess_gas_and_price := None |}.
Definition rich : @Db example_machine :=
  {| accounts := {[ 7 := add_balance 1000 AccountInfo_default; 0 := add_balance 1000 AccountInfo_default ]}; slots := ∅ |}.
Definition example_block : RecoveredBlock :=
  {| recovered_header := mined_header;
     transactions_recovered := [(transfer {| from := 0; to := 8; value := 5; gas := None |} 21000, 0)] |}.
Definition ask (a b v : Z) (g : option Z) : @TransactionRequest _ example_requests := {| from := a; to := b; value := v; gas := g |}.
Definition example_cfg : CfgEnv := {| cfg_chain_id := 97; cfg_spec := Maxwell; cfg_max_blobs_per_tx := None |}.
Definition latest_hash : B256 := 77.
Definition hash_for_id (id : BlockId) : option (option B256) := Some (Some latest_hash).
Definition env_at (id : BlockId) : option (CfgEnv * BlockEnv) := Some (example_cfg, example_env).
Definition block_at (id : BlockId) : option (option RecoveredBlock) := Some (Some example_block).
Definition state_at (k : B256) : option (@Db example_machine) := Some rich.
Definition no_text (e : BscBlockExecutionError) : string := "error".
Definition no_revert (l : list Z) : string := "execution reverted: ".
Definition no_halt (r : @HaltReason _ example_simulation) (g : Z) : string := "halt".
Definition no_sender (t : TransactionSigned) : option Address := None.

Definition before (e : BlockEnv) : exec (unit * Executor) :=
  pre_execution testnet_parlia 97 simulation_snapshots no_headers no_headers simulation_headers (λ _, None) None (7, [])
    true 10 no_numbers e mined_header (executor_new no_validators no_numbers rich).
Definition state_of {A} (c : exec (A * Executor)) : Executor :=
  match c with Ret (_, s) => s | _ => executor_new no_validators no_numbers rich end.
Definition ready {A} (c : exec (A * Executor)) : bool := match c with Ret _ => true | _ => false end.
Lemma ready_ok (c : exec (unit * Executor)) : ready c = true → c = Ret (tt, state_of c).
Proof. by destruct c as [[[] s]| | |]. Qed.

Definition example_bundle : list (SimulationTxInput (@TransactionRequest _ example_requests)) :=
  [Request (ask 7 8 5 None); Request (ask 7 9 3 (Some 50000)); Request (ask 7 9 (-1) None)].
Definition example_calls : list (@TransactionRequest _ example_requests) := [ask 7 8 5 None; ask 7 9 3 (Some 50000); ask 7 9 (-1) None].
Definition latest : comp RpcError (list (SimulateTransactionAtResult (@LogData _ example_simulation))) :=
  simulate_at_latest_state testnet_parlia 97 simulation_snapshots no_headers no_headers simulation_headers (λ _, None)
    None no_sender (7, []) true 10 no_numbers no_validators no_numbers hash_for_id env_at block_at state_at no_text
    no_revert no_halt example_bundle.

Lemma latest_bundle_fits_witness : ∃ outs, latest = Ret outs ∧ length outs = 3%nat.
Proof.
  destruct (latest_bundle_fits testnet_parlia 97 simulation_snapshots no_headers no_headers simulation_headers (λ _, None)
    None no_sender (7, []) true 10 no_numbers no_validators no_numbers hash_for_id env_at block_at state_at no_text
    no_revert no_halt example_bundle example_calls latest_hash example_cfg example_env example_block rich tt
    (state_of (before (set_env_gas_limit (lenient_block_gas_limit (gas_limit mined_header) example_calls) example_env))))
    as (outs & Hrun & Hlen & _).
  - exact example_bounded.
  - reflexivity.
  - reflexivity.
  - reflexivity.
  - reflexivity.
  - reflexivity.
  - split; ev.
  - ev.
  - apply ready_ok. vm_compute. reflexivity.
  - exists outs. split; [exact Hrun|exact Hlen].
Defined.

Definition summary {A} (c : comp RpcError (list (SimulateTransactionAtResult A)))
    : option (list (SimulateTransactionAtStatus * Z * option string)) :=
  match c with Ret l => Some (map (λ r, (status r, gas_used r, error r)) l) | _ => None end.
Example latest_results :
  summary latest = Some [(Success, 21000, None); (Success, 21000, None); (Halt, 0, Some "negative")].
Proof. vm_compute. reflexivity. Qed.

(** The request behind the only transaction of the block. *)
Definition start : Executor := state_of (before (set_env_gas_limit U64_MAX example_env)).
Definition ran : Executor :=
  state_of (execute_all 97 example_env (take 1 (transactions_recovered example_block)) start).

Definition gas_left : Z := Z.max 0 (gas_limit mined_header - block_gas_used ran).

Lemma simulated_on_block_state_witness :
  simulate_in_block testnet_parlia 97 simulation_snapshots no_headers no_headers simulation_headers (λ _, None)
    None (7, []) true 10 no_numbers no_validators no_numbers 0 no_text no_revert no_halt example_env example_block 1%nat
    (ask 8 9 5 None) rich
  = '(result, _) ← simulate_request 97 no_text no_revert no_halt at_flags (set_env_gas_limit U64_MAX example_env)
      mined_header "missing execution result for candidate transaction" 1
      (if 0 <? 0 then Z.min gas_left 0 else gas_left) (ask 8 9 5 None) ran; Ret result.
Proof.
  refine (simulated_on_block_state testnet_parlia 97 simulation_snapshots no_headers no_headers simulation_headers (λ _, None)
    None (7, []) true 10 no_numbers no_validators no_numbers 0 no_text no_revert no_halt example_env example_block rich 1
    (ask 8 9 5 None) tt start ran example_bounded _ _ _ _).
  - split; ev.
  - repeat constructor.
  - apply ready_ok. vm_compute. reflexivity.
  - apply ready_ok. vm_compute. reflexivity.
Defined.
End SimulationExample.
